(** * keirin: scoring, classification, ticket generation and settlement

    A shallow embedding of the core of [logic_v2.py]:

    - [calculate_classic_score], [apply_v3_logic], [calculate_ai_score]
      (the Rider Scoring Engine),
    - [generate_betting_strategy] (the Race Classifier and the Ticket
      Generator),
    - [analyze_prediction_history] (the Settlement Engine),
    - [generate_classic_strategy] and [generate_bonus_strategy] (the two
      other ticket generators), [get_line_partner_live], [lines_to_str]
      and [calculate_advanced_metrics],
    - the statistics that [app_polars.py] recalculates for its history
      page.

    Modelling conventions.

    - A Python [str] is a list of Unicode code points ([pystr]); literals
      are written as in the source and decoded from UTF-8 by [py].
    - A Python [float] is a rational ([Q]): every constant of the source is
      a short decimal and every comparison is modelled exactly.
    - A pandas frame is a list of row records together with the set of
      columns that are present; a cell that [pd.to_numeric(...,
      errors='coerce')] turns into NaN is [None].
    - A function that can raise returns a [Result].
    - [db_utils.VELODROME_SPECS] is not part of the sources at hand: it is a
      parameter of the model, a table from the velodrome name to
      (straight length, banking angle, lap length).
    - The iteration order of a Python [set] is not specified: it is a
      parameter [set_order] of the settlement model.
    - Sorting keeps rows with equal keys in the order of the frame. *)

From Stdlib Require Import ZArith NArith QArith Qabs Lqa Lia List Bool String Ascii Sorted.
From Stdlib Require Import DecimalZ DecimalPos DecimalN DecimalFacts.
From stdpp Require Import base decidable list gmap.
Import ListNotations.

Set Default Proof Using "Type".

(** ** Results of functions that may raise *)

Inductive PyExn : Type :=
| KeyError
| TypeError
| ValueError
| IndexError
| UnboundLocalError.

Inductive Result (A : Type) : Type :=
| Return (a : A)
| Raise (e : PyExn).

Arguments Return {A} a.
Arguments Raise {A} e.

#[global] Instance Result_ret : MRet Result := fun A a => Return a.

#[global] Instance Result_bind : MBind Result := fun A B k m =>
  match m with
  | Return a => k a
  | Raise e => Raise e
  end.

(** ** Python strings *)

Module PyStr.

Definition pystr : Type := list N.

(** UTF-8 decoding of a source literal into code points. *)
Fixpoint utf8_decode (bs : list N) : pystr :=
  match bs with
  | [] => []
  | b :: rest =>
      if (b <? 128)%N then b :: utf8_decode rest
      else if (b <? 224)%N then
        match rest with
        | b1 :: rest' =>
            ((b - 192) * 64 + (b1 - 128))%N :: utf8_decode rest'
        | _ => []
        end
      else if (b <? 240)%N then
        match rest with
        | b1 :: b2 :: rest' =>
            ((b - 224) * 4096 + (b1 - 128) * 64 + (b2 - 128))%N
              :: utf8_decode rest'
        | _ => []
        end
      else
        match rest with
        | b1 :: b2 :: b3 :: rest' =>
            ((b - 240) * 262144 + (b1 - 128) * 4096
             + (b2 - 128) * 64 + (b3 - 128))%N :: utf8_decode rest'
        | _ => []
        end
  end.

Definition py (s : string) : pystr :=
  utf8_decode (map N_of_ascii (list_ascii_of_string s)).

Definition eqb (a b : pystr) : bool := bool_decide (a = b).

(** [str.isspace] on one code point. *)
Definition isspace (c : N) : bool :=
  ((9 <=? c) && (c <=? 13) || (28 <=? c) && (c <=? 32)
   || (c =? 133) || (c =? 160) || (c =? 5760)
   || (8192 <=? c) && (c <=? 8202) || (c =? 8232) || (c =? 8233)
   || (c =? 8239) || (c =? 8287) || (c =? 12288))%N.

(** [str.isdigit] and [\d], restricted to the ASCII digits: the strings
    this model parses are produced from integers by [str_of_Z] or come
    from line compositions written with ASCII digits. *)
Definition isdigit (c : N) : bool := ((48 <=? c) && (c <=? 57))%N.

Fixpoint lstrip (s : pystr) : pystr :=
  match s with
  | [] => []
  | c :: r => if isspace c then lstrip r else s
  end.

Definition rstrip (s : pystr) : pystr := rev (lstrip (rev s)).

(** [s.strip()] *)
Definition strip (s : pystr) : pystr := rstrip (lstrip s).

(** [s.split(sep)] for a separator of one code point. *)
Fixpoint split_chr (sep : N) (s : pystr) : list pystr :=
  match s with
  | [] => [[]]
  | c :: r =>
      if (c =? sep)%N then [] :: split_chr sep r
      else match split_chr sep r with
           | h :: t => (c :: h) :: t
           | [] => [[c]]
           end
  end.

(** [s.split()]: maximal runs of non-whitespace. *)
Fixpoint split_ws_aux (cur : pystr) (s : pystr) : list pystr :=
  match s with
  | [] => match cur with [] => [] | _ => [rev cur] end
  | c :: r =>
      if isspace c then
        match cur with
        | [] => split_ws_aux [] r
        | _ => rev cur :: split_ws_aux [] r
        end
      else split_ws_aux (c :: cur) r
  end.

Definition split_ws (s : pystr) : list pystr := split_ws_aux [] s.

Fixpoint startswith (p s : pystr) : bool :=
  match p, s with
  | [], _ => true
  | _ :: _, [] => false
  | a :: p', b :: s' => (a =? b)%N && startswith p' s'
  end.

(** [needle in hay] *)
Fixpoint contains (needle hay : pystr) : bool :=
  startswith needle hay
  || match hay with
     | [] => false
     | _ :: r => contains needle r
     end.

(** [sep.join(parts)] *)
Fixpoint join (sep : pystr) (parts : list pystr) : pystr :=
  match parts with
  | [] => []
  | [p] => p
  | p :: rest => p ++ sep ++ join sep rest
  end.

(** [s.replace(c, '')] for one code point [c]. *)
Definition remove_chr (c : N) (s : pystr) : pystr :=
  List.filter (fun x => negb (x =? c)%N) s.

(** [l[-1]] of a non-empty list. *)
Definition last_part (l : list pystr) : pystr := List.last l [].

Fixpoint uint_chars (d : Decimal.uint) : pystr :=
  match d with
  | Decimal.Nil => []
  | Decimal.D0 d => 48%N :: uint_chars d
  | Decimal.D1 d => 49%N :: uint_chars d
  | Decimal.D2 d => 50%N :: uint_chars d
  | Decimal.D3 d => 51%N :: uint_chars d
  | Decimal.D4 d => 52%N :: uint_chars d
  | Decimal.D5 d => 53%N :: uint_chars d
  | Decimal.D6 d => 54%N :: uint_chars d
  | Decimal.D7 d => 55%N :: uint_chars d
  | Decimal.D8 d => 56%N :: uint_chars d
  | Decimal.D9 d => 57%N :: uint_chars d
  end.

(** [str(n)] of an [int]. *)
Definition str_of_Z (z : Z) : pystr :=
  match Z.to_int z with
  | Decimal.Pos d => uint_chars d
  | Decimal.Neg d => 45%N :: uint_chars d
  end.

Fixpoint chars_uint (s : pystr) : Decimal.uint :=
  match s with
  | [] => Decimal.Nil
  | c :: r =>
      let d := chars_uint r in
      match (c - 48)%N with
      | 0%N => Decimal.D0 d
      | 1%N => Decimal.D1 d
      | 2%N => Decimal.D2 d
      | 3%N => Decimal.D3 d
      | 4%N => Decimal.D4 d
      | 5%N => Decimal.D5 d
      | 6%N => Decimal.D6 d
      | 7%N => Decimal.D7 d
      | 8%N => Decimal.D8 d
      | _ => Decimal.D9 d
      end
  end.

(** [int(s)] of a non-empty string of ASCII digits. *)
Definition int_of_digits (s : pystr) : Z := Z.of_uint (chars_uint s).

Fixpoint take_digits (s : pystr) : pystr :=
  match s with
  | [] => []
  | c :: r => if isdigit c then c :: take_digits r else []
  end.

(** [re.findall(r'(\d+)', p)[0]], [None] when there is no match. *)
Fixpoint first_digits (s : pystr) : option pystr :=
  match s with
  | [] => None
  | c :: r => if isdigit c then Some (c :: take_digits r) else first_digits r
  end.

End PyStr.

Import PyStr.

(** ** Rationals as floats: boolean comparisons *)

Definition Qleb (a b : Q) : bool := Qle_bool a b.
Definition Qltb (a b : Q) : bool := negb (Qle_bool b a).
Definition Qeqb (a b : Q) : bool := Qeq_bool a b.

(** [max] of a column, [0] on the empty column (never used there). *)
Definition Qmax (a b : Q) : Q := if Qleb a b then b else a.

Definition Qmax_list (l : list Q) : Q :=
  match l with
  | [] => 0%Q
  | x :: r => fold_left Qmax r x
  end.

(** A stable sort, descending by a strict order [gt]: the model of
    [sorted(..., reverse=True)] and of [sort_values(ascending=False)]. *)
Section Sort.
Context {A : Type} (gt : A -> A -> bool).

Fixpoint insert_desc (x : A) (l : list A) : list A :=
  match l with
  | [] => [x]
  | y :: r => if gt y x then y :: insert_desc x r else x :: y :: r
  end.

Definition sort_desc (l : list A) : list A := fold_right insert_desc [] l.

End Sort.

(** ** The race card and the scored frame *)

Open Scope Q_scope.

(** One row of the race card.  The field names follow the columns:
    車番, 選手名, 競走得点, 地元, 脚質, 競輪場, ライン, 級班, B, 逃, 捲, 差
    and the precomputed flags [is_top_nige], [is_top_makuri],
    [is_top_sashi]. *)
Record Rider : Type := mkRider {
  shaban : Z;
  senshumei : pystr;
  kyoso_tokuten : option Q;
  jimoto : bool;
  kyakushitsu : pystr;
  keirinjo : pystr;
  rain : pystr;
  kyuhan : pystr;
  col_B : option Q;
  col_nige : option Q;
  col_makuri : option Q;
  col_sashi : option Q;
  is_top_nige : bool;
  is_top_makuri : bool;
  is_top_sashi : bool
}.

(** The columns whose presence the scoring functions test or depend on;
    [C_shaban] is 車番, which the line rule reads without a test. *)
Inductive Column : Type :=
| C_shaban | C_kyoso_tokuten | C_jimoto | C_kyakushitsu | C_keirinjo
| C_rain | C_kyuhan | C_B | C_nige | C_makuri | C_sashi.

#[global] Instance Column_eq_dec : EqDecision Column.
Proof. solve_decision. Defined.

Record DataFrame : Type := mkDF {
  columns : list Column;
  rows : list Rider
}.

Definition has_col (c : Column) (df : DataFrame) : bool :=
  bool_decide (c ∈ columns df).

(** The pieces appended to [ai_tag], in order. *)
Inductive Tag : Type :=
| Tag_jimoto                 (* " [地元]" *)
| Tag_short_straight_nige    (* " [短直線:逃]" *)
| Tag_long_straight          (* " [長直線:捲差]" *)
| Tag_gentle_cant_nige       (* " [緩傾斜:逃]" *)
| Tag_steep_cant_makuri      (* " [急傾斜:捲]" *)
| Tag_L3 (bonus : Q)         (* " [L3番手(+b)]" *)
| Tag_longest4 (bonus : Q)   (* " [最長4車(+b)]" *)
| Tag_longest3 (bonus : Q)   (* " [最長3車(+b)]" *)
| Tag_lift (reason : pystr)  (* " [A3回帰:逃]" and the like *)
| Tag_btop_short             (* " [B-Top:短(★)]" *)
| Tag_btop_long              (* " [B-Top:長]" *)
| Tag_btop                   (* " [B-Top]" *)
| Tag_dom_makuri             (* " [圧倒的捲り(SS)]" *)
| Tag_dom_nige_short         (* " [圧倒的逃げ:短(S)]" *)
| Tag_dom_nige               (* " [圧倒的逃げ]" *)
| Tag_dom_sashi              (* " [圧倒的差(連軸)]" *)
| Tag_gekisen_sashi          (* " [激戦:差引]" *)
| Tag_gekisen_nige.          (* " [激戦:逃有利]" *)

(** A row of the scored frame: the rider and the columns the scoring
    functions add. *)
Record Scored : Type := mkScored {
  rider : Rider;
  base_score : Q;
  ai_score : Q;
  ai_tag : list Tag;
  B_val : Q;
  nige_val : Q;
  makuri_val : Q;
  sashi_val : Q;
  is_b_top : bool;
  is_dom_nige : bool;
  is_dom_makuri : bool;
  is_dom_sashi : bool;
  v3_nige_count : nat
}.

(** The frame [calculate_classic_score] returns: without the 競走得点
    column it has an [ai_score] of 0.0 and neither [base_score] nor
    [ai_tag] ([sf_tagged] is [false]). *)
Record ScoredFrame : Type := mkSF {
  sf_columns : list Column;
  sf_tagged : bool;
  sf_rows : list Scored
}.

Definition sf_has (c : Column) (sf : ScoredFrame) : bool :=
  bool_decide (c ∈ sf_columns sf).

(** [df.loc[mask, 'ai_score'] += b; df.loc[mask, 'ai_tag'] += t] *)
Definition bump (b : Q) (t : list Tag) (r : Scored) : Scored :=
  mkScored (rider r) (base_score r) (ai_score r + b) (ai_tag r ++ t)
    (B_val r) (nige_val r) (makuri_val r) (sashi_val r)
    (is_b_top r) (is_dom_nige r) (is_dom_makuri r) (is_dom_sashi r)
    (v3_nige_count r).

Definition add_where (mask : Scored -> bool) (b : Q) (t : list Tag)
    (l : list Scored) : list Scored :=
  map (fun r => if mask r then bump b t r else r) l.

Definition style_has (s : string) (r : Scored) : bool :=
  contains (py s) (kyakushitsu (rider r)).

Definition car_is (c : Z) (r : Scored) : bool := (shaban (rider r) =? c)%Z.

(** ** calculate_classic_score *)

Record LineInfo : Type := mkLine {
  members : list Z;
  len : nat;
  score : Q
}.

Section Scoring.

(** [db_utils.VELODROME_SPECS]: velodrome name to
    (straight length in metres, banking angle in degrees, lap length). *)
Variable VELODROME_SPECS : pystr -> option (Q * Q * Q).

(** Rule 1: [base_score] and the initial [ai_score]. *)
Definition init_row (r : Rider) : Scored :=
  let b := default 80.0%Q (kyoso_tokuten r) in
  mkScored r b b [] 0 0 0 0 false false false false 0.

Definition unscored_row (r : Rider) : Scored :=
  mkScored r 0 0.0%Q [] 0 0 0 0 false false false false 0.

(** Rule 2: local bonus. *)
Definition rule_local (df : DataFrame) (l : list Scored) : list Scored :=
  if has_col C_jimoto df
  then add_where (fun r => jimoto (rider r)) 3.0 [Tag_jimoto] l
  else l.

(** Rule 3: tactic bonus. *)
Definition rule_tactic (df : DataFrame) (l : list Scored) : list Scored :=
  if has_col C_kyakushitsu df
  then add_where (style_has "捲") 2.0 []
         (add_where (style_has "逃") 2.0 [] l)
  else l.

(** Rule 4: bank specs bonus.  Every branch is guarded by the presence of
    the 脚質 column. *)
Definition rule_bank (df : DataFrame) (place : pystr) (l : list Scored)
    : list Scored :=
  match VELODROME_SPECS place with
  | Some (str_m, cant_deg, _) =>
      let styled (mask : Scored -> bool) (t : Tag) (l : list Scored) :=
        if has_col C_kyakushitsu df then add_where mask 2.0 [t] l else l in
      let l1 :=
        if Qltb str_m 50.0 then
          styled (style_has "逃") Tag_short_straight_nige l
        else if Qltb 58.0 str_m then
          styled (fun r => style_has "捲" r || style_has "差" r)
            Tag_long_straight l
        else l in
      if Qltb cant_deg 30.0 then
        styled (style_has "逃") Tag_gentle_cant_nige l1
      else if Qltb 33.0 cant_deg then
        styled (style_has "捲") Tag_steep_cant_makuri l1
      else l1
  | None => l
  end.

(** Rule 6, parsing: one [LineInfo] per whitespace-separated group with at
    least one digit; [members] holds every car of the group, the leader
    first, and [len] counts them all. *)
Definition line_members (l_s : pystr) : list Z :=
  map (fun c => Z.of_N (c - 48)) (List.filter isdigit l_s).

Definition leader_score (l : list Scored) (leader : Z) : Q :=
  match List.filter (car_is leader) l with
  | r :: _ => base_score r
  | [] => 0.0
  end.

Definition parse_line_infos (l : list Scored) (line_str : pystr)
    : list LineInfo :=
  flat_map
    (fun l_s =>
       let members := line_members l_s in
       match members with
       | [] => []
       | leader :: _ =>
           [mkLine members (length members) (leader_score l leader)]
       end)
    (split_ws line_str).

(** The sort key [(len, score)], compared as tuples. *)
Definition line_gt (a b : LineInfo) : bool :=
  (len b <? len a)%nat || (len a =? len b)%nat && Qltb (score b) (score a).

(** Rule 6.A: third rider of every line of three or more. *)
Fixpoint line_third_bonus (idx : nat) (infos : list LineInfo)
    (l : list Scored) : list Scored :=
  match infos with
  | [] => l
  | info :: rest =>
      let l' :=
        if (3 <=? len info)%nat then
          match members info !! 2%nat with
          | Some r3 =>
              let bonus := if (idx =? 0)%nat then 2.0 else 1.0 in
              add_where (car_is r3) bonus [Tag_L3 bonus] l
          | None => l
          end
        else l in
      line_third_bonus (S idx) rest l'
  end.

Definition venue_adj (df : DataFrame) (place : pystr) : Q :=
  let place_name := if has_col C_keirinjo df then place else [] in
  if existsb (eqb place_name) [py "西武園"; py "立川"; py "玉野"; py "豊橋"]
  then 0.5
  else if existsb (eqb place_name) [py "静岡"; py "武雄"] then (-1.0)
  else 0.0.

(** [lengths.index(max_len)] *)
Fixpoint index_of (n : nat) (l : list nat) : nat :=
  match l with
  | [] => 0
  | x :: r => if (x =? n)%nat then 0 else S (index_of n r)
  end.

Fixpoint longest3_loop (adj : Q) (pos_i : nat) (ms : list Z)
    (l : list Scored) : list Scored :=
  match ms with
  | [] => l
  | c :: rest =>
      let base_b := if (pos_i <=? 1)%nat then 1.5 else 0.5 in
      let final_b := base_b + adj in
      longest3_loop adj (S pos_i) rest
        (add_where (car_is c) final_b [Tag_longest3 final_b] l)
  end.

(** Rule 6.B: correction for the unique longest line. *)
Definition unique_longest_correction (df : DataFrame) (place : pystr)
    (infos : list LineInfo) (l : list Scored) : list Scored :=
  let lengths := map len infos in
  let max_len := max_list lengths in
  if (length (List.filter (Nat.eqb max_len) lengths) =? 1)%nat then
    match infos !! index_of max_len lengths with
    | Some u_info =>
        let adj := venue_adj df place in
        if (4 <=? len u_info)%nat then
          let final_b := 2.5 + adj in
          fold_left
            (fun acc c => add_where (car_is c) final_b [Tag_longest4 final_b] acc)
            (members u_info) l
        else if (len u_info =? 3)%nat then
          longest3_loop adj 0 (members u_info) l
        else l
    | None => l
    end
  else l.

(** Rule 6 as a whole.  Before the lines are parsed the 車番 column is
    read and made numeric ([shaban] is the value after that): without
    the column the read raises [KeyError]. *)
Definition rule_line (df : DataFrame) (l : list Scored)
    : Result (list Scored) :=
  match l with
  | first :: _ =>
      if has_col C_rain df && negb (eqb (rain (rider first)) (py "nan")) then
        if negb (has_col C_shaban df) then Raise KeyError
        else
          let infos := parse_line_infos l (rain (rider first)) in
          match infos with
          | [] => Return l
          | _ =>
              let sorted := sort_desc line_gt infos in
              Return
                (unique_longest_correction df (keirinjo (rider first)) sorted
                   (line_third_bonus 0 sorted l))
          end
      else Return l
  | [] => Return l
  end.

(** Rule 7: class lift. *)
Inductive RaceClass : Type := Class_A | Class_A3 | Class_S.

#[global] Instance RaceClass_eq_dec : EqDecision RaceClass.
Proof. solve_decision. Defined.

Definition classic_race_class (df : DataFrame) : RaceClass :=
  if has_col C_kyuhan df then
    let classes := map kyuhan (rows df) in
    if existsb (fun c => contains (py "A3") c || contains (py "A級3班") c)
         classes
    then Class_A3
    else if existsb (contains (py "S")) classes then Class_S
    else Class_A
  else Class_A.

(** [df['base_score'].idxmax()]: position of the first maximum. *)
Fixpoint idxmax_from (i best_i : nat) (best : Q) (l : list Scored) : nat :=
  match l with
  | [] => best_i
  | r :: rest =>
      if Qltb best (base_score r)
      then idxmax_from (S i) i (base_score r) rest
      else idxmax_from (S i) best_i best rest
  end.

Definition idxmax (l : list Scored) : nat :=
  match l with
  | [] => 0
  | r :: rest => idxmax_from 1 0 (base_score r) rest
  end.

(** [if c: lift_bonus = max(lift_bonus, b); lift_reason = why] *)
Definition step (c : bool) (b : Q) (why : string) (acc : Q * pystr)
    : Q * pystr :=
  if c then (Qmax (fst acc) b, py why) else acc.

Definition lift_of (rc : RaceClass) (row : Rider) : Q * pystr :=
  match rc with
  | Class_A3 =>
      step (is_top_makuri row) 4.0 "[A3回帰:捲]"
        (step (is_top_nige row) 4.0 "[A3回帰:逃]" (0.0, []))
  | Class_A =>
      step (is_top_makuri row) 2.0 "[A級回帰:捲]"
        (step (is_top_nige row) 2.5 "[A級回帰:逃]" (0.0, []))
  | Class_S =>
      step (is_top_sashi row) 0.5 "[S級回帰:差]"
        (step (is_top_nige row) 1.5 "[S級回帰:逃]" (0.0, []))
  end.

Definition rule_class_lift (df : DataFrame) (l : list Scored)
    : list Scored :=
  let top_scorer_idx := idxmax l in
  match l !! top_scorer_idx with
  | Some row =>
      let '(lift_bonus, lift_reason) :=
        lift_of (classic_race_class df) (rider row) in
      if Qltb 0 lift_bonus
      then alter (bump lift_bonus [Tag_lift lift_reason]) top_scorer_idx l
      else l
  | None => l
  end.

Definition calculate_classic_score (df : DataFrame) : Result ScoredFrame :=
  if negb (has_col C_kyoso_tokuten df) then
    Return (mkSF (columns df) false (map unscored_row (rows df)))
  else
    let l0 := map init_row (rows df) in
    let l2 := rule_tactic df (rule_local df l0) in
    l4 ← (if has_col C_keirinjo df then
            match rows df with
            | first :: _ => Return (rule_bank df (keirinjo first) l2)
            | [] => Raise IndexError
            end
          else Return l2);
    l6 ← rule_line df l4;
    Return (mkSF (columns df) true (rule_class_lift df l6)).

(** ** apply_v3_logic *)

(** [pd.to_numeric(df[col], errors='coerce').fillna(0)], or [0.0] when the
    column is absent. *)
Definition numeric_col (present : bool) (c : option Q) : Q :=
  if present then default 0 c else 0.0.

(** [check_dominance]: the mask of the riders that dominate a tactic. *)
Definition check_dominance (col : list Q) : list bool :=
  match sort_desc (fun a b => Qltb b a) col with
  | top_val :: sec_val :: _ =>
      let is_dom :=
        Qleb 5 top_val
        && (Qleb (sec_val + 5) top_val
            || Qltb 0 sec_val && Qleb 3.0 (top_val / sec_val)
            || Qeqb sec_val 0 && Qleb 5 top_val) in
      map (fun v => Qeqb v top_val && Qltb 0 top_val && is_dom) col
  | _ => map (fun _ => false) col
  end.

(** Feature engineering: the [_val] columns and the flags. *)
Definition v3_features (sf : ScoredFrame) : list Scored :=
  let l := sf_rows sf in
  let bs := map (fun r => numeric_col (sf_has C_B sf) (col_B (rider r))) l in
  let ns :=
    map (fun r => numeric_col (sf_has C_nige sf) (col_nige (rider r))) l in
  let ms :=
    map (fun r => numeric_col (sf_has C_makuri sf) (col_makuri (rider r))) l in
  let ss :=
    map (fun r => numeric_col (sf_has C_sashi sf) (col_sashi (rider r))) l in
  let max_b := Qmax_list bs in
  let dn := check_dominance ns in
  let dm := check_dominance ms in
  let ds := check_dominance ss in
  imap
    (fun i r =>
       let b := numeric_col (sf_has C_B sf) (col_B (rider r)) in
       mkScored (rider r) (base_score r) (ai_score r) (ai_tag r)
         b
         (numeric_col (sf_has C_nige sf) (col_nige (rider r)))
         (numeric_col (sf_has C_makuri sf) (col_makuri (rider r)))
         (numeric_col (sf_has C_sashi sf) (col_sashi (rider r)))
         (Qeqb b max_b && Qltb 0 max_b)
         (default false (dn !! i))
         (default false (dm !! i))
         (default false (ds !! i))
         (v3_nige_count r))
    l.

(** [score_add += b; tag_add += t] *)
Definition acc_add (b : Q) (t : Tag) (acc : Q * list Tag) : Q * list Tag :=
  (fst acc + b, snd acc ++ [t]).

Definition btop_logic (is_short_bank is_long_bank : bool) (row : Scored)
    (acc : Q * list Tag) : Q * list Tag :=
  if is_b_top row then
    if is_short_bank then acc_add 3.0 Tag_btop_short acc
    else if is_long_bank then acc_add 1.0 Tag_btop_long acc
    else acc_add 2.0 Tag_btop acc
  else acc.

Definition dominance_logic (is_short_bank : bool) (row : Scored)
    (acc : Q * list Tag) : Q * list Tag :=
  if is_dom_makuri row then acc_add 6.0 Tag_dom_makuri acc
  else if is_dom_nige row then
    if is_short_bank then acc_add 5.0 Tag_dom_nige_short acc
    else acc_add 3.0 Tag_dom_nige acc
  else if is_dom_sashi row then acc_add 2.0 Tag_dom_sashi acc
  else acc.

Definition nige_conflict_logic (has_style : bool) (nige_count : nat)
    (nige_max : Q) (row : Scored) (acc : Q * list Tag) : Q * list Tag :=
  if (3 <=? nige_count)%nat then
    let style := if has_style then kyakushitsu (rider row) else [] in
    let acc1 :=
      if contains (py "差") style && negb (is_dom_sashi row)
      then acc_add (-1.0) Tag_gekisen_sashi acc
      else acc in
    if is_dom_nige row
       || Qeqb (nige_val row) nige_max && Qleb 5 (nige_val row)
    then acc_add 2.0 Tag_gekisen_nige acc1
    else acc1
  else acc.

(** One turn of the scoring loop. *)
Definition v3_row (has_style is_short_bank is_long_bank : bool)
    (nige_count : nat) (nige_max : Q) (row : Scored) : Scored :=
  let '(score_add, tag_add) :=
    nige_conflict_logic has_style nige_count nige_max row
      (dominance_logic is_short_bank row
         (btop_logic is_short_bank is_long_bank row (0.0, []))) in
  mkScored (rider row) (base_score row) (ai_score row + score_add)
    (ai_tag row ++ tag_add)
    (B_val row) (nige_val row) (makuri_val row) (sashi_val row)
    (is_b_top row) (is_dom_nige row) (is_dom_makuri row) (is_dom_sashi row)
    nige_count.

Definition default_specs : Q * Q * Q := (400, 30, 400).

Definition bank_specs_of (place_name : pystr) : Q * Q * Q :=
  default default_specs (VELODROME_SPECS place_name).

(** [df['競輪場'].iloc[0] if '競輪場' in df.columns else ""] *)
Definition place_name_of (sf : ScoredFrame) : pystr :=
  match sf_rows sf with
  | first :: _ => if sf_has C_keirinjo sf then keirinjo (rider first) else []
  | [] => []
  end.

Definition str_len_of (sf : ScoredFrame) : Q :=
  fst (fst (bank_specs_of (place_name_of sf))).

Definition is_short_bank_of (sf : ScoredFrame) : bool :=
  Qltb (str_len_of sf) 50.0.

Definition is_long_bank_of (sf : ScoredFrame) : bool :=
  Qltb 58.0 (str_len_of sf).

(** [len(df[df['逃_val'] >= 3])] *)
Definition nige_count_of (l : list Scored) : nat :=
  length (List.filter (fun r => Qleb 3 (nige_val r)) l).

(** [df['逃_val'].max()] *)
Definition nige_max_of (l : list Scored) : Q := Qmax_list (map nige_val l).

Definition apply_v3_logic (sf : ScoredFrame) : Result ScoredFrame :=
  match sf_rows sf with
  | [] => Return sf
  | _ :: _ =>
      let l := v3_features sf in
      if sf_tagged sf then
        Return (mkSF (sf_columns sf) true
                  (map (v3_row (sf_has C_kyakushitsu sf)
                          (is_short_bank_of sf) (is_long_bank_of sf)
                          (nige_count_of l) (nige_max_of l)) l))
      else Raise KeyError
  end.

Definition calculate_ai_score (df : DataFrame) : Result ScoredFrame :=
  sf ← calculate_classic_score df;
  apply_v3_logic sf.

End Scoring.

(** ** generate_betting_strategy *)

Inductive RaceType : Type :=
| standard | snipe | star_makuri | star_nige_short | star_btop_short
| suji_fix | suji_lead | line_breaker | skip | teppan | two_strong | chaos.

#[global] Instance RaceType_eq_dec : EqDecision RaceType.
Proof. solve_decision. Defined.

Inductive SujiMode : Type := Suji_A | Suji_B | Suji_C.

(** [confidence_level]: "SS", "S", "A", "極", "高", "中", "低". *)
Inductive Confidence : Type :=
| Conf_SS | Conf_S | Conf_A | Conf_kiwami | Conf_high | Conf_mid | Conf_low.

(** [ev_comment] *)
Inductive EvComment : Type := Ev_good | Ev_standard | Ev_poor.

(** The dictionary the function returns.  [Rec_error] is the
    "データ不足" dictionary with ["type": "error"]; the titles and reason
    strings, which are functions of the race type, and the display-only
    [structured_bets] are left out; [pseudo_ev] is the value before
    [round(_, 2)].  [strict] is the 🔥(激熱) suffix of the title. *)
Record Strategy : Type := mkStrategy {
  s_type : RaceType;
  s_strict : bool;
  s_tickets : list pystr;
  s_top_win_rate : Q;
  s_top_name : pystr;
  s_confidence_level : Confidence;
  s_recommended_points : nat * nat;
  s_pseudo_ev : Q;
  s_ev_comment : EvComment
}.

Inductive Recommendation : Type :=
| Rec_error (tickets : list pystr)
| Rec (s : Strategy).

(** A car number as the ticket code holds it: [None] is Python's [None]
    (the fourth or fifth rider of a short field). *)
Definition pycar : Type := option Z.

(** [f"{c}"] *)
Definition fmt_car (c : pycar) : pystr :=
  match c with
  | Some z => str_of_Z z
  | None => py "None"
  end.

(** [int(c)] *)
Definition int_car (c : pycar) : Result Z :=
  match c with
  | Some z => Return z
  | None => Raise TypeError
  end.

(** Truth value of [c] in [if x]. *)
Definition truthy (c : pycar) : bool :=
  match c with
  | Some z => negb (z =? 0)%Z
  | None => false
  end.

Definition join_cars (l : list pycar) : pystr :=
  join (py ",") (map fmt_car l).

(** [[x for x in cands if int(x) != int(c1) and int(x) != pt]]; raises
    when a candidate is [None]. *)
Fixpoint filter_not (c1 : Z) (pt : option Z) (cands : list pycar)
    : Result (list pycar) :=
  match cands with
  | [] => Return []
  | x :: rest =>
      xi ← int_car x;
      tl ← filter_not c1 pt rest;
      Return (if negb (xi =? c1)%Z
                 && match pt with
                    | Some p => negb (xi =? p)%Z
                    | None => true
                    end
              then x :: tl else tl)
  end.

(** [sorted(list(set(l)))] on integers. *)
Fixpoint insert_asc (x : Z) (l : list Z) : list Z :=
  match l with
  | [] => [x]
  | y :: r =>
      if (x <? y)%Z then x :: l
      else if (x =? y)%Z then l
      else y :: insert_asc x r
  end.

Definition sorted_set (l : list Z) : list Z := fold_right insert_asc [] l.

(** [Series.unique()]: first occurrences, in order. *)
Fixpoint unique (seen : list pystr) (l : list pystr) : list pystr :=
  match l with
  | [] => []
  | x :: r =>
      if bool_decide (x ∈ seen) then unique seen r
      else x :: unique (x :: seen) r
  end.

(** The local variables the classification assigns. *)
Record Locals : Type := mkLocals {
  race_type : RaceType;
  is_star_bet : bool;
  is_strict : bool;
  confidence_level : option Confidence;
  recommended_points : option (nat * nat)
}.

Definition assign (rt : RaceType) (star strict : bool) (c : Confidence)
    (pts : nat * nat) : Locals :=
  mkLocals rt star strict (Some c) (Some pts).

(** ** The ticket strings *)

Definition t_3rentan : pystr := py "3連単: ".
Definition t_2shatan : pystr := py "2車単: ".
Definition t_formation : pystr := py "3連単 (フォーメーション): ".
Definition t_arrow : pystr := py " → ".
Definition t_fold_arrow : pystr := py " ↔ ".
Definition t_dash : pystr := py " - ".

(** [covered_2t_pairs] *)
Definition parse_cars (s : pystr) : list Z :=
  flat_map
    (fun p =>
       match first_digits p with
       | Some nums0 => [int_of_digits nums0]
       | None => []
       end)
    (split_chr 44 s).

(** The pairs the loops over two groups add, in order:
    [add((x, y))] and, for a fold, [add((y, x))]. *)
Definition pairs_added (both : bool) (g1 g2 : list Z) : list (Z * Z) :=
  flat_map
    (fun x =>
       flat_map (fun y => if both then [(x, y); (y, x)] else [(x, y)]) g2)
    g1.

(** The pairs one ticket adds to [covered_2t_pairs]. *)
Definition adds_of (t : pystr) : list (Z * Z) :=
  if contains (py "2車単") t then
    let body := strip (last_part (split_chr 58 t)) in
    let halves (sep : N) (both : bool) : list (Z * Z) :=
      match split_chr sep body with
      | p0 :: p1 :: _ => pairs_added both (parse_cars p0) (parse_cars p1)
      | _ => []
      end in
    if contains (py "↔") body then halves 8596%N true
    else if contains (py "→") body then halves 8594%N false
    else if contains (py "=") body then halves 61%N true
    else []
  else [].

Definition covered_2t_pairs (rec_tickets : list pystr) : gset (Z * Z) :=
  list_to_set (flat_map adds_of rec_tickets).

(** The deduplicated base exacta, inserted in front of the tickets. *)
Definition base_flow_dedup (c1 : Z) (c2 c3 c4 : pycar)
    (rec_tickets : list pystr) : list pycar :=
  let covered := covered_2t_pairs rec_tickets in
  List.filter
    (fun cand =>
       match cand with
       | Some cand_int => bool_decide ((c1, cand_int) ∉ covered)
       | None => true
       end)
    (List.filter truthy [c2; c3; c4]).

Definition add_base_exacta (c1 : Z) (c2 c3 c4 : pycar)
    (rec_tickets : list pystr) : list pystr :=
  match base_flow_dedup c1 c2 c3 c4 rec_tickets with
  | [] => rec_tickets
  | flow =>
      (t_2shatan ++ str_of_Z c1 ++ t_arrow ++ join_cars flow) :: rec_tickets
  end.

(** The archetype-specific tickets. *)
Definition archetype_tickets (rt : RaceType) (c1 : Z) (c2 c3 c4 c5 : pycar)
    (p1_partner : option Z) (target_hole_cars : list Z)
    : Result (list pystr) :=
  let s1 := str_of_Z c1 in
  let pt_of := match p1_partner with
               | Some p => Return p
               | None => int_car c2
               end in
  match rt with
  | skip => Return []
  | star_makuri =>
      Return
        [t_3rentan ++ s1 ++ t_arrow ++ join_cars [c2; c3] ++ t_arrow
           ++ join_cars [c2; c3; c4];
         t_2shatan ++ s1 ++ t_arrow ++ join_cars [c2; c3]]
  | star_nige_short =>
      pt ← pt_of;
      th_cands ← filter_not c1 (Some pt) [c2; c3; c4];
      let th_str :=
        match th_cands with [] => py "全" | _ => join_cars th_cands end in
      Return
        [t_3rentan ++ s1 ++ t_arrow ++ str_of_Z pt ++ t_arrow ++ th_str;
         t_2shatan ++ s1 ++ t_arrow ++ str_of_Z pt ++ py " (1点)"]
  | star_btop_short =>
      pt ← pt_of;
      th_cands ← filter_not c1 (Some pt) [c2; c3; c4];
      Return
        [t_3rentan ++ s1 ++ t_fold_arrow ++ str_of_Z pt ++ t_arrow
           ++ join_cars th_cands;
         t_2shatan ++ s1 ++ t_fold_arrow ++ str_of_Z pt]
  | snipe =>
      let tc := match target_hole_cars with
                | tc :: _ => Some tc
                | [] => c3
                end in
      Return
        [t_formation ++ fmt_car tc ++ t_dash ++ join_cars [Some c1; c2]
           ++ t_dash ++ join_cars [Some c1; c2; c3]]
  | suji_fix =>
      pt ← pt_of;
      others ← filter_not c1 (Some pt) [c2; c3; c4];
      let s_3rd_real := join_cars others in
      Return
        [t_3rentan ++ s1 ++ t_arrow ++ str_of_Z pt ++ t_arrow
           ++ match s_3rd_real with [] => py "全" | _ => s_3rd_real end]
  | suji_lead =>
      pt ← pt_of;
      other_heads ← filter_not c1 (Some pt) [c2; c3];
      let s_2nd := join_cars (Some pt :: other_heads) in
      Return
        [t_formation ++ s1 ++ t_arrow ++ s_2nd ++ t_arrow ++ s_2nd ++ py ","
           ++ fmt_car c4]
  | line_breaker =>
      _ ← filter_not c1 None [c2; c3; c4];
      Return [py "3連単 (Box): " ++ join_cars [Some c1; c2; c3]]
  | teppan =>
      let third_row :=
        List.filter (fun x => truthy x && negb (bool_decide (x = c2)))
          [c2; c3; c4] in
      Return
        [t_formation ++ s1 ++ t_dash ++ join_cars [c2; c3] ++ t_dash
           ++ join_cars third_row]
  | two_strong =>
      Return
        [py "3連単 (2軸): " ++ s1 ++ py " = " ++ fmt_car c2 ++ t_dash
           ++ join_cars [c3; c4]]
  | chaos =>
      let third_list := List.filter truthy [c2; c3; c4; c5] in
      Return
        [t_formation ++ join_cars [Some c1; c2] ++ t_dash
           ++ join_cars [Some c1; c2; c3] ++ t_dash ++ join_cars third_list]
  | standard =>
      let third_row :=
        List.filter
          (fun x => truthy x
                    && negb (bool_decide (x = Some c1))
                    && negb (bool_decide (x = c2)))
          [Some c1; c2; c3; c4; c5] in
      Return
        [t_formation ++ s1 ++ t_dash ++ join_cars [c2; c3] ++ t_dash
           ++ join_cars third_row]
  end.

Section Classifier.

Variable VELODROME_SPECS : pystr -> option (Q * Q * Q).

(** [pred_df] is a frame returned by [calculate_ai_score]: it has the
    columns 車番, 選手名, [base_score] and [ai_score].  The column
    [score_col] resolves to: the callers pass ['final_score'], a numeric
    copy of [ai_score]. *)
Definition score_col (r : Scored) : Q := ai_score r.

Definition Qsum (l : list Q) : Q := fold_left Qplus l 0.

(** Line configuration: the lengths of the distinct line strings, longest
    first. *)
Definition line_counts_of (pred_df : ScoredFrame) : list nat :=
  if sf_has C_rain pred_df then
    let all := map (fun r => rain (rider r)) (sf_rows pred_df) in
    let nonempty := List.filter (fun l => (0 <? length l)%nat) all in
    let valid_lines :=
      List.filter (fun l => negb (eqb l (py "0")) && negb (eqb l []))
        (unique [] nonempty) in
    sort_desc (fun a b => (b <? a)%nat) (map (@length N) valid_lines)
  else [].

(** The classifier tests 'S' before 'A3'. *)
Definition strategy_race_class (pred_df : ScoredFrame) : RaceClass :=
  if sf_has C_kyuhan pred_df then
    let classes := map (fun r => kyuhan (rider r)) (sf_rows pred_df) in
    if existsb (contains (py "S")) classes then Class_S
    else if existsb (contains (py "A3")) classes then Class_A3
    else Class_A
  else Class_A.

(** The strongest other member of the favourite's line. *)
Definition find_partner (pred_df : ScoredFrame) (p1 : Scored)
    : option Scored :=
  let p1_line_val :=
    if sf_has C_rain pred_df then rain (rider p1) else [] in
  if negb (eqb p1_line_val []) && negb (eqb p1_line_val (py "0")) then
    let same_line_df :=
      List.filter (fun r => eqb (rain (rider r)) p1_line_val)
        (sf_rows pred_df) in
    let others :=
      List.filter (fun r => negb (shaban (rider r) =? shaban (rider p1))%Z)
        same_line_df in
    head (sort_desc (fun a b => Qltb (base_score b) (base_score a)) others)
  else None.

Definition partner_gap_of (p1 : Scored) (p1_partner : option Scored) : Q :=
  match p1_partner with
  | Some best_partner => Qabs (base_score p1 - base_score best_partner)
  | None => 999.0
  end.

Definition suji_mode_of (race_class : RaceClass) (line_counts : list nat)
    (bank_straight partner_gap : Q) : option SujiMode :=
  let cond_a_1 :=
    match line_counts with
    | [] => false
    | _ => bool_decide (race_class = Class_A3)
           && (4 <=? max_list line_counts)%nat
    end in
  let cond_a_2 :=
    bool_decide (race_class = Class_A)
    && (length line_counts =? 2)%nat && Qltb bank_straight 50.0 in
  let mode_a :=
    if (cond_a_1 || cond_a_2) && Qleb partner_gap 10.0
    then Some Suji_A else None in
  let mode_b :=
    match mode_a with
    | Some m => Some m
    | None =>
        let is_valid_b :=
          if bool_decide (race_class = Class_S)
          then Qleb partner_gap 10.0
          else Qleb partner_gap 15.0 in
        if is_valid_b then Some Suji_B else None
    end in
  let is_hosogire := (4 <=? length line_counts)%nat in
  if bool_decide (race_class = Class_S) && is_hosogire then Some Suji_C
  else if Qltb 20.0 partner_gap && bool_decide (race_class = Class_S)
  then Some Suji_C
  else mode_b.

Definition strict_check (race_class : RaceClass) (line_counts : list nat)
    (bank_specs : Q * Q * Q) (partner_gap : Q) : bool :=
  let bank_len := snd bank_specs in
  let bs := snd (fst bank_specs) in
  match race_class with
  | Class_S =>
      (length line_counts =? 3)%nat
      && (Qeqb bank_len 333 || Qeqb bank_len 335)
      && Qleb partner_gap 5.0
  | Class_A =>
      (length line_counts =? 3)%nat && Qleb 50.0 bs
      && Qleb partner_gap 10.0
  | Class_A3 => Qleb partner_gap 10.0
  end.

(** The star bets, tried when the race is not in high-return mode. *)
Definition star_bet (p1 : Scored) (bank_straight : Q) (l : Locals)
    : Locals :=
  if is_dom_makuri p1 then assign star_makuri true false Conf_SS (4, 2)%nat
  else if is_dom_nige p1 && Qltb bank_straight 50.0
  then assign star_nige_short true false Conf_S (3, 1)%nat
  else if is_b_top p1 && Qltb bank_straight 50.0
  then assign star_btop_short true false Conf_A (6, 2)%nat
  else l.

(** The suji modes and the score-gap fallback, tried when the race is
    neither in high-return mode nor a star bet.  [skip] assigns neither
    [confidence_level] nor [recommended_points]. *)
Definition threshold_logic (suji_mode : option SujiMode) (strict : bool)
    (w1 w2 w3 : Q) (l : Locals) : Locals :=
  match suji_mode with
  | Some Suji_A => assign suji_fix false strict Conf_kiwami (4, 1)%nat
  | Some Suji_B => assign suji_lead false strict Conf_high (8, 3)%nat
  | Some Suji_C => assign line_breaker false false Conf_low (16, 6)%nat
  | None =>
      if Qltb w1 12.0 then
        mkLocals skip (is_star_bet l) (is_strict l) (confidence_level l)
          (recommended_points l)
      else if Qleb 30.0 w1 && Qleb 10.0 (w1 - w2)
      then assign teppan false false Conf_high (6, 3)%nat
      else if Qleb 25.0 w1 && Qleb 20.0 w2
      then assign two_strong false false Conf_high (8, 4)%nat
      else if Qltb (w1 - w3) 5.0
      then assign chaos false false Conf_low (18, 9)%nat
      else assign standard false false Conf_mid (12, 6)%nat
  end.

Definition payout_map (rt : RaceType) : Q :=
  match rt with
  | teppan => 3.0 | two_strong => 5.0 | standard => 10.0 | chaos => 20.0
  | snipe => 30.0 | skip => 1.0 | suji_fix => 2.5 | suji_lead => 6.0
  | line_breaker => 25.0
  | _ => 10.0
  end.

Definition ev_comment_of (pseudo_ev : Q) : EvComment :=
  if Qleb 0.5 pseudo_ev then Ev_good
  else if Qleb 0.0 pseudo_ev then Ev_standard
  else Ev_poor.

Definition car_at (df_logic : list Scored) (i : nat) : pycar :=
  (fun r => shaban (rider r)) <$> df_logic !! i.

Definition generate_betting_strategy (pred_df : ScoredFrame)
    (ai_match_cars : list Z) : Result Recommendation :=
  let df_logic :=
    sort_desc (fun a b => Qltb (score_col b) (score_col a))
      (sf_rows pred_df) in
  match df_logic with
  | p1 :: p2 :: p3 :: _ =>
      let w1_raw := score_col p1 in
      let w2_raw := score_col p2 in
      let w3_raw := score_col p3 in
      let total_score := Qsum (map score_col df_logic) in
      let '(w1, w2, w3) :=
        if Qltb 0 total_score && Qltb 50 w1_raw
        then (w1_raw / total_score * 100, w2_raw / total_score * 100,
              w3_raw / total_score * 100)
        else (w1_raw, w2_raw, w3_raw) in
      let c1 := shaban (rider p1) in
      let c2 := car_at df_logic 1 in
      let c3 := car_at df_logic 2 in
      let c4 := car_at df_logic 3 in
      let c5 := car_at df_logic 4 in
      (* classification *)
      let l0 := mkLocals standard false false None None in
      let target_hole_cars := sorted_set ai_match_cars in
      let is_high_return_mode :=
        existsb (fun tc => negb (tc =? c1)%Z) target_hole_cars in
      let l1 :=
        if is_high_return_mode
        then mkLocals snipe false false None None else l0 in
      let place_name := place_name_of pred_df in
      let bank_specs := bank_specs_of VELODROME_SPECS place_name in
      let bank_straight := fst (fst bank_specs) in
      let l2 := if is_high_return_mode then l1
                else star_bet p1 bank_straight l1 in
      let line_counts := line_counts_of pred_df in
      let race_class := strategy_race_class pred_df in
      let p1_partner := find_partner pred_df p1 in
      let partner_gap := partner_gap_of p1 p1_partner in
      let suji_mode :=
        if is_high_return_mode then None
        else suji_mode_of race_class line_counts bank_straight partner_gap in
      let l3 :=
        if negb is_high_return_mode && negb (is_star_bet l2)
        then threshold_logic suji_mode
               (strict_check race_class line_counts bank_specs partner_gap)
               w1 w2 w3 l2
        else l2 in
      let pseudo_ev := w1 / 100.0 * payout_map (race_type l3) - 1.0 in
      (* tickets *)
      rec_tickets ←
        archetype_tickets (race_type l3) c1 c2 c3 c4 c5
          ((fun r => shaban (rider r)) <$> p1_partner) target_hole_cars;
      let tickets := add_base_exacta c1 c2 c3 c4 rec_tickets in
      match confidence_level l3, recommended_points l3 with
      | Some conf, Some pts =>
          Return
            (Rec (mkStrategy (race_type l3) (is_strict l3) tickets w1
                    (senshumei (rider p1)) conf pts pseudo_ev
                    (ev_comment_of pseudo_ev)))
      | _, _ => Raise UnboundLocalError
      end
  | _ => Return (Rec_error [])
  end.

End Classifier.

(** ** analyze_prediction_history *)

(** One stored recommendation: [place], [date], [str(race_num)],
    [strategy_type] (default 'unknown'), [timestamp] (default '') and the
    ticket strings. *)
Record History : Type := mkHistory {
  h_place : option pystr;
  h_date : option pystr;
  h_race_num : pystr;
  h_strategy_type : pystr;
  h_timestamp : pystr;
  h_tickets : list pystr
}.

Inductive DbKey : Type :=
| Db_2rentan | Db_2shatan | Db_3rentan | Db_2renpuku | Db_3renpuku
| Db_wide1 | Db_wide2 | Db_wide3.

(** The keys of [payouts]: 2車単, 3連単, 2連複, 3連複, ワイド1..3. *)
Inductive PayKey : Type :=
| Pay_2shatan | Pay_3rentan | Pay_2renpuku | Pay_3renpuku
| Pay_wide1 | Pay_wide2 | Pay_wide3.

#[global] Instance PayKey_eq_dec : EqDecision PayKey.
Proof. solve_decision. Defined.

Definition PayKey_to_nat (k : PayKey) : nat :=
  match k with
  | Pay_2shatan => 0 | Pay_3rentan => 1 | Pay_2renpuku => 2
  | Pay_3renpuku => 3 | Pay_wide1 => 4 | Pay_wide2 => 5 | Pay_wide3 => 6
  end%nat.

Definition PayKey_of_nat (n : nat) : option PayKey :=
  match n with
  | 0 => Some Pay_2shatan | 1 => Some Pay_3rentan | 2 => Some Pay_2renpuku
  | 3 => Some Pay_3renpuku | 4 => Some Pay_wide1 | 5 => Some Pay_wide2
  | 6 => Some Pay_wide3 | _ => None
  end%nat.

#[global] Program Instance PayKey_countable : Countable PayKey :=
  inj_countable PayKey_to_nat PayKey_of_nat _.
Next Obligation. by intros []. Qed.

(** One row of the table [race_result], one row per rider.  The table
    has the columns [race_id], 1着 and 車番, which the code reads
    unconditionally.  A row holds the race identifier, [rank_val] (the
    value the code leaves in the column of that name: [clean_rank] of
    着順 when the table has that column, [_local_rank] of 1着 otherwise),
    [str(車番)], [str(級班)] and the payout cells; a payout cell is [None]
    when the column is missing, the value is NaN or it does not parse as
    a number. *)
Record ResultRow : Type := mkResultRow {
  race_id : pystr;
  rank_val : Z;
  car_str : pystr;
  class_str : pystr;
  payout_cell : DbKey -> option Q
}.

Record RaceResultTable : Type := mkTable {
  tbl_has_kyuhan : bool;
  tbl_rows : list ResultRow
}.

Record ResInfo : Type := mkResInfo {
  top3 : list pystr;
  payouts : gmap PayKey Q
}.

Inductive TicketType : Type :=
| TT_3rentan | TT_2shatan | TT_3renpuku | TT_2renpuku | TT_wide | TT_other.

#[global] Instance TicketType_eq_dec : EqDecision TicketType.
Proof. solve_decision. Defined.

(** [hit_detail]: "結果待/無", "結果未着", "不的中", or the joined hit
    strings [f"{t_type}🎯{int(pay):,}円"]. *)
Inductive HitDetail : Type :=
| HD_waiting
| HD_not_arrived
| HD_miss
| HD_hits (hit_strs : list (TicketType * Q)).

(** One row of the race-level summary [df_res]. *)
Record Row : Type := mkRow {
  row_history : History;
  row_race_num : pystr;
  is_hit : bool;
  benefit : Q;
  investment : Z;
  balance : Q;
  hit_detail : HitDetail;
  status_pending : bool;
  result_top3 : option pystr
}.

(** One row of the ticket-level table [df_tickets]. *)
Record TicketRow : Type := mkTicketRow {
  tr_place : option pystr;
  tr_date : option pystr;
  tr_type : TicketType;
  tr_invest : Z;
  tr_return : Q;
  tr_is_hit : bool
}.

Record Stats : Type := mkStats {
  total_races : nat;
  total_invest : Z;
  total_return : Q;
  stats_balance : Q;
  recovery_rate : Q;
  hit_count : nat;
  hit_rate : Q
}.

(** The triple the function returns; [stats] is [None] for the empty
    dictionary of the early returns. *)
Record Analysis : Type := mkAnalysis {
  df_res : list Row;
  stats : option Stats;
  df_tickets : list TicketRow
}.

(** [f"{x}"] of a value that may be [None]. *)
Definition fmt_opt (x : option pystr) : pystr := default (py "None") x.

(** Truth value of a string that may be [None]. *)
Definition truthy_str (x : option pystr) : bool :=
  match x with
  | Some (_ :: _) => true
  | _ => false
  end.

(** Lexicographic order on strings, by code point. *)
Fixpoint pystr_ltb (a b : pystr) : bool :=
  match a, b with
  | [], [] => false
  | [], _ :: _ => true
  | _ :: _, [] => false
  | x :: a', y :: b' => (x <? y)%N || (x =? y)%N && pystr_ltb a' b'
  end.

Fixpoint insert_str (x : pystr) (l : list pystr) : list pystr :=
  match l with
  | [] => [x]
  | y :: r => if pystr_ltb y x then y :: insert_str x r else x :: l
  end.

(** [sorted(l)] on strings. *)
Definition sorted_strs (l : list pystr) : list pystr :=
  fold_right insert_str [] l.

(** [l[i:i+n]] for [i] in [range(0, len(l), n)]. *)
Fixpoint chunks_aux {A : Type} (fuel n : nat) (l : list A) : list (list A) :=
  match fuel with
  | O => []
  | S fuel' =>
      match l with
      | [] => []
      | _ => take n l :: chunks_aux fuel' n (drop n l)
      end
  end.

Definition chunks {A : Type} (n : nat) (l : list A) : list (list A) :=
  chunks_aux (length l) n l.

(** [p_part] *)
Definition p_part (p : pystr) : list pystr :=
  List.filter (fun x => negb (eqb x [])) (map strip (split_chr 44 p)).

Definition ticket_type_of (t_str : pystr) : TicketType :=
  if contains (py "3連単") t_str then TT_3rentan
  else if contains (py "2車単") t_str then TT_2shatan
  else if contains (py "3連複") t_str then TT_3renpuku
  else if contains (py "2連複") t_str then TT_2renpuku
  else if contains (py "ワイド") t_str then TT_wide
  else TT_other.

(** The parts of the ticket body and the fold flag. *)
Definition ticket_parts (t_str : pystr) : list pystr * bool :=
  let content_part := strip (last_part (split_chr 58 t_str)) in
  if contains (py "↔") content_part
  then (map strip (split_chr 8596 content_part), true)
  else if contains (py "→") content_part
  then (map strip (split_chr 8594 content_part), false)
  else if contains (py "=") content_part
  then (map strip (split_chr 61 content_part), false)
  else (map strip (split_chr 45 content_part), false).

(** The state of the counting loops: [points] and [combinations]. *)
Definition Acc : Type := nat * list (list pystr).

(** [points += k; combinations.append(c)] for each [c] of [cs]. *)
Definition emit (k : nat) (cs : list (list pystr)) (acc : Acc) : Acc :=
  ((fst acc + k)%nat, snd acc ++ cs).

(** Ordered expansion over three groups. *)
Definition loop3 (g1 g2 g3 : list pystr) (acc : Acc) : Acc :=
  fold_left
    (fun acc c1 =>
       fold_left
         (fun acc c2 =>
            if eqb c1 c2 then acc
            else fold_left
                   (fun acc c3 =>
                      if eqb c3 c1 || eqb c3 c2 then acc
                      else emit 1 [[c1; c2; c3]] acc)
                   g3 acc)
         g2 acc)
    g1 acc.

(** Ordered expansion over two groups. *)
Definition loop2 (g1 g2 : list pystr) (acc : Acc) : Acc :=
  fold_left
    (fun acc c1 =>
       fold_left
         (fun acc c2 => if eqb c1 c2 then acc else emit 1 [[c1; c2]] acc)
         g2 acc)
    g1 acc.

(** The fold expansion: both directions of every pair of [unique_cars]. *)
Fixpoint loop_fold (unique_cars : list pystr) (acc : Acc) : Acc :=
  match unique_cars with
  | [] => acc
  | c1 :: rest =>
      loop_fold rest
        (fold_left (fun acc c2 => emit 2 [[c1; c2]; [c2; c1]] acc) rest acc)
  end.

(** The state of the unordered loops: [seen] and the counters. *)
Definition SeenAcc : Type := gset (list pystr) * Acc.

Definition emit_unseen (c : list pystr) (st : SeenAcc) : SeenAcc :=
  let comb_tuple := sorted_strs c in
  if bool_decide (comb_tuple ∈ fst st) then st
  else ({[comb_tuple]} ∪ fst st, emit 1 [comb_tuple] (snd st)).

Definition loop3_set (g1 g2 g3 : list pystr) (st : SeenAcc) : SeenAcc :=
  fold_left
    (fun st c1 =>
       fold_left
         (fun st c2 =>
            if eqb c1 c2 then st
            else fold_left
                   (fun st c3 =>
                      if eqb c3 c1 || eqb c3 c2 then st
                      else emit_unseen [c1; c2; c3] st)
                   g3 st)
         g2 st)
    g1 st.

Definition loop2_set (g1 g2 : list pystr) (st : SeenAcc) : SeenAcc :=
  fold_left
    (fun st c1 =>
       fold_left
         (fun st c2 => if eqb c1 c2 then st else emit_unseen [c1; c2] st)
         g2 st)
    g1 st.

Section Settlement.

(** [list(s)] of a set [s], given the elements in insertion order. *)
Variable set_order : list pystr -> list pystr.

(** The counting logic of one ticket: [(points, combinations)] before
    the fallback. *)
Definition count_points (t_type : TicketType) (parts : list pystr)
    (is_fold : bool) : Acc :=
  let init : Acc := (0%nat, []) in
  match t_type, parts with
  | TT_3rentan, [p0; p1; p2] =>
      loop3 (p_part p0) (p_part p1) (p_part p2) init
  | TT_2shatan, p0 :: p1 :: _ =>
      let g1 := p_part p0 in
      let g2 := p_part p1 in
      if is_fold then loop_fold (set_order (g1 ++ g2)) init
      else loop2 g1 g2 init
  | TT_3renpuku, [p0; p1; p2] =>
      snd (loop3_set (p_part p0) (p_part p1) (p_part p2) (∅, init))
  | TT_2renpuku, [p0; p1] | TT_wide, [p0; p1] =>
      snd (loop2_set (p_part p0) (p_part p1) (∅, init))
  | _, _ => init
  end.

(** The fallback count when no point was counted. *)
Definition fallback_points (parts : list pystr) : nat :=
  fold_left (fun cnt p => (cnt * length (split_chr 44 p))%nat) parts 1%nat.

Definition pay_get (payouts : gmap PayKey Q) (k : PayKey) : Q :=
  default 0 (payouts !! k).

(** [set(cm) == tgt] *)
Definition same_set (cm tgt : list pystr) : bool :=
  forallb (fun x => bool_decide (x ∈ tgt)) cm
  && forallb (fun x => bool_decide (x ∈ cm)) tgt.

(** [tuple < tuple] for the sort of [win_pairs]. *)
Fixpoint tuple_ltb (a b : list pystr) : bool :=
  match a, b with
  | [], [] => false
  | [], _ :: _ => true
  | _ :: _, [] => false
  | x :: a', y :: b' => pystr_ltb x y || eqb x y && tuple_ltb a' b'
  end.

Fixpoint insert_tuple (x : list pystr) (l : list (list pystr))
    : list (list pystr) :=
  match l with
  | [] => [x]
  | y :: r => if tuple_ltb x y then x :: l else y :: insert_tuple x r
  end.

(** The wide-quinella payout of a ticket: [(ticket_pay, all_hit_flag)]. *)
Definition wide_pay (payouts : gmap PayKey Q) (r1 r2 r3 : pystr)
    (combinations : list (list pystr)) : Q * bool :=
  let win_pairs :=
    fold_right insert_tuple []
      [sorted_strs [r1; r2]; sorted_strs [r1; r3]; sorted_strs [r2; r3]] in
  let wide_map : gmap (list pystr) Q :=
    match win_pairs with
    | [w0; w1; w2] =>
        <[w2 := pay_get payouts Pay_wide3]>
          (<[w1 := pay_get payouts Pay_wide2]>
             (<[w0 := pay_get payouts Pay_wide1]> ∅))
    | _ => ∅
    end in
  fold_left
    (fun acc cm =>
       let check_pair := sorted_strs cm in
       if bool_decide (check_pair ∈ win_pairs) then
         let hit_p := default 0 (wide_map !! check_pair) in
         if Qltb 0 hit_p then (fst acc + hit_p, true) else acc
       else acc)
    combinations (0, false).

(** The hit test of one ticket: [(pay, tickets_hit)]. *)
Definition check_hit (t_type : TicketType) (top3 : list pystr)
    (payouts : gmap PayKey Q) (combinations : list (list pystr))
    : Q * bool :=
  let r1 := top3 !! 0%nat in
  let r2 := top3 !! 1%nat in
  let r3 := top3 !! 2%nat in
  let ok3 := truthy_str r1 && truthy_str r2 && truthy_str r3 in
  let ok2 := truthy_str r1 && truthy_str r2 in
  match t_type, r1, r2, r3 with
  | TT_3rentan, Some a, Some b, Some c =>
      if ok3 && bool_decide ([a; b; c] ∈ combinations)
      then (pay_get payouts Pay_3rentan, true) else (0, false)
  | TT_2shatan, Some a, Some b, _ =>
      if ok2 && bool_decide ([a; b] ∈ combinations)
      then (pay_get payouts Pay_2shatan, true) else (0, false)
  | TT_3renpuku, Some a, Some b, Some c =>
      if ok3 && existsb (fun cm => same_set cm [a; b; c]) combinations
      then (pay_get payouts Pay_3renpuku, true) else (0, false)
  | TT_2renpuku, Some a, Some b, _ =>
      if ok2 && existsb (fun cm => same_set cm [a; b]) combinations
      then (pay_get payouts Pay_2renpuku, true) else (0, false)
  | TT_wide, Some a, Some b, Some c =>
      if ok3 then
        let '(ticket_pay, all_hit_flag) :=
          wide_pay payouts a b c combinations in
        if all_hit_flag then (ticket_pay, true) else (0, false)
      else (0, false)
  | _, _, _, _ => (0, false)
  end.

Record TicketResult : Type := mkTicketResult {
  tk_type : TicketType;
  tk_combinations : list (list pystr);
  tk_points : nat;
  tk_invest : Z;
  tk_pay : Q;
  tk_hit : bool
}.

(** One turn of the ticket loop. *)
Definition settle_ticket (top3 : list pystr) (payouts : gmap PayKey Q)
    (t_str : pystr) : TicketResult :=
  let t_type := ticket_type_of t_str in
  let '(parts, is_fold) := ticket_parts t_str in
  let '(points0, combinations) := count_points t_type parts is_fold in
  let points :=
    if (points0 =? 0)%nat then fallback_points parts else points0 in
  let '(pay, tickets_hit) := check_hit t_type top3 payouts combinations in
  mkTicketResult t_type combinations points (Z.of_nat points * 100)%Z
    pay tickets_hit.

(** Step 1: the identifiers of the races of the history, in insertion
    order; ['R'] is code point 82. *)
Definition race_num_R (h : History) : pystr :=
  remove_chr 82 (h_race_num h) ++ py "R".

Definition target_rid (h : History) : option pystr :=
  if truthy_str (h_place h) && truthy_str (h_date h)
     && negb (eqb (remove_chr 82 (h_race_num h)) [])
  then Some (fmt_opt (h_place h) ++ py "_" ++ fmt_opt (h_date h) ++ py "_"
             ++ race_num_R h)
  else None.

Definition target_rids (history_data : list History) : list pystr :=
  omap target_rid history_data.

(** Step 2: the chunked load.  A query returns the rows of the table, in
    the order of the table, whose [race_id] is in the chunk. *)
Definition chunk_size : nat := 900.

Definition query (tbl : RaceResultTable) (chunk : list pystr)
    : list ResultRow :=
  List.filter (fun r => bool_decide (race_id r ∈ chunk)) (tbl_rows tbl).

Definition load_results (tbl : RaceResultTable) (rids_list : list pystr)
    : list ResultRow :=
  concat
    (List.filter (fun chunk_df => negb (bool_decide (chunk_df = [])))
       (map (query tbl) (chunks chunk_size rids_list))).

(** The result map. *)
Fixpoint insert_rank (x : ResultRow) (l : list ResultRow) : list ResultRow :=
  match l with
  | [] => [x]
  | y :: r =>
      if (rank_val y <? rank_val x)%Z then y :: insert_rank x r
      else x :: l
  end.

(** [grp.sort_values('rank_val')] *)
Definition sort_by_rank (grp : list ResultRow) : list ResultRow :=
  fold_right insert_rank [] grp.

Definition key_map : list (DbKey * PayKey) :=
  [(Db_2rentan, Pay_2shatan); (Db_2shatan, Pay_2shatan);
   (Db_3rentan, Pay_3rentan); (Db_2renpuku, Pay_2renpuku);
   (Db_3renpuku, Pay_3renpuku); (Db_wide1, Pay_wide1);
   (Db_wide2, Pay_wide2); (Db_wide3, Pay_wide3)].

Definition payouts_of (r0 : ResultRow) : gmap PayKey Q :=
  fold_left
    (fun m kk =>
       match payout_cell r0 (fst kk) with
       | Some v => <[snd kk := v]> m
       | None => m
       end)
    key_map ∅.

Definition is_girls (has_kyuhan : bool) (grp : list ResultRow) : bool :=
  has_kyuhan && existsb (fun r => contains (py "L") (class_str r)) grp.

Definition res_info_of (has_kyuhan : bool) (grp : list ResultRow)
    : option ResInfo :=
  if is_girls has_kyuhan grp then None
  else
    match grp with
    | r0 :: _ =>
        let valid_rows :=
          List.filter (fun r => (1 <=? rank_val r)%Z && (rank_val r <=? 3)%Z)
            (sort_by_rank grp) in
        Some (mkResInfo (map car_str valid_rows) (payouts_of r0))
    | [] => None
    end.

Definition group (rid : pystr) (df_db : list ResultRow) : list ResultRow :=
  List.filter (fun r => eqb (race_id r) rid) df_db.

(** [for rid, grp in df_db.groupby('race_id')]: the keys are distinct, so
    the dictionary does not depend on the order in which they come. *)
Definition build_race_map (has_kyuhan : bool) (df_db : list ResultRow)
    : gmap pystr ResInfo :=
  fold_left
    (fun m rid =>
       match res_info_of has_kyuhan (group rid df_db) with
       | Some info => <[rid := info]> m
       | None => m
       end)
    (unique [] (map race_id df_db)) ∅.

(** Deduplication, newest first. *)
Definition dedup_key (h : History) : pystr :=
  fmt_opt (h_place h) ++ py "_" ++ fmt_opt (h_date h) ++ py "_"
  ++ race_num_R h ++ py "_" ++ h_strategy_type h.

Fixpoint dedup (seen_rids : gset pystr) (l : list History) : list History :=
  match l with
  | [] => []
  | h :: rest =>
      let rid := dedup_key h in
      if bool_decide (rid ∈ seen_rids) then dedup seen_rids rest
      else h :: dedup ({[rid]} ∪ seen_rids) rest
  end.

Definition deduped_history (history_data : list History) : list History :=
  dedup ∅
    (sort_desc (fun a b => pystr_ltb (h_timestamp b) (h_timestamp a))
       history_data).

Definition row_rid (h : History) : pystr :=
  fmt_opt (h_place h) ++ py "_" ++ fmt_opt (h_date h) ++ py "_"
  ++ race_num_R h.

(** The state of the ticket loop of one race. *)
Record RaceAcc : Type := mkRaceAcc {
  race_invest : Z;
  race_return : Q;
  hit_strs : list (TicketType * Q);
  race_ticket_rows : list TicketRow
}.

Definition ticket_step (h : History) (info : ResInfo) (acc : RaceAcc)
    (t_str : pystr) : RaceAcc :=
  let r := settle_ticket (top3 info) (payouts info) t_str in
  let paid := tk_hit r && Qltb 0 (tk_pay r) in
  mkRaceAcc
    (race_invest acc + tk_invest r)%Z
    (if paid then race_return acc + tk_pay r else race_return acc)
    (if paid then hit_strs acc ++ [(tk_type r, tk_pay r)] else hit_strs acc)
    (race_ticket_rows acc
     ++ [mkTicketRow (h_place h) (h_date h) (tk_type r) (tk_invest r)
           (if tk_hit r then tk_pay r else 0)
           (tk_hit r)]).

(** What one history record contributes: its row, its ticket rows and
    its share of [total_invest] and [total_return]. *)
Record Settled : Type := mkSettled {
  st_row : Row;
  st_ticket_rows : list TicketRow;
  st_invest : Z;
  st_return : Q
}.

Definition settle_history (race_map : gmap pystr ResInfo) (h : History)
    : Settled :=
  let r_num_str := race_num_R h in
  match race_map !! row_rid h with
  | Some info =>
      if bool_decide (payouts info = ∅) || (length (top3 info) <? 2)%nat
      then
        mkSettled
          (mkRow h r_num_str false 0 0 0 HD_not_arrived true None) [] 0 0
      else
        let acc :=
          fold_left (ticket_step h info) (h_tickets h)
            (mkRaceAcc 0 0 [] []) in
        let pending :=
          match top3 info with
          | [] => true
          | _ => (length (top3 info) <? 3)%nat
                 && (length (top3 info) <? 1)%nat
          end in
        let row :=
          match hit_strs acc with
          | _ :: _ =>
              mkRow h r_num_str (Qltb 0 (race_return acc))
                (race_return acc) (race_invest acc)
                (race_return acc - inject_Z (race_invest acc))
                (HD_hits (hit_strs acc)) false
                (Some (join (py "-") (top3 info)))
          | [] =>
              if pending then
                mkRow h r_num_str (Qltb 0 (race_return acc)) 0
                  (race_invest acc) 0 HD_not_arrived false
                  (Some (join (py "-") (top3 info)))
              else
                mkRow h r_num_str (Qltb 0 (race_return acc))
                  (race_return acc) (race_invest acc)
                  (race_return acc - inject_Z (race_invest acc))
                  HD_miss false (Some (join (py "-") (top3 info)))
          end in
        mkSettled row (race_ticket_rows acc) (race_invest acc)
          (race_return acc)
  | None =>
      mkSettled (mkRow h r_num_str false 0 0 0 HD_not_arrived false None)
        [] 0 0
  end.

Definition count_hits (results : list Row) : nat :=
  length (List.filter is_hit results).

Definition make_stats (results : list Row) (total_invest : Z)
    (total_return : Q) : Stats :=
  mkStats (length results) total_invest total_return
    (total_return - inject_Z total_invest)
    (if (0 <? total_invest)%Z
     then total_return / inject_Z total_invest * 100 else 0.0)
    (count_hits results)
    (match results with
     | [] => 0.0
     | _ => inject_Z (Z.of_nat (count_hits results))
            / inject_Z (Z.of_nat (length results)) * 100
     end).

Definition empty_analysis : Analysis := mkAnalysis [] None [].

Definition analyze_prediction_history (history_data : list History)
    (tbl : RaceResultTable) : Result Analysis :=
  match history_data, target_rids history_data with
  | [], _ | _, [] => Return empty_analysis
  | _, rids =>
      let rids_list := set_order rids in
      match load_results tbl rids_list with
      | [] => Raise KeyError
      | df_db =>
          let race_map := build_race_map (tbl_has_kyuhan tbl) df_db in
          let settled :=
            map (settle_history race_map) (deduped_history history_data) in
          let results := map st_row settled in
          let total_invest :=
            fold_left (fun a s => (a + st_invest s)%Z) settled 0%Z in
          let total_return :=
            fold_left (fun a s => a + st_return s) settled 0 in
          Return
            (mkAnalysis results
               (Some (make_stats results total_invest total_return))
               (concat (map st_ticket_rows settled)))
      end
  end.

End Settlement.

(** ** generate_classic_strategy *)

(** One entry of [structured_bets]: the ticket type, the cars of the
    three positions, the amount and the raw text. *)
Record Bet : Type := mkBet {
  bet_type : TicketType;
  bet_first : list Z;
  bet_second : list Z;
  bet_third : list Z;
  bet_amount : Z;
  bet_raw : pystr
}.

(** The dictionary [generate_classic_strategy] returns: "disabled" for a
    girls race, "error" for fewer than four riders, else "custom". *)
Inductive ClassicStrategy : Type :=
| Classic_disabled
| Classic_error
| Classic_custom (tickets : list pystr) (structured_bets : list Bet)
    (top_win_rate : Q) (top_name : pystr).

(** The columns [class_code] and クラス, which the scoring engine does not
    read: [None] when the frame does not have the column. *)
Definition classic_is_girls (pred_df : ScoredFrame)
    (class_code kurasu : option (list pystr)) : bool :=
  match class_code with
  | Some values => existsb (eqb (py "L")) values
  | None => false
  end
  || sf_has C_kyuhan pred_df
     && existsb (fun r => contains (py "L") (kyuhan (rider r)))
          (sf_rows pred_df)
  || match kurasu with
     | Some values => existsb (contains (py "ガールズ")) values
     | None => false
     end.

(** The 2車単 expansion of [structured_bets]. *)
Definition classic_exacta_bets (c1 : Z) (targets : list Z) : list Bet :=
  map (fun t => mkBet TT_2shatan [c1] [t] [] 100
                  (py "2車単: " ++ str_of_Z c1 ++ py "-" ++ str_of_Z t))
    targets.

(** The 3連単 expansion of [structured_bets]. *)
Definition classic_trifecta_bets (heads seconds thirds : list Z)
    : list Bet :=
  flat_map
    (fun h =>
       flat_map
         (fun s =>
            if (s =? h)%Z then []
            else flat_map
                   (fun t =>
                      if (t =? h)%Z || (t =? s)%Z then []
                      else [mkBet TT_3rentan [h] [s] [t] 100
                              (py "3連単: " ++ str_of_Z h ++ py "-"
                               ++ str_of_Z s ++ py "-" ++ str_of_Z t)])
                   thirds)
         seconds)
    heads.

(** [score_col] is ['final_score'], a copy of [ai_score], as for
    [generate_betting_strategy]. *)
Definition generate_classic_strategy (pred_df : ScoredFrame)
    (class_code kurasu : option (list pystr)) : ClassicStrategy :=
  if classic_is_girls pred_df class_code kurasu then Classic_disabled
  else
    let df_logic :=
      sort_desc (fun a b => Qltb (score_col b) (score_col a))
        (sf_rows pred_df) in
    match df_logic with
    | p1 :: p2 :: p3 :: p4 :: _ =>
        let c1 := shaban (rider p1) in
        let c2 := shaban (rider p2) in
        let c3 := shaban (rider p3) in
        let c4 := shaban (rider p4) in
        let s_2nd := str_of_Z c2 ++ py "," ++ str_of_Z c3 in
        let s_3rd :=
          str_of_Z c2 ++ py "," ++ str_of_Z c3 ++ py "," ++ str_of_Z c4 in
        let rec_tickets :=
          [py "3連単: " ++ str_of_Z c1 ++ py " - " ++ s_2nd ++ py " - "
             ++ s_3rd;
           py "2車単: " ++ str_of_Z c1 ++ py " → " ++ str_of_Z c2 ++ py ","
             ++ str_of_Z c3 ++ py "," ++ str_of_Z c4] in
        let structured_bets :=
          classic_exacta_bets c1 [c2; c3; c4]
          ++ classic_trifecta_bets [c1] [c2; c3] [c2; c3; c4] in
        let total := Qsum (map score_col df_logic) in
        Classic_custom rec_tickets structured_bets
          (if Qltb 0 total then score_col p1 / total * 100 else 0)
          (senshumei (rider p1))
    | _ => Classic_error
    end.

(** ** generate_bonus_strategy *)

(** The dictionary [generate_bonus_strategy] returns.  [Bonus_no_data]
    and [Bonus_no_scores] are the two "error" dictionaries, [Bonus_skip]
    is "特注なし"; the titles and reasons, texts fixed by the other
    fields, are left out, and [structured_bets] is given by the axis car
    and the flow candidates. *)
Inductive BonusStrategy : Type :=
| Bonus_no_data
| Bonus_no_scores
| Bonus_skip
| Bonus_special (tickets : list pystr) (axis_car : Z) (axis_name : pystr)
    (bonus_value : Q) (confidence : Confidence)
    (flow_candidates : list Z).

(** [df['bonus'] = df['ai_score'] - df['base_score']] *)
Definition bonus (r : Scored) : Q := ai_score r - base_score r.

(** The loop over the frame sorted by score: the cars other than the
    axis, until four are found. *)
Fixpoint flow_loop (c_axis : Z) (df_score : list Scored)
    (flow_candidates : list Z) : list Z :=
  match df_score with
  | [] => flow_candidates
  | row :: rest =>
      let flow_candidates :=
        if negb (shaban (rider row) =? c_axis)%Z
        then flow_candidates ++ [shaban (rider row)]
        else flow_candidates in
      if (4 <=? length flow_candidates)%nat then flow_candidates
      else flow_loop c_axis rest flow_candidates
  end.

(** [pred_df] is a frame returned by the scoring engine: it has no
    [bonus] column, [ai_score] always and [base_score] when it is
    tagged.  [score_col] is ['final_score'], a copy of [ai_score].  The
    sorted frame has the rows of the frame, so that [df_bonus.iloc[0]]
    is never read from an empty frame: the branch [[]] of the sort is
    not reached. *)
Definition generate_bonus_strategy (pred_df : ScoredFrame)
    : BonusStrategy :=
  match sf_rows pred_df with
  | [] => Bonus_no_data
  | _ :: _ =>
      if negb (sf_tagged pred_df) then Bonus_no_scores
      else
        let df := sf_rows pred_df in
        let max_bonus := Qmax_list (map bonus df) in
        if Qleb max_bonus 0 then Bonus_skip
        else
          match sort_desc (fun a b => Qltb (bonus b) (bonus a)) df with
          | [] => Bonus_no_data
          | p_axis :: _ =>
              let c_axis := shaban (rider p_axis) in
              let bonus_val := bonus p_axis in
              let df_score :=
                sort_desc (fun a b => Qltb (score_col b) (score_col a)) df in
              let flow_candidates := flow_loop c_axis df_score [] in
              let c2 := flow_candidates !! 0%nat in
              let c3 := flow_candidates !! 1%nat in
              let c4 := flow_candidates !! 2%nat in
              let c5 := flow_candidates !! 3%nat in
              let second_row := List.filter truthy [c2; c3] in
              let third_row := List.filter truthy [c2; c3; c4; c5] in
              let s_2nd := join_cars second_row in
              let s_3rd := join_cars third_row in
              let rec_tickets :=
                match second_row, third_row with
                | _ :: _, _ :: _ =>
                    [py "3連単 (フォーメーション): " ++ str_of_Z c_axis
                       ++ py " - " ++ s_2nd ++ py " - " ++ s_3rd;
                     py "2車単: " ++ str_of_Z c_axis ++ py " → " ++ s_2nd;
                     py "3連複: " ++ str_of_Z c_axis ++ py " - " ++ fmt_car c2
                       ++ py " - " ++ fmt_car c3 ++ py "," ++ fmt_car c4;
                     py "ワイド: " ++ str_of_Z c_axis ++ py " = " ++ fmt_car c2
                       ++ py "," ++ fmt_car c3]
                | _, _ => []
                end in
              let confidence :=
                if Qleb 9.0 bonus_val then Conf_high
                else if Qleb 7.0 bonus_val then Conf_mid
                else Conf_low in
              Bonus_special rec_tickets c_axis (senshumei (rider p_axis))
                bonus_val confidence flow_candidates
          end
  end.

(** ** get_line_partner_live *)




(** ** calculate_advanced_metrics *)

Inductive Signal : Type :=
| Sig_teppan       (* "★鉄板(点数差大)" *)
| Sig_honmei       (* "◎本命" *)
| Sig_dansou       (* "★断層あり" *)
| Sig_one_strong   (* "★1強" *)
| Sig_konsen       (* "⚠混戦(上位拮抗)" *)
| Sig_juntou       (* "○順当傾向" *)
| Sig_daikonsen.   (* "☠大混戦" *)

(** The dictionary of the metrics; [line_strength_head] is the constant
    '不明'.  The empty dictionary is [None]. *)
Record Metrics : Type := mkMetrics {
  score_diff_1_2 : Q;
  signals : list Signal
}.

(** [scores[:-1] - scores[1:]] *)
Fixpoint gaps_of (scores : list Q) : list Q :=
  match scores with
  | [] => []
  | a :: r =>
      match r with
      | [] => []
      | b :: _ => (a - b) :: gaps_of r
      end
  end.

(** [np.argmax]: the first index of the largest value. *)
Fixpoint argmax_from (best : Q) (best_i i : nat) (l : list Q) : nat :=
  match l with
  | [] => best_i
  | x :: r =>
      if Qltb best x then argmax_from x i (S i) r
      else argmax_from best best_i (S i) r
  end.

Definition argmax (l : list Q) : nat :=
  match l with
  | [] => 0
  | x :: r => argmax_from x 0 1 r
  end.

Definition mean (l : list Q) : Q :=
  Qsum l / inject_Z (Z.of_nat (length l)).

(** [np.std(scores)] is the square root of the population variance,
    [mean(abs(x - x.mean())**2)]; the test [10 <= score_std <= 21] is
    made here on the squares. *)
Definition variance (l : list Q) : Q :=
  mean (map (fun x => (x - mean l) * (x - mean l)) l).

(** The ratings that are numbers ([to_numeric] with [coerce], then
    [dropna]), sorted in descending order. *)
Definition numeric_scores (df_race : DataFrame) : list Q :=
  sort_desc (fun a b => Qltb b a) (omap kyoso_tokuten (rows df_race)).

Definition calculate_advanced_metrics (df_race : DataFrame)
    : option Metrics :=
  if negb (has_col C_kyoso_tokuten df_race) then None
  else
    let scores := numeric_scores df_race in
    match scores with
    | s0 :: s1 :: _ :: _ =>
        let score_diff_1_2 := s0 - s1 in
        let trimmed_bottom := nth (length scores - 2) scores 0 in
        let range_trimmed := s0 - trimmed_bottom in
        let score_range := s0 - List.last scores 0 in
        let gaps := gaps_of scores in
        let elite_count := S (argmax gaps) in
        let score_var := variance scores in
        let signals :=
          (if Qltb 3.425 score_diff_1_2 then [Sig_teppan]
           else if Qltb 2.0 score_diff_1_2 then [Sig_honmei] else [])
          ++ (if Qltb 7.655 range_trimmed then [Sig_dansou] else [])
          ++ (if (elite_count <=? 1)%nat then [Sig_one_strong]
              else if (4 <? elite_count)%nat then [Sig_konsen] else [])
          ++ (if Qleb (10 * 10) score_var && Qleb score_var (21 * 21)
              then [Sig_juntou] else [])
          ++ (if Qltb score_range 5.0 then [Sig_daikonsen] else []) in
        Some (mkMetrics score_diff_1_2 signals)
    | _ => None
    end.

(** ** lines_to_str *)

(** ["123 456 789"] from [[1,2,3],[4,5,6],[7,8,9]]. *)
Definition lines_to_str (lines : list (list Z)) : pystr :=
  match lines with
  | [] => []
  | _ :: _ => join (py " ") (map (fun l => concat (map str_of_Z l)) lines)
  end.

(** * Specification-level definitions and example data *)

(** A small table of velodromes: (straight, banking angle, lap). *)
Definition sample_specs (place : pystr) : option (Q * Q * Q) :=
  if eqb place (py "前橋") then Some (46.7, 36.0, 335)
  else if eqb place (py "静岡") then Some (56.4, 30.7, 400)
  else if eqb place (py "武雄") then Some (64.4, 32.0, 400)
  else if eqb place (py "立川") then Some (58.0, 31.2, 400)
  else None.

(** A rider with a car number and a rating and nothing else. *)
Definition plain_rider (c : Z) (rating : Q) : Rider :=
  mkRider c [] (Some rating) false [] [] [] [] None None None None
    false false false.

(** The race of the example: seven riders, ratings 95, 90, 88, 85, 80,
    78, 75, and no residency, tactic, line or dominance data. *)
Definition example_df : DataFrame :=
  mkDF [C_kyoso_tokuten]
    [plain_rider 1 95; plain_rider 2 90; plain_rider 3 88; plain_rider 4 85;
     plain_rider 5 80; plain_rider 6 78; plain_rider 7 75].

Definition example_scored : ScoredFrame :=
  Eval vm_compute in
    match calculate_ai_score sample_specs example_df with
    | Return sf => sf
    | Raise _ => mkSF [] false []
    end.

(** A nine-rider race with close ratings and no line data. *)
Definition nine_df : DataFrame :=
  mkDF [C_kyoso_tokuten]
    [plain_rider 1 92; plain_rider 2 91; plain_rider 3 90; plain_rider 4 90;
     plain_rider 5 89; plain_rider 6 89; plain_rider 7 88; plain_rider 8 88;
     plain_rider 9 87].

Definition nine_scored : ScoredFrame :=
  Eval vm_compute in
    match calculate_ai_score sample_specs nine_df with
    | Return sf => sf
    | Raise _ => mkSF [] false []
    end.




Definition btop_part (short long : bool) (r : Scored) : Q * list Tag :=
  if is_b_top r then
    if short then (3.0, [Tag_btop_short])
    else if long then (1.0, [Tag_btop_long])
    else (2.0, [Tag_btop])
  else (0, []).

Definition dominance_part (short : bool) (r : Scored) : Q * list Tag :=
  if is_dom_makuri r then (6.0, [Tag_dom_makuri])
  else if is_dom_nige r then
    if short then (5.0, [Tag_dom_nige_short]) else (3.0, [Tag_dom_nige])
  else if is_dom_sashi r then (2.0, [Tag_dom_sashi])
  else (0, []).

(** The conditions of the two contested-escape adjustments. *)
Definition sashi_penalised (has_style : bool) (r : Scored) : bool :=
  contains (py "差") (if has_style then kyakushitsu (rider r) else [])
  && negb (is_dom_sashi r).

Definition nige_boosted (nige_max : Q) (r : Scored) : bool :=
  is_dom_nige r || Qeqb (nige_val r) nige_max && Qleb 5 (nige_val r).

Definition conflict_part (has_style : bool) (nige_count : nat)
    (nige_max : Q) (r : Scored) : Q * list Tag :=
  if (3 <=? nige_count)%nat then
    ((if sashi_penalised has_style r then -1.0 else 0)
     + (if nige_boosted nige_max r then 2.0 else 0),
     (if sashi_penalised has_style r then [Tag_gekisen_sashi] else [])
     ++ (if nige_boosted nige_max r then [Tag_gekisen_nige] else []))
  else (0, []).

(** The row the loop writes has the flags and counts of the row it read. *)
Definition same_features (f r' : Scored) : Prop :=
  rider r' = rider f /\ base_score r' = base_score f
  /\ B_val r' = B_val f /\ nige_val r' = nige_val f
  /\ makuri_val r' = makuri_val f /\ sashi_val r' = sashi_val f
  /\ is_b_top r' = is_b_top f /\ is_dom_nige r' = is_dom_nige f
  /\ is_dom_makuri r' = is_dom_makuri f /\ is_dom_sashi r' = is_dom_sashi f.

(** Three riders in one line at 静岡. *)
Definition line_rider (c : Z) (rating : Q) : Rider :=
  mkRider c [] (Some rating) false [] (py "静岡") (py "123") [] None None
    None None false false false.

Definition shizuoka_df : DataFrame :=
  mkDF [C_shaban; C_kyoso_tokuten; C_keirinjo; C_rain]
    [line_rider 1 90; line_rider 2 85; line_rider 3 80].

(** A rider with escape and chase-jump counts. *)
Definition count_rider (c : Z) (nige makuri : Q) : Rider :=
  mkRider c [] (Some 90) false [] [] [] [] None (Some nige) (Some makuri)
    None false false false.

(** Rider 1 dominates both the escape and the chase-jump counts. *)
Definition double_dominant_df : DataFrame :=
  mkDF [C_kyoso_tokuten; C_nige; C_makuri]
    [count_rider 1 10 10; count_rider 2 0 0; count_rider 3 0 0].

(** Three riders with an escape count of 3 or more; rider 1 dominates. *)
Definition contested_df : DataFrame :=
  mkDF [C_kyoso_tokuten; C_nige; C_makuri]
    [count_rider 1 8 0; count_rider 2 3 0; count_rider 3 3 0].

Definition scored_of (df : DataFrame) : ScoredFrame :=
  match calculate_ai_score sample_specs df with
  | Return sf => sf
  | Raise _ => mkSF [] false []
  end.

Definition classic_of (df : DataFrame) : ScoredFrame :=
  match calculate_classic_score sample_specs df with
  | Return sf => sf
  | Raise _ => mkSF [] false []
  end.



(** The claim of C6 about the dominance overlay: a rider that qualifies
    for two dominance bonuses has both. *)
Definition dominance_bonuses_stack (sf : ScoredFrame) : Prop :=
  forall r, In r (sf_rows sf) ->
    is_dom_makuri r = true -> is_dom_nige r = true ->
    In Tag_dom_makuri (ai_tag r)
    /\ (In Tag_dom_nige (ai_tag r) \/ In Tag_dom_nige_short (ai_tag r)).

(** The claim of C7 about the boost: it goes to a rider that has no
    dominance bonus. *)
Definition boost_only_without_dominance (sf : ScoredFrame) : Prop :=
  forall r, In r (sf_rows sf) ->
    In Tag_gekisen_nige (ai_tag r) ->
    ~ (In Tag_dom_makuri (ai_tag r) \/ In Tag_dom_nige (ai_tag r)
       \/ In Tag_dom_nige_short (ai_tag r) \/ In Tag_dom_sashi (ai_tag r)).

(** The counter and the list move together. *)
Definition counted (acc : Acc) : Prop := fst acc = length (snd acc).

(** What [list(s)] guarantees: every element of the set, once. *)
Definition set_order_ok (set_order : list pystr -> list pystr) : Prop :=
  forall l, NoDup (set_order l) /\ forall x, In x (set_order l) <-> In x l.

(** Both directions of every pair of a list, earlier element first. *)
Fixpoint fold_pairs (l : list pystr) : list (list pystr) :=
  match l with
  | [] => []
  | c1 :: rest =>
      flat_map (fun c2 => [[c1; c2]; [c2; c1]]) rest ++ fold_pairs rest
  end.

(** The combinations of the ordered loops, as lists. *)
Definition expand3 (g1 g2 g3 : list pystr) : list (list pystr) :=
  flat_map
    (fun c1 =>
       flat_map
         (fun c2 =>
            if eqb c1 c2 then []
            else flat_map
                   (fun c3 =>
                      if eqb c3 c1 || eqb c3 c2 then [] else [[c1; c2; c3]])
                   g3)
         g2)
    g1.

Definition expand2 (g1 g2 : list pystr) : list (list pystr) :=
  flat_map
    (fun c1 => flat_map (fun c2 => if eqb c1 c2 then [] else [[c1; c2]]) g2)
    g1.


(** Two iteration orders: first occurrence first, and its reverse. *)
Definition first_seen_order (l : list pystr) : list pystr := unique [] l.
Definition last_seen_order (l : list pystr) : list pystr :=
  reverse (unique [] l).

(** A non-empty run of ASCII digits. *)
Definition digits (s : pystr) : Prop :=
  s <> [] /\ Forall (fun c => isdigit c = true) s.

(** The two separators of the exacta tickets the generator writes. *)
Definition exacta_sep (a : N) (both : bool) : Prop :=
  (a = 8596%N /\ both = true) \/ (a = 8594%N /\ both = false).

(** The ordered pairs the exacta tickets of a recommendation stake, one
    entry per stake, as the generator itself reads its tickets. *)
Definition exacta_pairs (tickets : list pystr) : list (Z * Z) :=
  flat_map adds_of tickets.

(** The car numbers among the second, third and fourth rider. *)
Definition flow_cars (c2 c3 : Z) (c4 : pycar) : list Z :=
  c2 :: c3 :: match c4 with Some x => [x] | None => [] end.

(** Those of them that no existing exacta ticket covers behind [c1]. *)
Definition uncovered (c1 : Z) (cars : list Z) (rec_tickets : list pystr)
    : list Z :=
  List.filter
    (fun x => negb (bool_decide ((c1, x) ∈ exacta_pairs rec_tickets)))
    cars.

(** The character 車 occurs in no trifecta ticket. *)
Definition no_sha (s : pystr) : Prop := ~ In 36554%N s.

(** Two stored recommendations at 静岡: race 7 has its result stored,
    race 8 has none. *)
Definition h_race7 : History :=
  mkHistory (Some (py "静岡")) (Some (py "2026-01-05")) (py "7R")
    (py "main") (py "2026-01-05 10:00")
    [py "2車単: 5 ↔ 2"; py "3連単: 5 → 2 → 9,4"].

Definition h_race8 : History :=
  mkHistory (Some (py "静岡")) (Some (py "2026-01-05")) (py "8R")
    (py "main") (py "2026-01-05 10:30") [py "3連単: 1 → 2 → 3"].

Definition payout_cells (k : DbKey) : option Q :=
  match k with
  | Db_3rentan => Some 5000
  | Db_2rentan => Some 900
  | _ => None
  end.

Definition result_row (rid : string) (rank : Z) (car klass : string)
    : ResultRow :=
  mkResultRow (py rid) rank (py car) (py klass) payout_cells.

Definition race7_table : RaceResultTable :=
  mkTable true
    [result_row "静岡_2026-01-05_7R" 2 "2" "A1";
     result_row "静岡_2026-01-05_7R" 1 "5" "A1";
     result_row "静岡_2026-01-05_7R" 3 "9" "A2";
     result_row "静岡_2026-01-05_7R" 4 "4" "A2"].

(** The same finish and payouts, with riders of class L1. *)
Definition girls_table : RaceResultTable :=
  mkTable true
    [result_row "静岡_2026-01-05_7R" 2 "2" "L1";
     result_row "静岡_2026-01-05_7R" 1 "5" "L1";
     result_row "静岡_2026-01-05_7R" 3 "9" "L1";
     result_row "静岡_2026-01-05_7R" 4 "4" "L1"].

(** The statistics of the presentation layer ([app_polars.py], "Include
    only Settled Races for statistics"): the rows whose [hit_detail] is
    "結果未着" or "結果待/無" are left out before the rates are taken. *)
Definition is_settled (r : Row) : bool :=
  match hit_detail r with
  | HD_not_arrived | HD_waiting => false
  | _ => true
  end.

Definition disp_hit_rate (df_disp : list Row) : Q :=
  let df_calc := List.filter is_settled df_disp in
  match df_calc with
  | [] => 0.0
  | _ => inject_Z (Z.of_nat (count_hits df_calc))
         / inject_Z (Z.of_nat (length df_calc)) * 100
  end.

(** The confidence level and the recommended numbers of points
    (3連単, 2車単) that the classifier binds with each archetype; [skip]
    and [snipe] bind none. *)
Definition confidence_points_of (rt : RaceType)
    : option (Confidence * (nat * nat)) :=
  match rt with
  | star_makuri => Some (Conf_SS, (4, 2)%nat)
  | star_nige_short => Some (Conf_S, (3, 1)%nat)
  | star_btop_short => Some (Conf_A, (6, 2)%nat)
  | suji_fix => Some (Conf_kiwami, (4, 1)%nat)
  | suji_lead => Some (Conf_high, (8, 3)%nat)
  | line_breaker => Some (Conf_low, (16, 6)%nat)
  | teppan => Some (Conf_high, (6, 3)%nat)
  | two_strong => Some (Conf_high, (8, 4)%nat)
  | chaos => Some (Conf_low, (18, 9)%nat)
  | standard => Some (Conf_mid, (12, 6)%nat)
  | skip | snipe => None
  end.

(** The local variables after the classification, as
    [generate_betting_strategy] computes them. *)
Definition classify (high : bool) (p1 : Scored) (bank_straight : Q)
    (suji_mode : option SujiMode) (strict : bool) (w1 w2 w3 : Q) : Locals :=
  let l0 := mkLocals standard false false None None in
  let l1 := if high then mkLocals snipe false false None None else l0 in
  let l2 := if high then l1 else star_bet p1 bank_straight l1 in
  if negb high && negb (is_star_bet l2)
  then threshold_logic suji_mode strict w1 w2 w3 l2
  else l2.

(** Sum of a column of integers. *)
Definition Zsum (l : list Z) : Z := fold_right Z.add 0%Z l.

(** What the ticket loop keeps true of its accumulators. *)
Definition acc_ok (acc : RaceAcc) : Prop :=
  race_invest acc = Zsum (map tr_invest (race_ticket_rows acc))
  /\ (exists k, race_invest acc = (Z.of_nat k * 100)%Z)
  /\ 0 <= race_return acc
  /\ (hit_strs acc = [] -> race_return acc = 0)
  /\ (hit_strs acc <> [] -> 0 < race_return acc).

(** What every row of the race-level summary satisfies. *)
Definition row_ok (r : Row) : Prop :=
  balance r == benefit r - inject_Z (investment r)
  /\ 0 <= benefit r
  /\ (exists k, investment r = (Z.of_nat k * 100)%Z)
  /\ (is_hit r = true <-> 0 < benefit r)
  /\ (is_hit r = true <-> exists hs, hit_detail r = HD_hits hs)
  /\ hit_detail r <> HD_waiting
  /\ (hit_detail r = HD_not_arrived ->
      investment r = 0%Z /\ benefit r = 0 /\ balance r = 0).

(** [a] was not stored before [b]: its timestamp is not smaller. *)
Definition not_older (a b : History) : Prop :=
  pystr_ltb (h_timestamp a) (h_timestamp b) = false.

(** [s.count(c)] for one code point. *)
Definition count_chr (c : N) (s : pystr) : nat :=
  length (List.filter (N.eqb c) s).

(** A car number that is not negative, or [None]. *)
Definition car_ok (x : pycar) : Prop :=
  match x with Some z => (0 <= z)%Z | None => True end.

(** The separator [ticket_parts] splits a ticket body at: the first of
    ↔, →, = that occurs in it, else the hyphen. *)
Definition separator_of (body : pystr) : N :=
  if negb (count_chr 8596 body =? 0)%nat then 8596%N
  else if negb (count_chr 8594 body =? 0)%nat then 8594%N
  else if negb (count_chr 61 body =? 0)%nat then 61%N
  else 45%N.

(** A text that [strip] leaves alone: not empty, and neither its first
    nor its last character is white space. *)
Definition clean (s : pystr) : Prop :=
  exists h m, isspace h = false
    /\ (s = [h] \/ exists l, isspace l = false /\ s = h :: m ++ [l]).

(** The combination an entry of [structured_bets] stands for, as the
    settlement writes combinations. *)
Definition bet_combination (b : Bet) : list pystr :=
  map str_of_Z (bet_first b ++ bet_second b ++ bet_third b).

(** Three riders, the first two well ahead of the third: a race of two
    strong riders. *)
Definition two_df : DataFrame :=
  mkDF [C_kyoso_tokuten]
    [plain_rider 1 80; plain_rider 2 70; plain_rider 3 50].

Definition two_scored : ScoredFrame :=
  Eval vm_compute in scored_of two_df.

(** Five riders at 前橋, a velodrome with a short straight; rider 1
    dominates the escape counts. *)
Definition maebashi_rider (c : Z) (rating nige : Q) : Rider :=
  mkRider c [] (Some rating) false [] (py "前橋") [] [] None (Some nige)
    (Some 0) None false false false.

Definition maebashi_df : DataFrame :=
  mkDF [C_kyoso_tokuten; C_keirinjo; C_nige; C_makuri]
    [maebashi_rider 1 95 8; maebashi_rider 2 90 1; maebashi_rider 3 88 0;
     maebashi_rider 4 85 0; maebashi_rider 5 80 0].

Definition maebashi_scored : ScoredFrame :=
  Eval vm_compute in scored_of maebashi_df.



(** The cars of a row of the bonus formation: the candidates that are
    not 0. *)
Definition row_cars (flow : list Z) : list Z :=
  List.filter (fun x => negb (x =? 0)%Z) flow.

(** The number of combinations of the formation ticket of an archetype,
    for a race of [n] riders, [4 <= n]. *)
Definition formation_points (rt : RaceType) (n : nat) : nat :=
  match rt with
  | teppan => 3
  | standard => if (5 <=? n)%nat then 5 else 3
  | chaos => if (5 <=? n)%nat then 11 else 7
  | _ => 0
  end.

(** The other statistics of the presentation layer, recalculated from the
    rows on display: [df_calc] is [df_disp] without the rows whose
    [hit_detail] is "結果未着" or "結果待/無". *)
Definition disp_invest (df_disp : list Row) : Z :=
  let df_calc := List.filter is_settled df_disp in
  match df_calc with
  | [] => 0%Z
  | _ => Zsum (map investment df_calc)
  end.

Definition disp_return (df_disp : list Row) : Q :=
  let df_calc := List.filter is_settled df_disp in
  match df_calc with
  | [] => 0
  | _ => Qsum (map benefit df_calc)
  end.

Definition disp_rec (df_disp : list Row) : Q :=
  let df_calc := List.filter is_settled df_disp in
  match df_calc with
  | [] => 0.0
  | _ =>
      if (0 <? disp_invest df_disp)%Z
      then disp_return df_disp / inject_Z (disp_invest df_disp) * 100
      else 0.0
  end.

Definition disp_hit (df_disp : list Row) : nat :=
  let df_calc := List.filter is_settled df_disp in
  match df_calc with
  | [] => 0%nat
  | _ => count_hits df_calc
  end.

Definition disp_cnt (df_disp : list Row) : nat :=
  length (List.filter is_settled df_disp).

(** The combinations the settlement charges for one ticket when it
    settles it as an exacta: the ordered pairs the ticket stakes, one
    entry per stake. *)
Definition staked_of (set_order : list pystr -> list pystr)
    (top3 : list pystr) (payouts : gmap PayKey Q) (t : pystr)
    : list (list pystr) :=
  let r := settle_ticket set_order top3 payouts t in
  match tk_type r with
  | TT_2shatan => tk_combinations r
  | _ => []
  end.

(** The ordered pairs the tickets of a recommendation stake, as
    [analyze_prediction_history] expands them. *)
Definition staked_exacta (set_order : list pystr -> list pystr)
    (top3 : list pystr) (payouts : gmap PayKey Q) (tickets : list pystr)
    : list (list pystr) :=
  flat_map (staked_of set_order top3 payouts) tickets.

(** The ordered pairs named by the exacta and fold tickets that
    [generate_betting_strategy] writes for an archetype: [c1 → c2,c3]
    for STAR_CHASE_JUMP, [c1 → pt (1点)] for STAR_ESCAPE_SHORT, and both
    directions of [c1 ↔ pt] for STAR_BTOP_SHORT; the other archetypes
    have trifecta tickets only. *)
Definition archetype_pairs (rt : RaceType) (c1 c2 c3 pt : Z)
    : list (Z * Z) :=
  match rt with
  | star_makuri => [(c1, c2); (c1, c3)]
  | star_nige_short => [(c1, pt)]
  | star_btop_short => [(c1, pt); (pt, c1)]
  | _ => []
  end.

(** The cars of the base exacta: those among the second, third and
    fourth rider that no pair of the archetype names behind [c1]. *)
Definition base_flow (rt : RaceType) (c1 c2 c3 pt : Z) (c4 : pycar)
    : list Z :=
  List.filter
    (fun x =>
       negb (bool_decide ((c1, x) ∈ archetype_pairs rt c1 c2 c3 pt)))
    (flow_cars c2 c3 c4).

(** An ordered pair as the settlement writes a combination. *)
Definition combo (p : Z * Z) : list pystr :=
  [str_of_Z (fst p); str_of_Z (snd p)].

(** The combination the settlement reads from the archetype's ticket for
    a pair: the one-point exacta of STAR_ESCAPE_SHORT ends in [" (1点)"],
    which the settlement keeps behind the second car. *)
Definition pair_text (rt : RaceType) (p : Z * Z) : list pystr :=
  match rt with
  | star_nige_short =>
      [str_of_Z (fst p); str_of_Z (snd p) ++ py " (1点)"]
  | _ => combo p
  end.

(** Four riders at 前橋, a velodrome with a short straight; rider 1 has
    the most back-stretch leads. *)
Definition btop_rider (c : Z) (rating b : Q) : Rider :=
  mkRider c [] (Some rating) false [] (py "前橋") [] [] (Some b) None
    None None false false false.

Definition btop_df : DataFrame :=
  mkDF [C_kyoso_tokuten; C_keirinjo; C_B]
    [btop_rider 1 95 10; btop_rider 2 90 1; btop_rider 3 88 0;
     btop_rider 4 85 0].

Definition btop_scored : ScoredFrame :=
  Eval vm_compute in scored_of btop_df.

(** * Lemmas and theorems *)

(** * The classifier: totality *)

Lemma insert_desc_length {A : Type} (gt : A -> A -> bool) (x : A)
    (l : list A) :
  length (insert_desc gt x l) = S (length l).
Proof.
  induction l as [|y r IH]; simpl; [reflexivity|].
  destruct (gt y x); simpl; [by rewrite IH | reflexivity].
Qed.

Lemma sort_desc_length {A : Type} (gt : A -> A -> bool) (l : list A) :
  length (sort_desc gt l) = length l.
Proof.
  induction l as [|x r IH]; simpl; [reflexivity|].
  by rewrite insert_desc_length, IH.
Qed.

(** Fewer than three riders: the insufficient-data dictionary, with an
    empty ticket list, whatever the other inputs are. *)
Lemma insufficient_data_is_explicit
    (specs : pystr -> option (Q * Q * Q)) (pred_df : ScoredFrame)
    (ai_match_cars : list Z) :
  (length (sf_rows pred_df) < 3)%nat ->
  generate_betting_strategy specs pred_df ai_match_cars
  = Return (Rec_error []).
Proof.
  intros Hlen. unfold generate_betting_strategy.
  pose proof (sort_desc_length
    (fun a b => Qltb (score_col b) (score_col a)) (sf_rows pred_df)) as Hs.
  destruct (sort_desc _ (sf_rows pred_df)) as [|p1 [|p2 [|p3 rest]]];
    try reflexivity.
  simpl in Hs. lia.
Qed.

(** C1 (the code departs from the claim): on the nine-rider race the
    classifier reaches the [skip] branch, which binds neither
    [confidence_level] nor [recommended_points], and the [return]
    statement raises [UnboundLocalError]; the claim says that every race
    of three or more scored riders gets an archetype without an
    exception. *)
Theorem C1_skip_branch_raises (specs : pystr -> option (Q * Q * Q)) :
  calculate_ai_score specs nine_df = Return nine_scored
  /\ (3 <= length (sf_rows nine_scored))%nat
  /\ generate_betting_strategy specs nine_scored []
     = Raise UnboundLocalError.
Proof.
  split; [vm_compute; reflexivity|].
  split; [vm_compute; lia|].
  vm_compute. reflexivity.
Qed.

(** The high-return branch ([snipe]) has the same defect. *)
Lemma snipe_branch_raises (specs : pystr -> option (Q * Q * Q)) :
  generate_betting_strategy specs example_scored [2%Z]
  = Raise UnboundLocalError.
Proof. vm_compute. reflexivity. Qed.

(** * The example race *)

(** C3, as stated, fails: the classifier does not return [standard] on
    the race of the example. *)
Lemma C3_example_not_standard :
  ~ (exists s, generate_betting_strategy sample_specs example_scored []
               = Return (Rec s)
               /\ s_type s = standard).
Proof.
  intros (s & Hs & Ht). vm_compute in Hs.
  injection Hs as Hs. subst s. discriminate Ht.
Qed.

(** C3 (amended): on this race the scoring engine leaves every score
    equal to the rating, and the classifier, which turns the raw scores
    into shares of their sum (95/591 = 16.07%, 15.23%, 14.89%), returns
    [chaos]: the top share is at least 12 and below 25, and the gap to
    the third share is below 5. *)
Theorem C3_example_is_chaos (specs : pystr -> option (Q * Q * Q)) :
  calculate_ai_score specs example_df = Return example_scored
  /\ Forall2 (fun r b => ai_score r == b /\ base_score r == b)
       (sf_rows example_scored) [95; 90; 88; 85; 80; 78; 75]
  /\ exists s,
       generate_betting_strategy specs example_scored [] = Return (Rec s)
       /\ s_type s = chaos
       /\ s_top_win_rate s == 9500 # 591.
Proof.
  split; [vm_compute; reflexivity|].
  split.
  - unfold example_scored; simpl.
    repeat (constructor; [split; reflexivity|]). constructor.
  - eexists. split; [vm_compute; reflexivity|].
    split; reflexivity.
Qed.

(** * The scoring engine: what a rule can take away *)

Lemma Qleb_true (a b : Q) : Qleb a b = true <-> a <= b.
Proof. apply Qle_bool_iff. Qed.

Lemma Qltb_true (a b : Q) : Qltb a b = true <-> a < b.
Proof.
  unfold Qltb. rewrite negb_true_iff. split.
  - intros H. apply Qnot_le_lt. intros Hle.
    apply Qle_bool_iff in Hle. congruence.
  - intros H. destruct (Qle_bool b a) eqn:E; [|reflexivity].
    apply Qle_bool_iff in E. lra.
Qed.

Lemma Qltb_false (a b : Q) : Qltb a b = false <-> b <= a.
Proof.
  unfold Qltb. rewrite negb_false_iff. apply Qle_bool_iff.
Qed.







Section Rules.
Variable specs : pystr -> option (Q * Q * Q).




Lemma car_is_rider (c : Z) (r : Scored) :
  car_is c r = (fun rd => (shaban rd =? c)%Z) (rider r).
Proof. reflexivity. Qed.




















(** ** The three parts of the V3 adjustment *)

Lemma v3_row_features hs sh lg nc nm (f : Scored) :
  same_features f (v3_row hs sh lg nc nm f).
Proof.
  unfold v3_row. destruct (nige_conflict_logic _ _ _ _ _) as [sa ta].
  repeat split.
Qed.

Lemma v3_row_sum hs sh lg nc nm (f : Scored) :
  let r' := v3_row hs sh lg nc nm f in
  ai_score r'
  == ai_score f + fst (btop_part sh lg f) + fst (dominance_part sh f)
     + fst (conflict_part hs nc nm f)
  /\ ai_tag r'
     = ai_tag f ++ snd (btop_part sh lg f) ++ snd (dominance_part sh f)
       ++ snd (conflict_part hs nc nm f).
Proof.
  unfold v3_row, nige_conflict_logic, dominance_logic, btop_logic,
    conflict_part, dominance_part, btop_part, sashi_penalised, nige_boosted,
    acc_add.
  destruct (is_b_top f), sh, lg, (is_dom_makuri f), (is_dom_nige f),
    (is_dom_sashi f), (3 <=? nc)%nat,
    (contains (py "差") (if hs then kyakushitsu (rider f) else []));
    cbn [negb andb orb fst snd app ai_score ai_tag];
    try destruct (Qeqb (nige_val f) nm && Qleb 5 (nige_val f));
    cbn [fst snd app ai_score ai_tag];
    (split; [lra | rewrite <- ?app_assoc; reflexivity]).
Qed.

Lemma Forall2_imap {A B : Type} (R : A -> B -> Prop) (g : nat -> A -> B)
    (l : list A) :
  (forall i x, R x (g i x)) -> Forall2 R l (imap g l).
Proof.
  revert g. induction l as [|x l IH]; intros g Hg; simpl; constructor.
  - apply Hg.
  - apply IH. intros i y. apply Hg.
Qed.

Lemma v3_features_keeps (sf : ScoredFrame) :
  Forall2
    (fun r f =>
       rider f = rider r /\ base_score f = base_score r
       /\ ai_score f = ai_score r /\ ai_tag f = ai_tag r)
    (sf_rows sf) (v3_features sf).
Proof.
  unfold v3_features. apply Forall2_imap. intros i x. repeat split.
Qed.

(** The frame [apply_v3_logic] returns, row by row. *)
Lemma apply_v3_logic_rows (sf sf' : ScoredFrame) :
  apply_v3_logic specs sf = Return sf' ->
  let F := v3_features sf in
  Forall2
    (fun r r' =>
       exists f,
         rider f = rider r /\ base_score f = base_score r
         /\ ai_score f = ai_score r /\ ai_tag f = ai_tag r
         /\ r' = v3_row (sf_has C_kyakushitsu sf)
                   (is_short_bank_of specs sf) (is_long_bank_of specs sf)
                   (nige_count_of F) (nige_max_of F) f)
    (sf_rows sf) (sf_rows sf')
  /\ nige_count_of (sf_rows sf') = nige_count_of F
  /\ (sf_rows sf <> [] -> nige_max_of (sf_rows sf') = nige_max_of F).
Proof.
  intros H F. unfold apply_v3_logic in H.
  destruct (sf_rows sf) as [|first rest] eqn:Er.
  { injection H as <-. rewrite Er.
    split; [constructor|]. split; [|congruence].
    subst F. unfold v3_features. rewrite Er. reflexivity. }
  destruct (sf_tagged sf); [|discriminate].
  injection H as <-. cbn [sf_rows]. fold F.
  pose proof (v3_features_keeps sf) as Hk. rewrite Er in Hk. fold F in Hk.
  set (step := v3_row _ _ _ _ _).
  assert (Hv : map nige_val (map step F) = map nige_val F).
  { rewrite map_map. apply map_ext. intros f. subst step.
    pose proof (v3_row_features (sf_has C_kyakushitsu sf)
      (is_short_bank_of specs sf) (is_long_bank_of specs sf)
      (nige_count_of F) (nige_max_of F) f) as Hf.
    unfold same_features in Hf. tauto. }
  split; [|split].
  - clear Hv. clearbody step. clearbody F.
    generalize dependent (first :: rest). intros l0 _ Hk.
    induction Hk as [|r f l lf Hrf _ IH]; simpl; constructor.
    + exists f. tauto.
    + exact IH.
  - unfold nige_count_of.
    rewrite <- !(length_map nige_val).
    assert (Hfilter : forall l : list Scored,
      map nige_val (List.filter (fun r => Qleb 3 (nige_val r)) l)
      = List.filter (Qleb 3) (map nige_val l)).
    { induction l as [|x l IHl]; simpl; [reflexivity|].
      destruct (Qleb 3 (nige_val x)); simpl; congruence. }
    rewrite !Hfilter, Hv. reflexivity.
  - intros _. unfold nige_max_of. rewrite Hv. reflexivity.
Qed.

Lemma parts_of_output hs sh lg nc nm (f r' : Scored) :
  same_features f r' ->
  btop_part sh lg r' = btop_part sh lg f
  /\ dominance_part sh r' = dominance_part sh f
  /\ conflict_part hs nc nm r' = conflict_part hs nc nm f
  /\ sashi_penalised hs r' = sashi_penalised hs f
  /\ nige_boosted nm r' = nige_boosted nm f.
Proof.
  unfold same_features, btop_part, dominance_part, conflict_part,
    sashi_penalised, nige_boosted.
  intros (-> & _ & _ & -> & _ & _ & -> & -> & -> & ->). repeat split.
Qed.




(** The final score and tags of every rider, as the sum of the three
    parts of the V3 adjustment. *)
Lemma v3_decomposition (sf sf' : ScoredFrame) :
  apply_v3_logic specs sf = Return sf' ->
  Forall2
    (fun r r' =>
       let short := is_short_bank_of specs sf in
       let long := is_long_bank_of specs sf in
       let dominance := dominance_part short r' in
       let conflict :=
         conflict_part (sf_has C_kyakushitsu sf)
           (nige_count_of (sf_rows sf')) (nige_max_of (sf_rows sf')) r' in
       ai_score r'
       == ai_score r + fst (btop_part short long r') + fst dominance
          + fst conflict
       /\ ai_tag r'
          = ai_tag r ++ snd (btop_part short long r') ++ snd dominance
            ++ snd conflict)
    (sf_rows sf) (sf_rows sf').
Proof.
  intros H. pose proof (apply_v3_logic_rows sf sf' H) as (Hrows & Hc & Hm).
  destruct (sf_rows sf) as [|r0 l0] eqn:Er.
  { inversion Hrows. constructor. }
  rewrite Hc, Hm by discriminate.
  eapply Forall2_impl; [exact Hrows|].
  intros r r' (f & Hr & Hb & Hs & Ht & Hr'). cbn zeta.
  pose proof (v3_row_features (sf_has C_kyakushitsu sf)
    (is_short_bank_of specs sf) (is_long_bank_of specs sf)
    (nige_count_of (v3_features sf)) (nige_max_of (v3_features sf)) f) as Hf.
  rewrite <- Hr' in Hf.
  pose proof (parts_of_output (sf_has C_kyakushitsu sf)
    (is_short_bank_of specs sf) (is_long_bank_of specs sf)
    (nige_count_of (v3_features sf)) (nige_max_of (v3_features sf)) f r' Hf)
    as (Hp1 & Hp2 & Hp3 & _ & _).
  rewrite Hp1, Hp2, Hp3, <- Hs, <- Ht, Hr'.
  apply v3_row_sum.
Qed.

(** C6 (amended): the bonuses of different rules add up on one rider: the
    final score is the classic score plus the B-top bonus, plus one
    dominance bonus, plus the contested-escape adjustment.  The dominance
    overlay itself is an if/elif chain: a rider gets the first bonus that
    applies among chase-jump (+6.0), escape (+5.0 on a short straight,
    +3.0 otherwise) and closer (+2.0), never two of them. *)
Theorem C6_one_dominance_bonus_per_rider (sf sf' : ScoredFrame) :
  apply_v3_logic specs sf = Return sf' ->
  Forall2
    (fun r r' =>
       let short := is_short_bank_of specs sf in
       let long := is_long_bank_of specs sf in
       let dominance :=
         if is_dom_makuri r' then (6.0, [Tag_dom_makuri])
         else if is_dom_nige r' then
           if short then (5.0, [Tag_dom_nige_short])
           else (3.0, [Tag_dom_nige])
         else if is_dom_sashi r' then (2.0, [Tag_dom_sashi])
         else (0, []) in
       let conflict :=
         conflict_part (sf_has C_kyakushitsu sf)
           (nige_count_of (sf_rows sf')) (nige_max_of (sf_rows sf')) r' in
       ai_score r'
       == ai_score r + fst (btop_part short long r') + fst dominance
          + fst conflict
       /\ ai_tag r'
          = ai_tag r ++ snd (btop_part short long r') ++ snd dominance
            ++ snd conflict)
    (sf_rows sf) (sf_rows sf').
Proof.
  intros H. exact (v3_decomposition sf sf' H).
Qed.

(** C7 (amended): in a race where at least three riders have an escape
    count of 3 or more, the engine takes 1.0 from every closer-tagged
    rider that is not closer-dominant (escape or chase-jump dominance
    does not exempt), and adds 2.0 to every rider that is
    escape-dominant or whose escape count is the highest of the race and
    at least 5, whether or not the rider already has a dominance
    bonus. *)
Theorem C7_contested_escape_adjustment (sf sf' : ScoredFrame) :
  apply_v3_logic specs sf = Return sf' ->
  (3 <= nige_count_of (sf_rows sf'))%nat ->
  Forall2
    (fun r r' =>
       let short := is_short_bank_of specs sf in
       let long := is_long_bank_of specs sf in
       let style :=
         if sf_has C_kyakushitsu sf then kyakushitsu (rider r') else [] in
       let penalised := contains (py "差") style && negb (is_dom_sashi r') in
       let boosted :=
         is_dom_nige r'
         || Qeqb (nige_val r') (nige_max_of (sf_rows sf'))
            && Qleb 5 (nige_val r') in
       ai_score r'
       == ai_score r + fst (btop_part short long r')
          + fst (dominance_part short r')
          + (if penalised then -1.0 else 0) + (if boosted then 2.0 else 0)
       /\ ai_tag r'
          = ai_tag r ++ snd (btop_part short long r')
            ++ snd (dominance_part short r')
            ++ (if penalised then [Tag_gekisen_sashi] else [])
            ++ (if boosted then [Tag_gekisen_nige] else []))
    (sf_rows sf) (sf_rows sf').
Proof.
  intros H Hn.
  pose proof (v3_decomposition sf sf' H) as H6.
  eapply Forall2_impl; [exact H6|].
  intros r r' (Hs & Ht). cbn zeta in *.
  unfold conflict_part in Hs, Ht.
  apply Nat.leb_le in Hn. rewrite Hn in Hs, Ht.
  unfold sashi_penalised, nige_boosted in Hs, Ht. cbn [fst snd] in Hs, Ht.
  split; [rewrite Hs; lra | exact Ht].
Qed.





End Rules.

(** Three riders in one line at 静岡: the third rider has +2.0 for the
    third position of the longest line and 0.5 - 1.0 from the correction
    for the unique longest line; the first two have 1.5 - 1.0. *)
Lemma line_rule_at_shizuoka :
  exists sf,
    calculate_ai_score sample_specs shizuoka_df = Return sf
    /\ Forall2 Qeq (map ai_score (sf_rows sf)) [90.5; 85.5; 81.5].
Proof.
  eexists. split; [vm_compute; reflexivity|].
  repeat constructor.
Qed.


(** C6, as stated, fails: a rider that dominates both the escape and the
    chase-jump counts has the chase-jump bonus only. *)
Lemma C6_double_dominance_gets_one_bonus :
  ~ dominance_bonuses_stack (scored_of double_dominant_df).
Proof.
  intros H.
  destruct (H (hd (init_row (plain_rider 0 0))
                 (sf_rows (scored_of double_dominant_df))))
    as [_ [Hn | Hn]];
    try (vm_compute; tauto);
    vm_compute in Hn; intuition discriminate.
Qed.

Lemma C6_one_dominance_bonus_per_rider_witness :
  apply_v3_logic sample_specs (classic_of double_dominant_df)
  = Return (scored_of double_dominant_df)
  /\ Forall2
       (fun r r' =>
          let short :=
            is_short_bank_of sample_specs (classic_of double_dominant_df) in
          let long :=
            is_long_bank_of sample_specs (classic_of double_dominant_df) in
          let dominance :=
            if is_dom_makuri r' then (6.0, [Tag_dom_makuri])
            else if is_dom_nige r' then
              if short then (5.0, [Tag_dom_nige_short])
              else (3.0, [Tag_dom_nige])
            else if is_dom_sashi r' then (2.0, [Tag_dom_sashi])
            else (0, []) in
          let conflict :=
            conflict_part
              (sf_has C_kyakushitsu (classic_of double_dominant_df))
              (nige_count_of (sf_rows (scored_of double_dominant_df)))
              (nige_max_of (sf_rows (scored_of double_dominant_df))) r' in
          ai_score r'
          == ai_score r + fst (btop_part short long r') + fst dominance
             + fst conflict
          /\ ai_tag r'
             = ai_tag r ++ snd (btop_part short long r') ++ snd dominance
               ++ snd conflict)
       (sf_rows (classic_of double_dominant_df))
       (sf_rows (scored_of double_dominant_df)).
Proof.
  assert (H : apply_v3_logic sample_specs (classic_of double_dominant_df)
              = Return (scored_of double_dominant_df))
    by (vm_compute; reflexivity).
  split; [exact H|].
  exact (C6_one_dominance_bonus_per_rider sample_specs _ _ H).
Defined.

(** C7, as stated, fails: with escape counts 8, 3 and 3 the first rider
    is escape-dominant, has the dominance bonus and gets the +2.0 of the
    contested escape as well. *)
Lemma C7_dominant_rider_is_boosted_again :
  ~ boost_only_without_dominance (scored_of contested_df).
Proof.
  intros H.
  apply (H (hd (init_row (plain_rider 0 0))
              (sf_rows (scored_of contested_df)))).
  - vm_compute. tauto.
  - vm_compute. tauto.
  - vm_compute. tauto.
Qed.

Lemma C7_contested_escape_adjustment_witness :
  apply_v3_logic sample_specs (classic_of contested_df)
  = Return (scored_of contested_df)
  /\ (3 <= nige_count_of (sf_rows (scored_of contested_df)))%nat
  /\ Forall2
       (fun r r' =>
          let short :=
            is_short_bank_of sample_specs (classic_of contested_df) in
          let long :=
            is_long_bank_of sample_specs (classic_of contested_df) in
          let style :=
            if sf_has C_kyakushitsu (classic_of contested_df)
            then kyakushitsu (rider r') else [] in
          let penalised :=
            contains (py "差") style && negb (is_dom_sashi r') in
          let boosted :=
            is_dom_nige r'
            || Qeqb (nige_val r')
                 (nige_max_of (sf_rows (scored_of contested_df)))
               && Qleb 5 (nige_val r') in
          ai_score r'
          == ai_score r + fst (btop_part short long r')
             + fst (dominance_part short r')
             + (if penalised then -1.0 else 0)
             + (if boosted then 2.0 else 0)
          /\ ai_tag r'
             = ai_tag r ++ snd (btop_part short long r')
               ++ snd (dominance_part short r')
               ++ (if penalised then [Tag_gekisen_sashi] else [])
               ++ (if boosted then [Tag_gekisen_nige] else []))
       (sf_rows (classic_of contested_df))
       (sf_rows (scored_of contested_df)).
Proof.
  assert (H : apply_v3_logic sample_specs (classic_of contested_df)
              = Return (scored_of contested_df))
    by (vm_compute; reflexivity).
  assert (Hn : (3 <= nige_count_of (sf_rows (scored_of contested_df)))%nat)
    by (vm_compute; lia).
  split; [exact H|]. split; [exact Hn|].
  exact (C7_contested_escape_adjustment sample_specs _ _ H Hn).
Defined.

(** * Settlement: the stake of a ticket *)

Lemma emit_counted (k : nat) (cs : list (list pystr)) (acc : Acc) :
  length cs = k -> counted acc -> counted (emit k cs acc).
Proof.
  unfold counted, emit. intros <- H. cbn [fst snd].
  rewrite length_app. lia.
Qed.

Lemma fold_left_invariant {A B : Type} (P : A -> Prop) (f : A -> B -> A)
    (l : list B) (a : A) :
  (forall a b, P a -> P (f a b)) -> P a -> P (fold_left f l a).
Proof.
  intros Hf. revert a. induction l as [|b l IH]; intros a Ha; simpl.
  - exact Ha.
  - apply IH, Hf, Ha.
Qed.

Lemma loop3_counted g1 g2 g3 acc : counted acc -> counted (loop3 g1 g2 g3 acc).
Proof.
  unfold loop3. apply fold_left_invariant. intros a c1.
  apply fold_left_invariant. intros a' c2 Ha'.
  destruct (eqb c1 c2); [exact Ha'|].
  revert Ha'. apply fold_left_invariant. intros a'' c3 Ha''.
  destruct (eqb c3 c1 || eqb c3 c2); [exact Ha''|].
  apply emit_counted; [reflexivity | exact Ha''].
Qed.

Lemma loop2_counted g1 g2 acc : counted acc -> counted (loop2 g1 g2 acc).
Proof.
  unfold loop2. apply fold_left_invariant. intros a c1.
  apply fold_left_invariant. intros a' c2 Ha'.
  destruct (eqb c1 c2); [exact Ha'|].
  apply emit_counted; [reflexivity | exact Ha'].
Qed.








Lemma eqb_true (a b : pystr) : eqb a b = true <-> a = b.
Proof. unfold eqb. apply bool_decide_eq_true. Qed.

(** ** The fold expansion *)

Lemma loop_fold_inner (c1 : pystr) (rest : list pystr) (acc : Acc) :
  fold_left (fun acc c2 => emit 2 [[c1; c2]; [c2; c1]] acc) rest acc
  = ((fst acc + 2 * length rest)%nat,
     snd acc ++ flat_map (fun c2 => [[c1; c2]; [c2; c1]]) rest).
Proof.
  revert acc. induction rest as [|c2 rest IH]; intros [n cs]; simpl.
  - rewrite app_nil_r. f_equal. lia.
  - rewrite IH. unfold emit. cbn [fst snd].
    f_equal; [lia|]. rewrite <- app_assoc. reflexivity.
Qed.

Lemma both_directions_length (c1 : pystr) (rest : list pystr) :
  length (flat_map (fun c2 => [[c1; c2]; [c2; c1]]) rest)
  = (2 * length rest)%nat.
Proof. induction rest as [|c2 rest IH]; simpl; lia. Qed.

Lemma loop_fold_spec (l : list pystr) (acc : Acc) :
  loop_fold l acc
  = ((fst acc + length (fold_pairs l))%nat, snd acc ++ fold_pairs l).
Proof.
  revert acc. induction l as [|c1 rest IH]; intros [n cs]; simpl.
  - rewrite app_nil_r. f_equal. lia.
  - rewrite loop_fold_inner, IH. cbn [fst snd].
    rewrite length_app, both_directions_length.
    f_equal; [lia|]. rewrite <- app_assoc. reflexivity.
Qed.

Lemma fold_pairs_In (l : list pystr) (c : list pystr) :
  NoDup l ->
  In c (fold_pairs l)
  <-> exists a b, c = [a; b] /\ In a l /\ In b l /\ a <> b.
Proof.
  induction l as [|c1 rest IH]; intros Hnd.
  - simpl. split; [tauto | intros (a & b & _ & [] & _)].
  - apply NoDup_cons in Hnd as [Hc1 Hrest].
    rewrite list_elem_of_In in Hc1.
    cbn [fold_pairs]. rewrite in_app_iff, in_flat_map, (IH Hrest).
    split.
    + intros [(c2 & Hc2 & Hc) | (a & b & -> & Ha & Hb & Hab)].
      * assert (Hne : c1 <> c2) by (intros ->; tauto).
        destruct Hc as [<- | [<- | []]].
        -- exists c1, c2. simpl. tauto.
        -- exists c2, c1. simpl. split; [reflexivity|].
           split; [tauto|]. split; [tauto | congruence].
      * exists a, b. simpl. tauto.
    + intros (a & b & -> & [<- | Ha] & [<- | Hb] & Hab).
      * congruence.
      * left. exists b. simpl. tauto.
      * left. exists a. simpl. tauto.
      * right. exists a, b. tauto.
Qed.

Lemma fold_pairs_length (l : list pystr) :
  length (fold_pairs l) = (length l * (length l - 1))%nat.
Proof.
  induction l as [|c1 rest IH]; [reflexivity|].
  cbn [fold_pairs]. rewrite length_app, both_directions_length, IH.
  simpl. nia.
Qed.

(** ** The expansions are free of repetitions *)

Lemma fold_left_snd_flat_map {B : Type} (step : Acc -> B -> Acc)
    (f : B -> list (list pystr)) (l : list B) (acc : Acc) :
  (forall a b, snd (step a b) = snd a ++ f b) ->
  snd (fold_left step l acc) = snd acc ++ flat_map f l.
Proof.
  intros H. revert acc. induction l as [|b l IH]; intros acc; simpl.
  - rewrite app_nil_r. reflexivity.
  - rewrite IH, H, <- app_assoc. reflexivity.
Qed.

Lemma loop3_snd (g1 g2 g3 : list pystr) (acc : Acc) :
  snd (loop3 g1 g2 g3 acc) = snd acc ++ expand3 g1 g2 g3.
Proof.
  unfold loop3, expand3.
  apply fold_left_snd_flat_map. intros a c1.
  apply fold_left_snd_flat_map. intros a' c2.
  destruct (eqb c1 c2); [rewrite app_nil_r; reflexivity|].
  apply fold_left_snd_flat_map. intros a'' c3.
  destruct (eqb c3 c1 || eqb c3 c2); [rewrite app_nil_r|]; reflexivity.
Qed.

Lemma loop2_snd (g1 g2 : list pystr) (acc : Acc) :
  snd (loop2 g1 g2 acc) = snd acc ++ expand2 g1 g2.
Proof.
  unfold loop2, expand2.
  apply fold_left_snd_flat_map. intros a c1.
  apply fold_left_snd_flat_map. intros a' c2.
  destruct (eqb c1 c2); [rewrite app_nil_r|]; reflexivity.
Qed.











(** A group that lists an entry twice is expanded twice: the stake counts
    combinations as they are written, not the distinct ones. *)
Lemma repeated_entry_is_charged_twice :
  let r := settle_ticket (fun l => l) [py "5"; py "2"; py "9"] ∅
             (py "3連単: 1,1 → 2 → 3") in
  tk_combinations r = [[py "1"; py "2"; py "3"]; [py "1"; py "2"; py "3"]]
  /\ tk_invest r = 200%Z.
Proof. vm_compute. split; reflexivity. Qed.


(** * Settlement: the result map *)

Lemma build_race_map_lookup (has_kyuhan : bool) (df_db : list ResultRow)
    (rid : pystr) (info : ResInfo) :
  build_race_map has_kyuhan df_db !! rid = Some info ->
  res_info_of has_kyuhan (group rid df_db) = Some info.
Proof.
  unfold build_race_map.
  generalize (unique [] (map race_id df_db)).
  intros keys.
  assert (Hgen : forall (m : gmap pystr ResInfo),
    (m !! rid = Some info ->
     res_info_of has_kyuhan (group rid df_db) = Some info) ->
    fold_left
      (fun m rid0 =>
         match res_info_of has_kyuhan (group rid0 df_db) with
         | Some info0 => <[rid0 := info0]> m
         | None => m
         end) keys m !! rid = Some info ->
    res_info_of has_kyuhan (group rid df_db) = Some info).
  { induction keys as [|k keys IH]; intros m Hm; simpl; [exact Hm|].
    apply IH.
    destruct (res_info_of has_kyuhan (group k df_db)) as [i0|] eqn:E;
      [|exact Hm].
    destruct (decide (k = rid)) as [->|Hne].
    - rewrite lookup_insert_eq. intros [= <-]. exact E.
    - rewrite lookup_insert_ne by exact Hne. exact Hm. }
  apply Hgen. rewrite lookup_empty. discriminate.
Qed.

Lemma res_info_not_girls (has_kyuhan : bool) (grp : list ResultRow)
    (info : ResInfo) :
  res_info_of has_kyuhan grp = Some info ->
  is_girls has_kyuhan grp = false /\ grp <> [].
Proof.
  unfold res_info_of. destruct (is_girls has_kyuhan grp); [discriminate|].
  destruct grp; [discriminate|]. intros _. split; [reflexivity | discriminate].
Qed.

(** A row that was loaded brings along every row of its race. *)
Lemma load_results_whole_race (tbl : RaceResultTable)
    (rids_list : list pystr) (row row' : ResultRow) :
  In row (load_results tbl rids_list) ->
  In row' (tbl_rows tbl) -> race_id row' = race_id row ->
  In row' (load_results tbl rids_list).
Proof.
  unfold load_results. intros Hin Hrow' Hid.
  apply in_concat in Hin as (chunk_df & Hc & Hin).
  apply filter_In in Hc as [Hc Hne].
  apply in_map_iff in Hc as (chunk & <- & Hchunk).
  apply in_concat. exists (query tbl chunk). split.
  - apply filter_In. split; [apply in_map; exact Hchunk | exact Hne].
  - unfold query in *. apply filter_In in Hin as [_ Hin].
    apply filter_In. split; [exact Hrow'|]. rewrite Hid. exact Hin.
Qed.

Lemma load_results_from_table (tbl : RaceResultTable)
    (rids_list : list pystr) (row : ResultRow) :
  In row (load_results tbl rids_list) -> In row (tbl_rows tbl).
Proof.
  unfold load_results. intros Hin.
  apply in_concat in Hin as (chunk_df & Hc & Hin).
  apply filter_In in Hc as [Hc _].
  apply in_map_iff in Hc as (chunk & <- & _).
  unfold query in Hin. apply filter_In in Hin. tauto.
Qed.

(** A race with a rider of class L has no entry in the result map. *)
Lemma girls_race_not_in_map (tbl : RaceResultTable) (rids_list : list pystr)
    (rid : pystr) (row : ResultRow) :
  tbl_has_kyuhan tbl = true ->
  In row (tbl_rows tbl) -> race_id row = rid ->
  contains (py "L") (class_str row) = true ->
  build_race_map (tbl_has_kyuhan tbl) (load_results tbl rids_list) !! rid
  = None.
Proof.
  intros Hk Hrow Hid HL.
  destruct (build_race_map _ _ !! rid) as [info|] eqn:E; [|reflexivity].
  exfalso. apply build_race_map_lookup in E.
  apply res_info_not_girls in E as [Hg Hne].
  unfold is_girls in Hg. rewrite Hk in Hg. cbn [andb] in Hg.
  destruct (group rid (load_results tbl rids_list)) as [|r0 rest] eqn:Eg;
    [congruence|].
  assert (Hr0 : In r0 (group rid (load_results tbl rids_list)))
    by (rewrite Eg; left; reflexivity).
  unfold group in Hr0. apply filter_In in Hr0 as [Hr0 Hr0id].
  apply eqb_true in Hr0id.
  assert (Hin : In row (group rid (load_results tbl rids_list))).
  { unfold group. apply filter_In. split.
    - eapply load_results_whole_race; [exact Hr0 | exact Hrow | congruence].
    - apply eqb_true. exact Hid. }
  rewrite Eg in Hin.
  assert (Hex : existsb (fun r => contains (py "L") (class_str r))
                  (r0 :: rest) = true).
  { apply existsb_exists. exists row. split; [exact Hin | exact HL]. }
  congruence.
Qed.

Lemma chunks_aux_concat {A : Type} (fuel n : nat) (l : list A) :
  (0 < n)%nat -> (length l <= fuel)%nat ->
  concat (chunks_aux fuel n l) = l.
Proof.
  intros Hn. revert l. induction fuel as [|fuel IH]; intros l Hl.
  - destruct l; [reflexivity | simpl in Hl; lia].
  - destruct l as [|x l]; [reflexivity|].
    cbn [chunks_aux concat]. rewrite IH.
    + apply take_drop.
    + rewrite length_drop. simpl in *. lia.
Qed.

Lemma chunks_concat {A : Type} (n : nat) (l : list A) :
  (0 < n)%nat -> concat (chunks n l) = l.
Proof. intros Hn. apply chunks_aux_concat; [exact Hn | lia]. Qed.

(** Every row of a requested race is loaded. *)
Lemma load_results_complete (tbl : RaceResultTable)
    (rids_list : list pystr) (row : ResultRow) :
  In row (tbl_rows tbl) -> In (race_id row) rids_list ->
  In row (load_results tbl rids_list).
Proof.
  intros Hrow Hid. unfold load_results.
  rewrite <- (chunks_concat chunk_size rids_list) in Hid
    by (unfold chunk_size; lia).
  apply in_concat in Hid as (chunk & Hchunk & Hid).
  assert (Hq : In row (query tbl chunk)).
  { unfold query. apply filter_In. split; [exact Hrow|].
    apply bool_decide_eq_true. apply list_elem_of_In. exact Hid. }
  apply in_concat. exists (query tbl chunk). split; [|exact Hq].
  apply filter_In. split; [apply in_map; exact Hchunk|].
  apply negb_true_iff, bool_decide_eq_false.
  intros E. rewrite E in Hq. destruct Hq.
Qed.

Section SettlementFacts.
Variable set_order : list pystr -> list pystr.

(** C10: a race whose stored rows include a rider whose class string
    contains 'L' gets no entry in the result map, so the analysis
    returns and reports every recommendation for it as "結果未着", with
    no investment, no return and no hit, whatever finish order and
    payouts are stored. *)
Theorem C10_girls_race_is_reported_as_awaiting
    (history_data : list History) (tbl : RaceResultTable) (rid : pystr) :
  tbl_has_kyuhan tbl = true ->
  (exists row, In row (tbl_rows tbl) /\ race_id row = rid
               /\ contains (py "L") (class_str row) = true) ->
  In rid (set_order (target_rids history_data)) ->
  exists a,
    analyze_prediction_history set_order history_data tbl = Return a
    /\ forall r, In r (df_res a) -> row_rid (row_history r) = rid ->
         hit_detail r = HD_not_arrived /\ investment r = 0%Z
         /\ benefit r == 0 /\ is_hit r = false.
Proof.
  intros Hk (row & Hrow & Hid & HL) Hreq.
  unfold analyze_prediction_history.
  destruct history_data as [|h0 hs];
    [eexists; split; [reflexivity | intros r []]|].
  destruct (target_rids (h0 :: hs)) as [|t0 ts] eqn:Et;
    [eexists; split; [reflexivity | intros r []]|].
  destruct (load_results tbl (set_order (t0 :: ts))) as [|d0 ds] eqn:El.
  { exfalso. subst rid.
    pose proof (load_results_complete tbl _ row Hrow Hreq) as Hin.
    rewrite El in Hin. destruct Hin. }
  eexists. split; [reflexivity|]. cbn [df_res].
  intros r Hr Hrid.
  rewrite map_map in Hr. apply in_map_iff in Hr as (h & <- & _).
  unfold settle_history in *.
  assert (Hh : row_rid h = rid).
  { destruct (build_race_map _ _ !! row_rid h) as [info|];
      [destruct (_ || _)|]; try exact Hrid.
    destruct (hit_strs _);
      [destruct (match top3 info with [] => _ | _ => _ end)|];
      exact Hrid. }
  rewrite <- El.
  rewrite Hh, (girls_race_not_in_map tbl _ rid row Hk Hrow Hid HL).
  cbn. repeat split; reflexivity.
Qed.

End SettlementFacts.

(** * Settlement does not depend on the iteration order of sets *)

(** ** The loaded rows *)

Lemma group_app (rid : pystr) (l1 l2 : list ResultRow) :
  group rid (l1 ++ l2) = group rid l1 ++ group rid l2.
Proof. unfold group. apply List.filter_app. Qed.

Lemma group_query (tbl : RaceResultTable) (rid : pystr)
    (chunk : list pystr) :
  group rid (query tbl chunk)
  = if bool_decide (rid ∈ chunk) then group rid (tbl_rows tbl) else [].
Proof.
  unfold group, query.
  induction (tbl_rows tbl) as [|r rs IH]; cbn [List.filter].
  - by case_bool_decide.
  - destruct (eqb (race_id r) rid) eqn:E2.
    + apply eqb_true in E2. subst rid.
      destruct (bool_decide (race_id r ∈ chunk)) eqn:E1.
      * cbn [List.filter]. rewrite (proj2 (eqb_true _ _) eq_refl), IH.
        reflexivity.
      * rewrite IH. reflexivity.
    + destruct (bool_decide (race_id r ∈ chunk)) eqn:E1.
      * cbn [List.filter]. rewrite E2. exact IH.
      * exact IH.
Qed.

Lemma group_chunks (tbl : RaceResultTable) (rid : pystr)
    (cs : list (list pystr)) :
  NoDup (concat cs) ->
  group rid
    (concat
       (List.filter (fun chunk_df => negb (bool_decide (chunk_df = [])))
          (map (query tbl) cs)))
  = if bool_decide (rid ∈ concat cs)
    then group rid (tbl_rows tbl) else [].
Proof.
  induction cs as [|ch rest IH]; intros Hnd.
  - reflexivity.
  - cbn [concat] in Hnd. apply NoDup_app in Hnd as (Hch & Hdisj & Hrest).
    cbn [map List.filter concat].
    assert (Hstep : group rid (concat
      (if negb (bool_decide (query tbl ch = []))
       then query tbl ch :: List.filter
              (fun chunk_df => negb (bool_decide (chunk_df = [])))
              (map (query tbl) rest)
       else List.filter
              (fun chunk_df => negb (bool_decide (chunk_df = [])))
              (map (query tbl) rest)))
      = group rid (query tbl ch)
        ++ group rid (concat (List.filter
             (fun chunk_df => negb (bool_decide (chunk_df = [])))
             (map (query tbl) rest)))).
    { destruct (decide (query tbl ch = [])) as [E|E].
      - rewrite (bool_decide_eq_true_2 _ E). cbn [negb]. rewrite E.
        reflexivity.
      - rewrite (bool_decide_eq_false_2 _ E). cbn [negb concat].
        apply group_app. }
    rewrite Hstep, IH, group_query by exact Hrest.
    destruct (bool_decide (rid ∈ ch)) eqn:E1.
    + apply bool_decide_eq_true in E1.
      rewrite (bool_decide_eq_false_2 (rid ∈ concat rest))
        by (apply Hdisj; exact E1).
      rewrite (bool_decide_eq_true_2 (rid ∈ ch ++ concat rest))
        by (apply elem_of_app; left; exact E1).
      apply app_nil_r.
    + apply bool_decide_eq_false in E1. cbn [app].
      rewrite (bool_decide_ext (rid ∈ ch ++ concat rest)
                 (rid ∈ concat rest)); [reflexivity|].
      rewrite elem_of_app. tauto.
Qed.

Lemma group_load_results (tbl : RaceResultTable) (rids_list : list pystr)
    (rid : pystr) :
  NoDup rids_list ->
  group rid (load_results tbl rids_list)
  = if bool_decide (rid ∈ rids_list)
    then group rid (tbl_rows tbl) else [].
Proof.
  intros Hnd. unfold load_results.
  rewrite group_chunks; rewrite chunks_concat;
    try done; unfold chunk_size; lia.
Qed.

(** ** The result map *)

Lemma unique_In (seen l : list pystr) (x : pystr) :
  In x (unique seen l) <-> In x l /\ ~ In x seen.
Proof.
  revert seen. induction l as [|y l IH]; intros seen; simpl.
  - tauto.
  - case_bool_decide as Hy.
    + rewrite IH. apply list_elem_of_In in Hy.
      split; [tauto|]. intros [[<- | H] Hn]; tauto.
    + rewrite list_elem_of_In in Hy. simpl. rewrite IH. simpl.
      split.
      * intros [<- | [H Hn]]; tauto.
      * intros [[<- | H] Hn]; [tauto|].
        destruct (decide (y = x)) as [->|Hne]; [tauto|]. right. tauto.
Qed.

Lemma res_info_of_nil (has_kyuhan : bool) : res_info_of has_kyuhan [] = None.
Proof. unfold res_info_of, is_girls. by destruct has_kyuhan. Qed.

Lemma group_nil_of_absent (rid : pystr) (df_db : list ResultRow) :
  ~ In rid (map race_id df_db) -> group rid df_db = [].
Proof.
  unfold group. induction df_db as [|r rs IH]; intros Hn; simpl.
  - reflexivity.
  - destruct (eqb (race_id r) rid) eqn:E.
    + apply eqb_true in E. exfalso. apply Hn. left. exact E.
    + apply IH. intros H. apply Hn. right. exact H.
Qed.

(** The result map holds, for every race, the entry of its group. *)
Lemma build_race_map_spec (has_kyuhan : bool) (df_db : list ResultRow)
    (rid : pystr) :
  build_race_map has_kyuhan df_db !! rid
  = res_info_of has_kyuhan (group rid df_db).
Proof.
  unfold build_race_map.
  set (R := fun rid0 => res_info_of has_kyuhan (group rid0 df_db)).
  set (step := fun (m : gmap pystr ResInfo) rid0 =>
    match res_info_of has_kyuhan (group rid0 df_db) with
    | Some info0 => <[rid0 := info0]> m
    | None => m
    end).
  assert (Hgen : forall keys (m : gmap pystr ResInfo),
    fold_left step keys m !! rid
    = if bool_decide (rid ∈ keys)
      then match R rid with Some i => Some i | None => m !! rid end
      else m !! rid).
  { induction keys as [|k ks IH]; intros m; cbn [fold_left].
    - rewrite bool_decide_eq_false_2 by apply not_elem_of_nil. reflexivity.
    - rewrite IH.
      assert (Hstep : step m k !! rid
        = if decide (k = rid)
          then match R rid with Some i => Some i | None => m !! rid end
          else m !! rid).
      { unfold step, R. destruct (decide (k = rid)) as [->|Hne].
        - destruct (res_info_of _ _); [apply lookup_insert_eq | reflexivity].
        - destruct (res_info_of has_kyuhan (group k df_db));
            [apply lookup_insert_ne; exact Hne | reflexivity]. }
      rewrite Hstep.
      destruct (decide (k = rid)) as [->|Hne].
      + rewrite (bool_decide_eq_true_2 (rid ∈ rid :: ks))
          by (apply elem_of_cons; left; reflexivity).
        case_bool_decide; destruct (R rid); reflexivity.
      + rewrite (bool_decide_ext (rid ∈ k :: ks) (rid ∈ ks));
          [reflexivity|].
        rewrite elem_of_cons. split; [intros [->|H]; tauto | tauto]. }
  rewrite Hgen, lookup_empty. unfold R.
  case_bool_decide as Hin; [by destruct (res_info_of _ _)|].
  rewrite group_nil_of_absent, res_info_of_nil; [reflexivity|].
  intros H. apply Hin. apply list_elem_of_In, unique_In.
  split; [exact H | intros []].
Qed.

Lemma race_map_order_irrelevant (o1 o2 : list pystr -> list pystr)
    (tbl : RaceResultTable) (rids : list pystr) :
  set_order_ok o1 -> set_order_ok o2 ->
  build_race_map (tbl_has_kyuhan tbl) (load_results tbl (o1 rids))
  = build_race_map (tbl_has_kyuhan tbl) (load_results tbl (o2 rids)).
Proof.
  intros H1 H2. apply map_eq. intros rid.
  rewrite !build_race_map_spec, !group_load_results
    by (apply H1 || apply H2).
  rewrite (bool_decide_ext (rid ∈ o1 rids) (rid ∈ o2 rids));
    [reflexivity|].
  rewrite !list_elem_of_In.
  rewrite (proj2 (H1 rids)), (proj2 (H2 rids)). reflexivity.
Qed.

Lemma load_results_In (tbl : RaceResultTable) (rids_list : list pystr)
    (row : ResultRow) :
  In row (load_results tbl rids_list)
  <-> In row (tbl_rows tbl) /\ In (race_id row) rids_list.
Proof.
  unfold load_results. split.
  - intros Hin. apply in_concat in Hin as (chunk_df & Hc & Hin).
    apply filter_In in Hc as [Hc _].
    apply in_map_iff in Hc as (chunk & <- & Hchunk).
    unfold query in Hin. apply filter_In in Hin as [Hrow Hid].
    split; [exact Hrow|].
    apply bool_decide_eq_true, list_elem_of_In in Hid.
    rewrite <- (chunks_concat chunk_size rids_list)
      by (unfold chunk_size; lia).
    apply in_concat. eauto.
  - intros [Hrow Hid].
    rewrite <- (chunks_concat chunk_size rids_list) in Hid
      by (unfold chunk_size; lia).
    apply in_concat in Hid as (chunk & Hchunk & Hid).
    assert (Hq : In row (query tbl chunk)).
    { unfold query. apply filter_In. split; [exact Hrow|].
      apply bool_decide_eq_true. apply list_elem_of_In. exact Hid. }
    apply in_concat. exists (query tbl chunk). split; [|exact Hq].
    apply filter_In. split; [apply in_map; exact Hchunk|].
    apply negb_true_iff, bool_decide_eq_false.
    intros E. rewrite E in Hq. destruct Hq.
Qed.

Lemma load_results_empty_order_irrelevant (o1 o2 : list pystr -> list pystr)
    (tbl : RaceResultTable) (rids : list pystr) :
  set_order_ok o1 -> set_order_ok o2 ->
  load_results tbl (o1 rids) = [] -> load_results tbl (o2 rids) = [].
Proof.
  intros H1 H2 E.
  destruct (load_results tbl (o2 rids)) as [|row rest] eqn:E2;
    [reflexivity|].
  assert (Hin : In row (load_results tbl (o2 rids)))
    by (rewrite E2; left; reflexivity).
  apply load_results_In in Hin as [Hrow Hid].
  apply (proj2 (H2 rids)) in Hid. apply (proj2 (H1 rids)) in Hid.
  assert (Hin : In row (load_results tbl (o1 rids)))
    by (apply load_results_In; tauto).
  rewrite E in Hin. destruct Hin.
Qed.

(** ** Two iteration orders *)

Lemma set_orders_agree (o1 o2 : list pystr -> list pystr)
    (l : list pystr) :
  set_order_ok o1 -> set_order_ok o2 ->
  length (o1 l) = length (o2 l)
  /\ forall x, In x (o1 l) <-> In x (o2 l).
Proof.
  intros H1 H2.
  assert (Hx : forall x, In x (o1 l) <-> In x (o2 l)).
  { intros x. rewrite (proj2 (H1 l)), (proj2 (H2 l)). reflexivity. }
  split; [|exact Hx].
  apply Permutation_length, NoDup_Permutation;
    [apply H1 | apply H2 |].
  intros x. rewrite !list_elem_of_In. apply Hx.
Qed.

(** ** One ticket *)

Lemma check_hit_exacta_ext (top3 : list pystr) (payouts : gmap PayKey Q)
    (cs1 cs2 : list (list pystr)) :
  (forall c, In c cs1 <-> In c cs2) ->
  check_hit TT_2shatan top3 payouts cs1
  = check_hit TT_2shatan top3 payouts cs2.
Proof.
  intros H. unfold check_hit.
  destruct (top3 !! 0%nat) as [a|]; [|reflexivity].
  destruct (top3 !! 1%nat) as [b|]; [|reflexivity].
  rewrite (bool_decide_ext ([a; b] ∈ cs1) ([a; b] ∈ cs2));
    [reflexivity|].
  rewrite !list_elem_of_In. apply H.
Qed.

(** The stake, the return and the hit flag of a ticket do not depend on
    the order in which the cars of a fold ticket are enumerated. *)
Lemma ticket_step_order_irrelevant (o1 o2 : list pystr -> list pystr)
    (h : History) (info : ResInfo) (acc : RaceAcc) (t_str : pystr) :
  set_order_ok o1 -> set_order_ok o2 ->
  ticket_step o1 h info acc t_str = ticket_step o2 h info acc t_str.
Proof.
  intros H1 H2. unfold ticket_step, settle_ticket.
  destruct (ticket_parts t_str) as [parts is_fold].
  set (cp1 := count_points o1 (ticket_type_of t_str) parts is_fold).
  set (cp2 := count_points o2 (ticket_type_of t_str) parts is_fold).
  assert (Hcp : fst cp1 = fst cp2
    /\ check_hit (ticket_type_of t_str) (top3 info) (payouts info) (snd cp1)
       = check_hit (ticket_type_of t_str) (top3 info) (payouts info)
           (snd cp2)).
  { subst cp1 cp2. unfold count_points.
    destruct (ticket_type_of t_str);
      destruct parts as [|p0 [|p1 ps]]; try (split; reflexivity).
    destruct is_fold; [|split; reflexivity].
    rewrite !loop_fold_spec. cbn [fst snd app].
    destruct (set_orders_agree o1 o2 (p_part p0 ++ p_part p1) H1 H2)
      as [Hlen Hin].
    split.
    - rewrite !fold_pairs_length, Hlen. reflexivity.
    - apply check_hit_exacta_ext. intros c.
      rewrite !fold_pairs_In by (apply H1 || apply H2).
      split; intros (a & b & -> & Ha & Hb & Hab); exists a, b;
        repeat split; try assumption; apply Hin; assumption. }
  destruct cp1 as [n1 c1], cp2 as [n2 c2]. cbn [fst snd] in Hcp.
  destruct Hcp as [-> Hch]. rewrite Hch.
  destruct (check_hit _ _ _ c2) as [pay tickets_hit]. reflexivity.
Qed.

Lemma fold_left_ext_eq {A B : Type} (f g : A -> B -> A) (l : list B)
    (a : A) :
  (forall a b, f a b = g a b) -> fold_left f l a = fold_left g l a.
Proof.
  intros H. revert a. induction l as [|b l IH]; intros a; simpl.
  - reflexivity.
  - rewrite H. apply IH.
Qed.

Lemma settle_history_order_irrelevant (o1 o2 : list pystr -> list pystr)
    (race_map : gmap pystr ResInfo) (h : History) :
  set_order_ok o1 -> set_order_ok o2 ->
  settle_history o1 race_map h = settle_history o2 race_map h.
Proof.
  intros H1 H2. unfold settle_history.
  destruct (race_map !! row_rid h) as [info|]; [|reflexivity].
  destruct (_ || _); [reflexivity|].
  rewrite (fold_left_ext_eq (ticket_step o1 h info) (ticket_step o2 h info));
    [reflexivity|].
  intros acc t_str. apply ticket_step_order_irrelevant; assumption.
Qed.

(** C8: settlement is a function of the history and of the stored
    results alone.  The only unspecified choices of a run are the
    iteration orders of its sets (the race identifiers to load, the cars
    of a fold ticket); for any two such orders the race-level rows, the
    ticket-level rows and the aggregate statistics are identical, and so
    is the failure when no result row is stored. *)
Theorem C8_settlement_is_deterministic (o1 o2 : list pystr -> list pystr)
    (history_data : list History) (tbl : RaceResultTable) :
  set_order_ok o1 -> set_order_ok o2 ->
  analyze_prediction_history o1 history_data tbl
  = analyze_prediction_history o2 history_data tbl.
Proof.
  intros H1 H2. unfold analyze_prediction_history.
  destruct history_data as [|h0 hs]; [reflexivity|].
  destruct (target_rids (h0 :: hs)) as [|t0 ts]; [reflexivity|].
  pose proof (race_map_order_irrelevant o1 o2 tbl (t0 :: ts) H1 H2) as Hmap.
  destruct (load_results tbl (o1 (t0 :: ts))) as [|d1 ds1] eqn:E1.
  { rewrite (load_results_empty_order_irrelevant o1 o2 tbl _ H1 H2 E1).
    reflexivity. }
  destruct (load_results tbl (o2 (t0 :: ts))) as [|d2 ds2] eqn:E2.
  { rewrite (load_results_empty_order_irrelevant o2 o1 tbl _ H2 H1 E2) in E1.
    discriminate. }
  rewrite Hmap.
  set (race_map := build_race_map (tbl_has_kyuhan tbl) (d2 :: ds2)).
  rewrite (map_ext (settle_history o1 race_map) (settle_history o2 race_map));
    [reflexivity|].
  intros h. apply settle_history_order_irrelevant; assumption.
Qed.

Lemma unique_NoDup (seen l : list pystr) : NoDup (unique seen l).
Proof.
  revert seen. induction l as [|x l IH]; intros seen; simpl.
  - constructor.
  - case_bool_decide; [apply IH|].
    apply NoDup_cons. split; [|apply IH].
    rewrite list_elem_of_In, unique_In. simpl. tauto.
Qed.

Lemma first_seen_order_ok : set_order_ok first_seen_order.
Proof.
  intros l. split; [apply unique_NoDup|].
  intros x. unfold first_seen_order. rewrite unique_In. simpl. tauto.
Qed.

Lemma last_seen_order_ok : set_order_ok last_seen_order.
Proof.
  intros l. unfold last_seen_order. split.
  - rewrite reverse_Permutation. apply unique_NoDup.
  - intros x. rewrite <- list_elem_of_In, elem_of_reverse, list_elem_of_In,
      unique_In. simpl. tauto.
Qed.

(** * Strings: printing and reading back car numbers *)

Lemma uint_chars_isdigit (d : Decimal.uint) :
  Forall (fun c => isdigit c = true) (uint_chars d).
Proof. induction d; simpl; constructor; (reflexivity || assumption). Qed.

Lemma chars_uint_chars (d : Decimal.uint) : chars_uint (uint_chars d) = d.
Proof. induction d; simpl; congruence. Qed.

Lemma uint_chars_nonnil (d : Decimal.uint) :
  d <> Decimal.Nil -> uint_chars d <> [].
Proof. destruct d; simpl; congruence. Qed.

(** [str] of a natural number is a run of digits that [int] reads back. *)
Lemma str_of_Z_digits (z : Z) :
  (0 <= z)%Z -> digits (str_of_Z z) /\ int_of_digits (str_of_Z z) = z.
Proof.
  intros Hz. unfold str_of_Z, int_of_digits, digits.
  pose proof (DecimalZ.of_to z) as Hback.
  destruct z as [|p|p]; [| |lia]; cbn [Z.to_int] in *.
  - repeat split; [discriminate | repeat constructor].
  - rewrite chars_uint_chars.
    repeat split;
      [apply uint_chars_nonnil, Unsigned.to_uint_nonnil
      |apply uint_chars_isdigit | exact Hback].
Qed.

Lemma digits_lack (s : pystr) (c : N) :
  Forall (fun x => isdigit x = true) s -> isdigit c = false -> ~ In c s.
Proof.
  intros Hs Hc Hin. rewrite Forall_forall in Hs.
  apply list_elem_of_In, Hs in Hin. congruence.
Qed.

(** ** Splitting *)

Lemma split_chr_none (c : N) (a : pystr) :
  ~ In c a -> split_chr c a = [a].
Proof.
  induction a as [|x a IH]; intros Hn; simpl; [reflexivity|].
  destruct (x =? c)%N eqn:E.
  - apply N.eqb_eq in E. exfalso. apply Hn. left. exact E.
  - rewrite IH; [reflexivity|]. intros H. apply Hn. right. exact H.
Qed.

Lemma split_chr_at (c : N) (a b : pystr) :
  ~ In c a -> split_chr c (a ++ c :: b) = a :: split_chr c b.
Proof.
  induction a as [|x a IH]; intros Hn; simpl.
  - rewrite N.eqb_refl. reflexivity.
  - destruct (x =? c)%N eqn:E.
    + apply N.eqb_eq in E. exfalso. apply Hn. left. exact E.
    + rewrite IH; [reflexivity|]. intros H. apply Hn. right. exact H.
Qed.

(** ** Finding the first number *)

Lemma take_digits_run (d rest : pystr) :
  Forall (fun c => isdigit c = true) d ->
  (forall c r, rest = c :: r -> isdigit c = false) ->
  take_digits (d ++ rest) = d.
Proof.
  intros Hd Hrest. induction Hd as [|x d Hx _ IH]; simpl.
  - destruct rest as [|c r]; [reflexivity|].
    simpl. rewrite (Hrest c r eq_refl). reflexivity.
  - rewrite Hx, IH. reflexivity.
Qed.

Lemma first_digits_run (pre d rest : pystr) :
  Forall (fun c => isdigit c = false) pre -> digits d ->
  (forall c r, rest = c :: r -> isdigit c = false) ->
  first_digits (pre ++ d ++ rest) = Some d.
Proof.
  intros Hpre [Hne Hd] Hrest. induction Hpre as [|x pre Hx _ IH]; simpl.
  - destruct d as [|x d]; [congruence|].
    apply Forall_cons in Hd as [Hx Hd]. simpl. rewrite Hx.
    rewrite take_digits_run by assumption. reflexivity.
  - rewrite Hx. exact IH.
Qed.

(** ** Joining and reading back a list of car numbers *)

Lemma join_cons2 (sep p q : pystr) (r : list pystr) :
  join sep (p :: q :: r) = p ++ sep ++ join sep (q :: r).
Proof. reflexivity. Qed.

Lemma In_join (c : N) (sep : pystr) (ps : list pystr) :
  In c (join sep ps) -> In c sep \/ exists p, In p ps /\ In c p.
Proof.
  induction ps as [|p [|q r] IH]; intros H.
  - destruct H.
  - right. exists p. simpl. tauto.
  - rewrite join_cons2 in H. apply in_app_or in H as [H | H].
    + right. exists p. simpl. tauto.
    + apply in_app_or in H as [H | H]; [tauto|].
      destruct (IH H) as [H' | (p' & Hp' & Hc)]; [tauto|].
      right. exists p'. simpl in *. tauto.
Qed.

Lemma In_str_of_Z (c : N) (z : Z) :
  In c (str_of_Z z) -> isdigit c = true \/ c = 45%N.
Proof.
  unfold str_of_Z. intros H.
  assert (Hd : forall d, In c (uint_chars d) -> isdigit c = true).
  { intros d Hin. pose proof (uint_chars_isdigit d) as Hf.
    rewrite Forall_forall in Hf. apply Hf, list_elem_of_In, Hin. }
  destruct (Z.to_int z) as [d|d]; [left; eauto|].
  destruct H as [<- | H]; [tauto | left; eauto].
Qed.

(** A character that is neither a digit, nor '-', nor a letter of
    "None", nor the separator does not occur in a joined car list. *)
Lemma In_fmt_car (c : N) (x : pycar) :
  In c (fmt_car x) -> isdigit c = true \/ In c (py "-None").
Proof.
  destruct x as [z|]; simpl fmt_car; intros H.
  - apply In_str_of_Z in H as [H | ->]; [tauto|]. right. left. reflexivity.
  - right. right. exact H.
Qed.

Lemma In_join_cars (c : N) (l : list pycar) :
  In c (join_cars l) -> isdigit c = true \/ In c (py ",-None").
Proof.
  unfold join_cars. intros H. apply In_join in H as [H | (p & Hp & Hc)].
  - right. destruct H as [<- | []]. left. reflexivity.
  - apply in_map_iff in Hp as (x & <- & _).
    apply In_fmt_car in Hc as [Hc | Hc]; [tauto|]. right. right. exact Hc.
Qed.

Lemma parse_cars_join (pre suffix : pystr) (xs : list Z) :
  xs <> [] -> Forall (fun x => (0 <= x)%Z) xs ->
  Forall (fun c => isdigit c = false) pre -> ~ In 44%N pre ->
  ~ In 44%N suffix ->
  (forall c r, suffix = c :: r -> isdigit c = false) ->
  parse_cars (pre ++ join (py ",") (map str_of_Z xs) ++ suffix) = xs.
Proof.
  intros Hne Hxs Hpre Hpre44 Hs44 Hs. revert pre Hpre Hpre44.
  induction xs as [|x [|y ys] IH]; intros pre Hpre Hpre44; [congruence| |].
  - apply Forall_cons in Hxs as [Hx _].
    destruct (str_of_Z_digits x Hx) as [Hd Hback].
    unfold parse_cars. cbn [map join].
    rewrite split_chr_none.
    + cbn [flat_map]. rewrite first_digits_run by assumption.
      rewrite Hback. reflexivity.
    + intros H. apply in_app_or in H as [H | H]; [tauto|].
      apply in_app_or in H as [H | H]; [|tauto].
      revert H. apply digits_lack; [apply Hd | reflexivity].
  - apply Forall_cons in Hxs as [Hx Hxs].
    destruct (str_of_Z_digits x Hx) as [Hd Hback].
    cbn [map]. rewrite join_cons2. change (py ",") with [44%N].
    rewrite <- !app_assoc. cbn [app].
    replace (pre ++ str_of_Z x ++ 44%N :: join [44%N] (str_of_Z y :: map str_of_Z ys) ++ suffix)
      with ((pre ++ str_of_Z x) ++ 44%N :: join [44%N] (map str_of_Z (y :: ys)) ++ suffix)
      by (rewrite <- app_assoc; reflexivity).
    unfold parse_cars. rewrite split_chr_at.
    + cbn [flat_map].
      replace (pre ++ str_of_Z x) with (pre ++ str_of_Z x ++ [])
        by (rewrite app_nil_r; reflexivity).
      rewrite first_digits_run; [|assumption|assumption|discriminate].
      rewrite Hback. cbn [app]. f_equal.
      apply (IH ltac:(discriminate) Hxs []); [constructor | intros []].
    + intros H. apply in_app_or in H as [H | H]; [tauto|].
      revert H. apply digits_lack; [apply Hd | reflexivity].
Qed.

(** ** Stripping and searching *)

Lemma lstrip_head (c : N) (s : pystr) :
  isspace c = false -> lstrip (c :: s) = c :: s.
Proof. intros H. simpl. rewrite H. reflexivity. Qed.

Lemma rstrip_last (s : pystr) (c : N) :
  isspace c = false -> rstrip (s ++ [c]) = s ++ [c].
Proof.
  intros H. unfold rstrip. rewrite rev_unit, lstrip_head by exact H.
  cbn [rev]. rewrite rev_involutive. reflexivity.
Qed.

(** The body of a ticket "kind: body" whose body neither starts nor ends
    with a space. *)
Lemma strip_body (h : N) (s : pystr) (l : N) :
  isspace h = false -> isspace l = false ->
  strip (32%N :: h :: s ++ [l]) = h :: s ++ [l].
Proof.
  intros Hh Hl. unfold strip.
  change (lstrip (32%N :: h :: s ++ [l])) with (lstrip (h :: s ++ [l])).
  rewrite lstrip_head by exact Hh.
  apply (rstrip_last (h :: s) l Hl).
Qed.

Lemma startswith_In (p s : pystr) (c : N) :
  startswith p s = true -> In c p -> In c s.
Proof.
  revert s. induction p as [|a p IH]; intros s H Hc; [destruct Hc|].
  destruct s as [|b s]; [discriminate|]. simpl in H.
  apply andb_true_iff in H as [Hab Hp]. apply N.eqb_eq in Hab. subst b.
  destruct Hc as [<- | Hc]; [left; reflexivity | right; eauto].
Qed.

(** A string that lacks one character of the needle does not contain the
    needle. *)
Lemma contains_lacking (needle hay : pystr) (c : N) :
  In c needle -> ~ In c hay -> contains needle hay = false.
Proof.
  intros Hc. induction hay as [|x hay IH]; intros Hn.
  - destruct needle; [destruct Hc | reflexivity].
  - cbn [contains]. apply orb_false_iff. split.
    + destruct (startswith needle (x :: hay)) eqn:E; [|reflexivity].
      exfalso. apply Hn. eapply startswith_In; eassumption.
    + apply IH. intros H. apply Hn. right. exact H.
Qed.

Lemma contains_char (c : N) (hay : pystr) :
  In c hay -> contains [c] hay = true.
Proof.
  induction hay as [|x hay IH]; intros H; [destruct H|].
  cbn [contains startswith]. destruct (c =? x)%N eqn:E; [reflexivity|].
  destruct H as [-> | H]; [rewrite N.eqb_refl in E; discriminate|].
  rewrite IH by exact H. apply orb_true_r.
Qed.

Lemma startswith_app (p s : pystr) : startswith p (p ++ s) = true.
Proof.
  induction p as [|a p IH]; [reflexivity|].
  simpl. rewrite N.eqb_refl. exact IH.
Qed.

Lemma contains_prefix (p s : pystr) : contains p (p ++ s) = true.
Proof.
  destruct (p ++ s) eqn:E; simpl;
    rewrite <- E, startswith_app; reflexivity.
Qed.

(** ** What an exacta ticket covers *)

Lemma adds_of_exacta (a : N) (both : bool) (s1 tail : pystr) (l : N) :
  exacta_sep a both -> digits s1 ->
  isspace l = false ->
  (forall c, In c (tail ++ [l]) ->
     c <> 58%N /\ c <> 8594%N /\ c <> 8596%N) ->
  adds_of (t_2shatan ++ s1 ++ [32%N; a; 32%N] ++ tail ++ [l])
  = pairs_added both (parse_cars (s1 ++ [32%N]))
      (parse_cars (32%N :: tail ++ [l])).
Proof.
  intros Hsep [Hne Hd] Hl Htail.
  assert (Hs1 : forall c, isdigit c = false -> ~ In c s1)
    by (intros c; apply digits_lack, Hd).
  destruct s1 as [|h s1]; [congruence|].
  assert (Hh : isdigit h = true) by (apply Forall_cons in Hd; tauto).
  set (body := (h :: s1) ++ [32%N; a; 32%N] ++ tail ++ [l]).
  assert (Hbody58 : ~ In 58%N body).
  { subst body. intros H. apply in_app_or in H as [H | H].
    - revert H. apply Hs1. reflexivity.
    - destruct Hsep as [[-> _] | [-> _]];
        (destruct H as [H | [H | [H | H]]]; try discriminate H;
         apply Htail in H; tauto). }
  unfold adds_of.
  change (t_2shatan ++ body)
    with (50%N :: 36554%N :: 21336%N :: 58%N :: 32%N :: body).
  assert (Hkind : contains (py "2車単")
                    (50%N :: 36554%N :: 21336%N :: 58%N :: 32%N :: body)
                  = true) by reflexivity.
  assert (Hcolon : split_chr 58
                     (50%N :: 36554%N :: 21336%N :: 58%N :: 32%N :: body)
                   = [50%N; 36554%N; 21336%N] :: split_chr 58 (32%N :: body))
    by reflexivity.
  rewrite Hkind, Hcolon.
  rewrite split_chr_none
    by (intros [H | H]; [discriminate H | exact (Hbody58 H)]).
  cbn [last_part List.last].
  assert (Hstrip : strip (32%N :: body) = body).
  { subst body. cbn [app].
    replace (h :: s1 ++ 32%N :: a :: 32%N :: tail ++ [l])
      with (h :: (s1 ++ 32%N :: a :: 32%N :: tail) ++ [l])
      by (rewrite <- app_assoc; reflexivity).
    apply strip_body; [|exact Hl].
    destruct (isspace h) eqn:E; [|reflexivity].
    revert Hh E. unfold isdigit, isspace.
    clear. intros H1 H2.
    apply andb_true_iff in H1 as [H1 H1'].
    apply N.leb_le in H1, H1'.
    repeat (apply orb_true_iff in H2 as [H2 | H2]);
      repeat (apply andb_true_iff in H2 as [H2 H2']);
      try apply N.leb_le in H2; try apply N.leb_le in H2';
      try apply N.eqb_eq in H2; lia. }
  rewrite Hstrip.
  assert (Hsplit : split_chr a body = [(h :: s1) ++ [32%N]; 32%N :: tail ++ [l]]).
  { subst body.
    replace ((h :: s1) ++ [32%N; a; 32%N] ++ tail ++ [l])
      with (((h :: s1) ++ [32%N]) ++ a :: 32%N :: tail ++ [l])
      by (rewrite <- app_assoc; reflexivity).
    rewrite split_chr_at, split_chr_none; [reflexivity | |].
    - intros [H | H]; [destruct Hsep as [[-> _] | [-> _]]; discriminate H|].
      apply Htail in H. destruct Hsep as [[-> _] | [-> _]]; tauto.
    - intros H. apply in_app_or in H as [H | [H | []]].
      + revert H. apply Hs1.
        destruct Hsep as [[-> _] | [-> _]]; reflexivity.
      + destruct Hsep as [[-> _] | [-> _]]; discriminate H. }
  assert (Hin_a : In a body).
  { subst body. apply in_or_app. right. right. left. reflexivity. }
  destruct Hsep as [[-> ->] | [-> ->]].
  - change (py "↔") with [8596%N]. rewrite (contains_char _ _ Hin_a).
    rewrite Hsplit. reflexivity.
  - change (py "↔") with [8596%N]. change (py "→") with [8594%N].
    rewrite (contains_lacking [8596%N] body 8596%N), (contains_char _ _ Hin_a);
      [rewrite Hsplit; reflexivity | left; reflexivity |].
    subst body. intros H. apply in_app_or in H as [H | H].
    + revert H. apply Hs1. reflexivity.
    + destruct H as [H | [H | [H | H]]]; try discriminate H.
      apply Htail in H. tauto.
Qed.

Lemma forallb_lacks (c : N) (s : pystr) :
  forallb (fun x => negb (x =? c)%N) s = true -> ~ In c s.
Proof.
  intros H Hin. rewrite forallb_forall in H. apply H in Hin.
  rewrite N.eqb_refl in Hin. discriminate.
Qed.

Lemma join_numbers_chars (c : N) (xs : list Z) :
  Forall (fun x => (0 <= x)%Z) xs ->
  In c (join (py ",") (map str_of_Z xs)) -> isdigit c = true \/ c = 44%N.
Proof.
  intros Hxs H. apply In_join in H as [[<- | []] | (p & Hp & Hc)];
    [tauto|].
  apply in_map_iff in Hp as (x & <- & Hx). left.
  rewrite Forall_forall in Hxs. apply list_elem_of_In, Hxs in Hx.
  destruct (str_of_Z_digits x Hx) as [[_ Hd] _].
  rewrite Forall_forall in Hd. apply Hd, list_elem_of_In, Hc.
Qed.

Lemma join_numbers_nonempty (xs : list Z) :
  xs <> [] -> Forall (fun x => (0 <= x)%Z) xs ->
  join (py ",") (map str_of_Z xs) <> [].
Proof.
  intros Hne Hxs. destruct xs as [|x [|y ys]]; [congruence| |].
  - apply Forall_cons in Hxs as [Hx _]. cbn [map join].
    apply (str_of_Z_digits x Hx).
  - apply Forall_cons in Hxs as [Hx _]. cbn [map]. rewrite join_cons2.
    destruct (str_of_Z_digits x Hx) as [[Hn _] _].
    destruct (str_of_Z x); [congruence | discriminate].
Qed.

Lemma isdigit_not_space (c : N) : isdigit c = true -> isspace c = false.
Proof.
  unfold isdigit, isspace. intros H1.
  apply andb_true_iff in H1 as [H1 H1']. apply N.leb_le in H1, H1'.
  destruct (_ || _) eqn:H2; [|reflexivity]. exfalso.
  repeat (apply orb_true_iff in H2 as [H2 | H2]);
    repeat (apply andb_true_iff in H2 as [H2 H2']);
    try apply N.leb_le in H2; try apply N.leb_le in H2';
    try apply N.eqb_eq in H2; lia.
Qed.

(** The pairs an exacta ticket "2車単: c1 sep x1,...,xn" covers, with or
    without the remark " (1点)". *)
Lemma adds_of_exacta_ticket (a : N) (both : bool) (c1 : Z) (xs : list Z)
    (suffix : pystr) :
  exacta_sep a both -> (0 <= c1)%Z ->
  xs <> [] -> Forall (fun x => (0 <= x)%Z) xs ->
  suffix = [] \/ suffix = py " (1点)" ->
  adds_of (t_2shatan ++ str_of_Z c1 ++ [32%N; a; 32%N]
           ++ join (py ",") (map str_of_Z xs) ++ suffix)
  = pairs_added both [c1] xs.
Proof.
  intros Hsep Hc1 Hne Hxs Hsuf.
  destruct (str_of_Z_digits c1 Hc1) as [Hd1 Hback1].
  set (T := join (py ",") (map str_of_Z xs) ++ suffix).
  assert (HT : T <> []).
  { subst T. pose proof (join_numbers_nonempty xs Hne Hxs) as Hj.
    destruct (join (py ",") (map str_of_Z xs)); [congruence | discriminate]. }
  assert (Hplain : forall c, In c T ->
    c <> 58%N /\ c <> 8594%N /\ c <> 8596%N).
  { subst T. intros c H. apply in_app_or in H as [H | H].
    - apply join_numbers_chars in H as [H | ->]; [| |exact Hxs].
      + repeat split; intros ->; discriminate H.
      + repeat split; discriminate.
    - destruct Hsuf as [-> | ->]; [destruct H|].
      destruct H as [<- | [<- | [<- | [<- | [<- | []]]]]];
        repeat split; discriminate. }
  destruct (exists_last HT) as (tail & l & ET).
  assert (Hl : isspace l = false).
  { assert (Hin : In l T) by (rewrite ET; apply in_or_app; right; left;
      reflexivity).
    subst T. apply in_app_or in Hin as [Hin | Hin].
    - apply join_numbers_chars in Hin as [H | ->];
        [apply isdigit_not_space, H | reflexivity | exact Hxs].
    - destruct Hsuf as [-> | Hs]; [destruct Hin|].
      rewrite Hs in ET.
      change (py " (1点)") with ([32%N; 40%N; 49%N; 28857%N] ++ [41%N]) in ET.
      rewrite app_assoc in ET. apply app_inj_tail in ET as [_ <-].
      reflexivity. }
  fold T. rewrite ET.
  rewrite (adds_of_exacta a both (str_of_Z c1) tail l Hsep Hd1 Hl)
    by (rewrite <- ET; exact Hplain).
  rewrite <- ET. f_equal.
  - rewrite <- (parse_cars_join [] [32%N] [c1]);
      [reflexivity | discriminate | repeat constructor; exact Hc1
      | constructor | intros [] | intros [H | []]; discriminate H
      | intros c r [= <- _]; reflexivity].
  - subst T.
    apply (parse_cars_join [32%N] suffix xs Hne Hxs);
      [repeat constructor | intros [H | []]; discriminate H | |].
    + destruct Hsuf as [-> | ->]; [intros []|].
      apply forallb_lacks. reflexivity.
    + destruct Hsuf as [-> | ->]; [discriminate|].
      intros c r [= <- _]. reflexivity.
Qed.

(** A ticket without the character 車 is not an exacta ticket. *)
Lemma adds_of_other (t : pystr) : ~ In 36554%N t -> adds_of t = [].
Proof.
  intros H. unfold adds_of.
  rewrite (contains_lacking (py "2車単") t 36554%N);
    [reflexivity | right; left; reflexivity | exact H].
Qed.

(** * The base exacta *)

Lemma pairs_added_single (c1 : Z) (xs : list Z) :
  pairs_added false [c1] xs = map (pair c1) xs.
Proof.
  unfold pairs_added. cbn [flat_map]. rewrite app_nil_r.
  induction xs as [|x xs IH]; simpl; congruence.
Qed.

Lemma join_cars_Some (xs : list Z) :
  join_cars (map Some xs) = join (py ",") (map str_of_Z xs).
Proof. unfold join_cars. rewrite map_map. reflexivity. Qed.

Lemma base_flow_dedup_spec (c1 c2 c3 : Z) (c4 : pycar)
    (rec_tickets : list pystr) :
  (0 < c2)%Z -> (0 < c3)%Z -> (forall x, c4 = Some x -> (0 < x)%Z) ->
  base_flow_dedup c1 (Some c2) (Some c3) c4 rec_tickets
  = map Some (uncovered c1 (flow_cars c2 c3 c4) rec_tickets).
Proof.
  intros H2 H3 H4. unfold base_flow_dedup, uncovered, flow_cars.
  assert (Hpos : forall x, (0 < x)%Z -> truthy (Some x) = true).
  { intros x Hx. simpl. apply negb_true_iff, Z.eqb_neq. lia. }
  assert (Hcov : forall x,
    bool_decide ((c1, x) ∉ covered_2t_pairs rec_tickets)
    = negb (bool_decide ((c1, x) ∈ exacta_pairs rec_tickets))).
  { intros x. unfold covered_2t_pairs, exacta_pairs.
    rewrite <- bool_decide_not. apply bool_decide_ext.
    rewrite elem_of_list_to_set. reflexivity. }
  cbn [List.filter]. rewrite (Hpos c2 H2), (Hpos c3 H3).
  destruct c4 as [x|].
  - rewrite (Hpos x (H4 x eq_refl)). cbn [List.filter map].
    rewrite !Hcov.
    destruct (negb (bool_decide ((c1, c2) ∈ _)));
      destruct (negb (bool_decide ((c1, c3) ∈ _)));
      destruct (negb (bool_decide ((c1, x) ∈ _))); reflexivity.
  - cbn [truthy List.filter map]. rewrite !Hcov.
    destruct (negb (bool_decide ((c1, c2) ∈ _)));
      destruct (negb (bool_decide ((c1, c3) ∈ _))); reflexivity.
Qed.

(** The base exacta adds the uncovered pairs, and nothing else. *)
Lemma add_base_exacta_pairs (c1 c2 c3 : Z) (c4 : pycar)
    (rec_tickets : list pystr) :
  (0 < c1)%Z -> (0 < c2)%Z -> (0 < c3)%Z ->
  (forall x, c4 = Some x -> (0 < x)%Z) ->
  exacta_pairs (add_base_exacta c1 (Some c2) (Some c3) c4 rec_tickets)
  = map (pair c1) (uncovered c1 (flow_cars c2 c3 c4) rec_tickets)
    ++ exacta_pairs rec_tickets.
Proof.
  intros H1 H2 H3 H4. unfold add_base_exacta.
  rewrite base_flow_dedup_spec by assumption.
  set (new := uncovered c1 (flow_cars c2 c3 c4) rec_tickets).
  assert (Hnew : Forall (fun x => (0 <= x)%Z) new).
  { subst new. unfold uncovered. apply Forall_forall. intros x Hx.
    apply list_elem_of_In, filter_In in Hx as [Hx _].
    unfold flow_cars in Hx.
    destruct Hx as [<- | [<- | Hx]]; [lia | lia |].
    destruct c4 as [y|]; [|destruct Hx].
    destruct Hx as [<- | []]. specialize (H4 y eq_refl). lia. }
  destruct new as [|x xs]; [reflexivity|].
  cbn [map]. unfold exacta_pairs at 1. cbn [flat_map].
  fold (exacta_pairs rec_tickets).
  change (Some x :: map Some xs) with (map Some (x :: xs)).
  rewrite join_cars_Some.
  change t_arrow with [32%N; 8594%N; 32%N].
  rewrite <- (app_nil_r (join (py ",") (map str_of_Z (x :: xs)))).
  rewrite (adds_of_exacta_ticket 8594 false c1 (x :: xs) []);
    [rewrite pairs_added_single; reflexivity | right; split; reflexivity
    | lia | discriminate | exact Hnew | left; reflexivity].
Qed.

(** ** The exacta tickets of the archetypes *)

Lemma exacta_arrow_pairs (c1 : Z) (xs : list Z) :
  (0 <= c1)%Z -> xs <> [] -> Forall (fun x => (0 <= x)%Z) xs ->
  adds_of (t_2shatan ++ str_of_Z c1 ++ t_arrow ++ join_cars (map Some xs))
  = map (pair c1) xs.
Proof.
  intros H1 Hne Hxs. rewrite join_cars_Some.
  change t_arrow with [32%N; 8594%N; 32%N].
  rewrite <- (app_nil_r (join (py ",") (map str_of_Z xs))).
  rewrite (adds_of_exacta_ticket 8594 false c1 xs []);
    [apply pairs_added_single | right; split; reflexivity
    | assumption | assumption | assumption | left; reflexivity].
Qed.

Lemma exacta_one_point_pairs (c1 pt : Z) :
  (0 <= c1)%Z -> (0 <= pt)%Z ->
  adds_of (t_2shatan ++ str_of_Z c1 ++ t_arrow ++ str_of_Z pt ++ py " (1点)")
  = [(c1, pt)].
Proof.
  intros H1 Hp. change t_arrow with [32%N; 8594%N; 32%N].
  change (str_of_Z pt) with (join (py ",") (map str_of_Z [pt])).
  rewrite (adds_of_exacta_ticket 8594 false c1 [pt] (py " (1点)"));
    [reflexivity | right; split; reflexivity | assumption | discriminate
    | repeat constructor; assumption | right; reflexivity].
Qed.

Lemma exacta_fold_pairs (c1 pt : Z) :
  (0 <= c1)%Z -> (0 <= pt)%Z ->
  adds_of (t_2shatan ++ str_of_Z c1 ++ t_fold_arrow ++ str_of_Z pt)
  = [(c1, pt); (pt, c1)].
Proof.
  intros H1 Hp. change t_fold_arrow with [32%N; 8596%N; 32%N].
  rewrite <- (app_nil_r (str_of_Z pt)).
  change (str_of_Z pt) with (join (py ",") (map str_of_Z [pt])).
  rewrite (adds_of_exacta_ticket 8596 true c1 [pt] []);
    [reflexivity | left; split; reflexivity | assumption | discriminate
    | repeat constructor; assumption | left; reflexivity].
Qed.

Lemma no_sha_app (a b : pystr) : no_sha a -> no_sha b -> no_sha (a ++ b).
Proof. unfold no_sha. intros Ha Hb H. apply in_app_or in H. tauto. Qed.

Lemma no_sha_str (z : Z) : no_sha (str_of_Z z).
Proof.
  intros H. apply In_str_of_Z in H as [H | H]; discriminate H.
Qed.

Lemma no_sha_fmt (x : pycar) : no_sha (fmt_car x).
Proof.
  intros H. apply In_fmt_car in H as [H | H]; [discriminate H|].
  revert H. apply forallb_lacks. reflexivity.
Qed.

Lemma no_sha_join_cars (l : list pycar) : no_sha (join_cars l).
Proof.
  intros H. apply In_join_cars in H as [H | H]; [discriminate H|].
  revert H. apply forallb_lacks. reflexivity.
Qed.

Ltac absent_sha :=
  repeat lazymatch goal with
  | |- ~ In 36554%N ?t => change (no_sha t)
  | |- no_sha (_ ++ _) => apply no_sha_app
  | |- no_sha (str_of_Z _) => apply no_sha_str
  | |- no_sha (fmt_car _) => apply no_sha_fmt
  | |- no_sha (join_cars _) => apply no_sha_join_cars
  | |- no_sha _ => apply forallb_lacks; reflexivity
  end.

Lemma Return_inj {A : Type} (a b : A) : Return a = Return b -> a = b.
Proof. congruence. Qed.

(** The pairs covered by the tickets of each archetype. *)
Lemma archetype_exacta_pairs (rt : RaceType) (c1 c2 c3 : Z)
    (c4 c5 : pycar) (partner : option Z) (holes : list Z)
    (rec_tickets : list pystr) :
  (0 < c1)%Z -> (0 < c2)%Z -> (0 < c3)%Z ->
  (forall p, partner = Some p -> (0 < p)%Z) ->
  archetype_tickets rt c1 (Some c2) (Some c3) c4 c5 partner holes
  = Return rec_tickets ->
  exacta_pairs rec_tickets
  = let pt := default c2 partner in
    match rt with
    | star_makuri => [(c1, c2); (c1, c3)]
    | star_nige_short => [(c1, pt)]
    | star_btop_short => [(c1, pt); (pt, c1)]
    | _ => []
    end.
Proof.
  intros H1 H2 H3 Hp H.
  assert (Hpt : (0 <= default c2 partner)%Z).
  { destruct partner as [p|]; simpl; [specialize (Hp p eq_refl)|]; lia. }
  assert (Hpt_of : match partner with
                   | Some p => Return p
                   | None => int_car (Some c2)
                   end = Return (default c2 partner))
    by (destruct partner; reflexivity).
  unfold archetype_tickets in H. rewrite Hpt_of in H.
  unfold exacta_pairs.
  destruct rt; cbn [mbind Result_bind] in H;
    repeat match type of H with
    | context [filter_not ?a ?b ?c] =>
        destruct (filter_not a b c) as [?l|?e];
          cbn [mbind Result_bind] in H; [|discriminate H]
    end;
    apply Return_inj in H; subst rec_tickets; cbn [flat_map];
    rewrite ?app_nil_r.
  all: try reflexivity.
  all: try (rewrite adds_of_other; [reflexivity|]).
  all: try solve [absent_sha].
  - (* star_makuri *)
    rewrite adds_of_other by absent_sha.
    change (join_cars [Some c2; Some c3]) with (join_cars (map Some [c2; c3])).
    rewrite exacta_arrow_pairs;
      [reflexivity | lia | discriminate | repeat constructor; lia].
  - (* star_nige_short *)
    rewrite adds_of_other by (destruct l; absent_sha).
    rewrite exacta_one_point_pairs by lia. reflexivity.
  - (* star_btop_short *)
    rewrite adds_of_other by absent_sha.
    rewrite exacta_fold_pairs by lia. reflexivity.
  - (* suji_fix *)
    pose proof (no_sha_join_cars l) as Hj.
    destruct (join_cars l); absent_sha; exact Hj.
Qed.

Lemma uncovered_spec (c1 : Z) (cars : list Z) (rec_tickets : list pystr)
    (x : Z) :
  In x (uncovered c1 cars rec_tickets)
  <-> In x cars /\ ~ In (c1, x) (exacta_pairs rec_tickets).
Proof.
  unfold uncovered. rewrite filter_In, negb_true_iff, bool_decide_eq_false,
    list_elem_of_In. reflexivity.
Qed.

Lemma NoDup_filter_list {A : Type} (f : A -> bool) (l : list A) :
  NoDup l -> NoDup (List.filter f l).
Proof.
  induction 1 as [|x l Hx Hl IH]; simpl; [constructor|].
  destruct (f x); [|exact IH].
  constructor; [|exact IH].
  rewrite list_elem_of_In, filter_In, <- list_elem_of_In. tauto.
Qed.

(** The tickets of a recommendation are the tickets of its archetype,
    with the base exacta added in front. *)
Lemma strategy_tickets_are_archetype_plus_base
    (specs : pystr -> option (Q * Q * Q)) (pred_df : ScoredFrame)
    (ai_match_cars : list Z) (s : Strategy) :
  generate_betting_strategy specs pred_df ai_match_cars = Return (Rec s) ->
  exists p1 p2 p3 rest rec_tickets,
    let df_logic := p1 :: p2 :: p3 :: rest in
    let c1 := shaban (rider p1) in
    sort_desc (fun a b => Qltb (score_col b) (score_col a)) (sf_rows pred_df)
    = df_logic
    /\ archetype_tickets (s_type s) c1
         (Some (shaban (rider p2))) (Some (shaban (rider p3)))
         (car_at df_logic 3) (car_at df_logic 4)
         ((fun r => shaban (rider r)) <$> find_partner pred_df p1)
         (sorted_set ai_match_cars)
       = Return rec_tickets
    /\ s_tickets s
       = add_base_exacta c1 (Some (shaban (rider p2)))
           (Some (shaban (rider p3))) (car_at df_logic 3) rec_tickets.
Proof.
  unfold generate_betting_strategy.
  destruct (sort_desc _ (sf_rows pred_df)) as [|p1 [|p2 [|p3 rest]]] eqn:Es;
    try discriminate.
  match goal with
  | |- context [if ?b then (_, _, _) else _] => destruct b
  end; cbv zeta;
    (match goal with
     | |- context [archetype_tickets ?rt ?a ?b ?c ?d ?e ?f ?g] =>
         destruct (archetype_tickets rt a b c d e f g) as [rec_tickets|e0]
           eqn:Ea
     end; [|discriminate]);
    unfold mbind, Result_bind;
    (match goal with
     | |- context [confidence_level ?l] =>
         destruct (confidence_level l); [|discriminate];
         destruct (recommended_points l); [|discriminate]
     end);
    intros E; apply Return_inj in E; injection E as <-;
    exists p1, p2, p3, rest, rec_tickets; cbv zeta; cbn [s_type s_tickets];
    (split; [reflexivity|]); (split; [exact Ea | reflexivity]).
Qed.

(** * The example history: a settled and a pending race *)


(** C5 (the code departs from the claim): with one settled race, which
    is a hit, and one race without a stored result, [stats] reports a
    hit rate of 50: the pending record is counted in the denominator
    [len(df_res)].  Over the settled races alone, as the claim has it
    and as the presentation layer recomputes it, the rate is 100.  The
    recovery rate is taken over the stakes of settled races only. *)
Theorem C5_hit_rate_counts_pending_records :
  exists a st,
    analyze_prediction_history first_seen_order [h_race7; h_race8]
      race7_table = Return a
    /\ stats a = Some st
    /\ map hit_detail (df_res a)
       = [HD_not_arrived; HD_hits [(TT_2shatan, 900); (TT_3rentan, 5000)]]
    /\ total_races st = 2%nat /\ hit_count st = 1%nat
    /\ hit_rate st == 50
    /\ disp_hit_rate (df_res a) == 100
    /\ total_invest st = 400%Z /\ recovery_rate st == 1475.
Proof.
  eexists. eexists. split; [vm_compute; reflexivity|].
  split; [reflexivity|]. cbn [df_res].
  split; [vm_compute; reflexivity|].
  repeat split; vm_compute; reflexivity.
Qed.

Lemma C10_girls_race_is_reported_as_awaiting_witness :
  tbl_has_kyuhan girls_table = true
  /\ exists a,
       analyze_prediction_history first_seen_order [h_race7; h_race8]
         girls_table = Return a
       /\ forall r, In r (df_res a) ->
            row_rid (row_history r) = py "静岡_2026-01-05_7R" ->
            hit_detail r = HD_not_arrived /\ investment r = 0%Z
            /\ benefit r == 0 /\ is_hit r = false.
Proof.
  split; [reflexivity|].
  apply (C10_girls_race_is_reported_as_awaiting first_seen_order
           [h_race7; h_race8] girls_table (py "静岡_2026-01-05_7R")).
  - reflexivity.
  - exists (result_row "静岡_2026-01-05_7R" 2 "2" "L1").
    split; [left; reflexivity|]. split; vm_compute; reflexivity.
  - vm_compute. tauto.
Defined.

Lemma C8_settlement_is_deterministic_witness :
  set_order_ok first_seen_order /\ set_order_ok last_seen_order
  /\ analyze_prediction_history first_seen_order [h_race7; h_race8]
       race7_table
     = analyze_prediction_history last_seen_order [h_race7; h_race8]
         race7_table.
Proof.
  split; [exact first_seen_order_ok|].
  split; [exact last_seen_order_ok|].
  exact (C8_settlement_is_deterministic first_seen_order last_seen_order
           [h_race7; h_race8] race7_table first_seen_order_ok
           last_seen_order_ok).
Defined.

(** * Sorting *)

Lemma insert_desc_Permutation {A : Type} (gt : A -> A -> bool) (x : A)
    (l : list A) :
  insert_desc gt x l ≡ₚ x :: l.
Proof.
  induction l as [|y r IH]; simpl; [reflexivity|].
  destruct (gt y x); [|reflexivity].
  rewrite IH. apply Permutation_swap.
Qed.

Lemma sort_desc_Permutation {A : Type} (gt : A -> A -> bool) (l : list A) :
  sort_desc gt l ≡ₚ l.
Proof.
  induction l as [|x r IH]; simpl; [reflexivity|].
  rewrite insert_desc_Permutation, IH. reflexivity.
Qed.

Lemma insert_desc_sorted {A : Type} (key : A -> Q) (x : A) (l : list A) :
  StronglySorted (fun a b => key b <= key a) l ->
  StronglySorted (fun a b => key b <= key a)
    (insert_desc (fun a b => Qltb (key b) (key a)) x l).
Proof.
  induction 1 as [|y r Hr IH Hy]; simpl.
  - constructor; [constructor | constructor].
  - destruct (Qltb (key x) (key y)) eqn:E.
    + constructor; [exact IH|].
      rewrite (insert_desc_Permutation _ x r). constructor; [|exact Hy].
      apply Qltb_true in E. apply Qlt_le_weak, E.
    + apply Qltb_false in E.
      constructor; [constructor; assumption|].
      constructor; [exact E|].
      eapply Forall_impl; [exact Hy|]. intros z Hz. simpl in Hz.
      eapply Qle_trans; eassumption.
Qed.

Lemma sort_desc_sorted {A : Type} (key : A -> Q) (l : list A) :
  StronglySorted (fun a b => key b <= key a)
    (sort_desc (fun a b => Qltb (key b) (key a)) l).
Proof.
  induction l as [|x r IH]; simpl; [constructor|].
  apply insert_desc_sorted, IH.
Qed.

(** The first row of a sorted frame has the largest key. *)
Lemma sort_desc_head_max {A : Type} (key : A -> Q) (l : list A) (x : A)
    (rest : list A) :
  sort_desc (fun a b => Qltb (key b) (key a)) l = x :: rest ->
  Forall (fun y => key y <= key x) l.
Proof.
  intros E. pose proof (sort_desc_sorted key l) as Hs.
  rewrite <- (sort_desc_Permutation (fun a b => Qltb (key b) (key a)) l).
  rewrite E in *. apply StronglySorted_inv in Hs as [_ Hs].
  constructor; [apply Qle_refl | exact Hs].
Qed.

(** * The classifier: what a recommendation holds *)

Lemma classify_consistent (high : bool) (p1 : Scored) (bank_straight : Q)
    (suji_mode : option SujiMode) (strict : bool) (w1 w2 w3 : Q)
    (c : Confidence) (p : nat * nat) :
  let l3 := classify high p1 bank_straight suji_mode strict w1 w2 w3 in
  confidence_level l3 = Some c -> recommended_points l3 = Some p ->
  confidence_points_of (race_type l3) = Some (c, p).
Proof.
  unfold classify, star_bet, threshold_logic, assign.
  destruct high; cbn [negb andb]; [discriminate|].
  destruct (is_dom_makuri p1); cbn [is_star_bet negb andb].
  { intros [= <-] [= <-]. reflexivity. }
  destruct (is_dom_nige p1 && Qltb bank_straight 50.0);
    cbn [is_star_bet negb andb].
  { intros [= <-] [= <-]. reflexivity. }
  destruct (is_b_top p1 && Qltb bank_straight 50.0);
    cbn [is_star_bet negb andb].
  { intros [= <-] [= <-]. reflexivity. }
  destruct suji_mode as [[]|]; cbn [confidence_level recommended_points race_type];
    try (intros [= <-] [= <-]; reflexivity).
  repeat match goal with
         | |- context [if ?b then _ else _] => destruct b
         end;
    cbn [confidence_level recommended_points race_type];
    try discriminate; intros [= <-] [= <-]; reflexivity.
Qed.

(** The classification of [generate_betting_strategy], named. *)
Lemma strategy_classified
    (specs : pystr -> option (Q * Q * Q)) (pred_df : ScoredFrame)
    (ai_match_cars : list Z) (s : Strategy) :
  generate_betting_strategy specs pred_df ai_match_cars = Return (Rec s) ->
  exists high p1 bank_straight suji_mode strict w1 w2 w3,
    let l3 := classify high p1 bank_straight suji_mode strict w1 w2 w3 in
    s_type s = race_type l3
    /\ confidence_level l3 = Some (s_confidence_level s)
    /\ recommended_points l3 = Some (s_recommended_points s).
Proof.
  unfold generate_betting_strategy.
  destruct (sort_desc _ (sf_rows pred_df)) as [|p1 [|p2 [|p3 rest]]] eqn:Es;
    try discriminate.
  match goal with
  | |- context [if ?b then (_, _, _) else _] => destruct b
  end; cbv zeta;
    (match goal with
     | |- context [archetype_tickets ?rt ?a ?b ?c ?d ?e ?f ?g] =>
         destruct (archetype_tickets rt a b c d e f g) as [rec_tickets|e0]
     end; [|discriminate]);
    unfold mbind, Result_bind;
    (match goal with
     | |- context [confidence_level ?l] =>
         destruct (confidence_level l) eqn:Ec; [|discriminate];
         destruct (recommended_points l) eqn:Ep; [|discriminate]
     end);
    intros E; apply Return_inj in E; injection E as <-;
    cbn [s_type s_confidence_level s_recommended_points];
    do 8 eexists; cbv zeta; unfold classify;
    (split; [reflexivity|]); (split; [exact Ec | exact Ep]).
Qed.

(** Every recommendation the classifier returns has one of the ten
    archetypes that bind a confidence level, never [skip] or [snipe], and
    carries the confidence level and the recommended numbers of points of
    its archetype. *)
Theorem recommendation_carries_the_table_of_its_archetype
    (specs : pystr -> option (Q * Q * Q)) (pred_df : ScoredFrame)
    (ai_match_cars : list Z) (s : Strategy) :
  generate_betting_strategy specs pred_df ai_match_cars = Return (Rec s) ->
  confidence_points_of (s_type s)
  = Some (s_confidence_level s, s_recommended_points s)
  /\ s_type s <> skip /\ s_type s <> snipe.
Proof.
  intros H.
  apply strategy_classified
    in H as (high & p1 & bs & sm & st & w1 & w2 & w3 & Ht & Hc & Hp).
  cbv zeta in Ht, Hc, Hp.
  pose proof (classify_consistent high p1 bs sm st w1 w2 w3 _ _ Hc Hp) as Ht'.
  cbv zeta in Ht'. rewrite <- Ht in Ht'.
  split; [exact Ht'|].
  split; intros E; rewrite E in Ht'; discriminate.
Qed.

Lemma recommendation_carries_the_table_of_its_archetype_witness :
  exists s,
    generate_betting_strategy sample_specs example_scored [] = Return (Rec s)
    /\ confidence_points_of (s_type s)
       = Some (s_confidence_level s, s_recommended_points s).
Proof.
  eexists. split; [vm_compute; reflexivity|].
  apply (recommendation_carries_the_table_of_its_archetype sample_specs
           example_scored []).
  vm_compute. reflexivity.
Defined.

(** * The classifier: when it returns *)



Lemma fold_Qplus_ge (l : list Q) (a : Q) :
  Forall (fun y => 0 <= y) l -> a <= fold_left Qplus l a.
Proof.
  intros H. revert a. induction H as [|y l Hy Hl IH]; intros a.
  - apply Qle_refl.
  - cbn [fold_left]. eapply Qle_trans; [|apply IH]. lra.
Qed.





(** * Tactic dominance *)

Lemma two_positions_counted {A : Type} (P : A -> bool) (l : list A)
    (i j : nat) (a b : A) :
  i <> j -> l !! i = Some a -> l !! j = Some b ->
  P a = true -> P b = true ->
  (2 <= length (List.filter P l))%nat.
Proof.
  assert (One : forall (l : list A) k c,
            l !! k = Some c -> P c = true ->
            (1 <= length (List.filter P l))%nat).
  { clear. induction l as [|x l IH]; intros [|k] c Hk Hc; try discriminate.
    - injection Hk as ->. simpl. rewrite Hc. simpl. lia.
    - simpl. specialize (IH k c Hk Hc). destruct (P x); simpl; lia. }
  revert i j. induction l as [|x l IH]; intros [|i] [|j] Hij Hi Hj Ha Hb;
    try discriminate; try congruence.
  - injection Hi as ->. simpl. rewrite Ha. simpl.
    specialize (One l j b Hj Hb). lia.
  - injection Hj as ->. simpl. rewrite Hb. simpl.
    specialize (One l i a Hi Ha). lia.
  - simpl. assert (Hij' : i <> j) by congruence.
    specialize (IH i j Hij' Hi Hj Ha Hb). destruct (P x); simpl; lia.
Qed.

Lemma filter_length_Permutation {A : Type} (P : A -> bool) (l l' : list A) :
  l ≡ₚ l' -> length (List.filter P l) = length (List.filter P l').
Proof.
  induction 1 as [|x l l' H IH|x y l|l l' l'' H1 IH1 H2 IH2]; simpl.
  - reflexivity.
  - destruct (P x); simpl; congruence.
  - destruct (P x), (P y); reflexivity.
  - congruence.
Qed.

Lemma Qeqb_true (a b : Q) : Qeqb a b = true <-> a == b.
Proof. apply Qeq_bool_iff. Qed.

(** A rider that [check_dominance] flags has a count of at least 5, and
    every other rider has a strictly smaller count. *)
Lemma check_dominance_strict (col : list Q) (i : nat) :
  check_dominance col !! i = Some true ->
  exists v, col !! i = Some v /\ 5 <= v
    /\ forall j w, j <> i -> col !! j = Some w -> w < v.
Proof.
  unfold check_dominance.
  pose proof (sort_desc_head_max (fun x : Q => x) col) as Hmax.
  pose proof (sort_desc_sorted (fun x : Q => x) col) as Hsorted.
  pose proof (sort_desc_Permutation (fun a b : Q => Qltb b a) col) as Hperm.
  destruct (sort_desc (fun a b : Q => Qltb b a) col)
    as [|top_val [|sec_val rest]] eqn:Es.
  - rewrite list_lookup_fmap. destruct (col !! i); discriminate.
  - rewrite list_lookup_fmap. destruct (col !! i); discriminate.
  - specialize (Hmax _ _ eq_refl).
    rewrite list_lookup_fmap.
    destruct (col !! i) as [v|] eqn:Ev; [|discriminate].
    cbn [fmap option_fmap option_map]. intros [= H].
    apply andb_true_iff in H as [H Hdom].
    apply andb_true_iff in H as [Hv Htop].
    apply Qeqb_true in Hv. apply Qltb_true in Htop.
    apply andb_true_iff in Hdom as [H5 Hd]. apply Qleb_true in H5.
    assert (Hsec : sec_val < top_val).
    { apply orb_true_iff in Hd as [Hd | Hd];
        [apply orb_true_iff in Hd as [Hd | Hd]|].
      - apply Qleb_true in Hd. lra.
      - apply andb_true_iff in Hd as [Hs Hr].
        apply Qltb_true in Hs. apply Qleb_true in Hr.
        assert (Hm : 3.0 * sec_val <= top_val).
        { assert (E : top_val / sec_val * sec_val == top_val)
            by (field; lra).
          rewrite <- E. apply Qmult_le_compat_r; [exact Hr | lra]. }
        lra.
      - apply andb_true_iff in Hd as [Hs _]. apply Qeqb_true in Hs. lra. }
    exists v. split; [reflexivity|]. split; [lra|].
    intros j w Hj Hw.
    assert (Hle : w <= top_val).
    { rewrite Forall_forall in Hmax. apply Hmax.
      apply list_elem_of_lookup. exists j. exact Hw. }
    destruct (Qlt_le_dec w top_val) as [Hlt | Hge]; [lra|].
    exfalso.
    assert (Hweq : Qeqb top_val w = true) by (apply Qeqb_true; lra).
    assert (Hveq : Qeqb top_val v = true) by (apply Qeqb_true; lra).
    pose proof (two_positions_counted (Qeqb top_val) col j i w v Hj Hw Ev
                  Hweq Hveq) as Hcount.
    rewrite <- (filter_length_Permutation _ _ _ Hperm) in Hcount.
    apply StronglySorted_inv in Hsorted as [Hsorted Hall].
    change (List.filter (Qeqb top_val) (top_val :: sec_val :: rest))
      with (if Qeqb top_val top_val
            then top_val :: List.filter (Qeqb top_val) (sec_val :: rest)
            else List.filter (Qeqb top_val) (sec_val :: rest)) in Hcount.
    assert (Hnone : List.filter (Qeqb top_val) (sec_val :: rest) = []).
    { apply Forall_cons in Hall as [_ Hall].
      apply StronglySorted_inv in Hsorted as [_ Hrest].
      cbn [List.filter].
      assert (E1 : Qeqb top_val sec_val = false).
      { apply not_true_iff_false. rewrite Qeqb_true. lra. }
      rewrite E1. clear -Hrest Hsec.
      induction Hrest as [|y r Hy Hr IH]; [reflexivity|].
      cbn [List.filter].
      assert (E : Qeqb top_val y = false).
      { apply not_true_iff_false. rewrite Qeqb_true. simpl in Hy. lra. }
      rewrite E. exact IH. }
    rewrite Hnone in Hcount.
    destruct (Qeqb top_val top_val); simpl in Hcount; lia.
Qed.

Lemma map_imap_pointwise {A B C : Type} (h : B -> C) (h' : A -> C)
    (g : nat -> A -> B) (l : list A) :
  (forall i x, h (g i x) = h' x) -> map h (imap g l) = map h' l.
Proof.
  revert g. induction l as [|x l IH]; intros g Hg; simpl; [reflexivity|].
  rewrite Hg. f_equal. apply IH. intros i y. apply Hg.
Qed.

(** The dominance flags of the feature rows, read off the [_val]
    columns of the same rows. *)
Lemma v3_features_flags (sf : ScoredFrame) (i : nat) (f : Scored) :
  v3_features sf !! i = Some f ->
  is_dom_nige f
  = default false (check_dominance (map nige_val (v3_features sf)) !! i)
  /\ is_dom_makuri f
     = default false (check_dominance (map makuri_val (v3_features sf)) !! i)
  /\ is_dom_sashi f
     = default false (check_dominance (map sashi_val (v3_features sf)) !! i).
Proof.
  intros H.
  assert (En : map nige_val (v3_features sf)
               = map (fun r => numeric_col (sf_has C_nige sf)
                                 (col_nige (rider r))) (sf_rows sf))
    by (apply map_imap_pointwise; reflexivity).
  assert (Em : map makuri_val (v3_features sf)
               = map (fun r => numeric_col (sf_has C_makuri sf)
                                 (col_makuri (rider r))) (sf_rows sf))
    by (apply map_imap_pointwise; reflexivity).
  assert (Es : map sashi_val (v3_features sf)
               = map (fun r => numeric_col (sf_has C_sashi sf)
                                 (col_sashi (rider r))) (sf_rows sf))
    by (apply map_imap_pointwise; reflexivity).
  rewrite En, Em, Es. clear En Em Es.
  unfold v3_features in H. cbv zeta in H.
  rewrite list_lookup_imap in H.
  destruct (sf_rows sf !! i) as [x|]; [|discriminate].
  injection H as <-. repeat split.
Qed.

Lemma dominant_column (F : list Scored) (val : Scored -> Q) (i : nat)
    (f : Scored) :
  F !! i = Some f ->
  default false (check_dominance (map val F) !! i) = true ->
  5 <= val f
  /\ forall j f', j <> i -> F !! j = Some f' ->
       val f' < val f
       /\ default false (check_dominance (map val F) !! j) = false.
Proof.
  intros Hf Hflag.
  assert (Hi : check_dominance (map val F) !! i = Some true).
  { destruct (check_dominance (map val F) !! i) as [[]|]; try discriminate.
    reflexivity. }
  destruct (check_dominance_strict _ _ Hi) as (v & Hv & H5 & Hstrict).
  change (map val F) with (val <$> F) in Hv.
  rewrite list_lookup_fmap, Hf in Hv. injection Hv as <-.
  split; [exact H5|]. intros j f' Hj Hf'.
  assert (Hlt : val f' < val f).
  { apply (Hstrict j); [exact Hj|].
    change (map val F) with (val <$> F).
    rewrite list_lookup_fmap, Hf'. reflexivity. }
  split; [exact Hlt|].
  destruct (check_dominance (map val F) !! j) as [[]|] eqn:Ej;
    try reflexivity.
  exfalso.
  destruct (check_dominance_strict _ _ Ej) as (w & Hw & _ & Hstrict').
  change (map val F) with (val <$> F) in Hw.
  rewrite list_lookup_fmap, Hf' in Hw. injection Hw as <-.
  assert (Hgt : val f < val f').
  { apply (Hstrict' i); [congruence|].
    change (map val F) with (val <$> F).
    rewrite list_lookup_fmap, Hf. reflexivity. }
  lra.
Qed.

(** In the frame [apply_v3_logic] returns, a rider flagged as dominant in
    a tactic has a count of at least 5 in it, every other rider has a
    strictly smaller count, and no other rider carries the flag: each
    tactic has at most one dominant rider. *)
Theorem at_most_one_dominant_rider_per_tactic
    (specs : pystr -> option (Q * Q * Q)) (sf sf' : ScoredFrame)
    (i : nat) (r : Scored) :
  apply_v3_logic specs sf = Return sf' ->
  sf_rows sf <> [] ->
  sf_rows sf' !! i = Some r ->
  let unique (flag : Scored -> bool) (val : Scored -> Q) :=
    flag r = true ->
    5 <= val r
    /\ forall j r', j <> i -> sf_rows sf' !! j = Some r' ->
         val r' < val r /\ flag r' = false in
  unique is_dom_nige nige_val
  /\ unique is_dom_makuri makuri_val
  /\ unique is_dom_sashi sashi_val.
Proof.
  intros H Hne Hr. unfold apply_v3_logic in H.
  destruct (sf_rows sf) as [|first rest] eqn:Er; [congruence|].
  destruct (sf_tagged sf); [|discriminate].
  injection H as <-. cbn [sf_rows] in *.
  set (F := v3_features sf) in *.
  set (step := v3_row _ _ _ _ _) in *.
  assert (Hrow : forall k x, map step F !! k = Some x ->
            exists f, F !! k = Some f /\ same_features f x).
  { intros k x Hk. change (map step F) with (step <$> F) in Hk.
    rewrite list_lookup_fmap in Hk.
    destruct (F !! k) as [f|]; [|discriminate]. injection Hk as <-.
    exists f. split; [reflexivity | apply v3_row_features]. }
  destruct (Hrow i r Hr) as (f & Hf & Hsame).
  destruct (v3_features_flags sf i f Hf) as (Fn & Fm & Fs).
  fold F in Fn, Fm, Fs.
  destruct Hsame as (_ & _ & _ & Vn & Vm & Vs & _ & Dn & Dm & Ds).
  cbv zeta.
  split; [|split]; intros Hflag.
  - rewrite Dn, Fn in Hflag.
    destruct (dominant_column F nige_val i f Hf Hflag) as [H5 Hothers].
    rewrite Vn. split; [exact H5|]. intros j r' Hj Hr'.
    destruct (Hrow j r' Hr') as (f' & Hf' & Hsame').
    destruct Hsame' as (_ & _ & _ & Vn' & _ & _ & _ & Dn' & _ & _).
    destruct (Hothers j f' Hj Hf') as [Hlt Hno].
    destruct (v3_features_flags sf j f' Hf') as (Fn' & _ & _).
    fold F in Fn'. rewrite Vn', Dn', Fn'. split; assumption.
  - rewrite Dm, Fm in Hflag.
    destruct (dominant_column F makuri_val i f Hf Hflag) as [H5 Hothers].
    rewrite Vm. split; [exact H5|]. intros j r' Hj Hr'.
    destruct (Hrow j r' Hr') as (f' & Hf' & Hsame').
    destruct Hsame' as (_ & _ & _ & _ & Vm' & _ & _ & _ & Dm' & _).
    destruct (Hothers j f' Hj Hf') as [Hlt Hno].
    destruct (v3_features_flags sf j f' Hf') as (_ & Fm' & _).
    fold F in Fm'. rewrite Vm', Dm', Fm'. split; assumption.
  - rewrite Ds, Fs in Hflag.
    destruct (dominant_column F sashi_val i f Hf Hflag) as [H5 Hothers].
    rewrite Vs. split; [exact H5|]. intros j r' Hj Hr'.
    destruct (Hrow j r' Hr') as (f' & Hf' & Hsame').
    destruct Hsame' as (_ & _ & _ & _ & _ & Vs' & _ & _ & _ & Ds').
    destruct (Hothers j f' Hj Hf') as [Hlt Hno].
    destruct (v3_features_flags sf j f' Hf') as (_ & _ & Fs').
    fold F in Fs'. rewrite Vs', Ds', Fs'. split; assumption.
Qed.

Lemma at_most_one_dominant_rider_per_tactic_witness :
  exists r,
    sf_rows (scored_of contested_df) !! 0%nat = Some r
    /\ is_dom_nige r = true
    /\ 5 <= nige_val r
    /\ forall j r', j <> 0%nat ->
         sf_rows (scored_of contested_df) !! j = Some r' ->
         nige_val r' < nige_val r /\ is_dom_nige r' = false.
Proof.
  eexists. split; [vm_compute; reflexivity|]. split; [reflexivity|].
  refine (proj1 (at_most_one_dominant_rider_per_tactic sample_specs
                   (classic_of contested_df) (scored_of contested_df)
                   0%nat _ _ _ _) _).
  - vm_compute. reflexivity.
  - vm_compute. discriminate.
  - vm_compute. reflexivity.
  - reflexivity.
Defined.

(** * The scoring engine: when it raises *)






(** * Settlement: the accounts *)

Lemma Zsum_app (l1 l2 : list Z) : Zsum (l1 ++ l2) = (Zsum l1 + Zsum l2)%Z.
Proof. induction l1 as [|x l1 IH]; simpl; lia. Qed.

Lemma fold_left_Zadd {A : Type} (f : A -> Z) (l : list A) (a : Z) :
  fold_left (fun a s => (a + f s)%Z) l a = (a + Zsum (map f l))%Z.
Proof.
  revert a. induction l as [|x l IH]; intros a; simpl; [lia|].
  rewrite IH. lia.
Qed.

Lemma fold_left_Qadd {A : Type} (f : A -> Q) (l : list A) (a : Q) :
  fold_left (fun a s => a + f s) l a = fold_left Qplus (map f l) a.
Proof.
  revert a. induction l as [|x l IH]; intros a; simpl; [reflexivity|].
  apply IH.
Qed.

Lemma Zsum_concat {A : Type} (f : A -> Z) (ls : list (list A)) :
  Zsum (map f (concat ls)) = Zsum (map (fun l => Zsum (map f l)) ls).
Proof.
  induction ls as [|l ls IH]; simpl; [reflexivity|].
  rewrite map_app, Zsum_app, IH. reflexivity.
Qed.

Lemma settle_ticket_invest (set_order : list pystr -> list pystr)
    (top3 : list pystr) (payouts : gmap PayKey Q) (t_str : pystr) :
  tk_invest (settle_ticket set_order top3 payouts t_str)
  = (Z.of_nat (tk_points (settle_ticket set_order top3 payouts t_str))
     * 100)%Z.
Proof.
  unfold settle_ticket.
  destruct (ticket_parts t_str) as [parts is_fold].
  destruct (count_points _ _ _ _) as [points0 combinations].
  destruct (check_hit _ _ _ _) as [pay tickets_hit]. reflexivity.
Qed.

Section Accounts.

Variable set_order : list pystr -> list pystr.

Lemma ticket_step_ok (h : History) (info : ResInfo) (acc : RaceAcc)
    (t_str : pystr) :
  acc_ok acc -> acc_ok (ticket_step set_order h info acc t_str).
Proof.
  intros (Hi & (k & Hk) & H0 & Hnil & Hpos). unfold ticket_step, acc_ok.
  cbv zeta.
  set (r := settle_ticket set_order (top3 info) (payouts info) t_str).
  cbn [race_invest race_return hit_strs race_ticket_rows].
  pose proof (settle_ticket_invest set_order (top3 info) (payouts info) t_str)
    as Hinv. fold r in Hinv.
  split; [|split; [|split; [|split]]].
  - rewrite map_app, Zsum_app. cbn [map tr_invest Zsum fold_right]. lia.
  - exists (k + tk_points r)%nat. lia.
  - destruct (tk_hit r && Qltb 0 (tk_pay r)) eqn:E; [|exact H0].
    apply andb_true_iff in E as [_ E]. apply Qltb_true in E. lra.
  - destruct (tk_hit r && Qltb 0 (tk_pay r)) eqn:E; [|exact Hnil].
    intros Habs. destruct (hit_strs acc); discriminate.
  - destruct (tk_hit r && Qltb 0 (tk_pay r)) eqn:E; [|exact Hpos].
    intros _. apply andb_true_iff in E as [_ E]. apply Qltb_true in E. lra.
Qed.

Lemma ticket_loop_ok (h : History) (info : ResInfo) (tickets : list pystr) :
  acc_ok (fold_left (ticket_step set_order h info) tickets
            (mkRaceAcc 0 0 [] [])).
Proof.
  apply fold_left_invariant.
  - intros a b. apply ticket_step_ok.
  - unfold acc_ok. cbn. repeat split; try lra; try reflexivity.
    + exists 0%nat. reflexivity.
    + intros H. congruence.
Qed.

Lemma awaiting_row_ok (h : History) (status : bool) :
  row_ok (mkRow h (race_num_R h) false 0 0 0 HD_not_arrived status None).
Proof.
  unfold row_ok. cbn [balance benefit investment is_hit hit_detail].
  split; [reflexivity|]. split; [lra|]. split; [exists 0%nat; reflexivity|].
  split; [split; [discriminate | intros E; lra]|].
  split; [split; [discriminate | intros (x & [=])]|].
  split; [discriminate|]. intros _. repeat split.
Qed.

(** What one record contributes agrees with its row and its ticket
    rows. *)
Lemma settle_history_ok (race_map : gmap pystr ResInfo) (h : History) :
  let s := settle_history set_order race_map h in
  row_ok (st_row s)
  /\ row_history (st_row s) = h
  /\ investment (st_row s) = st_invest s
  /\ benefit (st_row s) = st_return s
  /\ Zsum (map tr_invest (st_ticket_rows s)) = st_invest s.
Proof.
  unfold settle_history. cbv zeta.
  destruct (race_map !! row_rid h) as [info|].
  2:{ cbn [st_row st_invest st_return st_ticket_rows].
      split; [apply awaiting_row_ok|]. repeat split. }
  destruct (bool_decide (payouts info = ∅) || (length (top3 info) <? 2)%nat)
    eqn:Ep.
  { cbn [st_row st_invest st_return st_ticket_rows].
    split; [apply awaiting_row_ok|]. repeat split. }
  apply orb_false_iff in Ep as [_ Hlen]. apply Nat.ltb_ge in Hlen.
  pose proof (ticket_loop_ok h info (h_tickets h)) as Hok.
  set (acc := fold_left _ (h_tickets h) _) in *.
  destruct Hok as (Hi & (k & Hk) & H0 & Hnil & Hpos).
  assert (Hpending :
    match top3 info with
    | [] => true
    | _ => (length (top3 info) <? 3)%nat && (length (top3 info) <? 1)%nat
    end = false).
  { destruct (top3 info) as [|a [|b l]]; simpl in Hlen; try lia.
    apply andb_false_iff. right. reflexivity. }
  rewrite Hpending.
  destruct (hit_strs acc) as [|hs0 hs] eqn:Eh.
  - specialize (Hnil eq_refl).
    cbn [st_row st_invest st_return st_ticket_rows].
    assert (Hrow : row_ok
              (mkRow h (race_num_R h) (Qltb 0 (race_return acc))
                 (race_return acc) (race_invest acc)
                 (race_return acc - inject_Z (race_invest acc)) HD_miss
                 false (Some (join (py "-") (top3 info))))).
    { unfold row_ok.
      cbn [balance benefit investment is_hit hit_detail]. rewrite Hnil.
      split; [reflexivity|]. split; [lra|]. split; [exists k; exact Hk|].
      split; [split; [intros E; discriminate E | intros E; lra]|].
      split; [split; [intros E; discriminate E | intros (x & [=])]|].
      split; discriminate. }
    split; [exact Hrow|]. cbn [row_history investment benefit].
    split; [reflexivity|]. split; [reflexivity|]. split; [reflexivity|].
    symmetry. exact Hi.
  - assert (Hp : 0 < race_return acc) by (apply Hpos; discriminate).
    cbn [st_row st_invest st_return st_ticket_rows].
    assert (Hrow : row_ok
              (mkRow h (race_num_R h) (Qltb 0 (race_return acc))
                 (race_return acc) (race_invest acc)
                 (race_return acc - inject_Z (race_invest acc))
                 (HD_hits (hs0 :: hs)) false
                 (Some (join (py "-") (top3 info))))).
    { unfold row_ok.
      cbn [balance benefit investment is_hit hit_detail].
      assert (Ehit : Qltb 0 (race_return acc) = true)
        by (apply Qltb_true; exact Hp).
      rewrite Ehit.
      split; [reflexivity|]. split; [lra|]. split; [exists k; exact Hk|].
      split; [split; [intros _; exact Hp | reflexivity]|].
      split; [split; [intros _; eexists; reflexivity | reflexivity]|].
      split; discriminate. }
    split; [exact Hrow|]. cbn [row_history investment benefit].
    split; [reflexivity|]. split; [reflexivity|]. split; [reflexivity|].
    symmetry. exact Hi.
Qed.

(** The triple the function returns, when it is not the empty one. *)
Lemma analysis_shape (history_data : list History) (tbl : RaceResultTable)
    (a : Analysis) :
  analyze_prediction_history set_order history_data tbl = Return a ->
  a = empty_analysis
  \/ exists race_map,
       let settled :=
         map (settle_history set_order race_map)
           (deduped_history history_data) in
       a = mkAnalysis (map st_row settled)
             (Some (make_stats (map st_row settled)
                      (fold_left (fun a s => (a + st_invest s)%Z) settled 0%Z)
                      (fold_left (fun a s => a + st_return s) settled 0)))
             (concat (map st_ticket_rows settled)).
Proof.
  unfold analyze_prediction_history.
  destruct history_data as [|h0 hs]; [intros [= <-]; left; reflexivity|].
  destruct (target_rids (h0 :: hs)) as [|t0 ts];
    [intros [= <-]; left; reflexivity|].
  destruct (load_results tbl (set_order (t0 :: ts))) as [|d0 ds];
    [discriminate|].
  intros [= <-]. right. eexists. reflexivity.
Qed.

(** Every row of the race-level summary: the balance is the return minus
    the stake, the stake is a multiple of 100, the row is a hit exactly
    when its return is positive and exactly when its detail lists hits,
    a row reported as awaiting its result carries no stake and no
    return, and the initial detail "結果待/無" never survives. *)
Theorem every_row_of_the_summary_is_consistent
    (history_data : list History) (tbl : RaceResultTable) (a : Analysis)
    (r : Row) :
  analyze_prediction_history set_order history_data tbl = Return a ->
  In r (df_res a) ->
  balance r == benefit r - inject_Z (investment r)
  /\ 0 <= benefit r
  /\ (exists k, investment r = (Z.of_nat k * 100)%Z)
  /\ (is_hit r = true <-> 0 < benefit r)
  /\ (is_hit r = true <-> exists hs, hit_detail r = HD_hits hs)
  /\ hit_detail r <> HD_waiting
  /\ (hit_detail r = HD_not_arrived ->
      investment r = 0%Z /\ benefit r = 0 /\ balance r = 0).
Proof.
  intros Ha Hr.
  destruct (analysis_shape _ _ _ Ha) as [-> | (race_map & ->)];
    [destruct Hr|].
  cbn [df_res] in Hr. rewrite map_map in Hr.
  apply in_map_iff in Hr as (h & <- & _).
  exact (proj1 (settle_history_ok race_map h)).
Qed.

Lemma count_hits_le (results : list Row) :
  (count_hits results <= length results)%nat.
Proof.
  unfold count_hits. induction results as [|r l IH]; simpl; [lia|].
  destruct (is_hit r); simpl; lia.
Qed.

(** The totals agree with the tables: the total stake is the sum of the
    stakes of the rows and the sum of the stakes of the ticket rows, the
    total return is the sum of the returns of the rows, and the rates
    are within their bounds. *)
Theorem totals_agree_with_the_tables
    (history_data : list History) (tbl : RaceResultTable) (a : Analysis)
    (st : Stats) :
  analyze_prediction_history set_order history_data tbl = Return a ->
  stats a = Some st ->
  total_invest st = Zsum (map investment (df_res a))
  /\ total_invest st = Zsum (map tr_invest (df_tickets a))
  /\ total_return st = Qsum (map benefit (df_res a))
  /\ (hit_count st <= total_races st)%nat
  /\ 0 <= hit_rate st /\ hit_rate st <= 100
  /\ 0 <= recovery_rate st.
Proof.
  intros Ha Hst.
  destruct (analysis_shape _ _ _ Ha) as [-> | (race_map & ->)];
    [discriminate|].
  cbn [stats df_res df_tickets] in *. injection Hst as <-.
  set (settled := map (settle_history set_order race_map)
                    (deduped_history history_data)).
  assert (Hall : Forall
            (fun s => row_ok (st_row s)
                      /\ investment (st_row s) = st_invest s
                      /\ benefit (st_row s) = st_return s
                      /\ Zsum (map tr_invest (st_ticket_rows s))
                         = st_invest s) settled).
  { subst settled. apply Forall_forall. intros s Hs.
    apply list_elem_of_In, in_map_iff in Hs as (h & <- & _).
    pose proof (settle_history_ok race_map h) as H. cbv zeta in H. tauto. }
  assert (Einv : map investment (map st_row settled) = map st_invest settled).
  { rewrite map_map. clear -Hall.
    induction Hall as [|s l (_ & Hs & _) _ IH]; simpl; congruence. }
  assert (Eben : map benefit (map st_row settled) = map st_return settled).
  { rewrite map_map. clear -Hall.
    induction Hall as [|s l (_ & _ & Hs & _) _ IH]; simpl; congruence. }
  assert (Etk : map (fun l => Zsum (map tr_invest l))
                  (map st_ticket_rows settled) = map st_invest settled).
  { rewrite map_map. clear -Hall.
    induction Hall as [|s l (_ & _ & _ & Hs) _ IH]; simpl; congruence. }
  assert (Hret : 0 <= fold_left (fun a s => a + st_return s) settled 0).
  { rewrite fold_left_Qadd. eapply Qle_trans; [|apply fold_Qplus_ge].
    - apply Qle_refl.
    - apply Forall_fmap. eapply Forall_impl; [exact Hall|].
      intros s ((_ & H0 & _) & _ & Hb & _). simpl. rewrite <- Hb. exact H0. }
  unfold make_stats.
  cbn [total_invest total_return hit_count total_races hit_rate
       recovery_rate].
  split; [rewrite fold_left_Zadd, Einv; lia|].
  split; [rewrite fold_left_Zadd, Zsum_concat, Etk; lia|].
  split; [rewrite fold_left_Qadd, Eben; reflexivity|].
  split; [apply count_hits_le|].
  assert (Hrate :
    0 <= match map st_row settled with
         | [] => 0.0
         | _ => inject_Z (Z.of_nat (count_hits (map st_row settled)))
                / inject_Z (Z.of_nat (length (map st_row settled))) * 100
         end
    /\ match map st_row settled with
       | [] => 0.0
       | _ => inject_Z (Z.of_nat (count_hits (map st_row settled)))
              / inject_Z (Z.of_nat (length (map st_row settled))) * 100
       end <= 100).
  { pose proof (count_hits_le (map st_row settled)) as Hle.
    destruct (map st_row settled) as [|r0 rs] eqn:Er; [split; lra|].
    rewrite <- Er in *.
    assert (Hlen : (0 < length (map st_row settled))%nat)
      by (rewrite Er; simpl; lia).
    set (c := inject_Z (Z.of_nat (count_hits (map st_row settled)))).
    set (n := inject_Z (Z.of_nat (length (map st_row settled)))).
    assert (Hc : 0 <= c).
    { subst c. change 0 with (inject_Z 0). rewrite <- Zle_Qle. lia. }
    assert (Hn : 0 < n).
    { subst n. change 0 with (inject_Z 0). rewrite <- Zlt_Qlt. lia. }
    assert (Hcn : c <= n).
    { subst c n. rewrite <- Zle_Qle. lia. }
    assert (E : c / n * 100 == c * 100 / n) by (field; lra).
    rewrite E. split.
    - apply Qle_shift_div_l; [exact Hn | lra].
    - apply Qle_shift_div_r; [exact Hn | lra]. }
  split; [apply Hrate|]. split; [apply Hrate|].
  destruct (0 <? fold_left (fun a s => (a + st_invest s)%Z) settled 0%Z)%Z
    eqn:Ei; [|lra].
  apply Z.ltb_lt in Ei.
  set (ti := fold_left (fun a s => (a + st_invest s)%Z) settled 0%Z) in *.
  set (tr := fold_left (fun a s => a + st_return s) settled 0) in *.
  assert (Hti : 0 < inject_Z ti).
  { change 0 with (inject_Z 0). rewrite <- Zlt_Qlt. exact Ei. }
  assert (E : tr / inject_Z ti * 100 == tr * 100 / inject_Z ti)
    by (field; lra).
  rewrite E. apply Qle_shift_div_l; [exact Hti | lra].
Qed.

(** * Settlement: one row per recommendation *)

Lemma pystr_ltb_irrefl (a : pystr) : pystr_ltb a a = false.
Proof.
  induction a as [|x a IH]; simpl; [reflexivity|].
  rewrite N.ltb_irrefl, N.eqb_refl, IH. reflexivity.
Qed.

Lemma pystr_ltb_asym (a b : pystr) :
  pystr_ltb a b = true -> pystr_ltb b a = false.
Proof.
  revert b. induction a as [|x a IH]; intros [|y b]; simpl;
    try reflexivity; try discriminate.
  intros H. apply orb_true_iff in H as [H | H].
  - apply N.ltb_lt in H.
    apply orb_false_iff. split; [apply N.ltb_ge; lia|].
    apply andb_false_iff. left. apply N.eqb_neq. lia.
  - apply andb_true_iff in H as [E H]. apply N.eqb_eq in E. subst y.
    rewrite N.ltb_irrefl, N.eqb_refl, (IH b H). reflexivity.
Qed.

Lemma pystr_ltb_false_trans (a b c : pystr) :
  pystr_ltb a b = false -> pystr_ltb b c = false -> pystr_ltb a c = false.
Proof.
  revert b c. induction a as [|x a IH]; intros [|y b] [|z c]; simpl;
    try reflexivity; try discriminate.
  intros Hab Hbc.
  apply orb_false_iff in Hab as [Hxy Hab]. apply N.ltb_ge in Hxy.
  apply orb_false_iff in Hbc as [Hyz Hbc]. apply N.ltb_ge in Hyz.
  apply orb_false_iff. split; [apply N.ltb_ge; lia|].
  destruct (x =? z)%N eqn:Exz; [|reflexivity]. cbn [andb].
  apply N.eqb_eq in Exz. subst z.
  assert (Exy : x = y) by lia. subst y.
  rewrite N.eqb_refl in Hab, Hbc. cbn [andb] in Hab, Hbc.
  exact (IH b c Hab Hbc).
Qed.

Lemma insert_newest_sorted (x : History) (l : list History) :
  StronglySorted not_older l ->
  StronglySorted not_older
    (insert_desc (fun a b => pystr_ltb (h_timestamp b) (h_timestamp a)) x l).
Proof.
  induction 1 as [|y r Hr IH Hy]; simpl.
  - constructor; constructor.
  - destruct (pystr_ltb (h_timestamp x) (h_timestamp y)) eqn:E.
    + constructor; [exact IH|].
      rewrite (insert_desc_Permutation _ x r). constructor; [|exact Hy].
      apply pystr_ltb_asym, E.
    + constructor; [constructor; assumption|].
      constructor; [exact E|].
      eapply Forall_impl; [exact Hy|]. intros z Hz.
      exact (pystr_ltb_false_trans _ _ _ E Hz).
Qed.

Lemma sort_newest_sorted (l : list History) :
  StronglySorted not_older
    (sort_desc (fun a b => pystr_ltb (h_timestamp b) (h_timestamp a)) l).
Proof.
  induction l as [|x r IH]; simpl; [constructor|].
  apply insert_newest_sorted, IH.
Qed.

Lemma dedup_subset (seen : gset pystr) (l : list History) (k : History) :
  In k (dedup seen l) -> In k l.
Proof.
  revert seen. induction l as [|x r IH]; intros seen; simpl; [tauto|].
  case_bool_decide as Hx.
  - intros Hk. right. exact (IH _ Hk).
  - intros [-> | Hk]; [left; reflexivity | right; exact (IH _ Hk)].
Qed.

Lemma dedup_fresh (seen : gset pystr) (l : list History) (k : History) :
  In k (dedup seen l) -> dedup_key k ∉ seen.
Proof.
  revert seen. induction l as [|x r IH]; intros seen; simpl; [tauto|].
  case_bool_decide as Hx.
  - apply IH.
  - intros [-> | Hk]; [exact Hx|].
    apply IH in Hk. set_solver.
Qed.

Lemma dedup_NoDup (seen : gset pystr) (l : list History) :
  NoDup (map dedup_key (dedup seen l)).
Proof.
  revert seen. induction l as [|x r IH]; intros seen; simpl; [constructor|].
  case_bool_decide as Hx; [apply IH|].
  cbn [map]. constructor; [|apply IH].
  intros Hin. apply list_elem_of_In, in_map_iff in Hin as (k & Ek & Hk).
  apply dedup_fresh in Hk. set_solver.
Qed.

Lemma dedup_keeps_first (seen : gset pystr) (l : list History)
    (h : History) :
  StronglySorted not_older l ->
  In h l -> dedup_key h ∉ seen ->
  exists k, In k (dedup seen l) /\ dedup_key k = dedup_key h
            /\ not_older k h.
Proof.
  intros Hs. revert seen. induction Hs as [|x r Hr IH Hx]; intros seen Hh Hk.
  - destruct Hh.
  - cbn [dedup]. case_bool_decide as Hseen.
    + destruct Hh as [-> | Hh]; [contradiction|]. apply IH; assumption.
    + destruct (decide (dedup_key h = dedup_key x)) as [E | NE].
      * exists x. split; [left; reflexivity|]. split; [congruence|].
        destruct Hh as [-> | Hh]; [apply pystr_ltb_irrefl|].
        rewrite Forall_forall in Hx. apply Hx, list_elem_of_In, Hh.
      * destruct Hh as [-> | Hh]; [congruence|].
        destruct (IH ({[dedup_key x]} ∪ seen) Hh) as (k & Hk1 & Hk2 & Hk3).
        { rewrite elem_of_union, elem_of_singleton. tauto. }
        exists k. split; [right; exact Hk1 | split; assumption].
Qed.

(** The summary has one row for each key (place, date, race, strategy
    type) of the history: no key twice, only recommendations of the
    history, and for each recommendation of the history a row with its
    key, made from a recommendation that is not older. *)
Theorem one_row_per_recommendation_and_the_newest_is_kept
    (history_data : list History) (tbl : RaceResultTable) (a : Analysis)
    (st : Stats) :
  analyze_prediction_history set_order history_data tbl = Return a ->
  stats a = Some st ->
  NoDup (map (fun r => dedup_key (row_history r)) (df_res a))
  /\ (forall r, In r (df_res a) -> In (row_history r) history_data)
  /\ (forall h, In h history_data ->
        exists r, In r (df_res a)
          /\ dedup_key (row_history r) = dedup_key h
          /\ pystr_ltb (h_timestamp (row_history r)) (h_timestamp h)
             = false).
Proof.
  intros Ha Hst.
  destruct (analysis_shape _ _ _ Ha) as [-> | (race_map & ->)];
    [discriminate|].
  cbn [df_res]. clear Ha Hst.
  set (gt := fun a b : History =>
               pystr_ltb (h_timestamp b) (h_timestamp a)).
  assert (Ehist : map row_history
                    (map st_row
                       (map (settle_history set_order race_map)
                          (deduped_history history_data)))
                  = deduped_history history_data).
  { rewrite !map_map. rewrite <- (map_id (deduped_history history_data)) at 2.
    apply map_ext. intros h.
    exact (proj1 (proj2 (settle_history_ok race_map h))). }
  split; [|split].
  - rewrite <- (map_map row_history dedup_key), Ehist. apply dedup_NoDup.
  - intros r Hr. apply (in_map row_history) in Hr. rewrite Ehist in Hr.
    unfold deduped_history in Hr. apply dedup_subset in Hr.
    apply list_elem_of_In in Hr.
    rewrite sort_desc_Permutation in Hr.
    apply list_elem_of_In, Hr.
  - intros h Hh.
    assert (Hh' : In h (sort_desc gt history_data)).
    { apply list_elem_of_In. rewrite (sort_desc_Permutation gt history_data).
      apply list_elem_of_In, Hh. }
    destruct (dedup_keeps_first ∅ _ h (sort_newest_sorted history_data) Hh')
      as (k & Hk & Ek & Hnew); [set_solver|].
    fold (deduped_history history_data) in Hk. rewrite <- Ehist in Hk.
    apply in_map_iff in Hk as (r & <- & Hr).
    exists r. split; [exact Hr|]. split; [exact Ek | exact Hnew].
Qed.

(** * Settlement: the three outcomes *)

(** With an empty history, or a history that names no race, the function
    returns the empty triple; when no row of the table belongs to a race
    of the history it raises [KeyError] (the grouping of the empty frame
    by [race_id]); otherwise it returns one row per kept recommendation. *)
Theorem settlement_outcomes
    (history_data : list History) (tbl : RaceResultTable) :
  set_order_ok set_order ->
  let rids := target_rids history_data in
  let known := List.filter (fun row => bool_decide (race_id row ∈ rids))
                 (tbl_rows tbl) in
  (rids = [] ->
   analyze_prediction_history set_order history_data tbl
   = Return empty_analysis)
  /\ (rids <> [] -> known = [] ->
      analyze_prediction_history set_order history_data tbl
      = Raise KeyError)
  /\ (rids <> [] -> known <> [] ->
      exists a st,
        analyze_prediction_history set_order history_data tbl = Return a
        /\ stats a = Some st
        /\ map row_history (df_res a) = deduped_history history_data
        /\ total_races st = length (deduped_history history_data)).
Proof.
  intros Hset. cbv zeta.
  destruct history_data as [|h0 hs].
  { split; [reflexivity|]. split; intros Hne; exfalso; apply Hne; reflexivity. }
  unfold analyze_prediction_history.
  generalize (target_rids (h0 :: hs)). intros rids.
  set (known := List.filter (fun row => bool_decide (race_id row ∈ rids))
                  (tbl_rows tbl)).
  assert (Hload : forall row,
            In row (load_results tbl (set_order rids)) <-> In row known).
  { intros row. rewrite load_results_In. subst known.
    rewrite filter_In, bool_decide_eq_true, list_elem_of_In.
    rewrite (proj2 (Hset rids)). reflexivity. }
  split; [|split].
  - intros ->. reflexivity.
  - intros Hne Hk.
    destruct rids as [|t0 ts]; [congruence|].
    destruct (load_results tbl (set_order (t0 :: ts))) as [|d0 ds] eqn:El;
      [reflexivity|].
    exfalso. assert (Hin : In d0 known) by (apply Hload; left; reflexivity).
    rewrite Hk in Hin. destruct Hin.
  - intros Hne Hk.
    destruct rids as [|t0 ts]; [congruence|].
    destruct (load_results tbl (set_order (t0 :: ts))) as [|d0 ds] eqn:El.
    + exfalso. destruct known as [|k0 ks]; [congruence|].
      assert (Hin : In k0 []) by (apply Hload; left; reflexivity).
      destruct Hin.
    + eexists. eexists. split; [reflexivity|]. cbn [stats df_res].
      split; [reflexivity|].
      assert (Ehist : forall rm l,
                map row_history
                  (map st_row (map (settle_history set_order rm) l)) = l).
      { intros rm l. rewrite !map_map. rewrite <- (map_id l) at 2.
        apply map_ext. intros h.
        exact (proj1 (proj2 (settle_history_ok rm h))). }
      split; [apply Ehist|].
      unfold make_stats. cbn [total_races]. rewrite !length_map. reflexivity.
Qed.

End Accounts.

Lemma every_row_of_the_summary_is_consistent_witness :
  exists a r,
    analyze_prediction_history first_seen_order [h_race7; h_race8]
      race7_table = Return a
    /\ In r (df_res a)
    /\ balance r == benefit r - inject_Z (investment r).
Proof.
  eexists. eexists. split; [vm_compute; reflexivity|].
  split; [left; reflexivity|].
  refine (proj1 (every_row_of_the_summary_is_consistent first_seen_order
                   [h_race7; h_race8] race7_table _ _ _ _)).
  - vm_compute. reflexivity.
  - left. reflexivity.
Defined.

Lemma totals_agree_with_the_tables_witness :
  exists a st,
    analyze_prediction_history first_seen_order [h_race7; h_race8]
      race7_table = Return a
    /\ stats a = Some st
    /\ total_invest st = Zsum (map investment (df_res a)).
Proof.
  eexists. eexists. split; [vm_compute; reflexivity|].
  split; [reflexivity|].
  refine (proj1 (totals_agree_with_the_tables first_seen_order
                   [h_race7; h_race8] race7_table _ _ _ _)).
  - vm_compute. reflexivity.
  - reflexivity.
Defined.

Lemma one_row_per_recommendation_and_the_newest_is_kept_witness :
  exists a st,
    analyze_prediction_history first_seen_order [h_race7; h_race8]
      race7_table = Return a
    /\ stats a = Some st
    /\ NoDup (map (fun r => dedup_key (row_history r)) (df_res a)).
Proof.
  eexists. eexists. split; [vm_compute; reflexivity|].
  split; [reflexivity|].
  refine (proj1 (one_row_per_recommendation_and_the_newest_is_kept
                   first_seen_order [h_race7; h_race8] race7_table _ _ _ _)).
  - vm_compute. reflexivity.
  - reflexivity.
Defined.

Lemma settlement_outcomes_witness :
  set_order_ok first_seen_order
  /\ analyze_prediction_history first_seen_order [h_race7; h_race8]
       (mkTable true [])
     = Raise KeyError.
Proof.
  split; [exact first_seen_order_ok|].
  refine (proj1 (proj2 (settlement_outcomes first_seen_order
                          [h_race7; h_race8] (mkTable true [])
                          first_seen_order_ok)) _ _).
  - vm_compute. discriminate.
  - reflexivity.
Defined.

(** * Strings: counting separators *)

Lemma count_chr_app (c : N) (a b : pystr) :
  count_chr c (a ++ b) = (count_chr c a + count_chr c b)%nat.
Proof. unfold count_chr. rewrite List.filter_app, length_app. reflexivity. Qed.

Lemma count_chr_zero (c : N) (s : pystr) :
  count_chr c s = 0%nat <-> ~ In c s.
Proof.
  unfold count_chr. induction s as [|x s IH]; simpl; [tauto|].
  destruct (c =? x)%N eqn:E; simpl.
  - apply N.eqb_eq in E. subst x. split; [lia | tauto].
  - apply N.eqb_neq in E. rewrite IH. split; [intros H [H' | H']; congruence
                                             | tauto].
Qed.

Lemma count_chr_rev (c : N) (s : pystr) :
  count_chr c (rev s) = count_chr c s.
Proof.
  induction s as [|x s IH]; [reflexivity|].
  cbn [rev]. rewrite count_chr_app, IH.
  change (x :: s) with ([x] ++ s). rewrite count_chr_app. lia.
Qed.

Lemma count_chr_lstrip (c : N) (s : pystr) :
  isspace c = false -> count_chr c (lstrip s) = count_chr c s.
Proof.
  intros Hc. induction s as [|x s IH]; [reflexivity|].
  cbn [lstrip]. destruct (isspace x) eqn:E; [|reflexivity].
  rewrite IH. unfold count_chr. cbn [List.filter].
  destruct (c =? x)%N eqn:Ex; [|reflexivity].
  apply N.eqb_eq in Ex. congruence.
Qed.

Lemma count_chr_strip (c : N) (s : pystr) :
  isspace c = false -> count_chr c (strip s) = count_chr c s.
Proof.
  intros Hc. unfold strip, rstrip.
  rewrite count_chr_rev, count_chr_lstrip, count_chr_rev, count_chr_lstrip;
    [reflexivity | exact Hc | exact Hc].
Qed.

Lemma split_chr_length (c : N) (s : pystr) :
  length (split_chr c s) = S (count_chr c s).
Proof.
  unfold count_chr. induction s as [|x s IH]; [reflexivity|].
  cbn [split_chr List.filter]. rewrite N.eqb_sym.
  destruct (c =? x)%N; simpl.
  - rewrite IH. reflexivity.
  - destruct (split_chr c s); simpl in *; [lia | exact IH].
Qed.

Lemma contains_single (c : N) (s : pystr) :
  contains [c] s = negb (count_chr c s =? 0)%nat.
Proof.
  destruct (count_chr c s =? 0)%nat eqn:E.
  - apply Nat.eqb_eq, count_chr_zero in E.
    apply (contains_lacking [c] s c); [left; reflexivity | exact E].
  - apply Nat.eqb_neq in E. apply contains_char.
    destruct (in_dec N.eq_dec c s) as [H | H]; [exact H|].
    apply count_chr_zero in H. congruence.
Qed.

(** The text after the last occurrence of the separator. *)
Lemma split_chr_last (c : N) (a b : pystr) :
  ~ In c b ->
  exists pre, pre <> [] /\ split_chr c (a ++ c :: b) = pre ++ [b].
Proof.
  intros Hb. induction a as [|x a (pre & Hpre & IH)].
  - exists [[]]. split; [discriminate|]. cbn [app split_chr].
    rewrite N.eqb_refl, (split_chr_none c b Hb). reflexivity.
  - cbn [app split_chr]. rewrite IH. destruct (x =? c)%N.
    + exists ([] :: pre). split; [discriminate | reflexivity].
    + destruct pre as [|p pre]; [congruence|].
      exists ((x :: p) :: pre). split; [discriminate | reflexivity].
Qed.

Lemma last_part_after (c : N) (a b : pystr) :
  ~ In c b -> last_part (split_chr c (a ++ c :: b)) = b.
Proof.
  intros Hb. destruct (split_chr_last c a b Hb) as (pre & _ & ->).
  unfold last_part. apply last_last.
Qed.

(** The characters of a list of car numbers. *)
Lemma count_chr_str_of_Z (c : N) (z : Z) :
  (0 <= z)%Z -> isdigit c = false -> count_chr c (str_of_Z z) = 0%nat.
Proof.
  intros Hz Hc. apply count_chr_zero.
  apply digits_lack; [apply (str_of_Z_digits z Hz) | exact Hc].
Qed.

Lemma fmt_car_lacks (c : N) (x : pycar) :
  car_ok x -> isdigit c = false -> ~ In c (py "None") ->
  ~ In c (fmt_car x).
Proof.
  intros Hx Hc Hn. destruct x as [z|]; [|exact Hn].
  apply digits_lack; [apply (str_of_Z_digits z Hx) | exact Hc].
Qed.

Lemma join_cars_lacks (c : N) (l : list pycar) :
  Forall car_ok l -> isdigit c = false -> ~ In c (py ",None") ->
  ~ In c (join_cars l).
Proof.
  intros Hl Hc Hn H. unfold join_cars in H.
  apply In_join in H as [H | (p & Hp & H)].
  - apply Hn. destruct H as [<- | []]. left. reflexivity.
  - apply in_map_iff in Hp as (x & <- & Hx).
    rewrite Forall_forall in Hl.
    revert H. apply fmt_car_lacks; [apply Hl, list_elem_of_In, Hx | exact Hc|].
    intros H. apply Hn. right. exact H.
Qed.

(** * Settlement reads the tickets of the generator *)

(** The number of parts of a ticket, from the text after its last colon. *)
Lemma ticket_parts_length (head body : pystr) :
  ~ In 58%N body ->
  length (fst (ticket_parts (head ++ 58%N :: body)))
  = S (count_chr (separator_of body) body).
Proof.
  intros Hb. unfold ticket_parts. rewrite (last_part_after 58 head body Hb).
  cbv zeta.
  change (py "↔") with [8596%N]. change (py "→") with [8594%N].
  change (py "=") with [61%N].
  rewrite !contains_single, !count_chr_strip by reflexivity.
  unfold separator_of.
  destruct (negb (count_chr 8596 body =? 0)%nat);
    [|destruct (negb (count_chr 8594 body =? 0)%nat);
      [|destruct (negb (count_chr 61 body =? 0)%nat)]];
    cbn [fst]; rewrite length_map, split_chr_length, count_chr_strip;
    reflexivity.
Qed.

(** A 3連単 ticket that does not have exactly three parts expands to no
    combination and is never a hit. *)
Lemma trifecta_without_three_parts (set_order : list pystr -> list pystr)
    (top3 : list pystr) (payouts : gmap PayKey Q) (t_str : pystr) :
  ticket_type_of t_str = TT_3rentan ->
  length (fst (ticket_parts t_str)) <> 3%nat ->
  let r := settle_ticket set_order top3 payouts t_str in
  tk_combinations r = [] /\ tk_hit r = false /\ tk_pay r = 0.
Proof.
  intros Ht Hlen. unfold settle_ticket. rewrite Ht.
  destruct (ticket_parts t_str) as [parts is_fold]. cbn [fst] in Hlen.
  assert (Ec : count_points set_order TT_3rentan parts is_fold
               = (0%nat, [])).
  { unfold count_points.
    destruct parts as [|p0 [|p1 [|p2 [|p3 ps]]]]; try reflexivity.
    simpl in Hlen. congruence. }
  rewrite Ec. unfold check_hit.
  destruct (top3 !! 0%nat), (top3 !! 1%nat), (top3 !! 2%nat);
    cbn [tk_combinations tk_hit tk_pay];
    rewrite ?andb_false_r; repeat split; reflexivity.
Qed.

Lemma lacks_app {A : Type} (c : A) (a b : list A) :
  ~ In c a -> ~ In c b -> ~ In c (a ++ b).
Proof. intros Ha Hb H. apply in_app_or in H. tauto. Qed.

Lemma lacks_cons {A : Type} (c x : A) (b : list A) :
  c <> x -> ~ In c b -> ~ In c (x :: b).
Proof. intros Hx Hb [H | H]; [congruence | tauto]. Qed.

(** The text lacks a character that is neither a digit nor one of the
    fixed characters around the car numbers. *)
Ltac lacks_chr :=
  repeat lazymatch goal with
  | |- ~ In _ (_ ++ _) => apply lacks_app
  | |- ~ In _ (str_of_Z _) =>
      apply digits_lack; [apply str_of_Z_digits; assumption | reflexivity]
  | |- ~ In _ (fmt_car _) =>
      apply fmt_car_lacks;
      [try assumption; try exact I
      | reflexivity | apply forallb_lacks; reflexivity]
  | |- ~ In _ (join_cars _) =>
      apply join_cars_lacks;
      [| reflexivity | apply forallb_lacks; reflexivity]
  | |- ~ In _ (_ :: _) => apply lacks_cons; [discriminate|]
  | |- ~ In _ [] => intros []
  | |- ~ In _ _ => apply forallb_lacks; reflexivity
  end.

Lemma count_chr_once (c : N) (a b : pystr) :
  c <> 32%N -> ~ In c a -> ~ In c b ->
  count_chr c (a ++ 32%N :: c :: 32%N :: b) = 1%nat.
Proof.
  intros Hc Ha Hb. apply count_chr_zero in Ha, Hb.
  rewrite count_chr_app, Ha.
  change (32%N :: c :: 32%N :: b) with ([32%N] ++ [c] ++ [32%N] ++ b).
  rewrite !count_chr_app, Hb. unfold count_chr. cbn [List.filter].
  rewrite N.eqb_refl. apply N.eqb_neq in Hc. rewrite Hc. reflexivity.
Qed.

Lemma separator_eq (body : pystr) :
  ~ In 8596%N body -> ~ In 8594%N body -> count_chr 61 body = 1%nat ->
  separator_of body = 61%N.
Proof.
  intros H1 H2 H3. apply count_chr_zero in H1, H2.
  unfold separator_of. rewrite H1, H2, H3. reflexivity.
Qed.

Lemma separator_hyphen (body : pystr) :
  ~ In 8596%N body -> ~ In 8594%N body -> ~ In 61%N body ->
  separator_of body = 45%N.
Proof.
  intros H1 H2 H3. apply count_chr_zero in H1, H2, H3.
  unfold separator_of. rewrite H1, H2, H3. reflexivity.
Qed.

Lemma separator_fold (body : pystr) :
  count_chr 8596 body = 1%nat -> separator_of body = 8596%N.
Proof. intros H. unfold separator_of. rewrite H. reflexivity. Qed.

Lemma Forall_car_ok2 (a b : pycar) :
  car_ok a -> car_ok b -> Forall car_ok [a; b].
Proof. repeat constructor; assumption. Qed.

Lemma Forall_car_ok3 (a b c : pycar) :
  car_ok a -> car_ok b -> car_ok c -> Forall car_ok [a; b; c].
Proof. repeat constructor; assumption. Qed.

(** The 3連単 ticket of [two_strong]: one "=", hence two parts. *)
Lemma two_strong_ticket (c1 : Z) (c2 c3 c4 : pycar) :
  (0 <= c1)%Z -> car_ok c2 -> car_ok c3 -> car_ok c4 ->
  let t := py "3連単 (2軸): " ++ str_of_Z c1 ++ py " = " ++ fmt_car c2
           ++ t_dash ++ join_cars [c3; c4] in
  ticket_type_of t = TT_3rentan
  /\ length (fst (ticket_parts t)) = 2%nat.
Proof.
  intros H1 H2 H3 H4 t.
  pose proof (Forall_car_ok2 c3 c4 H3 H4) as H34.
  split.
  - subst t. unfold ticket_type_of.
    change (py "3連単 (2軸): " ++ ?x)
      with (py "3連単" ++ (py " (2軸): " ++ x)).
    rewrite contains_prefix. reflexivity.
  - set (rest := fmt_car c2 ++ t_dash ++ join_cars [c3; c4]).
    set (body := (32%N :: str_of_Z c1) ++ 32%N :: 61%N :: 32%N :: rest).
    change t with (py "3連単 (2軸)" ++ 58%N :: body).
    assert (Hrest : forall c, isdigit c = false -> ~ In c (py " -,None") ->
              ~ In c rest).
    { intros c Hc Hn. subst rest. unfold t_dash.
      apply lacks_app; [|apply lacks_app].
      - apply fmt_car_lacks; [exact H2 | exact Hc|].
        intros H. apply Hn. do 3 right. exact H.
      - intros H. apply Hn.
        destruct H as [<- | [<- | [<- | []]]];
          [left | right; left | left]; reflexivity.
      - apply join_cars_lacks; [exact H34 | exact Hc|].
        intros H. apply Hn. do 2 right. exact H. }
    assert (Hhead : forall c, isdigit c = false -> c <> 32%N ->
              ~ In c (32%N :: str_of_Z c1)).
    { intros c Hc Hs. apply lacks_cons; [exact Hs|].
      apply digits_lack; [apply (str_of_Z_digits c1 H1) | exact Hc]. }
    assert (Hbody : forall c, isdigit c = false -> c <> 61%N ->
              ~ In c (py " -,None") -> ~ In c body).
    { intros c Hc H61 Hn. subst body.
      apply lacks_app; [apply Hhead; [exact Hc|]|].
      - intros ->. apply Hn. left. reflexivity.
      - apply lacks_cons; [intros ->; apply Hn; left; reflexivity|].
        apply lacks_cons; [exact H61|].
        apply lacks_cons; [intros ->; apply Hn; left; reflexivity|].
        apply Hrest; assumption. }
    rewrite ticket_parts_length.
    + rewrite (separator_eq body).
      * subst body. rewrite count_chr_once; [reflexivity | discriminate | |].
        -- apply Hhead; [reflexivity | discriminate].
        -- apply Hrest; [reflexivity | apply forallb_lacks; reflexivity].
      * apply Hbody; [reflexivity | discriminate
                     | apply forallb_lacks; reflexivity].
      * apply Hbody; [reflexivity | discriminate
                     | apply forallb_lacks; reflexivity].
      * subst body. apply count_chr_once; [discriminate | |].
        -- apply Hhead; [reflexivity | discriminate].
        -- apply Hrest; [reflexivity | apply forallb_lacks; reflexivity].
    + apply Hbody; [reflexivity | discriminate
                   | apply forallb_lacks; reflexivity].
Qed.

(** The Box ticket of [line_breaker]: no separator, hence one part. *)
Lemma box_ticket (c1 : Z) (c2 c3 : pycar) :
  (0 <= c1)%Z -> car_ok c2 -> car_ok c3 ->
  let t := py "3連単 (Box): " ++ join_cars [Some c1; c2; c3] in
  ticket_type_of t = TT_3rentan
  /\ length (fst (ticket_parts t)) = 1%nat.
Proof.
  intros H1 H2 H3 t.
  assert (H123 : Forall car_ok [Some c1; c2; c3])
    by (apply Forall_car_ok3; assumption).
  split.
  - subst t. unfold ticket_type_of.
    change (py "3連単 (Box): " ++ ?x)
      with (py "3連単" ++ (py " (Box): " ++ x)).
    rewrite contains_prefix. reflexivity.
  - set (body := 32%N :: join_cars [Some c1; c2; c3]).
    change t with (py "3連単 (Box)" ++ 58%N :: body).
    assert (Hbody : forall c, isdigit c = false -> ~ In c (py " ,None") ->
              ~ In c body).
    { intros c Hc Hn. subst body.
      apply lacks_cons; [intros ->; apply Hn; left; reflexivity|].
      apply join_cars_lacks; [exact H123 | exact Hc|].
      intros H. apply Hn. right. exact H. }
    rewrite ticket_parts_length.
    + rewrite (separator_hyphen body);
        try (apply Hbody; [reflexivity | apply forallb_lacks; reflexivity]).
      assert (E : count_chr 45 body = 0%nat).
      { apply count_chr_zero.
        apply Hbody; [reflexivity | apply forallb_lacks; reflexivity]. }
      rewrite E. reflexivity.
    + apply Hbody; [reflexivity | apply forallb_lacks; reflexivity].
Qed.

(** The 3連単 ticket of [star_btop_short]: one "↔", hence two parts. *)
Lemma fold_trifecta_ticket (c1 pt : Z) (th_cands : list pycar) :
  (0 <= c1)%Z -> (0 <= pt)%Z -> Forall car_ok th_cands ->
  let t := t_3rentan ++ str_of_Z c1 ++ t_fold_arrow ++ str_of_Z pt
           ++ t_arrow ++ join_cars th_cands in
  ticket_type_of t = TT_3rentan
  /\ length (fst (ticket_parts t)) = 2%nat.
Proof.
  intros H1 Hp Hth t.
  split.
  - subst t. unfold ticket_type_of.
    change (t_3rentan ++ ?x) with (py "3連単" ++ (py ": " ++ x)).
    rewrite contains_prefix. reflexivity.
  - set (rest := str_of_Z pt ++ t_arrow ++ join_cars th_cands).
    set (body := (32%N :: str_of_Z c1) ++ 32%N :: 8596%N :: 32%N :: rest).
    change t with (py "3連単" ++ 58%N :: body).
    assert (Hrest : forall c, isdigit c = false -> ~ In c (py " →,None") ->
              ~ In c rest).
    { intros c Hc Hn. subst rest. unfold t_arrow.
      apply lacks_app; [|apply lacks_app].
      - apply digits_lack; [apply (str_of_Z_digits pt Hp) | exact Hc].
      - intros H. apply Hn.
        destruct H as [<- | [<- | [<- | []]]];
          [left | right; left | left]; reflexivity.
      - apply join_cars_lacks; [exact Hth | exact Hc|].
        intros H. apply Hn. do 2 right. exact H. }
    assert (Hhead : forall c, isdigit c = false -> c <> 32%N ->
              ~ In c (32%N :: str_of_Z c1)).
    { intros c Hc Hs. apply lacks_cons; [exact Hs|].
      apply digits_lack; [apply (str_of_Z_digits c1 H1) | exact Hc]. }
    assert (Hone : count_chr 8596 body = 1%nat).
    { subst body. apply count_chr_once; [discriminate | |].
      - apply Hhead; [reflexivity | discriminate].
      - apply Hrest; [reflexivity | apply forallb_lacks; reflexivity]. }
    rewrite ticket_parts_length.
    + rewrite (separator_fold body Hone), Hone. reflexivity.
    + subst body.
      apply lacks_app; [apply Hhead; [reflexivity | discriminate]|].
      repeat (apply lacks_cons; [discriminate|]).
      apply Hrest; [reflexivity | apply forallb_lacks; reflexivity].
Qed.

(** No 2車単 ticket of the generator is read as a 3連単 ticket. *)
Lemma exacta_ticket_type (body : pystr) :
  ~ In 36899%N body -> ticket_type_of (t_2shatan ++ body) = TT_2shatan.
Proof.
  intros Hb. unfold ticket_type_of.
  rewrite (contains_lacking (py "3連単") (t_2shatan ++ body) 36899%N).
  - change (t_2shatan ++ body) with (py "2車単" ++ (py ": " ++ body)).
    rewrite contains_prefix. reflexivity.
  - right. left. reflexivity.
  - apply lacks_app; [apply forallb_lacks; reflexivity | exact Hb].
Qed.

Lemma join_cars_lacks_ren (l : list pycar) : ~ In 36899%N (join_cars l).
Proof.
  intros H. apply In_join_cars in H as [H | H]; [discriminate H|].
  revert H. apply forallb_lacks. reflexivity.
Qed.

Lemma str_of_Z_lacks_ren (z : Z) : ~ In 36899%N (str_of_Z z).
Proof.
  intros H. apply In_str_of_Z in H as [H | H]; discriminate H.
Qed.

Lemma filter_not_subset (c1 : Z) (pt : option Z) (cands l : list pycar) :
  filter_not c1 pt cands = Return l -> forall x, In x l -> In x cands.
Proof.
  revert l. induction cands as [|y cands IH]; intros l; cbn [filter_not].
  - intros [= <-] x [].
  - destruct y as [yi|]; cbn [int_car mbind Result_bind]; [|discriminate].
    destruct (filter_not c1 pt cands) as [tl|e]; [|discriminate].
    cbn [mbind Result_bind]. intros [= <-] x Hx.
    destruct (negb (yi =? c1)%Z && _).
    + destruct Hx as [<- | Hx]; [left; reflexivity | right; eauto].
    + right. eauto.
Qed.

Lemma archetype_trifecta_never_hits (set_order : list pystr -> list pystr)
    (top3 : list pystr) (payouts : gmap PayKey Q)
    (rt : RaceType) (c1 c2 c3 : Z) (c4 c5 : pycar) (partner : option Z)
    (holes : list Z) (rec_tickets : list pystr) (t : pystr) :
  rt = two_strong \/ rt = line_breaker \/ rt = star_btop_short ->
  (0 <= c1)%Z -> (0 <= c2)%Z -> (0 <= c3)%Z -> car_ok c4 ->
  (forall p, partner = Some p -> (0 <= p)%Z) ->
  archetype_tickets rt c1 (Some c2) (Some c3) c4 c5 partner holes
  = Return rec_tickets ->
  In t rec_tickets -> ticket_type_of t = TT_3rentan ->
  let r := settle_ticket set_order top3 payouts t in
  tk_combinations r = [] /\ tk_hit r = false /\ tk_pay r = 0.
Proof.
  intros Hrt H1 H2 H3 H4 Hp Hrec Ht Htype.
  assert (Hparts : length (fst (ticket_parts t)) <> 3%nat);
    [|exact (trifecta_without_three_parts set_order top3 payouts t Htype
               Hparts)].
  destruct Hrt as [-> | [-> | ->]]; cbn [archetype_tickets] in Hrec;
    unfold mbind, Result_bind in Hrec; cbv beta in Hrec.
  - apply Return_inj in Hrec. subst rec_tickets.
    destruct Ht as [<- | []].
    destruct (two_strong_ticket c1 (Some c2) (Some c3) c4 H1 H2 H3 H4)
      as [_ E].
    cbv zeta in E. rewrite E. discriminate.
  - match type of Hrec with
    | context [filter_not ?a ?b ?c] =>
        destruct (filter_not a b c) as [l|e] eqn:Ef
    end; [|discriminate Hrec].
    apply Return_inj in Hrec.
    subst rec_tickets. destruct Ht as [<- | []].
    destruct (box_ticket c1 (Some c2) (Some c3) H1 H2 H3) as [_ E].
    cbv zeta in E. rewrite E. discriminate.
  - set (pt_of := match partner with
                  | Some p => Return p
                  | None => int_car (Some c2)
                  end) in Hrec.
    assert (Ept : exists pt, pt_of = Return pt /\ (0 <= pt)%Z).
    { subst pt_of. destruct partner as [p|].
      - exists p. split; [reflexivity | apply Hp; reflexivity].
      - exists c2. split; [reflexivity | exact H2]. }
    destruct Ept as (pt & Ept & Hpt). rewrite Ept in Hrec.
    cbv beta iota in Hrec.
    match type of Hrec with
    | context [filter_not ?a ?b ?c] =>
        destruct (filter_not a b c) as [th|e] eqn:Eth
    end; [|discriminate Hrec].
    apply Return_inj in Hrec.
    subst rec_tickets.
    destruct Ht as [<- | [<- | []]].
    + assert (Hth : Forall car_ok th).
      { apply Forall_forall. intros x Hx. apply list_elem_of_In in Hx.
        apply (filter_not_subset _ _ _ _ Eth) in Hx.
        destruct Hx as [<- | [<- | [<- | []]]]; assumption. }
      destruct (fold_trifecta_ticket c1 pt th H1 Hpt Hth) as [_ E].
      cbv zeta in E. rewrite E. discriminate.
    + exfalso. rewrite exacta_ticket_type in Htype; [discriminate Htype|].
      apply lacks_app; [apply str_of_Z_lacks_ren|].
      apply lacks_app; [apply forallb_lacks; reflexivity|].
      apply str_of_Z_lacks_ren.
Qed.

Lemma find_partner_row (pred_df : ScoredFrame) (p1 r : Scored) :
  find_partner pred_df p1 = Some r -> In r (sf_rows pred_df).
Proof.
  unfold find_partner. destruct (_ && _); [|discriminate].
  intros H. apply head_Some_elem_of in H.
  rewrite sort_desc_Permutation in H.
  apply list_elem_of_In in H.
  apply filter_In in H as [H _]. apply filter_In in H as [H _]. exact H.
Qed.

(** The 3連単 ticket of a [two_strong], [line_breaker] or
    [star_btop_short] recommendation is written with one "=", without a
    separator, or with one "↔": the settlement splits it into two parts
    or one, expands no combination, and never counts it as a hit,
    whatever the result of the race is. *)
Theorem trifecta_of_three_archetypes_is_never_a_hit
    (specs : pystr -> option (Q * Q * Q)) (pred_df : ScoredFrame)
    (ai_match_cars : list Z) (s : Strategy) (t : pystr)
    (set_order : list pystr -> list pystr) (top3 : list pystr)
    (payouts : gmap PayKey Q) :
  Forall (fun r => (0 <= shaban (rider r))%Z) (sf_rows pred_df) ->
  generate_betting_strategy specs pred_df ai_match_cars = Return (Rec s) ->
  s_type s = two_strong \/ s_type s = line_breaker
  \/ s_type s = star_btop_short ->
  In t (s_tickets s) -> ticket_type_of t = TT_3rentan ->
  let r := settle_ticket set_order top3 payouts t in
  tk_combinations r = [] /\ tk_hit r = false /\ tk_pay r = 0.
Proof.
  intros Hcars Hs Hrt Ht Htype.
  destruct (strategy_tickets_are_archetype_plus_base _ _ _ _ Hs)
    as (p1 & p2 & p3 & rest & rec_tickets & Hsort & Hrec & Htk).
  cbv zeta in Hsort, Hrec, Htk.
  assert (Hsorted : Forall (fun r => (0 <= shaban (rider r))%Z)
                      (p1 :: p2 :: p3 :: rest)).
  { rewrite <- Hsort, sort_desc_Permutation. exact Hcars. }
  apply Forall_cons in Hsorted as [H1 Hsorted].
  apply Forall_cons in Hsorted as [H2 Hsorted].
  apply Forall_cons in Hsorted as [H3 Hrest].
  assert (H4 : car_ok (car_at (p1 :: p2 :: p3 :: rest) 3)).
  { unfold car_at. cbn [lookup list_lookup].
    destruct rest as [|p4 rest']; [exact I|].
    apply Forall_cons in Hrest as [H4 _]. exact H4. }
  assert (Hp : forall p,
            (fun r => shaban (rider r)) <$> find_partner pred_df p1 = Some p ->
            (0 <= p)%Z).
  { intros p E. destruct (find_partner pred_df p1) as [r|] eqn:Er;
      [|discriminate].
    injection E as <-. apply find_partner_row in Er.
    rewrite Forall_forall in Hcars. apply Hcars, list_elem_of_In, Er. }
  rewrite Htk in Ht. unfold add_base_exacta in Ht.
  assert (Hin : In t rec_tickets).
  { destruct (base_flow_dedup _ _ _ _ _) as [|f flow]; [exact Ht|].
    destruct Ht as [<- | Ht]; [|exact Ht].
    exfalso. rewrite exacta_ticket_type in Htype; [discriminate Htype|].
    apply lacks_app; [apply str_of_Z_lacks_ren|].
    apply lacks_app; [apply forallb_lacks; reflexivity|].
    apply join_cars_lacks_ren. }
  exact (archetype_trifecta_never_hits set_order top3 payouts _ _ _ _ _ _ _ _
           _ t Hrt H1 H2 H3 H4 Hp Hrec Hin Htype).
Qed.

Lemma trifecta_of_three_archetypes_is_never_a_hit_witness :
  exists s,
    generate_betting_strategy sample_specs two_scored [] = Return (Rec s)
    /\ s_type s = two_strong
    /\ In (py "3連単 (2軸): 1 = 2 - 3,None") (s_tickets s)
    /\ tk_hit (settle_ticket first_seen_order [py "1"; py "2"; py "3"] ∅
                 (py "3連単 (2軸): 1 = 2 - 3,None")) = false.
Proof.
  eexists. split; [vm_compute; reflexivity|].
  split; [reflexivity|].
  split; [vm_compute; repeat (first [left; reflexivity | right])|].
  refine (proj1 (proj2 (trifecta_of_three_archetypes_is_never_a_hit
    sample_specs two_scored [] _ (py "3連単 (2軸): 1 = 2 - 3,None")
    first_seen_order [py "1"; py "2"; py "3"] ∅ _ _ _ _ _))).
  - repeat constructor; vm_compute; discriminate.
  - vm_compute. reflexivity.
  - left. reflexivity.
  - vm_compute; repeat (first [left; reflexivity | right]).
  - vm_compute. reflexivity.
Defined.

(** * Strings: stripping and splitting car lists *)

Lemma clean_lstrip (s : pystr) : clean s -> lstrip s = s.
Proof.
  intros (h & m & Hh & [-> | (l & _ & ->)]); apply lstrip_head, Hh.
Qed.

Lemma clean_rstrip (s : pystr) : clean s -> rstrip s = s.
Proof.
  intros (h & m & Hh & [-> | (l & Hl & ->)]).
  - apply (rstrip_last [] h Hh).
  - apply (rstrip_last (h :: m) l Hl).
Qed.

Lemma clean_strip (s : pystr) : clean s -> strip s = s.
Proof.
  intros H. unfold strip. rewrite (clean_lstrip s H). apply clean_rstrip, H.
Qed.

Lemma clean_strip_left (s : pystr) : clean s -> strip (32%N :: s) = s.
Proof.
  intros H. unfold strip.
  change (lstrip (32%N :: s)) with (lstrip s).
  rewrite (clean_lstrip s H). apply clean_rstrip, H.
Qed.

Lemma clean_strip_right (s : pystr) : clean s -> strip (s ++ [32%N]) = s.
Proof.
  intros H. unfold strip.
  assert (E : lstrip (s ++ [32%N]) = s ++ [32%N]).
  { destruct H as (h & m & Hh & [-> | (l & _ & ->)]);
      apply lstrip_head, Hh. }
  rewrite E. unfold rstrip. rewrite rev_unit.
  change (lstrip (32%N :: rev s)) with (lstrip (rev s)).
  apply (clean_rstrip s H).
Qed.

Lemma clean_nonempty (s : pystr) : clean s -> s <> [].
Proof. intros (h & m & _ & [-> | (l & _ & ->)]); discriminate. Qed.

Lemma clean_ends (h l : N) (m : pystr) :
  isspace h = false -> isspace l = false -> clean (h :: m ++ [l]).
Proof. intros Hh Hl. exists h, m. split; [exact Hh|]. right. eauto. Qed.

Lemma clean_of_ends (s : pystr) :
  s <> [] ->
  (forall h r, s = h :: r -> isspace h = false) ->
  (forall r l, s = r ++ [l] -> isspace l = false) ->
  clean s.
Proof.
  intros Hne Hh Hl. destruct s as [|h r]; [congruence|].
  exists h. destruct r as [|x r'].
  - exists []. split; [apply (Hh h []); reflexivity | left; reflexivity].
  - assert (Hr : x :: r' <> []) by discriminate.
    destruct (exists_last Hr) as (m & l & E). exists m.
    split; [apply (Hh h (x :: r')); reflexivity|]. right. exists l.
    split; [|rewrite E; reflexivity].
    apply (Hl (h :: m) l). rewrite E. reflexivity.
Qed.

Lemma clean_app (a b : pystr) : clean a -> clean b -> clean (a ++ b).
Proof.
  intros Ha Hb. apply clean_of_ends.
  - intros E. apply app_eq_nil in E as [E _].
    exact (clean_nonempty a Ha E).
  - intros h r E.
    destruct Ha as (h' & m & Hh & [-> | (l & _ & ->)]);
      injection E as <- _; exact Hh.
  - intros r l E.
    destruct Hb as (h' & m & Hh & [-> | (l' & Hl & ->)]).
    + rewrite app_assoc in E || idtac.
      apply app_inj_tail in E as [_ <-]. exact Hh.
    + replace (a ++ h' :: m ++ [l']) with ((a ++ h' :: m) ++ [l']) in E
        by (rewrite <- app_assoc; reflexivity).
      apply app_inj_tail in E as [_ <-]. exact Hl.
Qed.

Lemma digits_clean (s : pystr) : digits s -> clean s.
Proof.
  intros [Hne Hd]. apply clean_of_ends; [exact Hne| |].
  - intros h r ->. apply Forall_cons in Hd as [Hh _].
    apply isdigit_not_space, Hh.
  - intros r l ->. apply Forall_app in Hd as [_ Hd].
    apply Forall_cons in Hd as [Hl _]. apply isdigit_not_space, Hl.
Qed.

Lemma str_of_Z_clean (z : Z) : (0 <= z)%Z -> clean (str_of_Z z).
Proof. intros Hz. apply digits_clean, (str_of_Z_digits z Hz). Qed.

(** [",".join(parts).split(",")] gives the parts back. *)
Lemma split_join_commas (parts : list pystr) :
  parts <> [] -> Forall (fun p => ~ In 44%N p) parts ->
  split_chr 44 (join (py ",") parts) = parts.
Proof.
  intros Hne Hp. induction parts as [|p [|q ps] IH]; [congruence| |].
  - apply Forall_cons in Hp as [Hp _]. cbn [join].
    apply split_chr_none, Hp.
  - apply Forall_cons in Hp as [Hp Hps]. rewrite join_cons2.
    change (py ",") with [44%N]. cbn [app].
    rewrite split_chr_at by exact Hp. f_equal.
    apply IH; [discriminate | exact Hps].
Qed.

Lemma str_of_Z_inj (a b : Z) :
  (0 <= a)%Z -> (0 <= b)%Z -> str_of_Z a = str_of_Z b -> a = b.
Proof.
  intros Ha Hb E.
  rewrite <- (proj2 (str_of_Z_digits a Ha)), <- (proj2 (str_of_Z_digits b Hb)).
  congruence.
Qed.

(** [p_part] of the text of one car number and of a list of car
    numbers. *)
Lemma p_part_numbers (xs : list Z) :
  xs <> [] -> Forall (fun x => (0 <= x)%Z) xs ->
  p_part (join (py ",") (map str_of_Z xs)) = map str_of_Z xs.
Proof.
  intros Hne Hxs. unfold p_part.
  rewrite split_join_commas.
  - induction Hxs as [|x l Hx Hl IH]; [congruence|].
    cbn [map List.filter].
    rewrite (clean_strip _ (str_of_Z_clean x Hx)).
    assert (E : eqb (str_of_Z x) [] = false).
    { apply not_true_iff_false. rewrite eqb_true.
      apply (str_of_Z_digits x Hx). }
    rewrite E. cbn [negb]. f_equal.
    destruct l as [|y l']; [reflexivity|].
    apply IH. discriminate.
  - destruct xs; [congruence | discriminate].
  - apply Forall_fmap. eapply Forall_impl; [exact Hxs|].
    intros x Hx. simpl.
    apply digits_lack; [apply (str_of_Z_digits x Hx) | reflexivity].
Qed.

Lemma p_part_single (s : pystr) :
  clean s -> ~ In 44%N s -> p_part s = [s].
Proof.
  intros Hc Hs. unfold p_part. rewrite (split_chr_none 44 s Hs).
  cbn [map List.filter]. rewrite (clean_strip s Hc).
  assert (E : eqb s [] = false).
  { apply not_true_iff_false. rewrite eqb_true. apply clean_nonempty, Hc. }
  rewrite E. reflexivity.
Qed.

Lemma clean_sandwich (a mid b : pystr) :
  clean a -> clean b -> clean (a ++ mid ++ b).
Proof.
  intros Ha Hb. apply clean_of_ends.
  - intros E. apply app_eq_nil in E as [E _].
    exact (clean_nonempty a Ha E).
  - intros h r E.
    destruct Ha as (h' & m & Hh & [-> | (l & _ & ->)]);
      injection E as <- _; exact Hh.
  - intros r l E. rewrite app_assoc in E.
    destruct Hb as (h' & m & Hh & [-> | (l' & Hl & ->)]).
    + apply app_inj_tail in E as [_ <-]. exact Hh.
    + replace ((a ++ mid) ++ h' :: m ++ [l'])
        with (((a ++ mid) ++ h' :: m) ++ [l']) in E
        by (rewrite <- app_assoc; reflexivity).
      apply app_inj_tail in E as [_ <-]. exact Hl.
Qed.

(** A 2車単 ticket written as [head → tail]: its type and its parts. *)
Lemma exacta_arrow_parts (s1 tail : pystr) :
  digits s1 -> clean tail ->
  (forall c, In c [58%N; 8594%N; 8596%N; 36899%N] -> ~ In c tail) ->
  let t := t_2shatan ++ s1 ++ t_arrow ++ tail in
  ticket_type_of t = TT_2shatan /\ ticket_parts t = ([s1; tail], false).
Proof.
  intros Hd Hc Htail t.
  assert (Hs1 : forall c, isdigit c = false -> ~ In c s1)
    by (intros c; apply digits_lack, Hd).
  assert (Hlack : forall c, In c [58%N; 8596%N; 36899%N] ->
            ~ In c (s1 ++ t_arrow ++ tail)).
  { intros c Hin.
    assert (Hcd : isdigit c = false)
      by (destruct Hin as [<- | [<- | [<- | []]]]; reflexivity).
    apply lacks_app; [apply Hs1, Hcd|].
    apply lacks_app.
    - destruct Hin as [<- | [<- | [<- | []]]];
        apply forallb_lacks; reflexivity.
    - apply Htail. destruct Hin as [<- | [<- | [<- | []]]]; simpl; tauto. }
  split.
  - apply exacta_ticket_type. apply Hlack. simpl. tauto.
  - set (content := s1 ++ t_arrow ++ tail).
    unfold ticket_parts.
    change t with (py "2車単" ++ 58%N :: 32%N :: content).
    assert (H58 : ~ In 58%N (32%N :: content)).
    { apply lacks_cons; [discriminate|]. apply Hlack. simpl. tauto. }
    rewrite (last_part_after 58 (py "2車単") (32%N :: content) H58).
    rewrite (clean_strip_left content)
      by (apply clean_sandwich; [apply digits_clean, Hd | exact Hc]).
    cbv zeta.
    change (py "↔") with [8596%N]. change (py "→") with [8594%N].
    rewrite (contains_lacking [8596%N] content 8596%N);
      [|left; reflexivity | apply Hlack; simpl; tauto].
    rewrite (contains_char 8594 content).
    2:{ subst content. apply in_or_app. right. right. left. reflexivity. }
    f_equal.
    subst content. unfold t_arrow.
    change (s1 ++ py " → " ++ tail)
      with (s1 ++ [32%N] ++ 8594%N :: 32%N :: tail).
    rewrite app_assoc, split_chr_at, split_chr_none.
    + cbn [map]. rewrite (clean_strip_right s1 (digits_clean s1 Hd)).
      rewrite (clean_strip_left tail Hc). reflexivity.
    + apply lacks_cons; [discriminate|]. apply Htail. simpl. tauto.
    + apply lacks_app; [apply Hs1; reflexivity|].
      apply lacks_cons; [discriminate | intros []].
Qed.

Lemma lookup_two {A : Type} (l : list A) (a b : A) :
  l !! 0%nat = Some a -> l !! 1%nat = Some b -> exists r, l = a :: b :: r.
Proof.
  destruct l as [|x [|y r]]; try discriminate.
  intros [= ->] [= ->]. eauto.
Qed.

(** The settlement of a 2車単 ticket written as [head → tail]. *)
Lemma exacta_arrow_settled (set_order : list pystr -> list pystr)
    (top3 : list pystr) (payouts : gmap PayKey Q) (s1 tail : pystr) :
  digits s1 -> clean tail ->
  (forall c, In c [58%N; 8594%N; 8596%N; 36899%N] -> ~ In c tail) ->
  let r := settle_ticket set_order top3 payouts
             (t_2shatan ++ s1 ++ t_arrow ++ tail) in
  let combinations := expand2 [s1] (p_part tail) in
  tk_type r = TT_2shatan
  /\ tk_combinations r = combinations
  /\ (combinations <> [] ->
      tk_invest r = (Z.of_nat (length combinations) * 100)%Z)
  /\ (tk_hit r = true
      <-> exists a b, top3 !! 0%nat = Some a /\ top3 !! 1%nat = Some b
                      /\ b <> [] /\ In [a; b] combinations).
Proof.
  intros Hd Hc Htail.
  destruct (exacta_arrow_parts s1 tail Hd Hc Htail) as [Htype Hparts].
  cbv zeta in Htype, Hparts. cbv zeta. unfold settle_ticket.
  rewrite Htype, Hparts.
  assert (Hs1 : p_part s1 = [s1]).
  { apply p_part_single; [apply digits_clean, Hd|].
    apply digits_lack; [apply Hd | reflexivity]. }
  unfold count_points. rewrite Hs1.
  pose proof (loop2_snd [s1] (p_part tail) (0%nat, [])) as Hsnd.
  pose proof (loop2_counted [s1] (p_part tail) (0%nat, []) eq_refl) as Hcnt.
  destruct (loop2 [s1] (p_part tail) (0%nat, [])) as [points0 combinations].
  cbn [fst snd app] in Hsnd, Hcnt. unfold counted in Hcnt.
  cbn [fst snd] in Hcnt. subst points0 combinations.
  set (combinations := expand2 [s1] (p_part tail)).
  destruct (check_hit TT_2shatan top3 payouts combinations)
    as [pay tickets_hit] eqn:Eh.
  cbn [tk_type tk_combinations tk_invest tk_hit].
  split; [reflexivity|]. split; [reflexivity|]. split.
  - intros Hne. destruct combinations; [congruence|]. reflexivity.
  - unfold check_hit in Eh.
    destruct (top3 !! 0%nat) as [a|] eqn:E0;
      [destruct (top3 !! 1%nat) as [b|] eqn:E1|];
      try (injection Eh as _ <-; split; [discriminate|];
           intros (a' & b' & [=] & _); fail);
      try (injection Eh as _ <-; split; [discriminate|];
           intros (a' & b' & _ & [=] & _); fail).
    assert (Hcomb : forall x y, In [x; y] combinations -> x = s1).
    { intros x y Hin. subst combinations. unfold expand2 in Hin.
      cbn [flat_map] in Hin. rewrite app_nil_r in Hin.
      apply in_flat_map in Hin as (c2 & _ & Hin).
      destruct (eqb s1 c2); [destruct Hin|].
      destruct Hin as [[= <- _] | []]. reflexivity. }
    destruct (truthy_str (Some a) && truthy_str (Some b)
              && bool_decide ([a; b] ∈ combinations)) eqn:Et.
    + assert (Eh' : (pay, tickets_hit) = (pay_get payouts Pay_2shatan, true))
        by (rewrite <- Eh; destruct (top3 !! 2%nat); reflexivity).
      injection Eh' as _ ->.
      apply andb_true_iff in Et as [Et Hin].
      apply andb_true_iff in Et as [_ Hb].
      apply bool_decide_eq_true, list_elem_of_In in Hin.
      split; [intros _|reflexivity].
      exists a, b. repeat split; try assumption.
      destruct b; [discriminate Hb | discriminate].
    + assert (Eh' : (pay, tickets_hit) = (0, false))
        by (rewrite <- Eh; destruct (top3 !! 2%nat); reflexivity).
      injection Eh' as _ ->.
      split; [discriminate|].
      intros (a' & b' & Ea & Eb & Hb & Hin). exfalso.
      injection Ea as <-. injection Eb as <-.
      apply andb_false_iff in Et as [Et | Et].
      * apply andb_false_iff in Et as [Et | Et].
        -- pose proof (Hcomb _ _ Hin) as ->.
           destruct Hd as [Hne _]. destruct s1; [congruence | discriminate Et].
        -- destruct b; [congruence | discriminate Et].
      * apply bool_decide_eq_false in Et. apply Et, list_elem_of_In, Hin.
Qed.

Lemma expand2_numbers (c1 : Z) (xs : list Z) :
  (0 <= c1)%Z -> Forall (fun x => (0 <= x)%Z) xs ->
  expand2 [str_of_Z c1] (map str_of_Z xs)
  = map (fun x => [str_of_Z c1; str_of_Z x])
      (List.filter (fun x => negb (x =? c1)%Z) xs).
Proof.
  intros H1 Hxs. unfold expand2. cbn [flat_map]. rewrite app_nil_r.
  induction Hxs as [|x l Hx Hl IH]; [reflexivity|].
  cbn [map flat_map List.filter]. rewrite IH.
  destruct (x =? c1)%Z eqn:E.
  - apply Z.eqb_eq in E. subst x.
    rewrite (proj2 (eqb_true _ _) eq_refl). reflexivity.
  - apply Z.eqb_neq in E.
    assert (E' : eqb (str_of_Z c1) (str_of_Z x) = false).
    { apply not_true_iff_false. rewrite eqb_true. intros Hs.
      apply E. symmetry. apply str_of_Z_inj; assumption. }
    rewrite E'. reflexivity.
Qed.

Lemma join_numbers_clean (xs : list Z) :
  xs <> [] -> Forall (fun x => (0 <= x)%Z) xs ->
  clean (join (py ",") (map str_of_Z xs)).
Proof.
  intros Hne Hxs. induction xs as [|x [|y ys] IH]; [congruence| |].
  - apply Forall_cons in Hxs as [Hx _]. cbn [map join].
    apply str_of_Z_clean, Hx.
  - apply Forall_cons in Hxs as [Hx Hxs]. cbn [map]. rewrite join_cons2.
    apply clean_sandwich; [apply str_of_Z_clean, Hx|].
    apply IH; [discriminate | exact Hxs].
Qed.

Lemma add_base_exacta_cons (c1 : Z) (c2 c3 c4 : pycar)
    (rec_tickets : list pystr) (flow : list pycar) :
  base_flow_dedup c1 c2 c3 c4 rec_tickets = flow -> flow <> [] ->
  add_base_exacta c1 c2 c3 c4 rec_tickets
  = (t_2shatan ++ str_of_Z c1 ++ t_arrow ++ join_cars flow) :: rec_tickets.
Proof.
  intros <- H. unfold add_base_exacta.
  destruct (base_flow_dedup c1 c2 c3 c4 rec_tickets);
    [congruence | reflexivity].
Qed.

(** The settlement of a 2車単 ticket written as [c1 → x1,x2,...] with car
    numbers other than [c1]. *)
Lemma arrow_exacta_numbers_settled (set_order : list pystr -> list pystr)
    (top3 : list pystr) (payouts : gmap PayKey Q) (c1 : Z) (flow : list Z) :
  (0 <= c1)%Z -> flow <> [] -> Forall (fun x => (0 <= x)%Z) flow ->
  ~ In c1 flow ->
  let r := settle_ticket set_order top3 payouts
             (t_2shatan ++ str_of_Z c1 ++ t_arrow
              ++ join (py ",") (map str_of_Z flow)) in
  tk_type r = TT_2shatan
  /\ tk_combinations r = map (fun x => [str_of_Z c1; str_of_Z x]) flow
  /\ tk_invest r = (Z.of_nat (length flow) * 100)%Z
  /\ (tk_hit r = true
      <-> exists x, In x flow
            /\ top3 !! 0%nat = Some (str_of_Z c1)
            /\ top3 !! 1%nat = Some (str_of_Z x)).
Proof.
  intros H01 Hne Hflow Hc1.
  assert (Hnot : List.filter (fun x => negb (x =? c1)%Z) flow = flow).
  { apply forallb_filter_id, forallb_forall. intros x Hx.
    apply negb_true_iff, Z.eqb_neq. intros ->. exact (Hc1 Hx). }
  set (tail := join (py ",") (map str_of_Z flow)).
  pose proof (exacta_arrow_settled set_order top3 payouts (str_of_Z c1) tail
                (proj1 (str_of_Z_digits c1 H01))
                (join_numbers_clean flow Hne Hflow)) as Hs.
  assert (Htail : forall c, In c [58%N; 8594%N; 8596%N; 36899%N] ->
            ~ In c tail).
  { intros c Hc Hin. subst tail.
    apply join_numbers_chars in Hin as [Hin | ->]; [| |exact Hflow].
    - destruct Hc as [<- | [<- | [<- | [<- | []]]]]; discriminate Hin.
    - destruct Hc as [E | [E | [E | [E | []]]]]; discriminate E. }
  specialize (Hs Htail). cbv zeta in Hs.
  subst tail. rewrite (p_part_numbers flow Hne Hflow) in Hs.
  rewrite (expand2_numbers c1 flow H01 Hflow), Hnot in Hs.
  destruct Hs as (Hty & Hcomb & Hinv & Hhit).
  cbv zeta. split; [exact Hty|]. split; [exact Hcomb|]. split.
  - rewrite Hinv, length_map; [reflexivity|].
    intros E. apply map_eq_nil in E. exact (Hne E).
  - rewrite Hhit. split.
    + intros (a & b & Ea & Eb & _ & Hin).
      apply in_map_iff in Hin as (x & [= <- <-] & Hx).
      exists x. repeat split; assumption.
    + intros (x & Hx & Ea & Eb).
      exists (str_of_Z c1), (str_of_Z x).
      split; [exact Ea|]. split; [exact Eb|]. split.
      * apply (str_of_Z_digits x).
        rewrite Forall_forall in Hflow. apply Hflow, list_elem_of_In, Hx.
      * apply in_map_iff. exists x. split; [reflexivity | exact Hx].
Qed.

(** The base 2車単 ticket that [generate_betting_strategy] puts in front
    of its tickets is read back by the settlement as the generator wrote
    it: one combination (top rider, x) for each car x of the flow, a
    stake of 100 for each, and a hit exactly when the race finishes top
    rider first and a car of the flow second. *)
Theorem base_exacta_is_read_back
    (set_order : list pystr -> list pystr) (top3 : list pystr)
    (payouts : gmap PayKey Q) (c1 c2 c3 : Z) (c4 : pycar)
    (rec_tickets : list pystr) :
  (0 < c1)%Z -> (0 < c2)%Z -> (0 < c3)%Z ->
  (forall x, c4 = Some x -> (0 < x)%Z) ->
  ~ In c1 (flow_cars c2 c3 c4) ->
  let flow := uncovered c1 (flow_cars c2 c3 c4) rec_tickets in
  flow <> [] ->
  exists t,
    add_base_exacta c1 (Some c2) (Some c3) c4 rec_tickets = t :: rec_tickets
    /\ let r := settle_ticket set_order top3 payouts t in
       tk_type r = TT_2shatan
       /\ tk_combinations r
          = map (fun x => [str_of_Z c1; str_of_Z x]) flow
       /\ tk_invest r = (Z.of_nat (length flow) * 100)%Z
       /\ (tk_hit r = true
           <-> exists x, In x flow
                 /\ top3 !! 0%nat = Some (str_of_Z c1)
                 /\ top3 !! 1%nat = Some (str_of_Z x)).
Proof.
  intros H1 H2 H3 H4 Hc1 flow Hne.
  assert (Hflow : Forall (fun x => (0 <= x)%Z) flow).
  { apply Forall_forall. intros x Hx. apply list_elem_of_In in Hx.
    apply uncovered_spec in Hx as [Hx _]. unfold flow_cars in Hx.
    destruct Hx as [<- | [<- | Hx]]; [lia | lia|].
    destruct c4 as [y|]; [|destruct Hx].
    destruct Hx as [<- | []]. specialize (H4 y eq_refl). lia. }
  assert (Hnot : ~ In c1 flow).
  { intros Hx. apply uncovered_spec in Hx as [Hx _]. exact (Hc1 Hx). }
  assert (Hmap : map Some flow <> []).
  { intros E. apply map_eq_nil in E. exact (Hne E). }
  rewrite (add_base_exacta_cons c1 (Some c2) (Some c3) c4 rec_tickets
             (map Some flow)
             (base_flow_dedup_spec c1 c2 c3 c4 rec_tickets H2 H3 H4) Hmap).
  eexists. split; [reflexivity|].
  rewrite join_cars_Some.
  apply arrow_exacta_numbers_settled; [lia | exact Hne | exact Hflow|].
  exact Hnot.
Qed.

Lemma base_exacta_is_read_back_witness :
  exists t,
    add_base_exacta 1 (Some 2%Z) (Some 3%Z) (Some 4%Z) [] = [t]
    /\ tk_invest (settle_ticket first_seen_order [py "1"; py "3"; py "2"] ∅ t)
       = 300%Z.
Proof.
  destruct (base_exacta_is_read_back first_seen_order
              [py "1"; py "3"; py "2"] ∅ 1 2 3 (Some 4%Z) [])
    as (t & E & H).
  - lia.
  - lia.
  - lia.
  - intros x [= <-]. lia.
  - vm_compute. intros [H | [H | [H | []]]]; discriminate H.
  - vm_compute. discriminate.
  - exists t. split; [exact E|]. exact (proj1 (proj2 (proj2 H))).
Defined.

Lemma contains_needs (needle hay : pystr) (c : N) :
  contains needle hay = true -> In c needle -> In c hay.
Proof.
  intros H Hc. destruct (in_dec N.eq_dec c hay) as [Hin | Hout];
    [exact Hin|].
  rewrite (contains_lacking needle hay c Hc Hout) in H. discriminate H.
Qed.

(** The 2車単 ticket of [star_nige_short], "c1 → pt (1点)": its one
    combination has the text "pt (1点)" in second place. *)
Lemma one_point_exacta_settled (set_order : list pystr -> list pystr)
    (top3 : list pystr) (payouts : gmap PayKey Q) (c1 pt : Z) :
  (0 <= c1)%Z -> (0 <= pt)%Z ->
  (forall x, In x top3 -> ~ In 40%N x) ->
  tk_hit (settle_ticket set_order top3 payouts
            (t_2shatan ++ str_of_Z c1 ++ t_arrow ++ str_of_Z pt
             ++ py " (1点)")) = false.
Proof.
  intros H1 Hp Htop.
  set (tail := str_of_Z pt ++ py " (1点)").
  assert (Hclean : clean tail).
  { subst tail.
    change (py " (1点)") with ([32%N; 40%N; 49%N; 28857%N] ++ [41%N]).
    destruct (str_of_Z_clean pt Hp) as (h & m & Hh & _).
    destruct (str_of_Z pt) as [|h' r] eqn:E.
    - exfalso. apply (proj1 (proj1 (str_of_Z_digits pt Hp))). exact E.
    - rewrite app_assoc. cbn [app].
      apply (clean_ends h' 41%N); [|reflexivity].
      apply isdigit_not_space.
      pose proof (proj2 (proj1 (str_of_Z_digits pt Hp))) as Hd.
      rewrite E in Hd. apply Forall_cons in Hd as [Hd _]. exact Hd. }
  assert (Htail : forall c, isdigit c = false ->
            ~ In c (py " (1点)") -> ~ In c tail).
  { intros c Hc Hn. subst tail. apply lacks_app; [|exact Hn].
    apply digits_lack; [apply (str_of_Z_digits pt Hp) | exact Hc]. }
  pose proof (exacta_arrow_settled set_order top3 payouts (str_of_Z c1) tail
                (proj1 (str_of_Z_digits c1 H1)) Hclean) as Hs.
  assert (Hl : forall c, In c [58%N; 8594%N; 8596%N; 36899%N] ->
            ~ In c tail).
  { intros c Hc.
    destruct Hc as [<- | [<- | [<- | [<- | []]]]];
      (apply Htail; [reflexivity | apply forallb_lacks; reflexivity]). }
  specialize (Hs Hl). cbv zeta in Hs.
  destruct Hs as (_ & _ & _ & Hhit).
  apply not_true_iff_false. rewrite Hhit.
  intros (a & b & _ & Eb & _ & Hin).
  rewrite (p_part_single tail Hclean) in Hin.
  2:{ apply Htail; [reflexivity | apply forallb_lacks; reflexivity]. }
  unfold expand2 in Hin. cbn [flat_map] in Hin. rewrite !app_nil_r in Hin.
  destruct (eqb (str_of_Z c1) tail); [destruct Hin|].
  destruct Hin as [[= _ <-] | []].
  apply (Htop tail).
  - apply list_elem_of_In, list_elem_of_lookup. exists 1%nat. exact Eb.
  - subst tail. apply in_or_app. right. right. left. reflexivity.
Qed.

(** In a [star_nige_short] recommendation the 2車単 ticket marked
    "(1点)" is never settled as a hit: the settlement compares the car
    that finished second with the text "pt (1点)", and the result table
    holds car numbers. *)
Theorem one_point_exacta_is_never_a_hit
    (specs : pystr -> option (Q * Q * Q)) (pred_df : ScoredFrame)
    (ai_match_cars : list Z) (s : Strategy) (t : pystr)
    (set_order : list pystr -> list pystr) (top3 : list pystr)
    (payouts : gmap PayKey Q) :
  Forall (fun r => (0 <= shaban (rider r))%Z) (sf_rows pred_df) ->
  generate_betting_strategy specs pred_df ai_match_cars = Return (Rec s) ->
  s_type s = star_nige_short ->
  In t (s_tickets s) -> contains (py "(1点)") t = true ->
  (forall x, In x top3 -> ~ In 40%N x) ->
  tk_hit (settle_ticket set_order top3 payouts t) = false.
Proof.
  intros Hcars Hs Hrt Ht Hmark Htop.
  destruct (strategy_tickets_are_archetype_plus_base _ _ _ _ Hs)
    as (p1 & p2 & p3 & rest & rec_tickets & Hsort & Hrec & Htk).
  cbv zeta in Hsort, Hrec, Htk.
  assert (Hsorted : Forall (fun r => (0 <= shaban (rider r))%Z)
                      (p1 :: p2 :: p3 :: rest)).
  { rewrite <- Hsort, sort_desc_Permutation. exact Hcars. }
  apply Forall_cons in Hsorted as [H1 Hsorted].
  apply Forall_cons in Hsorted as [H2 Hsorted].
  apply Forall_cons in Hsorted as [H3 Hrest].
  assert (H4 : car_ok (car_at (p1 :: p2 :: p3 :: rest) 3)).
  { unfold car_at. cbn [lookup list_lookup].
    destruct rest as [|p4 rest']; [exact I|].
    apply Forall_cons in Hrest as [H4 _]. exact H4. }
  assert (Hparen : In 40%N t)
    by (apply (contains_needs _ _ _ Hmark); left; reflexivity).
  rewrite Hrt in Hrec. cbn [archetype_tickets] in Hrec.
  unfold mbind, Result_bind in Hrec. cbv beta in Hrec.
  set (partner := (fun r => shaban (rider r)) <$> find_partner pred_df p1)
    in *.
  assert (Ept : exists pt,
            match partner with
            | Some p => Return p
            | None => int_car (Some (shaban (rider p2)))
            end = Return pt /\ (0 <= pt)%Z).
  { subst partner. destruct (find_partner pred_df p1) as [r|] eqn:Er.
    - exists (shaban (rider r)). split; [reflexivity|].
      apply find_partner_row in Er.
      rewrite Forall_forall in Hcars. apply Hcars, list_elem_of_In, Er.
    - exists (shaban (rider p2)). split; [reflexivity | exact H2]. }
  destruct Ept as (pt & Ept & Hpt). rewrite Ept in Hrec.
  cbv beta iota in Hrec.
  match type of Hrec with
  | context [filter_not ?a ?b ?c] =>
      destruct (filter_not a b c) as [th|e] eqn:Eth
  end; [|discriminate Hrec].
  apply Return_inj in Hrec.
  assert (Hth : Forall car_ok th).
  { apply Forall_forall. intros x Hx. apply list_elem_of_In in Hx.
    apply (filter_not_subset _ _ _ _ Eth) in Hx.
    destruct Hx as [<- | [<- | [<- | []]]]; assumption. }
  rewrite Htk in Ht. unfold add_base_exacta in Ht.
  assert (Hin : In t rec_tickets).
  { destruct (base_flow_dedup _ _ _ _ _) as [|f flow] eqn:Ef; [exact Ht|].
    destruct Ht as [<- | Ht]; [|exact Ht].
    exfalso. revert Hparen.
    apply lacks_app; [apply forallb_lacks; reflexivity|].
    apply lacks_app;
      [apply digits_lack; [apply (str_of_Z_digits _ H1) | reflexivity]|].
    apply lacks_app; [apply forallb_lacks; reflexivity|].
    intros H. apply In_join_cars in H as [H | H]; [discriminate H|].
    revert H. apply forallb_lacks. reflexivity. }
  rewrite <- Hrec in Hin.
  destruct Hin as [<- | [<- | []]].
  - exfalso. revert Hparen.
    apply lacks_app; [apply forallb_lacks; reflexivity|].
    apply lacks_app;
      [apply digits_lack; [apply (str_of_Z_digits _ H1) | reflexivity]|].
    apply lacks_app; [apply forallb_lacks; reflexivity|].
    apply lacks_app;
      [apply digits_lack; [apply (str_of_Z_digits _ Hpt) | reflexivity]|].
    apply lacks_app; [apply forallb_lacks; reflexivity|].
    destruct th as [|x th']; [apply forallb_lacks; reflexivity|].
    apply join_cars_lacks;
      [exact Hth | reflexivity | apply forallb_lacks; reflexivity].
  - apply one_point_exacta_settled; assumption.
Qed.

Lemma one_point_exacta_is_never_a_hit_witness :
  exists s t,
    generate_betting_strategy sample_specs maebashi_scored [] = Return (Rec s)
    /\ s_type s = star_nige_short
    /\ In t (s_tickets s)
    /\ contains (py "(1点)") t = true
    /\ tk_hit (settle_ticket first_seen_order [py "1"; py "2"; py "3"] ∅ t)
       = false.
Proof.
  eexists. eexists. split; [vm_compute; reflexivity|].
  split; [reflexivity|].
  split; [vm_compute; right; right; left; reflexivity|].
  split; [vm_compute; reflexivity|].
  refine (one_point_exacta_is_never_a_hit sample_specs maebashi_scored [] _ _
            first_seen_order [py "1"; py "2"; py "3"] ∅ _ _ _ _ _ _).
  - repeat constructor; vm_compute; discriminate.
  - vm_compute. reflexivity.
  - reflexivity.
  - vm_compute. right. right. left. reflexivity.
  - vm_compute. reflexivity.
  - intros x [<- | [<- | [<- | []]]]; vm_compute;
      intros [H | []]; discriminate H.
Defined.

Lemma clean_strip_both (s : pystr) :
  clean s -> strip (32%N :: s ++ [32%N]) = s.
Proof.
  intros H. unfold strip.
  change (lstrip (32%N :: s ++ [32%N])) with (lstrip (s ++ [32%N])).
  apply (clean_strip_right s H).
Qed.

(** A ticket written as [head: a - b - c]: its three parts. *)
Lemma hyphen_ticket_parts (head a b c : pystr) :
  clean a -> clean b -> clean c ->
  (forall x, In x [58%N; 8596%N; 8594%N; 61%N; 45%N] ->
     ~ In x a /\ ~ In x b /\ ~ In x c) ->
  ticket_parts (head ++ 58%N :: 32%N :: a ++ t_dash ++ b ++ t_dash ++ c)
  = ([a; b; c], false).
Proof.
  intros Ha Hb Hc Hl.
  set (content := a ++ t_dash ++ b ++ t_dash ++ c).
  assert (Hcontent : forall x, In x [58%N; 8596%N; 8594%N; 61%N] ->
            ~ In x content).
  { intros x Hx.
    assert (Hx' : In x [58%N; 8596%N; 8594%N; 61%N; 45%N])
      by (simpl in *; tauto).
    destruct (Hl x Hx') as (Hxa & Hxb & Hxc).
    assert (Hd : ~ In x t_dash)
      by (destruct Hx as [<- | [<- | [<- | [<- | []]]]];
          apply forallb_lacks; reflexivity).
    subst content. repeat apply lacks_app; assumption. }
  unfold ticket_parts.
  rewrite (last_part_after 58 head (32%N :: content)).
  2:{ apply lacks_cons; [discriminate|]. apply Hcontent. simpl. tauto. }
  assert (Hclean : clean content).
  { subst content. apply clean_sandwich; [exact Ha|].
    rewrite app_assoc. apply clean_of_ends.
    - intros E. apply app_eq_nil in E as [_ E].
      exact (clean_nonempty c Hc E).
    - intros h r E.
      destruct Hb as (h' & m & Hh & [-> | (l & _ & ->)]);
        injection E as <- _; exact Hh.
    - intros r l E.
      destruct Hc as (h' & m & Hh & [-> | (l' & Hl' & ->)]).
      + apply app_inj_tail in E as [_ <-]. exact Hh.
      + replace ((b ++ t_dash) ++ h' :: m ++ [l'])
          with (((b ++ t_dash) ++ h' :: m) ++ [l']) in E
          by (rewrite <- app_assoc; reflexivity).
        apply app_inj_tail in E as [_ <-]. exact Hl'. }
  rewrite (clean_strip_left content Hclean). cbv zeta.
  change (py "↔") with [8596%N]. change (py "→") with [8594%N].
  change (py "=") with [61%N].
  rewrite (contains_lacking [8596%N] content 8596%N);
    [|left; reflexivity | apply Hcontent; simpl; tauto].
  rewrite (contains_lacking [8594%N] content 8594%N);
    [|left; reflexivity | apply Hcontent; simpl; tauto].
  rewrite (contains_lacking [61%N] content 61%N);
    [|left; reflexivity | apply Hcontent; simpl; tauto].
  f_equal.
  destruct (Hl 45%N ltac:(simpl; tauto)) as (Hxa & Hxb & Hxc).
  subst content. unfold t_dash.
  change (a ++ py " - " ++ b ++ py " - " ++ c)
    with (a ++ [32%N] ++ 45%N :: (32%N :: b ++ [32%N] ++ 45%N :: 32%N :: c)).
  rewrite app_assoc, split_chr_at.
  2:{ apply lacks_app; [exact Hxa|]. apply lacks_cons; [discriminate|].
      intros []. }
  replace (32%N :: b ++ [32%N] ++ 45%N :: 32%N :: c)
    with ((32%N :: b ++ [32%N]) ++ 45%N :: 32%N :: c)
    by (cbn [app]; rewrite <- app_assoc; reflexivity).
  rewrite split_chr_at.
  2:{ apply lacks_cons; [discriminate|]. apply lacks_app; [exact Hxb|].
      apply lacks_cons; [discriminate|]. intros []. }
  rewrite split_chr_none.
  2:{ apply lacks_cons; [discriminate | exact Hxc]. }
  cbn [map]. rewrite (clean_strip_right a Ha), (clean_strip_both b Hb),
    (clean_strip_left c Hc). reflexivity.
Qed.

Lemma eqb_str_of_Z (a b : Z) :
  (0 <= a)%Z -> (0 <= b)%Z -> eqb (str_of_Z a) (str_of_Z b) = (a =? b)%Z.
Proof.
  intros Ha Hb. destruct (a =? b)%Z eqn:E.
  - apply Z.eqb_eq in E. subst b. apply eqb_true. reflexivity.
  - apply Z.eqb_neq in E. apply not_true_iff_false. rewrite eqb_true.
    intros Hs. apply E. apply str_of_Z_inj; assumption.
Qed.

(** The settlement's expansion of three car lists is the generator's
    expansion of [structured_bets], on the texts of the car numbers. *)
Lemma expand3_numbers (hs ss ts : list Z) :
  Forall (fun x => (0 <= x)%Z) hs -> Forall (fun x => (0 <= x)%Z) ss ->
  Forall (fun x => (0 <= x)%Z) ts ->
  expand3 (map str_of_Z hs) (map str_of_Z ss) (map str_of_Z ts)
  = map bet_combination (classic_trifecta_bets hs ss ts).
Proof.
  intros Hh Hs Ht. unfold expand3, classic_trifecta_bets.
  induction Hh as [|h hs Hh0 Hhs IHh]; [reflexivity|].
  cbn [map flat_map]. rewrite map_app, <- IHh. f_equal. clear IHh.
  induction Hs as [|s ss Hs0 Hss IHs]; [reflexivity|].
  cbn [map flat_map]. rewrite map_app, <- IHs. f_equal. clear IHs.
  rewrite (eqb_str_of_Z h s Hh0 Hs0), Z.eqb_sym.
  destruct (s =? h)%Z; [reflexivity|].
  induction Ht as [|t ts Ht0 Hts IHt]; [reflexivity|].
  cbn [map flat_map]. rewrite map_app, <- IHt. f_equal.
  rewrite (eqb_str_of_Z t h Ht0 Hh0), (eqb_str_of_Z t s Ht0 Hs0).
  destruct ((t =? h)%Z || (t =? s)%Z); reflexivity.
Qed.

Lemma numbers_lack (xs : list Z) (c : N) :
  Forall (fun x => (0 <= x)%Z) xs -> isdigit c = false -> c <> 44%N ->
  ~ In c (join (py ",") (map str_of_Z xs)).
Proof.
  intros Hxs Hc H44 Hin.
  apply join_numbers_chars in Hin as [Hin | ->]; [congruence | congruence|].
  exact Hxs.
Qed.

(** The settlement of a 3連単 ticket written as
    [3連単label: heads - seconds - thirds] with lists of car numbers. *)
Lemma hyphen_trifecta_settled (set_order : list pystr -> list pystr)
    (top3 : list pystr) (payouts : gmap PayKey Q) (label : pystr)
    (hs ss ts : list Z) :
  hs <> [] -> ss <> [] -> ts <> [] ->
  Forall (fun x => (0 <= x)%Z) hs -> Forall (fun x => (0 <= x)%Z) ss ->
  Forall (fun x => (0 <= x)%Z) ts ->
  let r := settle_ticket set_order top3 payouts
             (py "3連単" ++ label ++ py ": "
              ++ join (py ",") (map str_of_Z hs) ++ py " - "
              ++ join (py ",") (map str_of_Z ss) ++ py " - "
              ++ join (py ",") (map str_of_Z ts)) in
  let combinations := map bet_combination (classic_trifecta_bets hs ss ts) in
  tk_type r = TT_3rentan
  /\ tk_combinations r = combinations
  /\ (combinations <> [] ->
      tk_invest r = (Z.of_nat (length combinations) * 100)%Z).
Proof.
  intros Nh Ns Nt Hh Hs Ht.
  set (a := join (py ",") (map str_of_Z hs)).
  set (b := join (py ",") (map str_of_Z ss)).
  set (c := join (py ",") (map str_of_Z ts)).
  set (t := py "3連単" ++ label ++ py ": " ++ a ++ py " - " ++ b ++ py " - "
            ++ c).
  assert (Htype : ticket_type_of t = TT_3rentan).
  { subst t. unfold ticket_type_of.
    rewrite contains_prefix. reflexivity. }
  assert (Hparts : ticket_parts t = ([a; b; c], false)).
  { subst t. rewrite (app_assoc (py "3連単") label).
    change (py ": " ++ a ++ py " - " ++ b ++ py " - " ++ c)
      with (58%N :: 32%N :: a ++ t_dash ++ b ++ t_dash ++ c).
    apply hyphen_ticket_parts;
      try (apply join_numbers_clean; assumption).
    intros x Hx.
    assert (Hd : isdigit x = false /\ x <> 44%N).
    { destruct Hx as [<- | [<- | [<- | [<- | [<- | []]]]]];
        split; (reflexivity || discriminate). }
    destruct Hd as [Hd H44].
    repeat split; apply numbers_lack; assumption. }
  cbv zeta. unfold settle_ticket. fold t. rewrite Htype, Hparts.
  unfold count_points.
  subst a b c. rewrite !p_part_numbers by assumption.
  pose proof (loop3_snd (map str_of_Z hs) (map str_of_Z ss)
                (map str_of_Z ts) (0%nat, [])) as Hsnd.
  pose proof (loop3_counted (map str_of_Z hs) (map str_of_Z ss)
                (map str_of_Z ts) (0%nat, []) eq_refl) as Hcnt.
  destruct (loop3 _ _ _ (0%nat, [])) as [points0 combinations].
  cbn [fst snd app] in Hsnd, Hcnt. unfold counted in Hcnt.
  cbn [fst snd] in Hcnt. subst points0 combinations.
  rewrite (expand3_numbers hs ss ts Hh Hs Ht).
  destruct (check_hit _ _ _ _) as [pay tickets_hit].
  cbn [tk_type tk_combinations tk_invest].
  split; [reflexivity|]. split; [reflexivity|].
  intros Hne.
  destruct (map bet_combination (classic_trifecta_bets hs ss ts));
    [congruence | reflexivity].
Qed.

(** * The classic strategy *)



Lemma Classic_custom_inj (t t' : list pystr) (b b' : list Bet) (w w' : Q)
    (n n' : pystr) :
  Classic_custom t b w n = Classic_custom t' b' w' n' ->
  t = t' /\ b = b' /\ w = w' /\ n = n'.
Proof. intros H. injection H as -> -> -> ->. repeat split. Qed.

(** For car numbers that are not negative and differ from one another,
    the settlement expands the two tickets of the classic strategy into
    exactly the bets that [structured_bets] lists, and charges their
    amounts: 3 exacta bets and 4 trifecta bets, 700 in all. *)
Theorem classic_strategy_is_charged_what_it_lists
    (set_order : list pystr -> list pystr) (top3 : list pystr)
    (payouts : gmap PayKey Q) (pred_df : ScoredFrame)
    (class_code kurasu : option (list pystr))
    (tickets : list pystr) (bets : list Bet) (w : Q) (name : pystr) :
  Forall (fun r => (0 <= shaban (rider r))%Z) (sf_rows pred_df) ->
  NoDup (map (fun r => shaban (rider r)) (sf_rows pred_df)) ->
  generate_classic_strategy pred_df class_code kurasu
  = Classic_custom tickets bets w name ->
  exists t3 t2,
    tickets = [t3; t2]
    /\ tk_combinations (settle_ticket set_order top3 payouts t2)
       ++ tk_combinations (settle_ticket set_order top3 payouts t3)
       = map bet_combination bets
    /\ (tk_invest (settle_ticket set_order top3 payouts t2)
        + tk_invest (settle_ticket set_order top3 payouts t3))%Z
       = Zsum (map bet_amount bets)
    /\ Zsum (map bet_amount bets) = 700%Z.
Proof.
  intros Hcars Hnd. unfold generate_classic_strategy.
  destruct (classic_is_girls pred_df class_code kurasu); [discriminate|].
  set (gt := fun a b : Scored => Qltb (score_col b) (score_col a)).
  pose proof (sort_desc_Permutation gt (sf_rows pred_df)) as Hperm.
  destruct (sort_desc gt (sf_rows pred_df))
    as [|p1 [|p2 [|p3 [|p4 rest]]]] eqn:Es; try discriminate.
  cbv zeta. intros E. apply Classic_custom_inj in E as (E1 & E2 & _ & _).
  subst tickets bets.
  set (c1 := shaban (rider p1)). set (c2 := shaban (rider p2)).
  set (c3 := shaban (rider p3)). set (c4 := shaban (rider p4)).
  assert (Hpos : Forall (fun x => (0 <= x)%Z) [c1; c2; c3; c4]).
  { rewrite <- Hperm in Hcars.
    apply Forall_cons in Hcars as [H1 Hcars].
    apply Forall_cons in Hcars as [H2 Hcars].
    apply Forall_cons in Hcars as [H3 Hcars].
    apply Forall_cons in Hcars as [H4 _].
    repeat constructor; assumption. }
  assert (Hdist : NoDup [c1; c2; c3; c4]).
  { assert (Hnd' : NoDup (map (fun r => shaban (rider r))
                            (p1 :: p2 :: p3 :: p4 :: rest))).
    { change (@map Scored Z) with (@fmap list _ Scored Z) in *.
      rewrite Hperm. exact Hnd. }
    cbn [fmap list_fmap map] in Hnd'.
    change (NoDup ([c1; c2; c3; c4]
                   ++ map (fun r => shaban (rider r)) rest)) in Hnd'.
    apply NoDup_app in Hnd' as [Hnd' _]. exact Hnd'. }
  apply Forall_cons in Hpos as [H1 Hpos].
  apply Forall_cons in Hpos as [H2 Hpos].
  apply Forall_cons in Hpos as [H3 Hpos].
  apply Forall_cons in Hpos as [H4 _].
  apply NoDup_cons in Hdist as [N1 Hdist].
  apply NoDup_cons in Hdist as [N2 Hdist].
  apply NoDup_cons in Hdist as [N3 _].
  assert (D12 : c2 <> c1) by (intros E; apply N1; rewrite E; left).
  assert (D13 : c3 <> c1)
    by (intros E; apply N1; rewrite E; right; left).
  assert (D14 : c4 <> c1)
    by (intros E; apply N1; rewrite E; right; right; left).
  assert (D23 : c3 <> c2) by (intros E; apply N2; rewrite E; left).
  assert (D24 : c4 <> c2)
    by (intros E; apply N2; rewrite E; right; left).
  assert (D34 : c4 <> c3) by (intros E; apply N3; rewrite E; left).
  eexists. eexists. split; [reflexivity|].
  (* the 3連単 ticket *)
  pose proof (hyphen_trifecta_settled set_order top3 payouts []
                [c1] [c2; c3] [c2; c3; c4]
                ltac:(discriminate) ltac:(discriminate) ltac:(discriminate)
                ltac:(repeat constructor; assumption)
                ltac:(repeat constructor; assumption)
                ltac:(repeat constructor; assumption)) as H3t.
  cbv zeta in H3t. destruct H3t as (_ & Hc3 & Hi3).
  (* the 2車単 ticket *)
  pose proof (exacta_arrow_settled set_order top3 payouts (str_of_Z c1)
                (join (py ",") (map str_of_Z [c2; c3; c4]))
                (proj1 (str_of_Z_digits c1 H1))
                (join_numbers_clean [c2; c3; c4] ltac:(discriminate)
                   ltac:(repeat constructor; assumption))) as H2t.
  assert (Htail : forall c, In c [58%N; 8594%N; 8596%N; 36899%N] ->
            ~ In c (join (py ",") (map str_of_Z [c2; c3; c4]))).
  { intros c Hc. apply numbers_lack;
      [repeat constructor; assumption | |];
      destruct Hc as [<- | [<- | [<- | [<- | []]]]];
      (reflexivity || discriminate). }
  specialize (H2t Htail). cbv zeta in H2t.
  rewrite (p_part_numbers [c2; c3; c4]) in H2t;
    [|discriminate | repeat constructor; assumption].
  rewrite (expand2_numbers c1 [c2; c3; c4] H1) in H2t
    by (repeat constructor; assumption).
  destruct H2t as (_ & Hc2 & Hi2 & _).
  assert (Ef : List.filter (fun x => negb (x =? c1)%Z) [c2; c3; c4]
               = [c2; c3; c4]).
  { cbn [List.filter].
    rewrite (proj2 (Z.eqb_neq c2 c1) D12), (proj2 (Z.eqb_neq c3 c1) D13),
      (proj2 (Z.eqb_neq c4 c1) D14). reflexivity. }
  rewrite Ef in Hc2, Hi2.
  assert (Etri : classic_trifecta_bets [c1] [c2; c3] [c2; c3; c4]
                 = [mkBet TT_3rentan [c1] [c2] [c3] 100
                      (py "3連単: " ++ str_of_Z c1 ++ py "-" ++ str_of_Z c2
                       ++ py "-" ++ str_of_Z c3);
                    mkBet TT_3rentan [c1] [c2] [c4] 100
                      (py "3連単: " ++ str_of_Z c1 ++ py "-" ++ str_of_Z c2
                       ++ py "-" ++ str_of_Z c4);
                    mkBet TT_3rentan [c1] [c3] [c2] 100
                      (py "3連単: " ++ str_of_Z c1 ++ py "-" ++ str_of_Z c3
                       ++ py "-" ++ str_of_Z c2);
                    mkBet TT_3rentan [c1] [c3] [c4] 100
                      (py "3連単: " ++ str_of_Z c1 ++ py "-" ++ str_of_Z c3
                       ++ py "-" ++ str_of_Z c4)]).
  { unfold classic_trifecta_bets. cbn [flat_map].
    rewrite (proj2 (Z.eqb_neq c2 c1) D12), (proj2 (Z.eqb_neq c3 c1) D13),
      (proj2 (Z.eqb_neq c4 c1) D14), (proj2 (Z.eqb_neq c3 c2) D23),
      (proj2 (Z.eqb_neq c4 c2) D24), (proj2 (Z.eqb_neq c4 c3) D34),
      (proj2 (Z.eqb_neq c2 c3) (not_eq_sym D23)), !Z.eqb_refl.
    reflexivity. }
  rewrite Etri in Hc3, Hi3.
  change (py "3連単: " ++ str_of_Z c1 ++ py " - "
          ++ (str_of_Z c2 ++ py "," ++ str_of_Z c3) ++ py " - "
          ++ str_of_Z c2 ++ py "," ++ str_of_Z c3 ++ py "," ++ str_of_Z c4)
    with (py "3連単" ++ [] ++ py ": "
          ++ join (py ",") (map str_of_Z [c1]) ++ py " - "
          ++ join (py ",") (map str_of_Z [c2; c3]) ++ py " - "
          ++ join (py ",") (map str_of_Z [c2; c3; c4])).
  change (py "2車単: " ++ str_of_Z c1 ++ py " → " ++ str_of_Z c2 ++ py ","
          ++ str_of_Z c3 ++ py "," ++ str_of_Z c4)
    with (t_2shatan ++ str_of_Z c1 ++ t_arrow
          ++ join (py ",") (map str_of_Z [c2; c3; c4])).
  rewrite Hc2, Hc3, Hi2, Hi3 by discriminate. rewrite Etri.
  split; [reflexivity|]. split; reflexivity.
Qed.

Lemma classic_strategy_is_charged_what_it_lists_witness :
  exists tickets bets w name,
    generate_classic_strategy example_scored None None
    = Classic_custom tickets bets w name
    /\ Zsum (map bet_amount bets) = 700%Z.
Proof.
  do 4 eexists. split; [vm_compute; reflexivity|].
  edestruct (classic_strategy_is_charged_what_it_lists first_seen_order
               [py "1"; py "2"; py "3"] ∅ example_scored None None)
    as (t3 & t2 & _ & _ & _ & H).
  - repeat constructor; vm_compute; discriminate.
  - vm_compute.
    repeat (apply NoDup_cons_2;
            [rewrite ?elem_of_cons, elem_of_nil; lia|]).
    apply NoDup_nil_2.
  - vm_compute. reflexivity.
  - exact H.
Defined.

(** * The special bonus strategy *)







(** The flow candidates: at most four cars of the frame, none of them
    the axis. *)
Lemma flow_loop_spec (c_axis : Z) (df_score : list Scored) (acc : list Z) :
  (length acc < 4)%nat ->
  let flow := flow_loop c_axis df_score acc in
  (length flow <= 4)%nat
  /\ forall x, In x flow ->
       In x acc
       \/ (x <> c_axis
           /\ exists r, In r df_score /\ shaban (rider r) = x).
Proof.
  revert acc. induction df_score as [|row rest IH]; intros acc Hlen;
    cbn [flow_loop].
  - split; [lia | intros x Hx; left; exact Hx].
  - destruct (negb (shaban (rider row) =? c_axis)%Z) eqn:E.
    + apply negb_true_iff, Z.eqb_neq in E.
      destruct (4 <=? length (acc ++ [shaban (rider row)]))%nat eqn:E4.
      * split; [rewrite length_app; simpl; lia|].
        intros x Hx. apply in_app_or in Hx as [Hx | [<- | []]];
          [left; exact Hx|].
        right. split; [exact E|]. exists row. split; [left|]; reflexivity.
      * apply Nat.leb_gt in E4.
        destruct (IH (acc ++ [shaban (rider row)]) E4) as [H1 H2].
        split; [exact H1|]. intros x Hx.
        destruct (H2 x Hx) as [Hin | (Hne & r & Hr & Er)].
        -- apply in_app_or in Hin as [Hin | [<- | []]];
             [left; exact Hin|].
           right. split; [exact E|]. exists row.
           split; [left|]; reflexivity.
        -- right. split; [exact Hne|]. exists r.
           split; [right; exact Hr | exact Er].
    + assert (E4 : (4 <=? length acc)%nat = false)
        by (apply Nat.leb_gt; exact Hlen).
      rewrite E4. destruct (IH acc Hlen) as [H1 H2].
      split; [exact H1|]. intros x Hx.
      destruct (H2 x Hx) as [Hin | (Hne & r & Hr & Er)];
        [left; exact Hin|].
      right. split; [exact Hne|]. exists r.
      split; [right; exact Hr | exact Er].
Qed.


(** * The partner of a rider in its line *)








(** * The signals of a race *)

Lemma Qsum_between (lo hi : Q) (l : list Q) :
  Forall (fun x => lo <= x /\ x <= hi) l ->
  inject_Z (Z.of_nat (length l)) * lo <= Qsum l
  /\ Qsum l <= inject_Z (Z.of_nat (length l)) * hi.
Proof.
  unfold Qsum. intros H.
  enough (G : forall a,
             a + inject_Z (Z.of_nat (length l)) * lo <= fold_left Qplus l a
             /\ fold_left Qplus l a
                <= a + inject_Z (Z.of_nat (length l)) * hi).
  { destruct (G 0) as [G1 G2]. split; lra. }
  induction H as [|x l [Hlo Hhi] _ IH]; intros a.
  - simpl. split; ring_simplify; apply Qle_refl.
  - cbn [fold_left]. destruct (IH (a + x)) as [IH1 IH2].
    rewrite length_cons, Nat2Z.inj_succ, <- Z.add_1_r, inject_Z_plus.
    change (inject_Z 1) with 1. split; lra.
Qed.

Lemma mean_between (lo hi : Q) (l : list Q) :
  l <> [] -> Forall (fun x => lo <= x /\ x <= hi) l ->
  lo <= mean l /\ mean l <= hi.
Proof.
  intros Hne H. destruct (Qsum_between lo hi l H) as [H1 H2].
  assert (Hn : 0 < inject_Z (Z.of_nat (length l))).
  { change 0 with (inject_Z 0). rewrite <- Zlt_Qlt.
    destruct l; [congruence | simpl; lia]. }
  unfold mean. split.
  - apply Qle_shift_div_l; [exact Hn | lra].
  - apply Qle_shift_div_r; [exact Hn | lra].
Qed.

(** The variance is at most the square of the range. *)
Lemma variance_le_range (lo hi : Q) (l : list Q) :
  l <> [] -> Forall (fun x => lo <= x /\ x <= hi) l ->
  variance l <= (hi - lo) * (hi - lo).
Proof.
  intros Hne H. destruct (mean_between lo hi l Hne H) as [M1 M2].
  unfold variance.
  apply (mean_between 0 ((hi - lo) * (hi - lo))).
  - destruct l; [congruence | discriminate].
  - apply Forall_forall. intros y Hy. apply list_elem_of_In in Hy.
    apply in_map_iff in Hy as (x & <- & Hx).
    rewrite Forall_forall in H.
    destruct (H x (proj2 (list_elem_of_In _ _) Hx)) as [X1 X2].
    set (d := x - mean l). set (r := hi - lo).
    assert (D1 : - r <= d) by (subst d r; lra).
    assert (D2 : d <= r) by (subst d r; lra).
    split.
    + destruct (Qlt_le_dec d 0) as [Hd | Hd].
      * assert (G : 0 <= (- d) * (- d))
          by (apply Qmult_le_0_compat; lra).
        assert (E : d * d == (- d) * (- d)) by ring.
        rewrite E. exact G.
      * apply Qmult_le_0_compat; exact Hd.
    + assert (G : 0 <= (r - d) * (r + d))
        by (apply Qmult_le_0_compat; lra).
      assert (E : r * r == (r - d) * (r + d) + d * d) by ring.
      rewrite E. lra.
Qed.

Lemma sorted_last_min (l : list Q) :
  StronglySorted (fun a b => b <= a) l ->
  Forall (fun x => List.last l 0 <= x) l.
Proof.
  induction 1 as [|x l Hl IH Hx]; [constructor|].
  destruct l as [|y l'].
  - constructor; [apply Qle_refl | constructor].
  - change (List.last (x :: y :: l') 0) with (List.last (y :: l') 0).
    constructor; [|exact IH].
    rewrite Forall_forall in Hx.
    apply Hx. apply list_elem_of_In.
    destruct (exists_last (l := y :: l')) as (l0 & a & E); [discriminate|].
    rewrite E, last_last. apply in_or_app. right. left. reflexivity.
Qed.

Lemma gaps_of_length (l : list Q) : length (gaps_of l) = (length l - 1)%nat.
Proof.
  induction l as [|a [|b r] IH]; try reflexivity.
  change (gaps_of (a :: b :: r)) with ((a - b) :: gaps_of (b :: r)).
  cbn [length] in *. lia.
Qed.

Lemma argmax_from_lt (best : Q) (best_i i : nat) (l : list Q) :
  (best_i < i)%nat -> (argmax_from best best_i i l < i + length l)%nat.
Proof.
  revert best best_i i. induction l as [|x r IH]; intros best best_i i H;
    cbn [argmax_from length]; [lia|].
  destruct (Qltb best x).
  - specialize (IH x i (S i)). lia.
  - specialize (IH best best_i (S i)). lia.
Qed.

Lemma argmax_lt (l : list Q) : l <> [] -> (argmax l < length l)%nat.
Proof.
  destruct l as [|x r]; [congruence|]. intros _. unfold argmax.
  pose proof (argmax_from_lt x 0 1 r). cbn [length]. lia.
Qed.

Lemma signals_exclusive (b1 b2 b3 b4 b5 b6 b7 : bool) :
  (b7 = true -> b3 = false) -> (b7 = true -> b6 = false) ->
  let signals :=
    (if b1 then [Sig_teppan] else if b2 then [Sig_honmei] else [])
    ++ (if b3 then [Sig_dansou] else [])
    ++ (if b4 then [Sig_one_strong] else if b5 then [Sig_konsen] else [])
    ++ (if b6 then [Sig_juntou] else [])
    ++ (if b7 then [Sig_daikonsen] else []) in
  (In Sig_daikonsen signals ->
   ~ In Sig_dansou signals /\ ~ In Sig_juntou signals)
  /\ (In Sig_konsen signals -> b4 = false /\ b5 = true)
  /\ (In Sig_teppan signals -> ~ In Sig_honmei signals)
  /\ (In Sig_one_strong signals -> ~ In Sig_konsen signals)
  /\ List.NoDup signals.
Proof.
  intros H3 H6.
  destruct b7; [rewrite H3, H6 by reflexivity|];
    destruct b1, b2, b4, b5; try destruct b3; try destruct b6;
    cbn [app In];
    (split; [|split; [|split; [|split]]]);
    try (repeat constructor; cbn [In]; intuition discriminate);
    intuition (try discriminate; try congruence).
Qed.

(** [calculate_advanced_metrics] gives the empty dictionary exactly when
    the rating column is missing or fewer than three ratings are
    numbers.  Otherwise the gap between the two best ratings is not
    negative, no signal is listed twice, "☠大混戦" excludes "★断層あり"
    and "○順当傾向", "★鉄板" excludes "◎本命", "★1強" excludes "⚠混戦",
    and "⚠混戦" needs at least six numeric ratings. *)
Theorem advanced_metrics_signals (df_race : DataFrame) :
  let n := length (omap kyoso_tokuten (rows df_race)) in
  match calculate_advanced_metrics df_race with
  | None => has_col C_kyoso_tokuten df_race = false \/ (n < 3)%nat
  | Some m =>
      has_col C_kyoso_tokuten df_race = true /\ (3 <= n)%nat
      /\ 0 <= score_diff_1_2 m
      /\ (In Sig_daikonsen (signals m) ->
          ~ In Sig_dansou (signals m) /\ ~ In Sig_juntou (signals m))
      /\ (In Sig_konsen (signals m) -> (6 <= n)%nat)
      /\ (In Sig_teppan (signals m) -> ~ In Sig_honmei (signals m))
      /\ (In Sig_one_strong (signals m) -> ~ In Sig_konsen (signals m))
      /\ List.NoDup (signals m)
  end.
Proof.
  cbv zeta. unfold calculate_advanced_metrics.
  destruct (has_col C_kyoso_tokuten df_race); cbn [negb];
    [|left; reflexivity].
  unfold numeric_scores.
  pose proof (sort_desc_length (fun a b : Q => Qltb b a)
                (omap kyoso_tokuten (rows df_race))) as Hlen.
  pose proof (sort_desc_sorted (fun x : Q => x)
                (omap kyoso_tokuten (rows df_race))) as Hsorted.
  cbv beta in Hsorted.
  destruct (sort_desc (fun a b : Q => Qltb b a)
              (omap kyoso_tokuten (rows df_race)))
    as [|s0 [|s1 [|s2 rest]]] eqn:Es;
    try (right; cbn [length] in Hlen; lia).
  rewrite <- Hlen. cbv zeta. cbn [score_diff_1_2 signals].
  set (scores := s0 :: s1 :: s2 :: rest) in *.
  assert (Hmin : Forall (fun x => List.last scores 0 <= x) scores)
    by (apply sorted_last_min, Hsorted).
  assert (Hmax : Forall (fun x => x <= s0) scores).
  { apply StronglySorted_inv in Hsorted as [_ Hs].
    constructor; [apply Qle_refl | exact Hs]. }
  assert (H01 : s1 <= s0).
  { rewrite Forall_forall in Hmax. apply Hmax. right. left. }
  assert (Hrange : 0 <= s0 - List.last scores 0).
  { rewrite Forall_forall in Hmin.
    specialize (Hmin s0 ltac:(left)). lra. }
  assert (Htrim : List.last scores 0 <= nth (length scores - 2) scores 0).
  { rewrite Forall_forall in Hmin. apply Hmin, list_elem_of_In, nth_In.
    subst scores. cbn [length]. lia. }
  assert (Hvar : variance scores
                 <= (s0 - List.last scores 0) * (s0 - List.last scores 0)).
  { apply variance_le_range; [discriminate|].
    apply Forall_forall. intros x Hx.
    rewrite Forall_forall in Hmin, Hmax. split; [apply Hmin | apply Hmax];
      exact Hx. }
  assert (Hgaps : (argmax (gaps_of scores) < length scores - 1)%nat).
  { rewrite <- gaps_of_length. apply argmax_lt.
    subst scores. discriminate. }
  split; [reflexivity|]. split; [subst scores; cbn [length]; lia|].
  split; [lra|].
  match goal with
  | |- context [(if ?b1 then [Sig_teppan] else if ?b2 then _ else _)
                ++ (if ?b3 then _ else _)
                ++ (if ?b4 then _ else if ?b5 then _ else _)
                ++ (if ?b6 then _ else _) ++ (if ?b7 then _ else _)] =>
      pose proof (signals_exclusive b1 b2 b3 b4 b5 b6 b7) as Hsig;
      assert (H5 : b5 = true -> (6 <= length scores)%nat)
  end.
  { intros H. apply Nat.ltb_lt in H. lia. }
  cbv zeta in Hsig.
  destruct Hsig as (S1 & S2 & S3 & S4 & S5).
  - intros H. apply Qltb_true in H.
    apply not_true_iff_false. rewrite Qltb_true. lra.
  - intros H. apply Qltb_true in H.
    apply andb_false_iff. left.
    apply not_true_iff_false. rewrite Qleb_true. nra.
  - split; [exact S1|]. split; [|split; [exact S3 | split; [exact S4|exact S5]]].
    intros H. apply S2 in H as [_ H]. apply H5, H.
Qed.

(** * The line string: writing and reading back *)

Lemma split_ws_aux_word (w cur rest : pystr) :
  Forall (fun c => isspace c = false) w ->
  split_ws_aux cur (w ++ rest) = split_ws_aux (rev w ++ cur) rest.
Proof.
  revert cur. induction w as [|c w IH]; intros cur H; [reflexivity|].
  apply Forall_cons in H as [Hc Hw].
  cbn [app split_ws_aux]. rewrite Hc, (IH _ Hw).
  cbn [rev]. rewrite <- app_assoc. reflexivity.
Qed.

Lemma split_ws_join (ws : list pystr) :
  Forall (fun w => w <> [] /\ Forall (fun c => isspace c = false) w) ws ->
  split_ws (join (py " ") ws) = ws.
Proof.
  unfold split_ws. induction 1 as [|w ws [Hne Hw] Hws IH]; [reflexivity|].
  assert (Hrev : rev w <> []).
  { intros E. apply (f_equal (@rev N)) in E. rewrite rev_involutive in E.
    exact (Hne E). }
  destruct ws as [|w' ws'].
  - cbn [join]. rewrite <- (app_nil_r w) at 1.
    rewrite (split_ws_aux_word w [] [] Hw), app_nil_r.
    cbn [split_ws_aux]. destruct (rev w) eqn:E; [congruence|].
    rewrite <- E, rev_involutive. reflexivity.
  - change (join (py " ") (w :: w' :: ws'))
      with (w ++ 32%N :: join (py " ") (w' :: ws')).
    rewrite (split_ws_aux_word w [] _ Hw), app_nil_r.
    cbn [split_ws_aux]. change (isspace 32) with true. cbv iota.
    destruct (rev w) eqn:E; [congruence|].
    rewrite <- E, rev_involutive, IH. reflexivity.
Qed.

Lemma str_of_Z_one_digit (c : Z) :
  (0 <= c <= 9)%Z -> str_of_Z c = [(Z.to_N c + 48)%N].
Proof.
  intros H.
  assert (E : (c = 0 \/ c = 1 \/ c = 2 \/ c = 3 \/ c = 4 \/ c = 5
               \/ c = 6 \/ c = 7 \/ c = 8 \/ c = 9)%Z) by lia.
  repeat (destruct E as [-> | E]; [reflexivity|]). subst c. reflexivity.
Qed.

Lemma concat_one_digit (l : list Z) :
  Forall (fun c => (0 <= c <= 9)%Z) l ->
  concat (map str_of_Z l) = map (fun c => (Z.to_N c + 48)%N) l.
Proof.
  induction 1 as [|c l Hc _ IH]; [reflexivity|].
  cbn [map concat]. rewrite IH, (str_of_Z_one_digit c Hc). reflexivity.
Qed.

Lemma line_members_one_digit (l : list Z) :
  Forall (fun c => (0 <= c <= 9)%Z) l ->
  line_members (map (fun c => (Z.to_N c + 48)%N) l) = l.
Proof.
  unfold line_members. induction 1 as [|c l Hc _ IH]; [reflexivity|].
  cbn [map List.filter].
  assert (Hd : isdigit (Z.to_N c + 48) = true).
  { unfold isdigit. apply andb_true_iff. split; apply N.leb_le; lia. }
  rewrite Hd. cbn [map]. rewrite IH. f_equal. lia.
Qed.

(** The line string that [lines_to_str] writes is read back by the
    scoring engine and by the partner logic as the lines it was written
    from, when no line is empty and every car number has one digit. *)
Theorem line_string_round_trip (lines : list (list Z)) :
  Forall (fun l => l <> [] /\ Forall (fun c => (0 <= c <= 9)%Z) l) lines ->
  map line_members (split_ws (lines_to_str lines)) = lines.
Proof.
  intros H. unfold lines_to_str.
  assert (E : split_ws
                (join (py " ") (map (fun l => concat (map str_of_Z l)) lines))
              = map (fun l => concat (map str_of_Z l)) lines).
  { apply split_ws_join. apply Forall_forall. intros w Hw.
    apply list_elem_of_In, in_map_iff in Hw as (l & <- & Hl).
    rewrite Forall_forall in H.
    destruct (H l (proj2 (list_elem_of_In _ _) Hl)) as [Hne Hd].
    rewrite (concat_one_digit l Hd). split.
    - destruct l; [congruence | discriminate].
    - apply Forall_forall. intros c Hc.
      apply list_elem_of_In, in_map_iff in Hc as (z & <- & Hz).
      rewrite Forall_forall in Hd.
      specialize (Hd z (proj2 (list_elem_of_In _ _) Hz)).
      assert (Ez : (z = 0 \/ z = 1 \/ z = 2 \/ z = 3 \/ z = 4 \/ z = 5
                    \/ z = 6 \/ z = 7 \/ z = 8 \/ z = 9)%Z) by lia.
      repeat (destruct Ez as [-> | Ez]; [reflexivity|]). subst z.
      reflexivity. }
  destruct lines as [|l0 ls]; [reflexivity|].
  rewrite E, map_map. rewrite <- (map_id (l0 :: ls)) at 2.
  apply map_ext_in. intros l Hl. rewrite Forall_forall in H.
  destruct (H l (proj2 (list_elem_of_In _ _) Hl)) as [_ Hd].
  rewrite (concat_one_digit l Hd). apply line_members_one_digit, Hd.
Qed.

Lemma line_string_round_trip_witness :
  lines_to_str [[1; 2; 3]; [4; 5]; [6]]%Z = py "123 45 6"
  /\ map line_members (split_ws (lines_to_str [[1; 2; 3]; [4; 5]; [6]]%Z))
     = [[1; 2; 3]; [4; 5]; [6]]%Z.
Proof.
  split; [vm_compute; reflexivity|].
  apply line_string_round_trip.
  repeat (apply Forall_cons_2;
          [split; [discriminate|];
           repeat (apply Forall_cons_2; [lia|]); apply Forall_nil_2|]).
  apply Forall_nil_2.
Defined.

(** A car number of two digits does not survive: the reader takes every
    digit for a car. *)
Lemma two_digit_car_is_split :
  map line_members (split_ws (lines_to_str [[10; 2]]%Z)) = [[1; 0; 2]]%Z.
Proof. vm_compute. reflexivity. Qed.

(** * The special bonus strategy: settlement of its ordered tickets *)

Lemma Bonus_special_inj (t t' : list pystr) (a a' : Z) (n n' : pystr)
    (b b' : Q) (c c' : Confidence) (f f' : list Z) :
  Bonus_special t a n b c f = Bonus_special t' a' n' b' c' f' ->
  t = t' /\ a = a' /\ f = f'.
Proof. intros H. injection H as -> -> _ _ _ ->. repeat split. Qed.

Lemma filter_truthy_two (l : list Z) :
  List.filter truthy [l !! 0%nat; l !! 1%nat]
  = map Some (row_cars (take 2 l)).
Proof.
  unfold row_cars. destruct l as [|a [|b l]]; cbn; try reflexivity.
  - destruct (a =? 0)%Z; reflexivity.
  - destruct (a =? 0)%Z, (b =? 0)%Z; reflexivity.
Qed.

Lemma filter_truthy_four (l : list Z) :
  (length l <= 4)%nat ->
  List.filter truthy [l !! 0%nat; l !! 1%nat; l !! 2%nat; l !! 3%nat]
  = map Some (row_cars l).
Proof.
  unfold row_cars. intros H.
  destruct l as [|a [|b [|c [|d [|e l]]]]]; cbn [length] in H; try lia; cbn;
    repeat match goal with
           | |- context [(?x =? 0)%Z] => destruct (x =? 0)%Z; cbn
           end; reflexivity.
Qed.

Lemma trifecta_bets_spec (hs ss ts : list Z) (cm : list pystr) :
  In cm (map bet_combination (classic_trifecta_bets hs ss ts)) ->
  exists h s t,
    In h hs /\ In s ss /\ In t ts /\ s <> h /\ t <> h /\ t <> s
    /\ cm = [str_of_Z h; str_of_Z s; str_of_Z t].
Proof.
  intros H. apply in_map_iff in H as (b & <- & H).
  unfold classic_trifecta_bets in H.
  apply in_flat_map in H as (h & Hh & H).
  apply in_flat_map in H as (s & Hs & H).
  destruct (s =? h)%Z eqn:Esh; [destruct H|].
  apply in_flat_map in H as (t & Ht & H).
  destruct ((t =? h)%Z || (t =? s)%Z) eqn:Et; [destruct H|].
  destruct H as [<- | []].
  apply orb_false_iff in Et as [Eth Ets].
  apply Z.eqb_neq in Esh, Eth, Ets.
  exists h, s, t. repeat split; assumption.
Qed.

(** The tickets of a bonus strategy are the four of the formation on the
    axis, or none; the flow candidates are cars of the race other than the
    axis. *)
Lemma bonus_special_tickets (pred_df : ScoredFrame) (tickets : list pystr)
    (axis : Z) (name : pystr) (bv : Q) (conf : Confidence) (flow : list Z) :
  generate_bonus_strategy pred_df
  = Bonus_special tickets axis name bv conf flow ->
  (exists r, In r (sf_rows pred_df) /\ shaban (rider r) = axis)
  /\ Forall (fun x => x <> axis
               /\ exists r, In r (sf_rows pred_df) /\ shaban (rider r) = x)
       flow
  /\ (tickets <> [] ->
      row_cars (take 2 flow) <> [] /\ row_cars flow <> []
      /\ tickets
         = [py "3連単" ++ py " (フォーメーション)" ++ py ": "
              ++ join (py ",") (map str_of_Z [axis]) ++ py " - "
              ++ join (py ",") (map str_of_Z (row_cars (take 2 flow)))
              ++ py " - " ++ join (py ",") (map str_of_Z (row_cars flow));
            t_2shatan ++ str_of_Z axis ++ t_arrow
              ++ join (py ",") (map str_of_Z (row_cars (take 2 flow)));
            py "3連複: " ++ str_of_Z axis ++ py " - "
              ++ fmt_car (flow !! 0%nat) ++ py " - "
              ++ fmt_car (flow !! 1%nat) ++ py ","
              ++ fmt_car (flow !! 2%nat);
            py "ワイド: " ++ str_of_Z axis ++ py " = "
              ++ fmt_car (flow !! 0%nat) ++ py ","
              ++ fmt_car (flow !! 1%nat)]).
Proof.
  unfold generate_bonus_strategy.
  destruct (sf_rows pred_df) as [|r0 rs] eqn:Er; [discriminate|].
  rewrite <- Er.
  destruct (negb (sf_tagged pred_df)); [discriminate|].
  cbv zeta.
  destruct (Qleb _ 0); [discriminate|].
  set (gt := fun a b : Scored => Qltb (bonus b) (bonus a)).
  pose proof (sort_desc_Permutation gt (sf_rows pred_df)) as Hperm.
  destruct (sort_desc gt (sf_rows pred_df)) as [|p_axis rest];
    [discriminate|].
  set (df_score := sort_desc _ (sf_rows pred_df)).
  destruct (flow_loop_spec (shaban (rider p_axis)) df_score []
              ltac:(simpl; lia)) as [Hl Hflow].
  intros E. apply Bonus_special_inj in E as (Et & Ea & Ef).
  rewrite Ef in Et, Hl, Hflow. rewrite Ea in Et, Hflow. clear Ef.
  split.
  { exists p_axis. split; [|exact Ea].
    apply list_elem_of_In. rewrite <- Hperm. left. }
  split.
  { apply Forall_forall. intros x Hx. apply list_elem_of_In in Hx.
    destruct (Hflow x Hx) as [[] | (Hx1 & r & Hr & Ex)].
    split; [exact Hx1|]. exists r. split; [|exact Ex].
    subst df_score. apply list_elem_of_In in Hr.
    rewrite sort_desc_Permutation in Hr. apply list_elem_of_In, Hr. }
  rewrite filter_truthy_two in Et.
  rewrite filter_truthy_four in Et by exact Hl.
  rewrite !join_cars_Some in Et.
  intros Hne.
  destruct (row_cars (take 2 flow)) as [|a l2] eqn:E2.
  { cbn [map] in Et. exfalso. apply Hne. symmetry. exact Et. }
  destruct (row_cars flow) as [|b l4] eqn:E4.
  { cbn [map] in Et. exfalso. apply Hne. symmetry. exact Et. }
  split; [discriminate|]. split; [discriminate|].
  rewrite <- Et. reflexivity.
Qed.

(** The two ordered tickets of a bonus strategy, as the settlement reads
    them.  The 2車単 ticket is expanded into one combination (axis, x) for
    each car x of the second row, is charged 100 for each, and is a hit
    exactly when the axis finishes first and a car of the second row
    second.  Every combination of the 3連単 formation is the axis, a car
    of the second row and another car of the third row. *)
Theorem bonus_ordered_tickets_are_settled_on_the_axis
    (set_order : list pystr -> list pystr) (top3 : list pystr)
    (payouts : gmap PayKey Q) (pred_df : ScoredFrame)
    (tickets : list pystr) (axis : Z) (name : pystr) (bv : Q)
    (conf : Confidence) (flow : list Z) :
  Forall (fun r => (0 <= shaban (rider r))%Z) (sf_rows pred_df) ->
  generate_bonus_strategy pred_df
  = Bonus_special tickets axis name bv conf flow ->
  tickets <> [] ->
  let second := row_cars (take 2 flow) in
  let third := row_cars flow in
  exists t3 t2 t3f tw,
    tickets = [t3; t2; t3f; tw]
    /\ second <> []
    /\ (let r := settle_ticket set_order top3 payouts t2 in
        tk_type r = TT_2shatan
        /\ tk_combinations r
           = map (fun x => [str_of_Z axis; str_of_Z x]) second
        /\ tk_invest r = (Z.of_nat (length second) * 100)%Z
        /\ (tk_hit r = true
            <-> exists x, In x second
                  /\ top3 !! 0%nat = Some (str_of_Z axis)
                  /\ top3 !! 1%nat = Some (str_of_Z x)))
    /\ (let r := settle_ticket set_order top3 payouts t3 in
        tk_type r = TT_3rentan
        /\ Forall (fun cm => exists s t,
                     In s second /\ In t third /\ s <> t
                     /\ cm = [str_of_Z axis; str_of_Z s; str_of_Z t])
             (tk_combinations r)
        /\ (tk_combinations r <> [] ->
            tk_invest r
            = (Z.of_nat (length (tk_combinations r)) * 100)%Z)).
Proof.
  intros Hcars Hs Hne. cbv zeta.
  destruct (bonus_special_tickets _ _ _ _ _ _ _ Hs)
    as ((ra & Hra & Ea) & Hflow & Ht).
  destruct (Ht Hne) as (N2 & N4 & ->). clear Ht.
  assert (Haxis : (0 <= axis)%Z).
  { rewrite <- Ea. rewrite Forall_forall in Hcars.
    apply Hcars, list_elem_of_In, Hra. }
  assert (Hrow : forall l, (forall x, In x l -> In x flow) ->
            Forall (fun x => (0 <= x)%Z) (row_cars l)
            /\ ~ In axis (row_cars l)).
  { intros l Hl. split.
    - apply Forall_forall. intros x Hx. apply list_elem_of_In in Hx.
      apply filter_In in Hx as [Hx _]. apply Hl in Hx.
      rewrite Forall_forall in Hflow.
      destruct (Hflow x (proj2 (list_elem_of_In _ _) Hx))
        as (_ & r & Hr & <-).
      rewrite Forall_forall in Hcars. apply Hcars, list_elem_of_In, Hr.
    - intros Hx. apply filter_In in Hx as [Hx _]. apply Hl in Hx.
      rewrite Forall_forall in Hflow.
      destruct (Hflow axis (proj2 (list_elem_of_In _ _) Hx)) as (Hx1 & _).
      congruence. }
  destruct (Hrow (take 2 flow)) as [P2 A2].
  { intros x Hx. apply list_elem_of_In in Hx.
    apply list_elem_of_In. rewrite <- (take_drop 2 flow).
    apply elem_of_app. left. exact Hx. }
  destruct (Hrow flow (fun x H => H)) as [P4 A4].
  do 4 eexists. split; [reflexivity|]. split; [exact N2|]. split.
  - apply arrow_exacta_numbers_settled; assumption.
  - pose proof (hyphen_trifecta_settled set_order top3 payouts
                  (py " (フォーメーション)") [axis] (row_cars (take 2 flow))
                  (row_cars flow) ltac:(discriminate) N2 N4
                  ltac:(repeat constructor; assumption) P2 P4) as H3.
    cbv zeta in H3. destruct H3 as (Hty & Hc & Hi).
    split; [exact Hty|]. rewrite Hc. split; [|exact Hi].
    apply Forall_forall. intros cm Hcm. apply list_elem_of_In in Hcm.
    apply trifecta_bets_spec in Hcm
      as (h & s & t & Hh & Hs2 & Ht & _ & _ & Hts & ->).
    destruct Hh as [<- | []].
    exists s, t. repeat split; try assumption. congruence.
Qed.

Lemma bonus_ordered_tickets_are_settled_on_the_axis_witness :
  exists tickets name bv conf,
    generate_bonus_strategy maebashi_scored
    = Bonus_special tickets 1 name bv conf [2; 3; 4; 5]%Z
    /\ exists t3 t2 t3f tw,
         tickets = [t3; t2; t3f; tw]
         /\ tk_invest (settle_ticket first_seen_order
                         [py "1"; py "2"; py "3"] ∅ t2) = 200%Z.
Proof.
  do 4 eexists. split; [vm_compute; reflexivity|].
  edestruct (bonus_ordered_tickets_are_settled_on_the_axis first_seen_order
               [py "1"; py "2"; py "3"] ∅ maebashi_scored)
    as (t3 & t2 & t3f & tw & E & _ & (_ & _ & H & _) & _).
  - repeat constructor; vm_compute; discriminate.
  - vm_compute. reflexivity.
  - discriminate.
  - exists t3, t2, t3f, tw. split; [exact E | exact H].
Defined.

(** * The formation tickets of TEPPAN, STANDARD and CHAOS *)

Ltac decide_cars :=
  repeat match goal with
         | |- context [(?a =? ?b)%Z] =>
             destruct (Z.eqb_spec a b); [try (exfalso; lia) | try (exfalso; lia)]
         | |- context [bool_decide (_ = _)] =>
             case_bool_decide;
             [try (exfalso; congruence) | try (exfalso; congruence)]
         end;
  cbn [negb andb orb].

Ltac formation_text :=
  do 5 (apply (f_equal2 (@app N)); [reflexivity|]);
  apply (f_equal join_cars); cbn [List.filter truthy map];
  decide_cars; reflexivity.

(** The settlement of a formation ticket of car numbers. *)
Lemma formation_settled (set_order : list pystr -> list pystr)
    (top3 : list pystr) (payouts : gmap PayKey Q) (hs ss ts : list Z) :
  hs <> [] -> ss <> [] -> ts <> [] ->
  Forall (fun x => (0 <= x)%Z) hs -> Forall (fun x => (0 <= x)%Z) ss ->
  Forall (fun x => (0 <= x)%Z) ts ->
  let r := settle_ticket set_order top3 payouts
             (t_formation ++ join_cars (map Some hs) ++ t_dash
              ++ join_cars (map Some ss) ++ t_dash
              ++ join_cars (map Some ts)) in
  let combinations := map bet_combination (classic_trifecta_bets hs ss ts) in
  tk_combinations r = combinations
  /\ (combinations <> [] ->
      tk_invest r = (Z.of_nat (length combinations) * 100)%Z).
Proof.
  intros Nh Ns Nt Hh Hs Ht. rewrite !join_cars_Some.
  pose proof (hyphen_trifecta_settled set_order top3 payouts
                (py " (フォーメーション)") hs ss ts Nh Ns Nt Hh Hs Ht) as H.
  cbv zeta in H. destruct H as (_ & Hc & Hi).
  cbv zeta. split; [exact Hc | exact Hi].
Qed.

Lemma formation_charged (set_order : list pystr -> list pystr)
    (top3 : list pystr) (payouts : gmap PayKey Q) (hs ss ts : list Z)
    (t : pystr) (n announced : nat) :
  t = t_formation ++ join_cars (map Some hs) ++ t_dash
      ++ join_cars (map Some ss) ++ t_dash ++ join_cars (map Some ts) ->
  hs <> [] -> ss <> [] -> ts <> [] ->
  Forall (fun x => (0 < x)%Z) (hs ++ ss ++ ts) ->
  length (map bet_combination (classic_trifecta_bets hs ss ts)) = S n ->
  (S n < announced)%nat ->
  let r := settle_ticket set_order top3 payouts t in
  length (tk_combinations r) = S n
  /\ tk_invest r = (Z.of_nat (length (tk_combinations r)) * 100)%Z
  /\ (length (tk_combinations r) < announced)%nat.
Proof.
  intros -> Nh Ns Nt Hpos Hn Ha.
  assert (Hnn : forall l, Forall (fun x => (0 < x)%Z) l ->
            Forall (fun x => (0 <= x)%Z) l).
  { intros l Hl. eapply Forall_impl; [exact Hl|]. intros x Hx. cbv beta in *. lia. }
  apply Forall_app in Hpos as [Hh Hpos]. apply Forall_app in Hpos as [Hs Ht].
  destruct (formation_settled set_order top3 payouts hs ss ts Nh Ns Nt
              (Hnn _ Hh) (Hnn _ Hs) (Hnn _ Ht)) as [Hc Hi].
  cbv zeta. rewrite Hc, Hn. split; [reflexivity|]. split; [|exact Ha].
  rewrite Hi, Hn; [reflexivity|].
  intros E. rewrite E in Hn. discriminate Hn.
Qed.

(** In a race of four or more riders with positive, pairwise distinct car
    numbers, the formation ticket of a TEPPAN, STANDARD or CHAOS
    recommendation is settled into 3 combinations (TEPPAN), 3 or 5
    (STANDARD) and 7 or 11 (CHAOS), with five riders or more giving the
    larger number; it is charged 100 for each, which is less than the
    number of 3連単 points the recommendation announces. *)
Theorem formation_ticket_is_charged_by_its_combinations
    (specs : pystr -> option (Q * Q * Q)) (pred_df : ScoredFrame)
    (ai_match_cars : list Z) (s : Strategy) (t : pystr)
    (set_order : list pystr -> list pystr) (top3 : list pystr)
    (payouts : gmap PayKey Q) :
  (4 <= length (sf_rows pred_df))%nat ->
  Forall (fun r => (0 < shaban (rider r))%Z) (sf_rows pred_df) ->
  NoDup (map (fun r => shaban (rider r)) (sf_rows pred_df)) ->
  generate_betting_strategy specs pred_df ai_match_cars = Return (Rec s) ->
  s_type s = teppan \/ s_type s = standard \/ s_type s = chaos ->
  In t (s_tickets s) -> ticket_type_of t = TT_3rentan ->
  let r := settle_ticket set_order top3 payouts t in
  let points := length (tk_combinations r) in
  points = formation_points (s_type s) (length (sf_rows pred_df))
  /\ tk_invest r = (Z.of_nat points * 100)%Z
  /\ (points < fst (s_recommended_points s))%nat.
Proof.
  intros Hlen Hcars Hnd Hs Hrt Ht Htype.
  (* the announced points *)
  assert (Hannounced : confidence_points_of (s_type s)
                       = Some (s_confidence_level s, s_recommended_points s)).
  { destruct (strategy_classified _ _ _ _ Hs)
      as (high & q1 & bs & sm & st & w1 & w2 & w3 & Ety & Hc & Hp).
    cbv zeta in Ety, Hc, Hp.
    pose proof (classify_consistent high q1 bs sm st w1 w2 w3 _ _ Hc Hp)
      as H.
    cbv zeta in H. rewrite <- Ety in H. exact H. }
  destruct (strategy_tickets_are_archetype_plus_base _ _ _ _ Hs)
    as (p1 & p2 & p3 & rest & rec_tickets & Hsort & Hrec & Htk).
  cbv zeta in Hsort, Hrec, Htk.
  pose proof (sort_desc_Permutation
                (fun a b => Qltb (score_col b) (score_col a))
                (sf_rows pred_df)) as Hperm.
  rewrite Hsort in Hperm.
  assert (Hlen' : length (sf_rows pred_df) = length (p1 :: p2 :: p3 :: rest))
    by (rewrite Hperm; reflexivity).
  rewrite Hlen' in *. clear Hlen'.
  destruct rest as [|p4 rest]; [cbn [length] in Hlen; lia|].
  rewrite <- Hperm in Hcars.
  assert (Hnd' : NoDup (map (fun r => shaban (rider r))
                          (p1 :: p2 :: p3 :: p4 :: rest))).
  { change (@map Scored Z) with (@fmap list _ Scored Z) in *.
    rewrite Hperm. exact Hnd. }
  clear Hnd Hperm Hsort.
  (* the ticket is the formation ticket *)
  rewrite Htk in Ht. unfold add_base_exacta in Ht.
  assert (Hin : In t rec_tickets).
  { destruct (base_flow_dedup _ _ _ _ _) as [|f flow]; [exact Ht|].
    destruct Ht as [<- | Ht]; [|exact Ht].
    exfalso. rewrite exacta_ticket_type in Htype; [discriminate Htype|].
    apply lacks_app; [apply str_of_Z_lacks_ren|].
    apply lacks_app; [apply forallb_lacks; reflexivity|].
    apply join_cars_lacks_ren. }
  clear Ht Htk Hs Htype.
  unfold car_at in Hrec. cbn [lookup list_lookup fmap option_fmap option_map]
    in Hrec.
  set (c1 := shaban (rider p1)) in *. set (c2 := shaban (rider p2)) in *.
  set (c3 := shaban (rider p3)) in *. set (c4 := shaban (rider p4)) in *.
  apply Forall_cons in Hcars as [P1 Hcars].
  apply Forall_cons in Hcars as [P2 Hcars].
  apply Forall_cons in Hcars as [P3 Hcars].
  apply Forall_cons in Hcars as [P4 Hcars].
  fold c1 in P1. fold c2 in P2. fold c3 in P3. fold c4 in P4.
  cbn [map] in Hnd'. fold c1 c2 c3 c4 in Hnd'.
  apply NoDup_cons in Hnd' as [N1 Hnd'].
  apply NoDup_cons in Hnd' as [N2 Hnd'].
  apply NoDup_cons in Hnd' as [N3 Hnd'].
  apply NoDup_cons in Hnd' as [N4 Hnd'].
  assert (D12 : c1 <> c2) by (intros E; apply N1; rewrite E; left).
  assert (D13 : c1 <> c3) by (intros E; apply N1; rewrite E; right; left).
  assert (D14 : c1 <> c4)
    by (intros E; apply N1; rewrite E; right; right; left).
  assert (D23 : c2 <> c3) by (intros E; apply N2; rewrite E; left).
  assert (D24 : c2 <> c4) by (intros E; apply N2; rewrite E; right; left).
  assert (D34 : c3 <> c4) by (intros E; apply N3; rewrite E; left).
  cbv zeta.
  destruct rest as [|p5 rest].
  - (* four riders *)
    clear Hcars Hnd' N1 N2 N3 N4.
    cbn [length Nat.leb formation_points].
    destruct Hrt as [Hrt | [Hrt | Hrt]]; rewrite Hrt in *;
      cbn [archetype_tickets formation_points Nat.leb] in *;
      cbn [confidence_points_of] in Hannounced;
      injection Hannounced as _ <-; cbn [fst];
      apply Return_inj in Hrec; subst rec_tickets;
      destruct Hin as [<- | []].
    + (* teppan *)
      apply (formation_charged set_order top3 payouts [c1] [c2; c3]
               [c3; c4]);
        try discriminate; try lia;
        [formation_text | repeat constructor; assumption|].
      unfold classic_trifecta_bets. cbn [flat_map app].
      decide_cars. reflexivity.
    + (* standard *)
      apply (formation_charged set_order top3 payouts [c1] [c2; c3]
               [c3; c4]);
        try discriminate; try lia;
        [formation_text | repeat constructor; assumption|].
      unfold classic_trifecta_bets. cbn [flat_map app].
      decide_cars. reflexivity.
    + (* chaos *)
      apply (formation_charged set_order top3 payouts [c1; c2] [c1; c2; c3]
               [c2; c3; c4]);
        try discriminate; try lia;
        [formation_text | repeat constructor; assumption|].
      unfold classic_trifecta_bets. cbn [flat_map app].
      decide_cars. reflexivity.
  - (* five riders or more *)
    apply Forall_cons in Hcars as [P5 _].
    set (c5 := shaban (rider p5)) in *.
    change ((fun r => shaban (rider r)) <$> (p5 :: rest) !! 0%nat)
      with (Some c5) in Hrec.
    cbn [map] in Hnd'. fold c5 in Hnd', N1, N2, N3, N4.
    assert (D15 : c1 <> c5)
      by (intros E; apply N1; rewrite E; right; right; right; left).
    assert (D25 : c2 <> c5)
      by (intros E; apply N2; rewrite E; right; right; left).
    assert (D35 : c3 <> c5)
      by (intros E; apply N3; rewrite E; right; left).
    assert (D45 : c4 <> c5) by (intros E; apply N4; rewrite E; left).
    clear Hnd' N1 N2 N3 N4.
    assert (E5 : (5 <=? length (p1 :: p2 :: p3 :: p4 :: p5 :: rest))%nat
                 = true) by reflexivity.
    destruct Hrt as [Hrt | [Hrt | Hrt]]; rewrite Hrt in *;
      cbn [archetype_tickets formation_points] in *; rewrite ?E5;
      cbn [confidence_points_of] in Hannounced;
      injection Hannounced as _ <-; cbn [fst];
      apply Return_inj in Hrec; subst rec_tickets;
      destruct Hin as [<- | []].
    + (* teppan *)
      apply (formation_charged set_order top3 payouts [c1] [c2; c3]
               [c3; c4]);
        try discriminate; try lia;
        [formation_text | repeat constructor; assumption|].
      unfold classic_trifecta_bets. cbn [flat_map app].
      decide_cars. reflexivity.
    + (* standard *)
      apply (formation_charged set_order top3 payouts [c1] [c2; c3]
               [c3; c4; c5]);
        try discriminate; try lia;
        [formation_text | repeat constructor; assumption|].
      unfold classic_trifecta_bets. cbn [flat_map app].
      decide_cars. reflexivity.
    + (* chaos *)
      apply (formation_charged set_order top3 payouts [c1; c2] [c1; c2; c3]
               [c2; c3; c4; c5]);
        try discriminate; try lia;
        [formation_text | repeat constructor; assumption|].
      unfold classic_trifecta_bets. cbn [flat_map app].
      decide_cars. reflexivity.
Qed.

Lemma formation_ticket_is_charged_by_its_combinations_witness :
  exists s t,
    generate_betting_strategy sample_specs example_scored [] = Return (Rec s)
    /\ s_type s = chaos
    /\ In t (s_tickets s)
    /\ tk_invest (settle_ticket first_seen_order [py "1"; py "2"; py "3"] ∅ t)
       = 1100%Z
    /\ s_recommended_points s = (18, 9)%nat.
Proof.
  eexists. eexists. split; [vm_compute; reflexivity|].
  split; [reflexivity|].
  split; [vm_compute; right; left; reflexivity|].
  split; [|reflexivity].
  refine (proj1 (proj2 (formation_ticket_is_charged_by_its_combinations
    sample_specs example_scored [] _ _ first_seen_order
    [py "1"; py "2"; py "3"] ∅ _ _ _ _ _ _ _))).
  - vm_compute. lia.
  - repeat constructor; vm_compute; reflexivity.
  - vm_compute.
    repeat (apply NoDup_cons_2;
            [rewrite ?elem_of_cons, elem_of_nil; lia|]).
    apply NoDup_nil_2.
  - vm_compute. reflexivity.
  - right. right. reflexivity.
  - vm_compute. right. left. reflexivity.
  - vm_compute. reflexivity.
Defined.

(** * The statistics on display and the statistics of the analysis *)

Lemma stats_of_analysis (set_order : list pystr -> list pystr)
    (history_data : list History) (tbl : RaceResultTable) (a : Analysis)
    (st : Stats) :
  analyze_prediction_history set_order history_data tbl = Return a ->
  stats a = Some st ->
  Forall row_ok (df_res a)
  /\ st = make_stats (df_res a) (Zsum (map investment (df_res a)))
            (Qsum (map benefit (df_res a))).
Proof.
  intros Ha Hst.
  destruct (analysis_shape _ _ _ _ Ha) as [-> | (race_map & ->)];
    [discriminate|].
  cbn [stats df_res] in *. injection Hst as <-.
  set (settled := map (settle_history set_order race_map)
                    (deduped_history history_data)).
  assert (Hall : Forall
            (fun s => row_ok (st_row s)
                      /\ investment (st_row s) = st_invest s
                      /\ benefit (st_row s) = st_return s) settled).
  { subst settled. apply Forall_forall. intros s Hs.
    apply list_elem_of_In, in_map_iff in Hs as (h & <- & _).
    pose proof (settle_history_ok set_order race_map h) as H.
    cbv zeta in H. tauto. }
  assert (Einv : map investment (map st_row settled) = map st_invest settled).
  { rewrite map_map. clear -Hall.
    induction Hall as [|s l (_ & Hs & _) _ IH]; simpl; congruence. }
  assert (Eben : map benefit (map st_row settled) = map st_return settled).
  { rewrite map_map. clear -Hall.
    induction Hall as [|s l (_ & _ & Hs) _ IH]; simpl; congruence. }
  split.
  - apply Forall_fmap. eapply Forall_impl; [exact Hall|].
    intros s (H & _). exact H.
  - f_equal.
    + rewrite fold_left_Zadd, Einv. lia.
    + rewrite fold_left_Qadd, Eben. reflexivity.
Qed.

Lemma fold_Qplus_shift (l : list Q) (a : Q) :
  fold_left Qplus l a == a + fold_left Qplus l 0.
Proof.
  revert a. induction l as [|x l IH]; intros a; cbn [fold_left]; [lra|].
  rewrite (IH (a + x)), (IH (0 + x)). lra.
Qed.

Lemma Qsum_cons (x : Q) (l : list Q) : Qsum (x :: l) == x + Qsum l.
Proof.
  unfold Qsum. cbn [fold_left]. rewrite fold_Qplus_shift. lra.
Qed.

(** A row that is not settled carries nothing. *)
Lemma unsettled_row (r : Row) :
  row_ok r -> is_settled r = false ->
  investment r = 0%Z /\ benefit r = 0 /\ is_hit r = false.
Proof.
  intros (_ & _ & _ & _ & Hhit & Hw & Hna) Hs. unfold is_settled in Hs.
  destruct (hit_detail r) eqn:E; try discriminate Hs; [congruence|].
  destruct (Hna eq_refl) as (Hi & Hb & _).
  split; [exact Hi|]. split; [exact Hb|].
  destruct (is_hit r); [|reflexivity].
  destruct (proj1 Hhit eq_refl) as (hs & Ehs). discriminate Ehs.
Qed.

Lemma settled_sums (l : list Row) :
  Forall row_ok l ->
  Zsum (map investment (List.filter is_settled l)) = Zsum (map investment l)
  /\ Qsum (map benefit (List.filter is_settled l)) == Qsum (map benefit l)
  /\ count_hits (List.filter is_settled l) = count_hits l
  /\ (length (List.filter is_settled l) <= length l)%nat.
Proof.
  induction 1 as [|r l Hr _ (IH1 & IH2 & IH3 & IH4)].
  - repeat split; (reflexivity || (simpl; lia)).
  - unfold count_hits in *. cbn [List.filter map].
    destruct (is_settled r) eqn:Es.
    + cbn [map Zsum fold_right List.filter length].
      rewrite !Qsum_cons, IH2.
      change (fold_right Z.add 0%Z (map investment (List.filter is_settled l)))
        with (Zsum (map investment (List.filter is_settled l))).
      change (fold_right Z.add 0%Z (map investment l))
        with (Zsum (map investment l)).
      rewrite IH1. split; [reflexivity|]. split; [reflexivity|].
      destruct (is_hit r); cbn [length]; split; lia.
    + destruct (unsettled_row r Hr Es) as (Hi & Hb & Hh).
      cbn [Zsum fold_right length].
      change (fold_right Z.add 0%Z (map investment l))
        with (Zsum (map investment l)).
      rewrite Qsum_cons, Hi, Hb, Hh, IH1, IH2.
      split; [lia|]. split; [lra|]. split; [exact IH3 | lia].
Qed.

(** The page of the history recalculates its statistics from the rows on
    display, leaving out the races that have no result.  On the rows
    that [analyze_prediction_history] returns, this changes nothing but
    the number of races and the hit rate: stake, return, recovery rate
    and number of hits are those of [stats], the races counted are at
    most those of [stats], and the hit rate on display is at least the
    one of [stats], the same when every race has its result. *)
Theorem display_statistics_change_the_hit_rate_only
    (set_order : list pystr -> list pystr) (history_data : list History)
    (tbl : RaceResultTable) (a : Analysis) (st : Stats) :
  analyze_prediction_history set_order history_data tbl = Return a ->
  stats a = Some st ->
  disp_invest (df_res a) = total_invest st
  /\ disp_return (df_res a) == total_return st
  /\ disp_rec (df_res a) == recovery_rate st
  /\ disp_hit (df_res a) = hit_count st
  /\ (disp_cnt (df_res a) <= total_races st)%nat
  /\ hit_rate st <= disp_hit_rate (df_res a)
  /\ (disp_cnt (df_res a) = total_races st ->
      disp_hit_rate (df_res a) == hit_rate st).
Proof.
  intros Ha Hst.
  destruct (stats_of_analysis _ _ _ _ _ Ha Hst) as [Hok Est].
  rewrite Est. clear Ha Hst Est.
  destruct (settled_sums _ Hok) as (S1 & S2 & S3 & S4).
  revert Hok S1 S2 S3 S4. generalize (df_res a). intros l Hok S1 S2 S3 S4.
  unfold make_stats, disp_invest, disp_return, disp_rec, disp_hit, disp_cnt,
    disp_hit_rate, disp_invest, disp_return.
  cbn [total_invest total_return recovery_rate hit_count total_races
       hit_rate]. cbv zeta.
  pose proof (count_hits_le (List.filter is_settled l)) as Hle.
  destruct (List.filter is_settled l) as [|r0 rs] eqn:Ef.
  - (* no settled race *)
    cbn [map Zsum fold_right length] in *. unfold Qsum in S2 at 1.
    cbn [fold_left] in S2.
    assert (Hc : count_hits l = 0%nat) by (rewrite <- S3; reflexivity).
    rewrite <- S1. cbn [Z.ltb Z.compare]. rewrite Hc.
    split; [reflexivity|]. split; [exact S2|]. split; [reflexivity|].
    split; [reflexivity|]. split; [lia|].
    destruct l as [|r l']; [split; [lra | intros _; reflexivity]|].
    split.
    + change (inject_Z (Z.of_nat 0)) with 0. unfold Qdiv. lra.
    + intros E. cbn [length] in E. lia.
  - cbv iota. clear Ef.
    assert (Hm : (0 < length (r0 :: rs))%nat) by (simpl; lia).
    set (calc := r0 :: rs) in *. rewrite S1, S3.
    split; [reflexivity|]. split; [exact S2|]. split.
    { destruct (0 <? Zsum (map investment l))%Z; [|reflexivity].
      rewrite S2. reflexivity. }
    split; [reflexivity|]. split; [exact S4|].
    destruct l as [|r l']; [cbn [length] in S4; lia|].
    set (rows := r :: l') in *.
    set (c := inject_Z (Z.of_nat (count_hits rows))).
    set (m := inject_Z (Z.of_nat (length calc))).
    set (n := inject_Z (Z.of_nat (length rows))).
    assert (Hc : 0 <= c).
    { subst c. change 0 with (inject_Z 0). rewrite <- Zle_Qle. lia. }
    assert (Hm' : 0 < m).
    { subst m. change 0 with (inject_Z 0). rewrite <- Zlt_Qlt. lia. }
    assert (Hmn : m <= n).
    { subst m n. rewrite <- Zle_Qle. lia. }
    split.
    + assert (E1 : c / n * 100 == c * 100 / n) by (field; lra).
      assert (E2 : c / m * 100 == c * 100 / m) by (field; lra).
      rewrite E1, E2.
      apply Qle_shift_div_l; [lra|].
      assert (E3 : c * 100 / n * m == c * 100 * (m / n)) by (field; lra).
      rewrite E3.
      assert (Hq : m / n <= 1) by (apply Qle_shift_div_r; lra).
      assert (H100 : 0 <= c * 100) by lra.
      set (k := c * 100) in *. set (q := m / n) in *.
      assert (G : 0 <= k * (1 - q)) by (apply Qmult_le_0_compat; lra).
      assert (E4 : k * (1 - q) == k - k * q) by ring.
      rewrite E4 in G. lra.
    + intros E. subst m n. rewrite E. reflexivity.
Qed.

Lemma display_statistics_change_the_hit_rate_only_witness :
  exists a st,
    analyze_prediction_history first_seen_order [h_race7; h_race8]
      race7_table = Return a
    /\ stats a = Some st
    /\ disp_invest (df_res a) = total_invest st
    /\ hit_rate st == 50 /\ disp_hit_rate (df_res a) == 100.
Proof.
  eexists. eexists. split; [vm_compute; reflexivity|].
  split; [reflexivity|].
  split; [|split; vm_compute; reflexivity].
  refine (proj1 (display_statistics_change_the_hit_rate_only
                   first_seen_order [h_race7; h_race8] race7_table _ _ _ _)).
  - vm_compute. reflexivity.
  - reflexivity.
Defined.

(** * The base exacta and the pairs a recommendation stakes *)

Lemma settle_ticket_type (set_order : list pystr -> list pystr)
    (top3 : list pystr) (payouts : gmap PayKey Q) (t : pystr) :
  tk_type (settle_ticket set_order top3 payouts t) = ticket_type_of t.
Proof.
  unfold settle_ticket.
  destruct (ticket_parts t) as [parts is_fold].
  destruct (count_points set_order (ticket_type_of t) parts is_fold)
    as [points0 combinations].
  destruct (check_hit (ticket_type_of t) top3 payouts combinations)
    as [pay tickets_hit].
  reflexivity.
Qed.

Lemma is_trifecta (t rest : pystr) :
  t = py "3連単" ++ rest -> ticket_type_of t = TT_3rentan.
Proof.
  intros ->. unfold ticket_type_of. rewrite contains_prefix. reflexivity.
Qed.

Lemma staked_of_trifecta (set_order : list pystr -> list pystr)
    (top3 : list pystr) (payouts : gmap PayKey Q) (t : pystr) :
  ticket_type_of t = TT_3rentan -> staked_of set_order top3 payouts t = [].
Proof.
  intros H. unfold staked_of. cbv zeta.
  rewrite settle_ticket_type, H. reflexivity.
Qed.

Lemma prefix_3rentan (x : pystr) :
  t_3rentan ++ x = py "3連単" ++ py ": " ++ x.
Proof. vm_compute. reflexivity. Qed.

Lemma prefix_formation (x : pystr) :
  t_formation ++ x = py "3連単" ++ py " (フォーメーション): " ++ x.
Proof. vm_compute. reflexivity. Qed.

Lemma prefix_box (x : pystr) :
  py "3連単 (Box): " ++ x = py "3連単" ++ py " (Box): " ++ x.
Proof. vm_compute. reflexivity. Qed.

Lemma prefix_two_axes (x : pystr) :
  py "3連単 (2軸): " ++ x = py "3連単" ++ py " (2軸): " ++ x.
Proof. vm_compute. reflexivity. Qed.

Ltac trifecta_ticket :=
  lazymatch goal with
  | |- ticket_type_of (t_3rentan ++ ?x) = TT_3rentan =>
      exact (is_trifecta _ _ (prefix_3rentan x))
  | |- ticket_type_of (t_formation ++ ?x) = TT_3rentan =>
      exact (is_trifecta _ _ (prefix_formation x))
  | |- ticket_type_of (py "3連単 (Box): " ++ ?x) = TT_3rentan =>
      exact (is_trifecta _ _ (prefix_box x))
  | |- ticket_type_of (py "3連単 (2軸): " ++ ?x) = TT_3rentan =>
      exact (is_trifecta _ _ (prefix_two_axes x))
  end.

(** The arrow exacta over car numbers stakes the pairs it names. *)
Lemma staked_of_arrow (set_order : list pystr -> list pystr)
    (top3 : list pystr) (payouts : gmap PayKey Q) (c1 : Z) (flow : list Z) :
  (0 <= c1)%Z -> flow <> [] -> Forall (fun x => (0 <= x)%Z) flow ->
  ~ In c1 flow ->
  staked_of set_order top3 payouts
    (t_2shatan ++ str_of_Z c1 ++ t_arrow ++ join_cars (map Some flow))
  = map (fun x => combo (c1, x)) flow.
Proof.
  intros H1 Hne Hflow Hc1. rewrite join_cars_Some.
  destruct (arrow_exacta_numbers_settled set_order top3 payouts c1 flow
              H1 Hne Hflow Hc1) as (Hty & Hcomb & _).
  cbv zeta in Hty, Hcomb. unfold staked_of. cbv zeta.
  rewrite Hty, Hcomb. reflexivity.
Qed.

(** The one-point exacta: the settlement reads [" (1点)"] as part of the
    second car. *)
Lemma staked_of_one_point (set_order : list pystr -> list pystr)
    (top3 : list pystr) (payouts : gmap PayKey Q) (c1 pt : Z) :
  (0 <= c1)%Z -> (0 <= pt)%Z ->
  staked_of set_order top3 payouts
    (t_2shatan ++ str_of_Z c1 ++ t_arrow ++ str_of_Z pt ++ py " (1点)")
  = [[str_of_Z c1; str_of_Z pt ++ py " (1点)"]].
Proof.
  intros H1 Hp.
  set (tail := str_of_Z pt ++ py " (1点)").
  assert (Hclean : clean tail).
  { subst tail.
    change (py " (1点)") with ([32%N; 40%N; 49%N; 28857%N] ++ [41%N]).
    destruct (str_of_Z pt) as [|h' r] eqn:E.
    - exfalso. apply (proj1 (proj1 (str_of_Z_digits pt Hp))). exact E.
    - rewrite app_assoc. cbn [app].
      apply (clean_ends h' 41%N); [|reflexivity].
      apply isdigit_not_space.
      pose proof (proj2 (proj1 (str_of_Z_digits pt Hp))) as Hd.
      rewrite E in Hd. apply Forall_cons in Hd as [Hd _]. exact Hd. }
  assert (Htail : forall c, isdigit c = false ->
            ~ In c (py " (1点)") -> ~ In c tail).
  { intros c Hc Hn. subst tail. apply lacks_app; [|exact Hn].
    apply digits_lack; [apply (str_of_Z_digits pt Hp) | exact Hc]. }
  pose proof (exacta_arrow_settled set_order top3 payouts (str_of_Z c1) tail
                (proj1 (str_of_Z_digits c1 H1)) Hclean) as Hs.
  assert (Hl : forall c, In c [58%N; 8594%N; 8596%N; 36899%N] ->
            ~ In c tail).
  { intros c Hc.
    destruct Hc as [<- | [<- | [<- | [<- | []]]]];
      (apply Htail; [reflexivity | apply forallb_lacks; reflexivity]). }
  specialize (Hs Hl). cbv zeta in Hs.
  destruct Hs as (Hty & Hcomb & _).
  unfold staked_of. cbv zeta. rewrite Hty, Hcomb.
  rewrite (p_part_single tail Hclean).
  2:{ apply Htail; [reflexivity | apply forallb_lacks; reflexivity]. }
  unfold expand2. cbn [flat_map]. rewrite !app_nil_r.
  destruct (eqb (str_of_Z c1) tail) eqn:E; [|reflexivity].
  exfalso. apply eqb_true in E.
  assert (Hin : In 40%N tail).
  { subst tail. apply in_or_app. right. right. left. reflexivity. }
  rewrite <- E in Hin. revert Hin.
  apply digits_lack; [apply (str_of_Z_digits c1 H1) | reflexivity].
Qed.

(** The fold exacta of two cars. *)
Lemma exacta_fold_parts (s1 s2 : pystr) :
  digits s1 -> digits s2 ->
  let t := t_2shatan ++ s1 ++ t_fold_arrow ++ s2 in
  ticket_type_of t = TT_2shatan /\ ticket_parts t = ([s1; s2], true).
Proof.
  intros Hd1 Hd2 t.
  assert (Hs1 : forall c, isdigit c = false -> ~ In c s1)
    by (intros c; apply digits_lack, Hd1).
  assert (Hs2 : forall c, isdigit c = false -> ~ In c s2)
    by (intros c; apply digits_lack, Hd2).
  assert (Hlack : forall c, In c [58%N; 36899%N] ->
            ~ In c (s1 ++ t_fold_arrow ++ s2)).
  { intros c Hin.
    assert (Hcd : isdigit c = false)
      by (destruct Hin as [<- | [<- | []]]; reflexivity).
    apply lacks_app; [apply Hs1, Hcd|].
    apply lacks_app; [|apply Hs2, Hcd].
    destruct Hin as [<- | [<- | []]]; apply forallb_lacks; reflexivity. }
  split.
  - apply exacta_ticket_type. apply Hlack. simpl. tauto.
  - set (content := s1 ++ t_fold_arrow ++ s2).
    unfold ticket_parts.
    change t with (py "2車単" ++ 58%N :: 32%N :: content).
    assert (H58 : ~ In 58%N (32%N :: content)).
    { apply lacks_cons; [discriminate|]. apply Hlack. simpl. tauto. }
    rewrite (last_part_after 58 (py "2車単") (32%N :: content) H58).
    rewrite (clean_strip_left content)
      by (apply clean_sandwich; apply digits_clean; assumption).
    cbv zeta.
    change (py "↔") with [8596%N].
    rewrite (contains_char 8596 content).
    2:{ subst content. apply in_or_app. right. right. left. reflexivity. }
    f_equal.
    subst content. unfold t_fold_arrow.
    change (s1 ++ py " ↔ " ++ s2)
      with (s1 ++ [32%N] ++ 8596%N :: 32%N :: s2).
    rewrite app_assoc, split_chr_at, split_chr_none.
    + cbn [map]. rewrite (clean_strip_right s1 (digits_clean s1 Hd1)).
      rewrite (clean_strip_left s2 (digits_clean s2 Hd2)). reflexivity.
    + apply lacks_cons; [discriminate|]. apply Hs2. reflexivity.
    + apply lacks_app; [apply Hs1; reflexivity|].
      apply lacks_cons; [discriminate | intros []].
Qed.

(** [list(set([a, b]))] of two different strings is one of the two
    orders. *)
Lemma set_order_two (set_order : list pystr -> list pystr) (a b : pystr) :
  set_order_ok set_order -> a <> b ->
  set_order [a; b] = [a; b] \/ set_order [a; b] = [b; a].
Proof.
  intros Hset Hab. destruct (Hset [a; b]) as [Hnd Hin].
  assert (Ha : In a (set_order [a; b])) by (apply Hin; simpl; tauto).
  assert (Hb : In b (set_order [a; b])) by (apply Hin; simpl; tauto).
  assert (Hall : forall x, In x (set_order [a; b]) -> x = a \/ x = b).
  { intros x Hx. apply Hin in Hx. simpl in Hx. intuition congruence. }
  destruct (set_order [a; b]) as [|x [|y [|z r]]].
  - destruct Ha.
  - exfalso. simpl in Ha, Hb. intuition congruence.
  - apply NoDup_cons in Hnd as [Hxy _].
    rewrite list_elem_of_In in Hxy. simpl in Hxy.
    destruct (Hall x) as [-> | ->]; [simpl; tauto | |];
      (destruct (Hall y) as [-> | ->]; [simpl; tauto | |]);
      try tauto.
  - exfalso.
    apply NoDup_cons in Hnd as [Hx Hnd].
    apply NoDup_cons in Hnd as [Hy _].
    rewrite list_elem_of_In in Hx, Hy. simpl in Hx, Hy.
    destruct (Hall x) as [-> | ->]; [simpl; tauto | |];
      (destruct (Hall y) as [-> | ->]; [simpl; tauto | |]);
      (destruct (Hall z) as [-> | ->]; [simpl; tauto | |]);
      tauto.
Qed.

Lemma staked_of_fold (set_order : list pystr -> list pystr)
    (top3 : list pystr) (payouts : gmap PayKey Q) (c1 pt : Z) :
  set_order_ok set_order ->
  (0 <= c1)%Z -> (0 <= pt)%Z -> c1 <> pt ->
  staked_of set_order top3 payouts
    (t_2shatan ++ str_of_Z c1 ++ t_fold_arrow ++ str_of_Z pt)
  ≡ₚ [combo (c1, pt); combo (pt, c1)].
Proof.
  intros Hset H1 Hp Hne.
  pose proof (proj1 (str_of_Z_digits c1 H1)) as Hd1.
  pose proof (proj1 (str_of_Z_digits pt Hp)) as Hd2.
  destruct (exacta_fold_parts _ _ Hd1 Hd2) as [Hty Hparts].
  cbv zeta in Hty, Hparts.
  unfold staked_of. cbv zeta. rewrite settle_ticket_type, Hty.
  unfold settle_ticket. rewrite Hty, Hparts.
  assert (Hp1 : p_part (str_of_Z c1) = [str_of_Z c1]).
  { apply p_part_single; [apply digits_clean, Hd1|].
    apply digits_lack; [apply Hd1 | reflexivity]. }
  assert (Hp2 : p_part (str_of_Z pt) = [str_of_Z pt]).
  { apply p_part_single; [apply digits_clean, Hd2|].
    apply digits_lack; [apply Hd2 | reflexivity]. }
  unfold count_points. rewrite Hp1, Hp2, loop_fold_spec.
  cbn [fst snd app].
  destruct (check_hit _ _ _ _) as [pay tickets_hit].
  cbn [tk_combinations].
  assert (Hs : str_of_Z c1 <> str_of_Z pt).
  { intros E. apply Hne. exact (str_of_Z_inj c1 pt H1 Hp E). }
  unfold combo. cbn [fst snd].
  destruct (set_order_two set_order _ _ Hset Hs) as [-> | ->];
    cbn [fold_pairs flat_map app].
  - reflexivity.
  - apply Permutation_swap.
Qed.

(** What the settlement stakes for the tickets of an archetype. *)
Lemma archetype_staked (set_order : list pystr -> list pystr)
    (top3 : list pystr) (payouts : gmap PayKey Q)
    (rt : RaceType) (c1 c2 c3 : Z) (c4 c5 : pycar) (partner : option Z)
    (holes : list Z) (rec_tickets : list pystr) :
  set_order_ok set_order ->
  (0 < c1)%Z -> (0 < c2)%Z -> (0 < c3)%Z ->
  (forall p, partner = Some p -> (0 < p)%Z) ->
  c1 <> c2 -> c1 <> c3 -> c1 <> default c2 partner ->
  archetype_tickets rt c1 (Some c2) (Some c3) c4 c5 partner holes
  = Return rec_tickets ->
  staked_exacta set_order top3 payouts rec_tickets
  ≡ₚ map (pair_text rt)
       (archetype_pairs rt c1 c2 c3 (default c2 partner)).
Proof.
  intros Hset H1 H2 H3 Hp H12 H13 H1p H.
  assert (Hpt : (0 <= default c2 partner)%Z).
  { destruct partner as [p|]; simpl; [specialize (Hp p eq_refl)|]; lia. }
  assert (Hpt_of : match partner with
                   | Some p => Return p
                   | None => int_car (Some c2)
                   end = Return (default c2 partner))
    by (destruct partner; reflexivity).
  unfold archetype_tickets in H. rewrite Hpt_of in H. cbv zeta in H.
  unfold staked_exacta.
  destruct rt; cbn [mbind Result_bind] in H;
    repeat match type of H with
    | context [filter_not ?a ?b ?c] =>
        destruct (filter_not a b c) as [?l|?e];
          cbn [mbind Result_bind] in H; [|discriminate H]
    end;
    apply Return_inj in H; subst rec_tickets; cbn [flat_map];
    rewrite ?app_nil_r;
    repeat (rewrite staked_of_trifecta by trifecta_ticket);
    cbn [app archetype_pairs map].
  all: try reflexivity.
  - (* star_makuri *)
    change (join_cars [Some c2; Some c3]) with (join_cars (map Some [c2; c3])).
    rewrite staked_of_arrow;
      [reflexivity | lia | discriminate | repeat constructor; lia |].
    simpl. intuition congruence.
  - (* star_nige_short *)
    rewrite staked_of_one_point by lia. reflexivity.
  - (* star_btop_short *)
    apply staked_of_fold; [exact Hset | lia | exact Hpt | exact H1p].
Qed.

Lemma combo_inj (p q : Z * Z) :
  (0 <= fst p)%Z -> (0 <= snd p)%Z -> (0 <= fst q)%Z -> (0 <= snd q)%Z ->
  combo p = combo q -> p = q.
Proof.
  destruct p as [a b], q as [c d]. unfold combo. cbn [fst snd].
  intros Ha Hb Hc Hd [= E1 E2].
  rewrite (str_of_Z_inj a c Ha Hc E1), (str_of_Z_inj b d Hb Hd E2).
  reflexivity.
Qed.

(** The base exacta of an archetype: the ticket, the pairs the generator
    reads and the pairs the settlement stakes. *)
Lemma base_exacta_of_archetype (set_order : list pystr -> list pystr)
    (top3 : list pystr) (payouts : gmap PayKey Q)
    (rt : RaceType) (c1 c2 c3 : Z) (c4 c5 : pycar) (partner : option Z)
    (holes : list Z) (rec_tickets : list pystr) :
  set_order_ok set_order ->
  (0 < c1)%Z -> (0 < c2)%Z -> (0 < c3)%Z ->
  (forall x, c4 = Some x -> (0 < x)%Z) ->
  (forall p, partner = Some p -> (0 < p)%Z /\ p <> c1) ->
  NoDup (c1 :: flow_cars c2 c3 c4) ->
  archetype_tickets rt c1 (Some c2) (Some c3) c4 c5 partner holes
  = Return rec_tickets ->
  let pt := default c2 partner in
  let covered := archetype_pairs rt c1 c2 c3 pt in
  let base := base_flow rt c1 c2 c3 pt c4 in
  let tickets := add_base_exacta c1 (Some c2) (Some c3) c4 rec_tickets in
  tickets
  = match base with
    | [] => rec_tickets
    | _ => (t_2shatan ++ str_of_Z c1 ++ t_arrow
            ++ join_cars (map Some base)) :: rec_tickets
    end
  /\ exacta_pairs rec_tickets = covered
  /\ staked_exacta set_order top3 payouts rec_tickets
     ≡ₚ map (pair_text rt) covered
  /\ exacta_pairs tickets = map (pair c1) base ++ covered
  /\ staked_exacta set_order top3 payouts tickets
     ≡ₚ map combo (map (pair c1) base) ++ map (pair_text rt) covered
  /\ (forall x, In x (flow_cars c2 c3 c4) ->
        In (c1, x) (exacta_pairs tickets))
  /\ NoDup (exacta_pairs tickets)
  /\ NoDup (staked_exacta set_order top3 payouts tickets).
Proof.
  intros Hset H1 H2 H3 H4 Hp Hnd Hrec pt covered base tickets.
  assert (Hcov : exacta_pairs rec_tickets = covered).
  { exact (archetype_exacta_pairs rt c1 c2 c3 c4 c5 partner holes
             rec_tickets H1 H2 H3 (fun p E => proj1 (Hp p E)) Hrec). }
  assert (Hunc : uncovered c1 (flow_cars c2 c3 c4) rec_tickets = base).
  { unfold uncovered, base, base_flow. rewrite Hcov. reflexivity. }
  assert (Hc1 : ~ In c1 (flow_cars c2 c3 c4)).
  { apply NoDup_cons in Hnd as [Hc1 _].
    rewrite <- list_elem_of_In. exact Hc1. }
  assert (Hflow : NoDup (flow_cars c2 c3 c4)).
  { apply NoDup_cons in Hnd as [_ Hflow]. exact Hflow. }
  assert (H12 : c1 <> c2).
  { intros ->. apply Hc1. left. reflexivity. }
  assert (H13 : c1 <> c3).
  { intros ->. apply Hc1. right. left. reflexivity. }
  assert (H23 : c2 <> c3).
  { intros ->. unfold flow_cars in Hflow.
    apply NoDup_cons in Hflow as [Hn _]. apply Hn. left. }
  assert (H1p : c1 <> pt).
  { subst pt. destruct partner as [p|]; simpl; [|exact H12].
    intros E. exact (proj2 (Hp p eq_refl) (eq_sym E)). }
  assert (Hpt : (0 < pt)%Z).
  { subst pt. destruct partner as [p|]; simpl; [apply (Hp p eq_refl)|lia]. }
  assert (Hflow_pos : Forall (fun x => (0 < x)%Z) (flow_cars c2 c3 c4)).
  { unfold flow_cars. repeat constructor; try assumption.
    destruct c4 as [x|]; repeat constructor. apply H4. reflexivity. }
  assert (Hbase_in : forall x, In x base <->
            In x (flow_cars c2 c3 c4) /\ ~ In (c1, x) covered).
  { intros x. rewrite <- Hunc, uncovered_spec, Hcov. reflexivity. }
  assert (Hbase_pos : Forall (fun x => (0 <= x)%Z) base).
  { apply List.Forall_forall. intros x Hx. apply Hbase_in in Hx as [Hx _].
    rewrite List.Forall_forall in Hflow_pos. specialize (Hflow_pos x Hx).
    lia. }
  assert (Hbase_nd : NoDup base).
  { rewrite <- Hunc. apply NoDup_filter_list, Hflow. }
  assert (Hcov_pos : forall p, In p covered ->
            (0 <= fst p)%Z /\ (0 <= snd p)%Z).
  { intros p Hin. subst covered. unfold archetype_pairs in Hin.
    destruct rt; simpl in Hin;
      repeat (destruct Hin as [<- | Hin]; [simpl; lia|]);
      destruct Hin. }
  assert (Hstk : staked_exacta set_order top3 payouts rec_tickets
                 ≡ₚ map (pair_text rt) covered).
  { exact (archetype_staked set_order top3 payouts rt c1 c2 c3 c4 c5
             partner holes rec_tickets Hset H1 H2 H3
             (fun p E => proj1 (Hp p E)) H12 H13 H1p Hrec). }
  assert (Htk : tickets
                = match base with
                  | [] => rec_tickets
                  | _ => (t_2shatan ++ str_of_Z c1 ++ t_arrow
                          ++ join_cars (map Some base)) :: rec_tickets
                  end).
  { subst tickets. unfold add_base_exacta.
    rewrite (base_flow_dedup_spec c1 c2 c3 c4 rec_tickets H2 H3 H4), Hunc.
    destruct base; reflexivity. }
  assert (Hpairs : exacta_pairs tickets = map (pair c1) base ++ covered).
  { subst tickets.
    rewrite (add_base_exacta_pairs c1 c2 c3 c4 rec_tickets H1 H2 H3 H4).
    rewrite Hunc, Hcov. reflexivity. }
  assert (Hstaked : staked_exacta set_order top3 payouts tickets
                    ≡ₚ map combo (map (pair c1) base)
                       ++ map (pair_text rt) covered).
  { rewrite Htk. destruct base as [|b bs] eqn:Eb; [exact Hstk|].
    unfold staked_exacta. cbn [flat_map]. fold (staked_exacta set_order
      top3 payouts rec_tickets).
    rewrite staked_of_arrow.
    - rewrite map_map. apply Permutation_app; [reflexivity | exact Hstk].
    - lia.
    - discriminate.
    - exact Hbase_pos.
    - intros Hin. apply Hbase_in in Hin as [Hin _]. exact (Hc1 Hin). }
  assert (Hpairs_nd : NoDup (map (pair c1) base ++ covered)).
  { apply NoDup_app. split; [|split].
    - apply NoDup_fmap_2; [intros a b [= ->]; reflexivity | exact Hbase_nd].
    - intros [a b] Hab Hin.
      apply list_elem_of_In, in_map_iff in Hab as (x & [= <- <-] & Hx).
      apply Hbase_in in Hx as [_ Hx]. apply Hx, list_elem_of_In, Hin.
    - subst covered. unfold archetype_pairs.
      destruct rt; try apply NoDup_nil_2.
      + apply NoDup_cons. split; [|apply NoDup_singleton].
        intros H. apply list_elem_of_singleton in H. congruence.
      + apply NoDup_singleton.
      + apply NoDup_cons. split; [|apply NoDup_singleton].
        intros H. apply list_elem_of_singleton in H. congruence. }
  split; [exact Htk|]. split; [exact Hcov|]. split; [exact Hstk|].
  split; [exact Hpairs|]. split; [exact Hstaked|]. split; [|split].
  - intros x Hx. rewrite Hpairs. apply in_or_app.
    destruct (decide ((c1, x) ∈ covered)) as [Hin | Hout].
    + right. apply list_elem_of_In. exact Hin.
    + left. apply in_map, Hbase_in. split; [exact Hx|].
      rewrite <- list_elem_of_In. exact Hout.
  - rewrite Hpairs. exact Hpairs_nd.
  - rewrite Hstaked.
    destruct (decide (rt = star_nige_short)) as [-> | Hrt].
    + subst covered. cbn [archetype_pairs pair_text map fst snd].
      apply NoDup_app. split; [|split; [|apply NoDup_singleton]].
      * apply NoDup_fmap_2_strong.
        -- intros p q Hp' Hq' E.
           apply list_elem_of_In, in_map_iff in Hp' as (x & <- & Hx).
           apply list_elem_of_In, in_map_iff in Hq' as (y & <- & Hy).
           rewrite List.Forall_forall in Hbase_pos.
           apply combo_inj in E; cbn [fst snd];
             [exact E | lia | apply Hbase_pos, Hx | lia
             | apply Hbase_pos, Hy].
        -- apply NoDup_fmap_2; [intros a b [= ->]; reflexivity|].
           exact Hbase_nd.
      * intros t Ht Hin. apply list_elem_of_singleton in Hin. subst t.
        apply list_elem_of_In in Ht. rewrite map_map in Ht.
        apply in_map_iff in Ht as (x & [= E] & Hx).
        assert (H32 : In 32%N (str_of_Z x)).
        { rewrite E. apply in_or_app. right. left. reflexivity. }
        revert H32. apply digits_lack; [|reflexivity].
        rewrite List.Forall_forall in Hbase_pos.
        apply (str_of_Z_digits x), Hbase_pos, Hx.
    + assert (Htext : forall p, pair_text rt p = combo p)
        by (intros p; destruct rt; try reflexivity; congruence).
      rewrite (map_ext _ _ Htext), <- map_app.
      apply NoDup_fmap_2_strong; [|exact Hpairs_nd].
      intros p q Hp' Hq' E.
      assert (Hpos : forall r, r ∈ map (pair c1) base ++ covered ->
                (0 <= fst r)%Z /\ (0 <= snd r)%Z).
      { intros r Hr. apply elem_of_app in Hr as [Hr | Hr].
        - apply list_elem_of_In, in_map_iff in Hr as (x & <- & Hx).
          rewrite List.Forall_forall in Hbase_pos.
          cbn [fst snd]. split; [lia | apply Hbase_pos, Hx].
        - apply Hcov_pos, list_elem_of_In, Hr. }
      destruct (Hpos p Hp'), (Hpos q Hq').
      apply combo_inj; assumption.
Qed.

Lemma find_partner_other (pred_df : ScoredFrame) (p1 r : Scored) :
  find_partner pred_df p1 = Some r ->
  shaban (rider r) <> shaban (rider p1).
Proof.
  unfold find_partner. destruct (_ && _); [|discriminate].
  intros H. apply head_Some_elem_of in H.
  rewrite sort_desc_Permutation in H.
  apply list_elem_of_In in H.
  apply filter_In in H as [_ H].
  apply negb_true_iff, Z.eqb_neq in H. exact H.
Qed.

(** C9: in every recommendation of [generate_betting_strategy], after
    the tickets of the archetype, the generator adds in front the base
    exacta from the top rider [c1] to those of the second, third and
    fourth rider that no exacta or fold ticket of the archetype names
    behind [c1] (the fold ticket [c1 ↔ pt] names both directions); with
    none left, no ticket is added.  The pairs the generator reads from
    the archetype's tickets are the pairs these tickets name, and the
    settlement stakes exactly them (it keeps the text [" (1点)"] of the
    one-point exacta behind the second car).  In the recommendation every
    pair from [c1] to the second, third and fourth rider is covered, and
    no ordered pair is staked twice, neither as the generator reads its
    tickets nor as the settlement expands them.  Car numbers are positive
    and differ from rider to rider. *)
Theorem C9_base_exacta_covers_without_duplicates
    (specs : pystr -> option (Q * Q * Q)) (pred_df : ScoredFrame)
    (ai_match_cars : list Z) (s : Strategy)
    (set_order : list pystr -> list pystr) (top3 : list pystr)
    (payouts : gmap PayKey Q) :
  set_order_ok set_order ->
  Forall (fun r => (0 < shaban (rider r))%Z) (sf_rows pred_df) ->
  NoDup (map (fun r => shaban (rider r)) (sf_rows pred_df)) ->
  generate_betting_strategy specs pred_df ai_match_cars = Return (Rec s) ->
  exists p1 p2 p3 rest rec_tickets,
    let df_logic := p1 :: p2 :: p3 :: rest in
    let c1 := shaban (rider p1) in
    let c2 := shaban (rider p2) in
    let c3 := shaban (rider p3) in
    let c4 := car_at df_logic 3 in
    let partner := (fun r => shaban (rider r)) <$> find_partner pred_df p1 in
    let pt := default c2 partner in
    let covered := archetype_pairs (s_type s) c1 c2 c3 pt in
    let base := base_flow (s_type s) c1 c2 c3 pt c4 in
    sort_desc (fun a b => Qltb (score_col b) (score_col a)) (sf_rows pred_df)
    = df_logic
    /\ archetype_tickets (s_type s) c1 (Some c2) (Some c3) c4
         (car_at df_logic 4) partner (sorted_set ai_match_cars)
       = Return rec_tickets
    /\ s_tickets s
       = match base with
         | [] => rec_tickets
         | _ => (t_2shatan ++ str_of_Z c1 ++ t_arrow
                 ++ join_cars (map Some base)) :: rec_tickets
         end
    /\ exacta_pairs rec_tickets = covered
    /\ staked_exacta set_order top3 payouts rec_tickets
       ≡ₚ map (pair_text (s_type s)) covered
    /\ exacta_pairs (s_tickets s) = map (pair c1) base ++ covered
    /\ staked_exacta set_order top3 payouts (s_tickets s)
       ≡ₚ map combo (map (pair c1) base)
          ++ map (pair_text (s_type s)) covered
    /\ (forall x, In x (flow_cars c2 c3 c4) ->
          In (c1, x) (exacta_pairs (s_tickets s)))
    /\ NoDup (exacta_pairs (s_tickets s))
    /\ NoDup (staked_exacta set_order top3 payouts (s_tickets s)).
Proof.
  intros Hset Hcars Hdistinct Hs.
  destruct (strategy_tickets_are_archetype_plus_base _ _ _ _ Hs)
    as (p1 & p2 & p3 & rest & rec_tickets & Hsort & Hrec & Htk).
  cbv zeta in Hsort, Hrec, Htk.
  exists p1, p2, p3, rest, rec_tickets. cbv zeta.
  split; [exact Hsort|]. split; [exact Hrec|].
  assert (Hsorted : Forall (fun r => (0 < shaban (rider r))%Z)
                      (p1 :: p2 :: p3 :: rest)).
  { rewrite <- Hsort, sort_desc_Permutation. exact Hcars. }
  assert (Hnd : NoDup (map (fun r => shaban (rider r))
                         (p1 :: p2 :: p3 :: rest))).
  { rewrite <- Hsort.
    rewrite (fmap_Permutation _ _ _ (sort_desc_Permutation _ _)).
    exact Hdistinct. }
  apply Forall_cons in Hsorted as [H1 Hsorted].
  apply Forall_cons in Hsorted as [H2 Hsorted].
  apply Forall_cons in Hsorted as [H3 Hrest].
  assert (H4 : forall x, car_at (p1 :: p2 :: p3 :: rest) 3 = Some x ->
            (0 < x)%Z).
  { unfold car_at. cbn [lookup list_lookup].
    destruct rest as [|p4 rest']; [discriminate|].
    apply Forall_cons in Hrest as [H4 _].
    intros x [= <-]. exact H4. }
  assert (Hp : forall p,
            (fun r => shaban (rider r)) <$> find_partner pred_df p1 = Some p ->
            (0 < p)%Z /\ p <> shaban (rider p1)).
  { intros p E. destruct (find_partner pred_df p1) as [r|] eqn:Er;
      [|discriminate].
    injection E as <-. split.
    - apply find_partner_row in Er.
      rewrite Forall_forall in Hcars. apply Hcars, list_elem_of_In, Er.
    - exact (find_partner_other pred_df p1 r Er). }
  assert (Hflow : NoDup (shaban (rider p1)
                         :: flow_cars (shaban (rider p2)) (shaban (rider p3))
                              (car_at (p1 :: p2 :: p3 :: rest) 3))).
  { unfold flow_cars, car_at. cbn [lookup list_lookup].
    destruct rest as [|p4 rest']; cbn [fmap option_fmap option_map].
    - exact Hnd.
    - change (NoDup ([shaban (rider p1); shaban (rider p2);
                      shaban (rider p3); shaban (rider p4)]
                     ++ map (fun r => shaban (rider r)) rest')) in Hnd.
      apply NoDup_app in Hnd as [Hnd _]. exact Hnd. }
  pose proof (base_exacta_of_archetype set_order top3 payouts (s_type s)
                _ _ _ _ _ _ _ rec_tickets Hset H1 H2 H3 H4 Hp Hflow Hrec)
    as Hcore.
  cbv zeta in Hcore. rewrite <- Htk in Hcore.
  destruct Hcore as (Ht & Hcore). split; [exact Ht | exact Hcore].
Qed.

Lemma C9_base_exacta_covers_without_duplicates_witness :
  exists s,
    generate_betting_strategy sample_specs btop_scored [] = Return (Rec s)
    /\ s_type s = star_btop_short
    /\ s_tickets s
       = [py "2車単: 1 → 3,4"; py "3連単: 1 ↔ 2 → 3,4"; py "2車単: 1 ↔ 2"]
    /\ NoDup (staked_exacta last_seen_order [] ∅ (s_tickets s)).
Proof.
  eexists. split; [vm_compute; reflexivity|].
  split; [reflexivity|]. split; [vm_compute; reflexivity|].
  match goal with
  | |- NoDup (staked_exacta _ _ _ (s_tickets ?s)) =>
      edestruct (C9_base_exacta_covers_without_duplicates sample_specs
                   btop_scored [] s last_seen_order [] ∅)
        as (p1 & p2 & p3 & rest & rec_tickets & H)
  end.
  - exact last_seen_order_ok.
  - repeat constructor.
  - vm_compute. apply NoDup_ListNoDup. repeat constructor; simpl; intuition lia.
  - vm_compute. reflexivity.
  - exact (proj2 (proj2 (proj2 (proj2 (proj2 (proj2 (proj2 (proj2
             (proj2 H))))))))).
Defined.
